(** * Ant colony foraging simulation: a shallow embedding of the engine

    The development follows [model.py] (class [AntColonyModel]) and
    [agents.py] (classes [AntAgent], [NestAgent], [FoodAgent],
    [PheromoneAgent]).  The model object is a record, every method is a
    function that takes the model and returns the updated model, and an
    agent is addressed by its [unique_id] in the scheduler's agent table.

    Python floats are read as real numbers ([R]); [float('inf')] is a
    separate constructor.  Integers are [Z].  The generators
    ([model.random] and numpy's global one) are tapes of raw draws. *)

From Stdlib Require Import Reals ZArith List Bool Lia Lra Psatz Permutation.
Import ListNotations.

Open Scope Z_scope.

(** ** Numbers *)

Definition Rltb (x y : R) : bool := if Rlt_dec x y then true else false.
Definition Rleb (x y : R) : bool := if Rle_dec x y then true else false.

(** A float that may be [float('inf')], as the running optimum of the
    search loops is. *)
Inductive xfloat : Type :=
| Inf : xfloat
| Fin : R -> xfloat.

(** [d < m] and [d > m] for a finite [d] against a running optimum [m]. *)
Definition lt_x (d : R) (m : xfloat) : bool :=
  match m with Inf => true | Fin r => Rltb d r end.
Definition gt_x (d : R) (m : xfloat) : bool :=
  match m with Inf => false | Fin r => Rltb r d end.

Definition Pos : Type := (Z * Z)%type.

Definition pos_eqb (p q : Pos) : bool :=
  (fst p =? fst q) && (snd p =? snd q).

(** [((x - tx) ** 2 + (y - ty) ** 2)]: exact integer arithmetic. *)
Definition dist2 (p t : Pos) : Z :=
  (fst p - fst t) ^ 2 + (snd p - snd t) ^ 2.

(** [((x - tx) ** 2 + (y - ty) ** 2) ** 0.5] *)
Definition dist (p t : Pos) : R := sqrt (IZR (dist2 p t)).

(** ** The random generators

    A generator is a tape of raw draws and a cursor.  Every primitive of
    Python's [random.Random] used by the engine consumes one raw draw per
    [_randbelow] or [random()] call. *)
Module Random.

Record Rng : Type := mkRng { tape : nat -> N; cursor : nat }.

Definition next_raw (g : Rng) : Z * Rng :=
  (Z.of_N (tape g (cursor g)), mkRng (tape g) (S (cursor g))).

Definition _randbelow (g : Rng) (n : Z) : Z * Rng :=
  let (r, g') := next_raw g in (r mod n, g').

(** [random()]: a multiple of 2^-53 in [0, 1). *)
Definition random (g : Rng) : R * Rng :=
  let (r, g') := next_raw g in
  ((IZR (r mod 2 ^ 53) / IZR (2 ^ 53))%R, g').

Definition randrange (g : Rng) (n : Z) : Z * Rng := _randbelow g n.

Definition randint (g : Rng) (a b : Z) : Z * Rng :=
  let (r, g') := _randbelow g (b - a + 1) in (a + r, g').

(** [choice(seq)] is [seq[_randbelow(len(seq))]].  Every sequence the
    engine passes is non-empty (see [get_neighborhood_nonempty]); [d]
    stands for the [IndexError] case. *)
Definition choice {A : Type} (g : Rng) (seq : list A) (d : A) : A * Rng :=
  let (j, g') := _randbelow g (Z.of_nat (length seq)) in
  (nth (Z.to_nat j) seq d, g').

(** [x[i], x[j] = x[j], x[i]] *)
Definition swap {A : Type} (x : list A) (i j : nat) : list A :=
  match nth_error x i, nth_error x j with
  | Some xi, Some xj =>
      let x1 := firstn i x ++ xj :: skipn (S i) x in
      firstn j x1 ++ xi :: skipn (S j) x1
  | _, _ => x
  end.

(** [for i in reversed(range(1, len(x))): j = _randbelow(i + 1); swap]. *)
Fixpoint shuffle_loop {A : Type} (i : nat) (g : Rng) (x : list A)
  : list A * Rng :=
  match i with
  | O => (x, g)
  | S i' =>
      let (j, g') := _randbelow g (Z.of_nat i + 1) in
      shuffle_loop i' g' (swap x i (Z.to_nat j))
  end.

Definition shuffle {A : Type} (g : Rng) (x : list A) : list A * Rng :=
  shuffle_loop (length x - 1) g x.

End Random.

Import Random.

(** ** The grid (Mesa's [MultiGrid] with [torus=True]) *)

Definition torus_adj (w h : Z) (p : Pos) : Pos := (fst p mod w, snd p mod h).

(** [range(lo, lo + n)] *)
Definition range (lo : Z) (n : nat) : list Z :=
  map (fun k => lo + Z.of_nat k) (seq 0 n).

(** Appends [c] unless it is already listed ([if coord not in coordinates]). *)
Definition add_coord (acc : list Pos) (c : Pos) : list Pos :=
  if existsb (pos_eqb c) acc then acc else acc ++ [c].

(** [get_neighborhood(pos, moore=True, include_center=False, radius)]:
    rows [dy] outside, columns [dx] inside, the zero offset skipped, every
    coordinate wrapped, a coordinate listed once. *)
Definition get_neighborhood (w h : Z) (pos : Pos) (radius : Z) : list Pos :=
  let span := range (- radius) (Z.to_nat (2 * radius + 1)) in
  fold_left
    (fun acc dy =>
       fold_left
         (fun acc dx =>
            if (dx =? 0) && (dy =? 0) then acc
            else add_coord acc (torus_adj w h (fst pos + dx, snd pos + dy)))
         span acc)
    span [].

(** ** Agents *)

Inductive PheromoneType : Type := to_nest | to_food.

Definition ptype_eqb (a b : PheromoneType) : bool :=
  match a, b with
  | to_nest, to_nest | to_food, to_food => true
  | _, _ => false
  end.

Record AntAgent : Type := mkAnt {
  carrying_food : bool;
  direction : Z;
  home_pos : Pos;
  last_direction : option (Z * Z);
  detection_radius : Z;
  last_food_pos : option Pos;
  returning_to_food : bool;
  following_pheromones : bool;
  just_dropped_food : bool;
  exploration_cooldown : Z
}.

Inductive Body : Type :=
| Ant (a : AntAgent)
| Nest
| Food
| Pheromone (strength : R) (pheromone_type : PheromoneType).

(** An agent as the scheduler and the grid hold it. *)
Record Agent : Type := mkAgent {
  unique_id : Z;
  pos : Pos;
  body : Body
}.

Definition is_food (a : Agent) : bool :=
  match body a with Food => true | _ => false end.

Definition is_pheromone (a : Agent) : bool :=
  match body a with Pheromone _ _ => true | _ => false end.

Definition is_pheromone_of (ty : PheromoneType) (a : Agent) : bool :=
  match body a with Pheromone _ t => ptype_eqb t ty | _ => false end.

Definition is_ant (a : Agent) : bool :=
  match body a with Ant _ => true | _ => false end.

Definition strength_of (a : Agent) : R :=
  match body a with Pheromone s _ => s | _ => 0%R end.

(** ** The model *)

Record Model : Type := mkModel {
  width : Z;
  height : Z;
  n_ants : Z;
  simulation_speed : Z;
  to_nest_lifespan : R;
  to_food_lifespan : R;
  steps_per_second : R;
  to_nest_evaporation : R;
  to_food_evaporation : R;
  food_delivered : Z;
  total_food : Z;
  step_count : Z;
  active_pheromones : Z;
  active_to_nest_pheromones : Z;
  active_to_food_pheromones : Z;
  next_id_value : Z;
  ants_with_food : Z;
  ants_at_nest : Z;
  ants_following_pheromones : Z;
  ants_random_walking : Z;
  nest_pos : Pos;
  (** [schedule._agents] in insertion order; [pos] of each entry is the
      grid cell that holds the agent. *)
  agents : list Agent;
  random : Rng
}.

Definition set_agents (l : list Agent) (m : Model) : Model :=
  mkModel (width m) (height m) (n_ants m) (simulation_speed m)
    (to_nest_lifespan m) (to_food_lifespan m) (steps_per_second m)
    (to_nest_evaporation m) (to_food_evaporation m) (food_delivered m)
    (total_food m) (step_count m) (active_pheromones m)
    (active_to_nest_pheromones m) (active_to_food_pheromones m)
    (next_id_value m) (ants_with_food m) (ants_at_nest m)
    (ants_following_pheromones m) (ants_random_walking m) (nest_pos m)
    l (random m).

Definition set_random (g : Rng) (m : Model) : Model :=
  mkModel (width m) (height m) (n_ants m) (simulation_speed m)
    (to_nest_lifespan m) (to_food_lifespan m) (steps_per_second m)
    (to_nest_evaporation m) (to_food_evaporation m) (food_delivered m)
    (total_food m) (step_count m) (active_pheromones m)
    (active_to_nest_pheromones m) (active_to_food_pheromones m)
    (next_id_value m) (ants_with_food m) (ants_at_nest m)
    (ants_following_pheromones m) (ants_random_walking m) (nest_pos m)
    (agents m) g.

Definition set_food_delivered (n : Z) (m : Model) : Model :=
  mkModel (width m) (height m) (n_ants m) (simulation_speed m)
    (to_nest_lifespan m) (to_food_lifespan m) (steps_per_second m)
    (to_nest_evaporation m) (to_food_evaporation m) n
    (total_food m) (step_count m) (active_pheromones m)
    (active_to_nest_pheromones m) (active_to_food_pheromones m)
    (next_id_value m) (ants_with_food m) (ants_at_nest m)
    (ants_following_pheromones m) (ants_random_walking m) (nest_pos m)
    (agents m) (random m).

Definition set_total_food (n : Z) (m : Model) : Model :=
  mkModel (width m) (height m) (n_ants m) (simulation_speed m)
    (to_nest_lifespan m) (to_food_lifespan m) (steps_per_second m)
    (to_nest_evaporation m) (to_food_evaporation m) (food_delivered m)
    n (step_count m) (active_pheromones m)
    (active_to_nest_pheromones m) (active_to_food_pheromones m)
    (next_id_value m) (ants_with_food m) (ants_at_nest m)
    (ants_following_pheromones m) (ants_random_walking m) (nest_pos m)
    (agents m) (random m).

Definition set_step_count (n : Z) (m : Model) : Model :=
  mkModel (width m) (height m) (n_ants m) (simulation_speed m)
    (to_nest_lifespan m) (to_food_lifespan m) (steps_per_second m)
    (to_nest_evaporation m) (to_food_evaporation m) (food_delivered m)
    (total_food m) n (active_pheromones m)
    (active_to_nest_pheromones m) (active_to_food_pheromones m)
    (next_id_value m) (ants_with_food m) (ants_at_nest m)
    (ants_following_pheromones m) (ants_random_walking m) (nest_pos m)
    (agents m) (random m).

Definition set_active_pheromones (n : Z) (m : Model) : Model :=
  mkModel (width m) (height m) (n_ants m) (simulation_speed m)
    (to_nest_lifespan m) (to_food_lifespan m) (steps_per_second m)
    (to_nest_evaporation m) (to_food_evaporation m) (food_delivered m)
    (total_food m) (step_count m) n
    (active_to_nest_pheromones m) (active_to_food_pheromones m)
    (next_id_value m) (ants_with_food m) (ants_at_nest m)
    (ants_following_pheromones m) (ants_random_walking m) (nest_pos m)
    (agents m) (random m).

Definition set_active_by_type (n f : Z) (m : Model) : Model :=
  mkModel (width m) (height m) (n_ants m) (simulation_speed m)
    (to_nest_lifespan m) (to_food_lifespan m) (steps_per_second m)
    (to_nest_evaporation m) (to_food_evaporation m) (food_delivered m)
    (total_food m) (step_count m) (active_pheromones m) n f
    (next_id_value m) (ants_with_food m) (ants_at_nest m)
    (ants_following_pheromones m) (ants_random_walking m) (nest_pos m)
    (agents m) (random m).

Definition set_next_id_value (n : Z) (m : Model) : Model :=
  mkModel (width m) (height m) (n_ants m) (simulation_speed m)
    (to_nest_lifespan m) (to_food_lifespan m) (steps_per_second m)
    (to_nest_evaporation m) (to_food_evaporation m) (food_delivered m)
    (total_food m) (step_count m) (active_pheromones m)
    (active_to_nest_pheromones m) (active_to_food_pheromones m)
    n (ants_with_food m) (ants_at_nest m)
    (ants_following_pheromones m) (ants_random_walking m) (nest_pos m)
    (agents m) (random m).

Definition set_evaporation (n f : R) (m : Model) : Model :=
  mkModel (width m) (height m) (n_ants m) (simulation_speed m)
    (to_nest_lifespan m) (to_food_lifespan m) (steps_per_second m)
    n f (food_delivered m)
    (total_food m) (step_count m) (active_pheromones m)
    (active_to_nest_pheromones m) (active_to_food_pheromones m)
    (next_id_value m) (ants_with_food m) (ants_at_nest m)
    (ants_following_pheromones m) (ants_random_walking m) (nest_pos m)
    (agents m) (random m).

Definition set_statistics (wf an fo rw : Z) (m : Model) : Model :=
  mkModel (width m) (height m) (n_ants m) (simulation_speed m)
    (to_nest_lifespan m) (to_food_lifespan m) (steps_per_second m)
    (to_nest_evaporation m) (to_food_evaporation m) (food_delivered m)
    (total_food m) (step_count m) (active_pheromones m)
    (active_to_nest_pheromones m) (active_to_food_pheromones m)
    (next_id_value m) wf an fo rw (nest_pos m)
    (agents m) (random m).

(** ** The agent table and the grid cells *)

Definition find_agent (l : list Agent) (id : Z) : option Agent :=
  find (fun a => unique_id a =? id) l.

Definition update_agent (id : Z) (f : Agent -> Agent) (l : list Agent)
  : list Agent :=
  map (fun a => if unique_id a =? id then f a else a) l.

(** [grid.remove_agent(agent); schedule.remove(agent)] *)
Definition remove_agent (id : Z) (l : list Agent) : list Agent :=
  filter (fun a => negb (unique_id a =? id)) l.

(** [grid.get_cell_list_contents([pos])].  The engine only looks for food
    and pheromones in a cell; they never move, so among them the order of
    the cell is the order of creation, which is the order of the table. *)
Definition get_cell_list_contents (m : Model) (p : Pos) : list Agent :=
  filter (fun a => pos_eqb (pos a) p) (agents m).

(** [next_id]: increments the counter and returns it. *)
Definition next_id (m : Model) : Z * Model :=
  (next_id_value m + 1, set_next_id_value (next_id_value m + 1) m).

(** [grid.place_agent(agent, pos); schedule.add(agent)] *)
Definition add_agent (a : Agent) (m : Model) : Model :=
  set_agents (agents m ++ [a]) m.

(** ** [AntColonyModel._lifespan_to_evaporation]

    [None] is the [ZeroDivisionError] of a zero speed multiplier. *)
Definition _lifespan_to_evaporation (steps_per_second : R)
  (simulation_speed : Z) (lifespan_seconds : R) : option R :=
  if simulation_speed =? 0 then None
  else
    let total_steps :=
      (lifespan_seconds * steps_per_second / IZR simulation_speed)%R in
    if Rleb total_steps 0 then Some 0%R
    else
      let evaporation_rate := Rpower 0.05 (1.0 / total_steps) in
      Some (Rmax 0.01 (Rmin 0.999 evaporation_rate)).

(** ** [AntColonyModel._add_or_reinforce_pheromone] *)
Definition _add_or_reinforce_pheromone (m : Model) (p : Pos) (strength : R)
  (ty : PheromoneType) : Model :=
  match find (is_pheromone_of ty) (get_cell_list_contents m p) with
  | Some agent =>
      set_agents
        (update_agent (unique_id agent)
           (fun a =>
              mkAgent (unique_id a) (pos a)
                (Pheromone (Rmin 3.0 (strength_of agent + strength * 0.5)) ty))
           (agents m)) m
  | None =>
      if Rleb 0.2 strength then
        let (id, m1) := next_id m in
        let m2 := add_agent (mkAgent id p (Pheromone strength ty)) m1 in
        set_active_pheromones (active_pheromones m2 + 1) m2
      else m
  end.

(** ** [AntColonyModel.create_pheromone] *)
Definition create_pheromone (m : Model) (p : Pos) (strength : R)
  (ty : PheromoneType) : Model :=
  let dist_to_nest := dist p (nest_pos m) in
  let near := Rltb dist_to_nest 10 in
  let strength :=
    if near then (strength * (dist_to_nest / 10))%R else strength in
  if near && Rltb dist_to_nest 3 then m
  else
    let m1 := _add_or_reinforce_pheromone m p strength ty in
    fold_left
      (fun acc neighbor_pos =>
         _add_or_reinforce_pheromone acc neighbor_pos (strength * 0.3)%R ty)
      (get_neighborhood (width m) (height m) p 1) m1.

(** ** [AntColonyModel.remove_pheromone] (no caller in the engine) *)
Definition remove_pheromone (m : Model) (a : Agent) : Model :=
  let m1 := set_agents (remove_agent (unique_id a) (agents m)) m in
  let m2 := set_active_pheromones (active_pheromones m1 - 1) m1 in
  match body a with
  | Pheromone _ to_nest =>
      set_active_by_type (active_to_nest_pheromones m2 - 1)
        (active_to_food_pheromones m2) m2
  | Pheromone _ to_food =>
      set_active_by_type (active_to_nest_pheromones m2)
        (active_to_food_pheromones m2 - 1) m2
  | _ => m2
  end.

(** ** [AntAgent] *)

Definition set_carrying_food (b : bool) (a : AntAgent) : AntAgent :=
  mkAnt b (direction a) (home_pos a) (last_direction a) (detection_radius a)
    (last_food_pos a) (returning_to_food a) (following_pheromones a)
    (just_dropped_food a) (exploration_cooldown a).

Definition set_last_direction (d : option (Z * Z)) (a : AntAgent) : AntAgent :=
  mkAnt (carrying_food a) (direction a) (home_pos a) d (detection_radius a)
    (last_food_pos a) (returning_to_food a) (following_pheromones a)
    (just_dropped_food a) (exploration_cooldown a).

Definition set_last_food_pos (p : option Pos) (a : AntAgent) : AntAgent :=
  mkAnt (carrying_food a) (direction a) (home_pos a) (last_direction a)
    (detection_radius a) p (returning_to_food a) (following_pheromones a)
    (just_dropped_food a) (exploration_cooldown a).

Definition set_returning_to_food (b : bool) (a : AntAgent) : AntAgent :=
  mkAnt (carrying_food a) (direction a) (home_pos a) (last_direction a)
    (detection_radius a) (last_food_pos a) b (following_pheromones a)
    (just_dropped_food a) (exploration_cooldown a).

Definition set_following_pheromones (b : bool) (a : AntAgent) : AntAgent :=
  mkAnt (carrying_food a) (direction a) (home_pos a) (last_direction a)
    (detection_radius a) (last_food_pos a) (returning_to_food a) b
    (just_dropped_food a) (exploration_cooldown a).

Definition set_just_dropped_food (b : bool) (a : AntAgent) : AntAgent :=
  mkAnt (carrying_food a) (direction a) (home_pos a) (last_direction a)
    (detection_radius a) (last_food_pos a) (returning_to_food a)
    (following_pheromones a) b (exploration_cooldown a).

Definition set_exploration_cooldown (n : Z) (a : AntAgent) : AntAgent :=
  mkAnt (carrying_food a) (direction a) (home_pos a) (last_direction a)
    (detection_radius a) (last_food_pos a) (returning_to_food a)
    (following_pheromones a) (just_dropped_food a) n.

(** The ant [self] of the table: its cell and its attributes. *)
Definition get_ant (m : Model) (self : Z) : option (Pos * AntAgent) :=
  match find_agent (agents m) self with
  | Some a => match body a with Ant r => Some (pos a, r) | _ => None end
  | None => None
  end.

(** Writes the attributes of [self] back and moves it to cell [p]
    ([grid.move_agent]).  Every [p] that [move] passes is a cell of the
    grid ([move_branch_spec]), where the wrap of [move_agent] changes
    nothing. *)
Definition put_ant (m : Model) (self : Z) (p : Pos) (r : AntAgent) : Model :=
  set_agents
    (update_agent self (fun a => mkAgent (unique_id a) p (Ant r)) (agents m)) m.

(** *** [AntAgent.move_away_from_nest]

    [target_x] and [target_y] are computed by the source and never read;
    they are left out.  The loop starts from [min_dist_to_nest =
    float('inf')] and keeps a step when [dist_to_nest > min_dist_to_nest]. *)
Definition away_loop (nest : Pos) (possible_steps : list Pos)
  : option Pos * xfloat :=
  fold_left
    (fun (st : option Pos * xfloat) p =>
       let dist_to_nest := dist p nest in
       if gt_x dist_to_nest (snd st) then (Some p, Fin dist_to_nest) else st)
    possible_steps (None, Inf).

Definition move_away_from_nest (g : Rng) (a : AntAgent) (current_pos : Pos)
  (possible_steps : list Pos) : Pos * Rng :=
  match fst (away_loop (home_pos a) possible_steps) with
  | Some best_pos => (best_pos, g)
  | None => choice g possible_steps current_pos
  end.

(** *** [AntAgent.move_towards]

    [best_pos] is [None] only for an empty neighbourhood, which the grid
    never returns; [current] stands for it. *)
Definition towards_loop (target : Pos) (possible_steps : list Pos)
  : option Pos * xfloat :=
  fold_left
    (fun (st : option Pos * xfloat) p =>
       let d := dist p target in
       if lt_x d (snd st) then (Some p, Fin d) else st)
    possible_steps (None, Inf).

Definition move_towards (m : Model) (current target : Pos) : Pos :=
  let possible_steps := get_neighborhood (width m) (height m) current 1 in
  match fst (towards_loop target possible_steps) with
  | Some best_pos => best_pos
  | None => current
  end.

(** *** [AntAgent.random_walk] *)
Definition random_walk (g : Rng) (a : AntAgent) (self_pos : Pos)
  (possible_steps : list Pos) : Pos * Rng :=
  match last_direction a with
  | Some (dx, dy) =>
      let (u, g1) := Random.random g in
      let preferred_pos := (fst self_pos + dx, snd self_pos + dy) in
      if Rltb u 0.3 && existsb (pos_eqb preferred_pos) possible_steps
      then (preferred_pos, g1)
      else choice g1 possible_steps self_pos
  | None => choice g possible_steps self_pos
  end.

(** *** [AntAgent.follow_pheromones_or_explore] *)

(** [np.arctan2(y, x)] on integer arguments. *)
Definition arctan2 (y x : R) : R :=
  if Rlt_dec 0 x then atan (y / x)
  else if Rlt_dec x 0 then
         (if Rle_dec 0 y then atan (y / x) + PI else atan (y / x) - PI)%R
  else if Rlt_dec 0 y then (PI / 2)%R
  else if Rlt_dec y 0 then (- PI / 2)%R
  else 0%R.

Definition dir_eqb (a b : Z * Z) : bool := pos_eqb a b.

(** [pheromone_directions[direction]] and the dictionary update. *)
Fixpoint dict_get (d : list ((Z * Z) * R)) (k : Z * Z) : option R :=
  match d with
  | [] => None
  | (k', v) :: r => if dir_eqb k' k then Some v else dict_get r k
  end.

Fixpoint dict_set (d : list ((Z * Z) * R)) (k : Z * Z) (v : R)
  : list ((Z * Z) * R) :=
  match d with
  | [] => [(k, v)]
  | (k', v') :: r =>
      if dir_eqb k' k then (k', v) :: r else (k', v') :: dict_set r k v
  end.

(** The sum of [agent.strength * 1.5] over the pheromones of type [ty] in
    a cell. *)
Definition cell_pheromone_strength (m : Model) (ty : PheromoneType) (p : Pos)
  : R :=
  fold_left
    (fun acc agent =>
       if is_pheromone_of ty agent then (acc + strength_of agent * 1.5)%R
       else acc)
    (get_cell_list_contents m p) 0%R.

Record Scan : Type := mkScan {
  pheromone_directions : list ((Z * Z) * R);
  max_pheromone : R;
  best_direction : option (Z * Z)
}.

Definition scan_pheromones (m : Model) (current_pos : Pos)
  (wider_neighborhood : list Pos) : Scan :=
  fold_left
    (fun st p =>
       let pheromone_strength := cell_pheromone_strength m to_food p in
       if Rltb 0.1 pheromone_strength then
         let direction := (fst p - fst current_pos, snd p - snd current_pos) in
         let v :=
           match dict_get (pheromone_directions st) direction with
           | Some old => (old + pheromone_strength)%R
           | None => pheromone_strength
           end in
         let d := dict_set (pheromone_directions st) direction v in
         if Rltb (max_pheromone st) v then mkScan d v (Some direction)
         else mkScan d (max_pheromone st) (best_direction st)
       else st)
    wider_neighborhood (mkScan [] 0%R None).

Definition sign (z : Z) : Z := if 0 <? z then 1 else if z <? 0 then -1 else 0.

(** The search for the step of least angular difference to [(dx, dy)]. *)
Definition angle_loop (current_pos : Pos) (dx dy : Z)
  (possible_steps : list Pos) : option Pos * xfloat :=
  fold_left
    (fun (st : option Pos * xfloat) step =>
       let step_dx := fst step - fst current_pos in
       let step_dy := snd step - snd current_pos in
       let target_angle := arctan2 (IZR dy) (IZR dx) in
       let step_angle := arctan2 (IZR step_dy) (IZR step_dx) in
       let angle_diff := Rabs (target_angle - step_angle) in
       let angle_diff := Rmin angle_diff (2 * PI - angle_diff) in
       if lt_x angle_diff (snd st) then (Some step, Fin angle_diff) else st)
    possible_steps (None, Inf).

Definition follow_pheromones_or_explore (m : Model) (g : Rng) (a : AntAgent)
  (current_pos : Pos) (possible_steps : list Pos) : (Pos * bool) * Rng :=
  let wider_neighborhood :=
    get_neighborhood (width m) (height m) current_pos (detection_radius a) in
  let st := scan_pheromones m current_pos wider_neighborhood in
  let fallback (g : Rng) :=
    let (p, g') := random_walk g a current_pos possible_steps in
    ((p, false), g') in
  match best_direction st with
  | Some (dx0, dy0) =>
      let (u, g1) := Random.random g in
      if Rltb u (Rmin 0.95 (0.6 + max_pheromone st * 0.3)) then
        let far := (1 <? Z.abs dx0) || (1 <? Z.abs dy0) in
        let dx := if far then sign dx0 else dx0 in
        let dy := if far then sign dy0 else dy0 in
        let target_pos :=
          ((fst current_pos + dx) mod width m,
           (snd current_pos + dy) mod height m) in
        if existsb (pos_eqb target_pos) possible_steps
        then ((target_pos, true), g1)
        else
          match fst (angle_loop current_pos dx dy possible_steps) with
          | Some best_step => ((best_step, true), g1)
          | None => fallback g1
          end
      else fallback g1
  | None => fallback g
  end.

(** *** The food scan of [AntAgent.move] *)

Definition toward_food (current_pos cell : Pos) (step : Pos) : bool :=
  (0 <=? (fst step - fst current_pos) * (fst cell - fst current_pos))
  && (0 <=? (snd step - snd current_pos) * (snd cell - snd current_pos)).

Definition scan_food (m : Model) (current_pos : Pos)
  (possible_steps nearby_cells : list Pos) : list Pos :=
  fold_left
    (fun food_cells cell =>
       fold_left
         (fun food_cells agent =>
            if is_food agent then
              if existsb (pos_eqb cell) possible_steps
              then food_cells ++ [cell]
              else if (length food_cells =? 0)%nat
                   then food_cells
                          ++ filter (toward_food current_pos cell)
                               possible_steps
                   else food_cells
            else food_cells)
         (get_cell_list_contents m cell) food_cells)
    nearby_cells [].

(** *** [AntAgent.move]

    The four branches of the [if]/[elif] chain give the model after the
    branch's deposits, the attributes of the ant and [next_pos]; [move]
    then stores the direction and moves the ant. *)

Definition is_some {A : Type} (o : option A) : bool :=
  match o with Some _ => true | None => false end.

Definition Branch : Type := (Model * AntAgent * Pos)%type.

(** [if self.just_dropped_food or self.exploration_cooldown > 0] *)
Definition escape_branch (m : Model) (a : AntAgent) (current_pos : Pos)
  (possible_steps : list Pos) : Branch :=
  let (next_pos, g) :=
    move_away_from_nest (random m) a current_pos possible_steps in
  let a1 :=
    set_following_pheromones false
      (set_exploration_cooldown (Z.max 0 (exploration_cooldown a - 1))
         (set_just_dropped_food false a)) in
  let m1 := set_random g m in
  let m2 :=
    if returning_to_food a1 && is_some (last_food_pos a1)
    then create_pheromone m1 current_pos 1.0 to_food
    else m1 in
  (m2, a1, next_pos).

(** [elif self.carrying_food] *)
Definition carry_branch (m : Model) (a : AntAgent) (current_pos : Pos)
  : Branch :=
  let next_pos := move_towards m current_pos (home_pos a) in
  let dist_to_nest := dist current_pos (home_pos a) in
  let m1 :=
    if Rltb 3 dist_to_nest
    then create_pheromone m current_pos 1.5 to_nest
    else m in
  (m1, set_following_pheromones false a, next_pos).

(** [elif self.returning_to_food and self.last_food_pos], with
    [food_pos] the remembered cell. *)
Definition return_branch (m : Model) (a : AntAgent) (current_pos : Pos)
  (possible_steps : list Pos) (food_pos : Pos) : Branch :=
  if pos_eqb current_pos food_pos then
    let (next_pos, g) := choice (random m) possible_steps current_pos in
    (set_random g m,
     set_following_pheromones false (set_returning_to_food false a),
     next_pos)
  else
    let next_pos := move_towards m current_pos food_pos in
    (create_pheromone m current_pos 1.0 to_food,
     set_following_pheromones false a, next_pos).

(** [else]: look for food, leave the nest, follow a trail or explore. *)
Definition forage_branch (m : Model) (a : AntAgent) (current_pos : Pos)
  (possible_steps : list Pos) : Branch :=
  let nearby_cells := get_neighborhood (width m) (height m) current_pos 2 in
  let food_cells := scan_food m current_pos possible_steps nearby_cells in
  let explore (g : Rng) : Branch :=
    let '((next_pos, is_following), g') :=
      follow_pheromones_or_explore m g a current_pos possible_steps in
    (set_random g' m, set_following_pheromones is_following a, next_pos) in
  match food_cells with
  | _ :: _ =>
      let (next_pos, g) := choice (random m) food_cells current_pos in
      (set_random g m, set_following_pheromones false a, next_pos)
  | [] =>
      let dist_to_nest := dist current_pos (home_pos a) in
      if Rltb dist_to_nest 5 then
        let (u, g1) := Random.random (random m) in
        if Rltb u 0.8 then
          let (next_pos, g2) :=
            move_away_from_nest g1 a current_pos possible_steps in
          (set_random g2 m, set_following_pheromones false a, next_pos)
        else explore g1
      else explore (random m)
  end.

Definition move_branch (m : Model) (a : AntAgent) (current_pos : Pos)
  (possible_steps : list Pos) : Branch :=
  if just_dropped_food a || (0 <? exploration_cooldown a) then
    escape_branch m a current_pos possible_steps
  else if carrying_food a then carry_branch m a current_pos
  else
    match returning_to_food a, last_food_pos a with
    | true, Some food_pos =>
        return_branch m a current_pos possible_steps food_pos
    | _, _ => forage_branch m a current_pos possible_steps
    end.

Definition move (m : Model) (self : Z) : Model :=
  match get_ant m self with
  | None => m
  | Some (current_pos, a) =>
      let possible_steps :=
        get_neighborhood (width m) (height m) current_pos 1 in
      let '(m1, a1, next_pos) := move_branch m a current_pos possible_steps in
      let a2 :=
        match last_direction a1 with
        | Some _ =>
            set_last_direction
              (Some (fst next_pos - fst current_pos,
                     snd next_pos - snd current_pos)) a1
        | None => set_last_direction (Some (0, 0)) a1
        end in
      put_ant m1 self next_pos a2
  end.

(** *** [AntAgent.pick_up_food] *)
Definition pick_up_food (m : Model) (self : Z) : bool * Model :=
  match get_ant m self with
  | Some (p, a) =>
      if negb (carrying_food a) then
        match find is_food (get_cell_list_contents m p) with
        | Some agent =>
            let m1 :=
              put_ant m self p
                (set_last_food_pos (Some p) (set_carrying_food true a)) in
            (true, set_agents (remove_agent (unique_id agent) (agents m1)) m1)
        | None => (false, m)
        end
      else (false, m)
  | None => (false, m)
  end.

(** *** [AntAgent.drop_food_at_nest] *)
Definition at_or_adjacent (p nest : Pos) : bool :=
  (Z.abs (fst p - fst nest) <=? 1) && (Z.abs (snd p - snd nest) <=? 1).

Definition drop_food_at_nest (m : Model) (self : Z) : bool * Model :=
  match get_ant m self with
  | Some (p, a) =>
      if carrying_food a then
        if at_or_adjacent p (home_pos a) then
          let a1 :=
            set_exploration_cooldown 5
              (set_returning_to_food true
                 (set_just_dropped_food true (set_carrying_food false a))) in
          let m1 := put_ant m self p a1 in
          (true, set_food_delivered (food_delivered m1 + 1) m1)
        else (false, m)
      else (false, m)
  | None => (false, m)
  end.

(** *** [AntAgent.step] *)
Definition carrying (m : Model) (self : Z) : bool :=
  match get_ant m self with
  | Some (_, a) => carrying_food a
  | None => false
  end.

Definition AntAgent_step (m : Model) (self : Z) : Model :=
  let m1 := if negb (carrying m self) then snd (pick_up_food m self) else m in
  let m2 := move m1 self in
  if carrying m2 self then snd (drop_food_at_nest m2 self) else m2.

(** ** [PheromoneAgent.step] *)
Definition evaporation (m : Model) (ty : PheromoneType) : R :=
  match ty with
  | to_nest => to_nest_evaporation m
  | to_food => to_food_evaporation m
  end.

Definition PheromoneAgent_step (m : Model) (self : Z) : Model :=
  match find_agent (agents m) self with
  | Some a =>
      match body a with
      | Pheromone s ty =>
          let s' := (s * evaporation m ty)%R in
          let m1 :=
            set_agents
              (update_agent self
                 (fun a => mkAgent (unique_id a) (pos a) (Pheromone s' ty))
                 (agents m)) m in
          if Rltb s' 0.05
          then set_agents (remove_agent self (agents m1)) m1
          else m1
      | _ => m
      end
  | None => m
  end.

(** ** The scheduler (Mesa's [RandomActivation])

    [schedule.step()] lists the keys of the agent table, shuffles them
    with [model.random] and calls [step()] on every key that is still in
    the table.  The trace records which [step()] ran, in order. *)

Inductive Event : Type :=
| AntStepped (id : Z)
| PheromoneDecayed (id : Z)
| Idle (id : Z).

Definition agent_step (m : Model) (key : Z) : Model * list Event :=
  match find_agent (agents m) key with
  | None => (m, [])
  | Some a =>
      match body a with
      | Ant _ => (AntAgent_step m key, [AntStepped key])
      | Pheromone _ _ => (PheromoneAgent_step m key, [PheromoneDecayed key])
      | Nest | Food => (m, [Idle key])
      end
  end.

Definition run_keys (keys : list Z) (st : Model * list Event)
  : Model * list Event :=
  fold_left
    (fun st key =>
       let (m', ev) := agent_step (fst st) key in (m', snd st ++ ev))
    keys st.

Definition schedule_step_trace (m : Model) : Model * list Event :=
  let (agent_keys, g) := shuffle (random m) (map unique_id (agents m)) in
  run_keys agent_keys (set_random g m, []).

Definition schedule_step (m : Model) : Model := fst (schedule_step_trace m).

(** ** [AntColonyModel.collect_statistics] *)
Definition count_if (f : Agent -> bool) (l : list Agent) : Z :=
  Z.of_nat (length (filter f l)).

Definition ant_with (f : AntAgent -> bool) (a : Agent) : bool :=
  match body a with Ant r => f r | _ => false end.

Definition collect_statistics (m : Model) : Model :=
  set_statistics
    (count_if (ant_with carrying_food) (agents m))
    (count_if
       (fun a => is_ant a && Rltb (dist (pos a) (nest_pos m)) 5) (agents m))
    (count_if (ant_with following_pheromones) (agents m))
    (count_if (ant_with (fun r => negb (following_pheromones r))) (agents m))
    m.

(** ** [AntColonyModel.step]

    Writing the CSV file and the data collector do not change the model.
    [None] is the [ZeroDivisionError] of [_lifespan_to_evaporation]. *)
Definition sub_step (m : Model) : Model :=
  let m1 := schedule_step m in set_step_count (step_count m1 + 1) m1.

Definition step (m : Model) : option Model :=
  let m1 :=
    set_active_by_type
      (count_if (is_pheromone_of to_nest) (agents m))
      (count_if (is_pheromone_of to_food) (agents m))
      (set_active_pheromones (count_if is_pheromone (agents m)) m) in
  match
    _lifespan_to_evaporation (steps_per_second m1) (simulation_speed m1)
      (to_nest_lifespan m1),
    _lifespan_to_evaporation (steps_per_second m1) (simulation_speed m1)
      (to_food_lifespan m1)
  with
  | Some n, Some f =>
      let m2 := set_evaporation n f m1 in
      let m3 := Nat.iter (Z.to_nat (simulation_speed m2)) sub_step m2 in
      Some (collect_statistics m3)
  | _, _ => None
  end.

(** ** Construction *)

(** [AntAgent.__init__]: the only draw from numpy's global generator. *)
Definition AntAgent_init (np : Rng) (nest : Pos) : AntAgent * Rng :=
  let (d, np') := randrange np 8 in
  (mkAnt false d nest None 2 None false false false 0, np').

(** The [while True] loop of [place_food]; [fuel] bounds the retries. *)
Fixpoint pick_pile (fuel : nat) (m : Model) (min_dist : Z)
  : option (Pos * Model) :=
  match fuel with
  | O => None
  | S fuel' =>
      let (x, g1) := randrange (random m) (width m) in
      let (y, g2) := randrange g1 (height m) in
      let m' := set_random g2 m in
      if Rltb (IZR min_dist) (dist (x, y) (nest_pos m))
      then Some ((x, y), m')
      else pick_pile fuel' m' min_dist
  end.

(** [FoodAgent(self.next_id(), self)], placed, scheduled and counted. *)
Definition new_food (p : Pos) (m : Model) : Model :=
  let (id, m1) := next_id m in
  let m2 := add_agent (mkAgent id p Food) m1 in
  set_total_food (total_food m2 + 1) m2.

Definition fill_pile (center : Pos) (food_per_cell : Z) (m : Model) : Model :=
  let span := range (-2) 5 in
  fold_left
    (fun m dx =>
       fold_left
         (fun m dy =>
            if dx * dx + dy * dy <=? 4 then
              let food_x := Z.min (Z.max (fst center + dx) 0) (width m - 1) in
              let food_y := Z.min (Z.max (snd center + dy) 0) (height m - 1) in
              Nat.iter (Z.to_nat food_per_cell) (new_food (food_x, food_y)) m
            else m)
         span m)
    span m.

(** [AntColonyModel.place_food] *)
Fixpoint place_piles (fuel : nat) (n_piles : nat) (pile_size : Z) (m : Model)
  : option Model :=
  match n_piles with
  | O => Some m
  | S n =>
      let min_dist := Z.max (width m) (height m) / 8 in
      match pick_pile fuel m min_dist with
      | None => None
      | Some (center, m1) =>
          place_piles fuel n pile_size (fill_pile center (pile_size / 20) m1)
      end
  end.

Definition place_food (fuel : nat) (n_piles pile_size : Z) (m : Model)
  : option Model :=
  place_piles fuel (Z.to_nat n_piles) pile_size m.

(** One round of the ant loop of the constructor. *)
Definition new_ant (st : Model * Rng) : Model * Rng :=
  let (m, np) := st in
  let (id, m1) := next_id m in
  let (ant, np') := AntAgent_init np (nest_pos m1) in
  let (rx, g1) := randint (random m1) (-5) 5 in
  let (ry, g2) := randint g1 (-5) 5 in
  let x := fst (nest_pos m1) + rx in
  let y := snd (nest_pos m1) + ry in
  let p := (x mod width m1, y mod height m1) in
  (add_agent (mkAgent id p (Ant ant)) (set_random g2 m1), np').

(** [AntColonyModel.__init__].  [g] is the state of [model.random], [np]
    the state of numpy's global generator; the result pairs the model with
    the latter.  [None]: zero speed multiplier, or [fuel] exhausted. *)
Definition init (width height n_ants n_food_piles food_pile_size
  simulation_speed : Z) (to_nest_lifespan to_food_lifespan : R)
  (g np : Rng) (fuel : nat) : option (Model * Rng) :=
  let steps_per_second := 10%R in
  match
    _lifespan_to_evaporation steps_per_second simulation_speed
      to_nest_lifespan,
    _lifespan_to_evaporation steps_per_second simulation_speed
      to_food_lifespan
  with
  | Some en, Some ef =>
      let nest_pos := (width / 2, height / 2) in
      let m0 :=
        mkModel width height n_ants simulation_speed to_nest_lifespan
          to_food_lifespan steps_per_second en ef 0 0 0 0 0 0 0 0 0 0 0
          nest_pos [] g in
      let (id, m1) := next_id m0 in
      let m2 := add_agent (mkAgent id nest_pos Nest) m1 in
      let (m3, np') := Nat.iter (Z.to_nat n_ants) new_ant (m2, np) in
      match place_food fuel n_food_piles food_pile_size m3 with
      | Some m4 => Some (m4, np')
      | None => None
      end
  | _, _ => None
  end.


(** * Notions used by the statements *)

(** [totalTicks = lifespanSeconds * ticksPerSecond / speedMultiplier] *)
Definition total_ticks (sps : R) (speed : Z) (lifespan : R) : R :=
  (lifespan * sps / IZR speed)%R.

(** The factor as a function of the number of ticks:
    [0.05 ^ (1 / totalTicks)] clamped into [0.01, 0.999], and 0 when
    [totalTicks <= 0]. *)
Definition factor_of_ticks (t : R) : R :=
  if Rle_dec t 0 then 0%R
  else Rmax 0.01 (Rmin 0.999 (Rpower 0.05 (1 / t))).

(** The live pheromones of type [ty] in cell [p], and the strength of the
    first of them. *)
Definition live_pheromones (m : Model) (p : Pos) (ty : PheromoneType)
  : list Agent :=
  filter (is_pheromone_of ty) (get_cell_list_contents m p).

Definition strength_at (m : Model) (p : Pos) (ty : PheromoneType) : option R :=
  option_map strength_of (hd_error (live_pheromones m p ty)).

(** At most one live pheromone per (position, type). *)
Definition at_most_one_pheromone (m : Model) : Prop :=
  forall p ty, (length (live_pheromones m p ty) <= 1)%nat.

(** No two agents of the table share a [unique_id], and [next_id] has
    passed them all. *)
Definition unique_ids (m : Model) : Prop :=
  NoDup (map unique_id (agents m)).

Definition ids_issued (m : Model) : Prop :=
  Forall (fun a => unique_id a <= next_id_value m) (agents m).

(** The write of a strength into a pheromone
    ([agent.strength = ...]), which keeps its cell and type. *)
Definition reinforce (s : R) (ty : PheromoneType) (a : Agent) : Agent :=
  mkAgent (unique_id a) (pos a) (Pheromone s ty).

(** The cells at Chebyshev distance 1 of [p] on the torus: the eight
    wrapped offsets. *)
Definition moore_neighbor (w h : Z) (p q : Pos) : Prop :=
  exists dx dy,
    -1 <= dx <= 1 /\ -1 <= dy <= 1 /\ (dx, dy) <> (0, 0)
    /\ q = torus_adj w h (fst p + dx, snd p + dy).

(** The strength that [create_pheromone] applies at [pos] itself. *)
Definition effective_strength (d strength : R) : R :=
  if Rlt_dec d 10 then (strength * (d / 10))%R else strength.

(** Chebyshev distance, plain and on the torus. *)
Definition chebyshev (p q : Pos) : Z :=
  Z.max (Z.abs (fst p - fst q)) (Z.abs (snd p - snd q)).

Definition torus_gap (n a b : Z) : Z := Z.min (Z.abs (a - b)) (n - Z.abs (a - b)).

Definition torus_chebyshev (w h : Z) (p q : Pos) : Z :=
  Z.max (torus_gap w (fst p) (fst q)) (torus_gap h (snd p) (snd q)).

Definition in_grid (w h : Z) (p : Pos) : Prop :=
  0 <= fst p < w /\ 0 <= snd p < h.

(** ** Invariants of a run *)

Definition live_food (m : Model) : Z := count_if is_food (agents m).

Definition carrying_ants (m : Model) : Z :=
  count_if (ant_with carrying_food) (agents m).

(** The shape of the agent table and of the grid at every point of a
    run. *)
Record Shape (m : Model) : Prop := mkShape {
  inv_width : 0 < width m;
  inv_height : 0 < height m;
  inv_nest : nest_pos m = (width m / 2, height m / 2);
  inv_ids : unique_ids m;
  inv_issued : ids_issued m;
  inv_grid :
    Forall
      (fun a => is_ant a = true -> in_grid (width m) (height m) (pos a))
      (agents m);
  inv_home :
    Forall (fun a => forall r, body a = Ant r -> home_pos r = nest_pos m)
      (agents m);
  inv_far :
    Forall
      (fun a => is_pheromone a = true -> 9 <= dist2 (pos a) (nest_pos m))
      (agents m);
  inv_one : at_most_one_pheromone m
}.

(** Food on the grid, food delivered and food carried add up to the food
    placed. *)
Definition food_balance (m : Model) : Prop :=
  live_food m + food_delivered m + carrying_ants m = total_food m.

Definition Inv (m : Model) : Prop := Shape m /\ food_balance m.

(** The changes an ant makes to the trail field while it chooses its move:
    a draw from the generator, the reinforcement of a pheromone, the
    creation of one at a free (cell, type) at distance 3 or more. *)
Inductive trail_step (m : Model) : Model -> Prop :=
| ts_random (g : Rng) : trail_step m (set_random g m)
| ts_reinforce (agent : Agent) (s : R) (ty : PheromoneType) :
    In agent (agents m) -> is_pheromone_of ty agent = true ->
    trail_step m
      (set_agents
         (update_agent (unique_id agent) (reinforce s ty) (agents m)) m)
| ts_create (p : Pos) (s : R) (ty : PheromoneType) :
    find (is_pheromone_of ty) (get_cell_list_contents m p) = None ->
    9 <= dist2 p (nest_pos m) ->
    trail_step m
      (set_active_pheromones (active_pheromones m + 1)
         (add_agent (mkAgent (next_id_value m + 1) p (Pheromone s ty))
            (set_next_id_value (next_id_value m + 1) m))).

Inductive trail_steps (m : Model) : Model -> Prop :=
| trail_refl : trail_steps m m
| trail_next (m1 m2 : Model) :
    trail_steps m m1 -> trail_step m1 m2 -> trail_steps m m2.

(** Every pheromone of [m] is still a pheromone of [m'], in its cell and
    of its type. *)
Definition keeps_pheromones (m m' : Model) : Prop :=
  forall id a, find_agent (agents m) id = Some a -> is_pheromone a = true ->
    exists a', find_agent (agents m') id = Some a'
               /\ pos a' = pos a
               /\ forall ty, is_pheromone_of ty a' = is_pheromone_of ty a.

(** Every agent of [m] that is not a pheromone is untouched in [m']. *)
Definition keeps_others (m m' : Model) : Prop :=
  forall id a, find_agent (agents m) id = Some a -> is_pheromone a = false ->
    find_agent (agents m') id = Some a.

Definition b2z (b : bool) : Z := if b then 1 else 0.

(** As [keeps_pheromones], except possibly for the agent [self]. *)
Definition keeps_pheromones_except (self : Z) (m m' : Model) : Prop :=
  forall id a, id <> self ->
    find_agent (agents m) id = Some a -> is_pheromone a = true ->
    exists a', find_agent (agents m') id = Some a'
               /\ pos a' = pos a
               /\ forall ty, is_pheromone_of ty a' = is_pheromone_of ty a.

(** What one activation of the agent [self] guarantees. *)
Definition step_ok (self : Z) (m m' : Model) : Prop :=
  Inv m'
  /\ keeps_pheromones_except self m m'
  /\ food_delivered m <= food_delivered m'
  /\ total_food m' = total_food m.

(** ** Runs *)

(** A model that the constructor returns for a grid of positive size. *)
Definition initial (m0 : Model) : Prop :=
  exists w h n piles size speed tn tf g np fuel np',
    0 < w /\ 0 < h
    /\ init w h n piles size speed tn tf g np fuel = Some (m0, np').

(** The states of a run from [m0]: after the shuffle of a sub-step, after
    each activation of an agent, after a sub-step and after a tick. *)
Inductive reachable_from (m0 : Model) : Model -> Prop :=
| reach_start : reachable_from m0 m0
| reach_shuffle (m : Model) :
    reachable_from m0 m ->
    reachable_from m0
      (set_random (snd (shuffle (random m) (map unique_id (agents m)))) m)
| reach_activation (m : Model) (key : Z) :
    reachable_from m0 m -> reachable_from m0 (fst (agent_step m key))
| reach_sub_step (m : Model) :
    reachable_from m0 m -> reachable_from m0 (sub_step m)
| reach_step (m m' : Model) :
    reachable_from m0 m -> step m = Some m' -> reachable_from m0 m'.

(** ** Traces of a sub-step *)

Definition Event_eq_dec (x y : Event) : {x = y} + {x <> y}.
Proof. decide equality; apply Z.eq_dec. Defined.

(** Number of decays of the pheromone [id] in a trace. *)
Definition decays (trace : list Event) (id : Z) : nat :=
  count_occ Event_eq_dec trace (PheromoneDecayed id).

(** The decay of the sub-step comes after every move of the sub-step: no
    ant is stepped later in the trace than a pheromone. *)
Definition decay_after_all_moves (trace : list Event) : Prop :=
  forall i j p a,
    nth_error trace i = Some (PheromoneDecayed p) ->
    nth_error trace j = Some (AntStepped a) ->
    (j < i)%nat.

(** ** Concrete models *)

Definition constant_rng (n : N) : Rng := mkRng (fun _ => n) 0.

(** A 20 x 20 grid with the nest at (10, 10), speed 1 and evaporation 0.9
    for both types. *)
Definition grid20 (l : list Agent) (next : Z) (g : Rng) : Model :=
  mkModel 20 20 1 1 10 6 10 0.9 0.9 0 0 0 0 0 0 next 0 0 0 0 (10, 10) l g.

Definition fresh_ant : AntAgent :=
  mkAnt false 0 (10, 10) None 2 None false false false 0.

(** The nest, an ant at (16, 10) and a to-nest pheromone of strength 1 in
    the ant's cell. *)
Definition trail_model : Model :=
  grid20
    [mkAgent 1 (10, 10) Nest;
     mkAgent 2 (16, 10) (Ant fresh_ant);
     mkAgent 3 (16, 10) (Pheromone 1 to_nest)]
    3 (constant_rng 1).

(** The nest and an ant at (12, 10) that has a delivery behind it
    ([exploration_cooldown = 3]). *)
Definition escape_model : Model :=
  grid20
    [mkAgent 1 (10, 10) Nest;
     mkAgent 2 (12, 10) (Ant (set_exploration_cooldown 3 fresh_ant))]
    2 (constant_rng 3).

(** The model that the constructor builds for a 20 x 20 grid with one ant,
    no food, speed 1 and lifespans of 10 and 6 seconds, from generators
    whose draws are all 0: the nest at (10, 10) and the ant at (5, 5). *)
Definition small_colony : Model :=
  mkModel 20 20 1 1 10 6 10
    (factor_of_ticks (total_ticks 10 1 10))
    (factor_of_ticks (total_ticks 10 1 6))
    0 0 0 0 0 0 2 0 0 0 0 (10, 10)
    [mkAgent 1 (10, 10) Nest; mkAgent 2 (5, 5) (Ant fresh_ant)]
    (mkRng (fun _ => 0%N) 2).

(** The nest and an ant that carries food in the cell (11, 10) next to
    it. *)
Definition delivery_model : Model :=
  grid20
    [mkAgent 1 (10, 10) Nest;
     mkAgent 2 (11, 10) (Ant (set_carrying_food true fresh_ant))]
    2 (constant_rng 0).

(** A generator that replays the raw draws [l] from the cursor [c] on and
    draws 0 when they are used up. *)
Definition replay (l : list N) (c : nat) : Rng :=
  mkRng (fun i => nth i l 0%N) c.

(** The draws of the colony below: the offsets of three ants, the centre
    of the pile, a shuffle that leaves the keys in the order of the table,
    and the choice of the third ant. *)
Definition forager_draws : list N :=
  [6; 5; 9; 5; 10; 6; 13; 10;
   16; 15; 14; 13; 12; 11; 10; 9; 8; 7; 6; 5; 4; 3; 2; 1;
   1]%N.

(** The model that the constructor builds for a 20 x 20 grid with three
    ants, one pile of 20 items (13 cells around (13, 10) with one item
    each), speed 1 and lifespans of 10 and 6 seconds, from [model.random]
    replaying [forager_draws]: the nest at (10, 10), one ant on the food
    next to the nest, one on the food at distance 4, one beside the
    pile. *)
Definition forager : Model :=
  mkModel 20 20 3 1 10 6 10
    (factor_of_ticks (total_ticks 10 1 10))
    (factor_of_ticks (total_ticks 10 1 6))
    0 13 0 0 0 0 17 0 0 0 0 (10, 10)
    [mkAgent 1 (10, 10) Nest;
     mkAgent 2 (11, 10) (Ant fresh_ant);
     mkAgent 3 (14, 10) (Ant fresh_ant);
     mkAgent 4 (15, 11) (Ant fresh_ant);
     mkAgent 5 (11, 10) Food; mkAgent 6 (12, 9) Food;
     mkAgent 7 (12, 10) Food; mkAgent 8 (12, 11) Food;
     mkAgent 9 (13, 8) Food; mkAgent 10 (13, 9) Food;
     mkAgent 11 (13, 10) Food; mkAgent 12 (13, 11) Food;
     mkAgent 13 (13, 12) Food; mkAgent 14 (14, 9) Food;
     mkAgent 15 (14, 10) Food; mkAgent 16 (14, 11) Food;
     mkAgent 17 (15, 10) Food]
    (replay forager_draws 8).

(** [forager] after one sub-step: the first ant has picked up the item of
    its cell and delivered it; the second has picked up the item of (14,
    10), left a to-nest pheromone of strength 1.5 * 4 / 10 there and
    carries the item home; the third has stepped onto the food of (15, 10)
    and has not picked it up yet. *)
Definition foraged : Model :=
  mkModel 20 20 3 1 10 6 10
    (factor_of_ticks (total_ticks 10 1 10))
    (factor_of_ticks (total_ticks 10 1 6))
    1 13 1 1 0 0 18 0 0 0 0 (10, 10)
    [mkAgent 1 (10, 10) Nest;
     mkAgent 2 (10, 10)
       (Ant (mkAnt false 0 (10, 10) (Some (0, 0)) 2 (Some (11, 10)) true
               false true 5));
     mkAgent 3 (13, 10)
       (Ant (mkAnt true 0 (10, 10) (Some (0, 0)) 2 (Some (14, 10)) false
               false false 0));
     mkAgent 4 (15, 10)
       (Ant (mkAnt false 0 (10, 10) (Some (0, 0)) 2 None false false false
               0));
     mkAgent 6 (12, 9) Food;
     mkAgent 7 (12, 10) Food; mkAgent 8 (12, 11) Food;
     mkAgent 9 (13, 8) Food; mkAgent 10 (13, 9) Food;
     mkAgent 11 (13, 10) Food; mkAgent 12 (13, 11) Food;
     mkAgent 13 (13, 12) Food; mkAgent 14 (14, 9) Food;
     mkAgent 16 (14, 11) Food;
     mkAgent 17 (15, 10) Food;
     mkAgent 18 (14, 10) (Pheromone (1.5 * (4 / 10)) to_nest)]
    (replay forager_draws 25).

(** ** What a run makes of the two generators *)

(** The model without the [direction] attribute of its ants (the only
    value drawn from numpy's generator): everything else, positions and
    pheromone strengths included, is kept. *)
Definition forget_ant (a : AntAgent) : AntAgent :=
  mkAnt (carrying_food a) 0 (home_pos a) (last_direction a)
    (detection_radius a) (last_food_pos a) (returning_to_food a)
    (following_pheromones a) (just_dropped_food a) (exploration_cooldown a).

Definition forget_body (b : Body) : Body :=
  match b with Ant a => Ant (forget_ant a) | _ => b end.

Definition forget_agent (x : Agent) : Agent :=
  mkAgent (unique_id x) (pos x) (forget_body (body x)).

Definition forget (m : Model) : Model :=
  set_agents (map forget_agent (agents m)) m.

Definition forget_branch (b : Branch) : Branch :=
  let '(m, a, p) := b in (forget m, forget_ant a, p).

(** [ticks] calls of [model.step()]. *)
Fixpoint run (ticks : nat) (m : Model) : option Model :=
  match ticks with
  | O => Some m
  | S k => match step m with Some m' => run k m' | None => None end
  end.

(** Construction followed by [ticks] ticks. *)
Definition simulate (width height n_ants n_food_piles food_pile_size
  simulation_speed : Z) (to_nest_lifespan to_food_lifespan : R)
  (g np : Rng) (fuel ticks : nat) : option Model :=
  match
    init width height n_ants n_food_piles food_pile_size simulation_speed
      to_nest_lifespan to_food_lifespan g np fuel
  with
  | Some (m, _) => run ticks m
  | None => None
  end.

(** Every draw of the engine comes from the model's generator: the
    constructor hands numpy's generator back as it received it. *)
Definition single_generator : Prop :=
  forall w h n piles size speed tn tf g np fuel m np',
    init w h n piles size speed tn tf g np fuel = Some (m, np') -> np' = np.

(** * Further notions *)

(** The fields of the model that no activation of an agent writes: all
    but [food_delivered], [active_pheromones], [next_id_value], the agent
    table and the generator. *)
Definition frame (m : Model) :=
  (width m, height m, n_ants m, simulation_speed m, to_nest_lifespan m,
   to_food_lifespan m, steps_per_second m, to_nest_evaporation m,
   to_food_evaporation m, total_food m, step_count m,
   active_to_nest_pheromones m, active_to_food_pheromones m,
   ants_with_food m, ants_at_nest m, ants_following_pheromones m,
   ants_random_walking m, nest_pos m).

(** The state of the running optimum of [move_towards] after the
    candidates [seen]. *)
Definition towards_state (target : Pos) (seen : list Pos)
  (st : option Pos * xfloat) : Prop :=
  match st with
  | (None, Inf) => seen = []
  | (Some p, Fin d) =>
      d = dist p target /\ In p seen
      /\ forall q, In q seen -> (d <= dist q target)%R
  | _ => False
  end.

(** The elementary changes that the activation of the agent [self] makes
    to the model: a draw from the generator; the reinforcement of a
    pheromone by a deposit [v]; the creation of a pheromone of strength
    [v] in a free (cell, type); the write-back of the ant [self] to a
    cell; an item of food eaten; a delivery counted; the decay of the
    pheromone [self], which stays or leaves the table. *)
Inductive table_op (self : Z) (m : Model) : Model -> Prop :=
| op_random (g : Rng) : table_op self m (set_random g m)
| op_reinforce (agent : Agent) (v : R) (ty : PheromoneType) :
    In agent (agents m) -> is_pheromone_of ty agent = true ->
    (0 <= v <= 1.5)%R ->
    table_op self m
      (set_agents
         (update_agent (unique_id agent)
            (reinforce (Rmin 3.0 (strength_of agent + v * 0.5)) ty)
            (agents m)) m)
| op_create (p : Pos) (v : R) (ty : PheromoneType) :
    find (is_pheromone_of ty) (get_cell_list_contents m p) = None ->
    9 <= dist2 p (nest_pos m) ->
    (0.2 <= v <= 1.5)%R ->
    table_op self m
      (set_active_pheromones (active_pheromones m + 1)
         (add_agent (mkAgent (next_id_value m + 1) p (Pheromone v ty))
            (set_next_id_value (next_id_value m + 1) m)))
| op_put (p0 p : Pos) (r0 r : AntAgent) :
    get_ant m self = Some (p0, r0) ->
    home_pos r = nest_pos m -> in_grid (width m) (height m) p ->
    table_op self m (put_ant m self p r)
| op_eat (x : Agent) :
    In x (agents m) -> is_food x = true ->
    table_op self m (set_agents (remove_agent (unique_id x) (agents m)) m)
| op_deliver :
    table_op self m (set_food_delivered (food_delivered m + 1) m)
| op_fade (x : Agent) (s : R) (ty : PheromoneType) :
    In x (agents m) -> unique_id x = self -> body x = Pheromone s ty ->
    (0.05 <= s * evaporation m ty)%R ->
    table_op self m
      (set_agents
         (update_agent self (reinforce (s * evaporation m ty) ty) (agents m))
         m)
| op_vanish (x : Agent) :
    In x (agents m) -> unique_id x = self -> is_pheromone x = true ->
    table_op self m (set_agents (remove_agent self (agents m)) m).

Inductive table_ops (self : Z) (m : Model) : Model -> Prop :=
| ops_refl : table_ops self m m
| ops_next (m1 m2 : Model) :
    table_ops self m m1 -> table_op self m1 m2 -> table_ops self m m2.

(** The pheromones of the table, the identifiers of its ants in the order
    of the table, and the number of [AntAgent.step] calls for the ant
    [id] in a trace. *)
Definition pheromone_count (m : Model) : Z := count_if is_pheromone (agents m).

Definition ant_ids (m : Model) : list Z :=
  map unique_id (filter is_ant (agents m)).

Definition ant_steps (trace : list Event) (id : Z) : nat :=
  count_occ Event_eq_dec trace (AntStepped id).

(** Every pheromone of the table has a strength in [0.05, 3.0], and both
    evaporation factors are in [0, 1]. *)
Definition strengths_bounded (m : Model) : Prop :=
  Forall
    (fun a => forall s ty, body a = Pheromone s ty -> (0.05 <= s <= 3)%R)
    (agents m).

Definition evaporation_bounded (m : Model) : Prop :=
  (0 <= to_nest_evaporation m <= 1)%R /\ (0 <= to_food_evaporation m <= 1)%R.

(** The model at the start of the loop of [AntColonyModel.step], for a
    speed other than 0: after the recount of the pheromones and the
    refresh of the evaporation factors. *)
Definition tick_start (m : Model) : Model :=
  set_evaporation
    (factor_of_ticks
       (total_ticks (steps_per_second m) (simulation_speed m)
          (to_nest_lifespan m)))
    (factor_of_ticks
       (total_ticks (steps_per_second m) (simulation_speed m)
          (to_food_lifespan m)))
    (set_active_by_type
       (count_if (is_pheromone_of to_nest) (agents m))
       (count_if (is_pheromone_of to_food) (agents m))
       (set_active_pheromones (count_if is_pheromone (agents m)) m)).

(** What the table holds while the constructor runs: the ants are the
    agents 2, 3, ... in this order, and there is no pheromone. *)
Definition built (k : nat) (m : Model) : Prop :=
  ant_ids m = map Z.of_nat (seq 2 k)
  /\ Forall (fun a => is_pheromone a = false) (agents m).

(** [small_colony] after [place_food(1, 20)]: with draws that are all 0 the
    pile is centred on the cell (0, 0). *)
Definition one_pile : Model :=
  fill_pile (0, 0) 1 (set_random (mkRng (fun _ => 0%N) 4) small_colony).

(** The model without its to-nest pheromones. *)
Definition without_to_nest (m : Model) : Model :=
  set_agents (filter (fun a => negb (is_pheromone_of to_nest a)) (agents m)) m.

(** The attributes of an ant after [pick_up_food] has found food in the
    cell [p], after the end of [move] from [current_pos] to [next_pos], and
    after [drop_food_at_nest] has delivered. *)
Definition picked (p : Pos) (a : AntAgent) : AntAgent :=
  set_last_food_pos (Some p) (set_carrying_food true a).

Definition store_direction (current_pos next_pos : Pos) (a : AntAgent)
  : AntAgent :=
  match last_direction a with
  | Some _ =>
      set_last_direction
        (Some (fst next_pos - fst current_pos, snd next_pos - snd current_pos))
        a
  | None => set_last_direction (Some (0, 0)) a
  end.

Definition dropped (a : AntAgent) : AntAgent :=
  set_exploration_cooldown 5
    (set_returning_to_food true
       (set_just_dropped_food true (set_carrying_food false a))).

(** What holds of the attributes of every ant between two activations: the
    cooldown is in 0..5; an ant that carries or returns to food remembers a
    food cell; an ant that has just delivered does not carry, returns to
    food and has the full cooldown; an ant that carries is not counted as
    following pheromones. *)
Definition ant_ok (r : AntAgent) : Prop :=
  0 <= exploration_cooldown r <= 5
  /\ detection_radius r = 2
  /\ (carrying_food r = true \/ returning_to_food r = true ->
      last_food_pos r <> None)
  /\ (just_dropped_food r = true ->
      carrying_food r = false /\ returning_to_food r = true
      /\ exploration_cooldown r = 5)
  /\ (carrying_food r = true -> following_pheromones r = false).

Definition colony_ok (m : Model) : Prop :=
  Forall (fun x => forall r, body x = Ant r -> ant_ok r) (agents m).

(** An ant on its way home: it carries, and is not in the escape state. *)
Definition homebound (r : AntAgent) : Prop :=
  carrying_food r = true /\ just_dropped_food r = false
  /\ exploration_cooldown r = 0.

(** The nest and an ant three cells east of it on its way home with food
    from the cell (15, 10). *)
Definition laden_colony : Model :=
  set_total_food 1
    (grid20
       [mkAgent 1 (10, 10) Nest;
        mkAgent 2 (13, 10)
          (Ant (set_last_food_pos (Some (15, 10))
                  (set_carrying_food true fresh_ant)))]
       2 (constant_rng 0)).

(** The attributes of the model that the constructor sets once. *)
Definition settings (m : Model) :=
  (width m, height m, n_ants m, simulation_speed m, steps_per_second m,
   food_delivered m, step_count m, active_pheromones m,
   active_to_nest_pheromones m, active_to_food_pheromones m, nest_pos m).

(** The nest, a fresh ant at (5, 5) and one item of food in the cell
    (6, 5) next to it. *)
Definition baited_colony : Model :=
  set_total_food 1
    (grid20
       [mkAgent 1 (10, 10) Nest;
        mkAgent 2 (5, 5) (Ant fresh_ant);
        mkAgent 3 (6, 5) Food]
       3 (constant_rng 0)).

(** Some item of food lies in the cell [q]. *)
Definition holds_food (m : Model) (q : Pos) : Prop :=
  exists x, In x (get_cell_list_contents m q) /\ is_food x = true.

(** The grid and the nest: what the choice of a cell depends on besides
    the agents. *)
Definition arena (m : Model) := (width m, height m, nest_pos m).

(** An ant on its way back to the food cell [f] that it remembers. *)
Definition returning_to (f : Pos) (r : AntAgent) : Prop :=
  returning_to_food r = true /\ last_food_pos r = Some f
  /\ carrying_food r = false /\ just_dropped_food r = false
  /\ exploration_cooldown r = 0.

(** The nest and an ant at (13, 10) on its way back to the cell (15, 10),
    where it found food before. *)
Definition returning_colony : Model :=
  grid20
    [mkAgent 1 (10, 10) Nest;
     mkAgent 2 (13, 10)
       (Ant (set_returning_to_food true
               (set_last_food_pos (Some (15, 10)) fresh_ant)))]
    2 (constant_rng 0).

(** What a deposit of type [ty] may do to the table: every agent stays,
    in its cell; agents other than pheromones of type [ty] are untouched;
    the strength of a pheromone of type [ty] does not fall. *)
Definition strengthens (ty : PheromoneType) (m m' : Model) : Prop :=
  nest_pos m' = nest_pos m
  /\ next_id_value m <= next_id_value m'
  /\ (Shape m -> strengths_bounded m ->
      Shape m' /\ strengths_bounded m'
      /\ forall id x, find_agent (agents m) id = Some x ->
           exists x',
             find_agent (agents m') id = Some x'
             /\ unique_id x' = unique_id x /\ pos x' = pos x
             /\ (is_pheromone_of ty x = false -> x' = x)
             /\ (is_pheromone_of ty x = true ->
                 is_pheromone_of ty x' = true
                 /\ (strength_of x <= strength_of x')%R)).

(** The body of the inner loop of the food scan of [AntAgent.move]: what
    one agent of a scanned cell adds to [food_cells]. *)
Definition scan_food_agent (current_pos : Pos) (possible_steps : list Pos)
  (cell : Pos) (food_cells : list Pos) (agent : Agent) : list Pos :=
  if is_food agent then
    if existsb (pos_eqb cell) possible_steps
    then food_cells ++ [cell]
    else if (length food_cells =? 0)%nat
         then food_cells ++ filter (toward_food current_pos cell) possible_steps
         else food_cells
  else food_cells.

(** The nest, an ant in (14, 10) that carries the food it found there, and
    a to-food pheromone in (5, 5) whose strength is the removal threshold
    itself. *)
Definition fading_trail : Model :=
  set_total_food 1
    (grid20
       [mkAgent 1 (10, 10) Nest;
        mkAgent 2 (14, 10)
          (Ant (set_last_food_pos (Some (14, 10))
                  (set_carrying_food true fresh_ant)));
        mkAgent 3 (5, 5) (Pheromone 0.05 to_food)]
       3 (constant_rng 0)).

(** [fading_trail] after one tick: the ant has left a to-nest pheromone in
    (14, 10) and stepped towards the nest, the to-food pheromone has
    evaporated; the counters by type still show the pheromones of the
    start of the tick, and [active_pheromones] counts two. *)
Definition faded : Model :=
  mkModel 20 20 1 1 10 6 10
    (factor_of_ticks (total_ticks 10 1 10))
    (factor_of_ticks (total_ticks 10 1 6))
    0 1 1 2 0 1 4 1 1 0 1 (10, 10)
    [mkAgent 1 (10, 10) Nest;
     mkAgent 2 (13, 10)
       (Ant (mkAnt true 0 (10, 10) (Some (0, 0)) 2 (Some (14, 10)) false
               false false 0));
     mkAgent 4 (14, 10) (Pheromone (1.5 * (4 / 10)) to_nest)]
    (mkRng (fun _ => 0%N) 2).
(** * Properties *)

(** ** Comparisons *)

Lemma Rltb_true (x y : R) : Rltb x y = true <-> (x < y)%R.
Proof. unfold Rltb; destruct (Rlt_dec x y); split; intros; try easy. Qed.

Lemma Rltb_false (x y : R) : Rltb x y = false <-> (y <= x)%R.
Proof.
  unfold Rltb; destruct (Rlt_dec x y); split; intros; try easy; lra.
Qed.

Lemma Rleb_true (x y : R) : Rleb x y = true <-> (x <= y)%R.
Proof. unfold Rleb; destruct (Rle_dec x y); split; intros; try easy. Qed.

Lemma Rleb_false (x y : R) : Rleb x y = false <-> (y < x)%R.
Proof.
  unfold Rleb; destruct (Rle_dec x y); split; intros; try easy; lra.
Qed.

Lemma pos_eqb_eq (p q : Pos) : pos_eqb p q = true <-> p = q.
Proof.
  destruct p as [a b], q as [c d]; unfold pos_eqb; simpl.
  rewrite andb_true_iff, !Z.eqb_eq. split.
  - intros [-> ->]; reflexivity.
  - intros H; inversion H; auto.
Qed.

Lemma pos_eqb_refl (p : Pos) : pos_eqb p p = true.
Proof. apply pos_eqb_eq; reflexivity. Qed.

(** ** The evaporation factor *)

Section Evaporation.

Open Scope R_scope.

Lemma lifespan_to_evaporation_eq (sps : R) (speed : Z) (lifespan : R) :
  speed <> 0%Z ->
  _lifespan_to_evaporation sps speed lifespan
  = Some (factor_of_ticks (total_ticks sps speed lifespan)).
Proof.
  intros Hs. unfold _lifespan_to_evaporation, factor_of_ticks, total_ticks.
  destruct (Z.eqb_spec speed 0); [contradiction|].
  unfold Rleb. destruct (Rle_dec _ 0); [reflexivity|].
  replace (1.0 / (lifespan * sps / IZR speed))
    with (1 / (lifespan * sps / IZR speed)) by (f_equal; lra).
  reflexivity.
Qed.

Lemma ln_005_neg : ln 0.05 < 0.
Proof.
  rewrite <- ln_1. apply ln_increasing; lra.
Qed.

Lemma Rpower_005_mono (t1 t2 : R) :
  0 < t1 -> t1 <= t2 -> Rpower 0.05 (1 / t1) <= Rpower 0.05 (1 / t2).
Proof.
  intros H1 H12. unfold Rpower.
  assert (Hinv : 1 / t2 <= 1 / t1).
  { unfold Rdiv. rewrite !Rmult_1_l. apply Rinv_le_contravar; lra. }
  pose proof ln_005_neg as Hln.
  destruct (Rle_lt_or_eq_dec _ _ Hinv) as [Hlt | Heq].
  - left. apply exp_increasing. nra.
  - rewrite Heq. right; reflexivity.
Qed.

Lemma factor_of_ticks_range (t : R) :
  0 < t -> 0.01 <= factor_of_ticks t <= 0.999.
Proof.
  intros Ht. unfold factor_of_ticks.
  destruct (Rle_dec t 0); [lra|].
  split.
  - apply Rmax_l.
  - apply Rmax_lub; [lra | apply Rmin_l].
Qed.

Lemma factor_of_ticks_nonneg (t : R) : 0 <= factor_of_ticks t.
Proof.
  destruct (Rle_dec t 0) as [H|H].
  - unfold factor_of_ticks. destruct (Rle_dec t 0); [lra | contradiction].
  - pose proof (factor_of_ticks_range t). lra.
Qed.

Lemma factor_of_ticks_mono (t1 t2 : R) :
  t1 <= t2 -> factor_of_ticks t1 <= factor_of_ticks t2.
Proof.
  intros H12. destruct (Rle_dec t1 0) as [H1|H1].
  - replace (factor_of_ticks t1) with 0.
    + apply factor_of_ticks_nonneg.
    + unfold factor_of_ticks. destruct (Rle_dec t1 0); [reflexivity | contradiction].
  - unfold factor_of_ticks.
    destruct (Rle_dec t1 0); [contradiction|].
    destruct (Rle_dec t2 0); [lra|].
    apply Rle_max_compat_l. apply Rle_min_compat_l.
    apply Rpower_005_mono; lra.
Qed.

Lemma total_ticks_mono_lifespan (sps : R) (speed : Z) (l1 l2 : R) :
  0 < sps -> (0 < speed)%Z -> l1 <= l2 ->
  total_ticks sps speed l1 <= total_ticks sps speed l2.
Proof.
  intros Hs Hv Hl. unfold total_ticks, Rdiv.
  assert (0 < IZR speed) by (apply IZR_lt; lia).
  assert (0 < / IZR speed) by (apply Rinv_0_lt_compat; lra).
  apply Rmult_le_compat_r; [lra|]. apply Rmult_le_compat_r; lra.
Qed.

Lemma total_ticks_anti_speed (sps : R) (s1 s2 : Z) (l : R) :
  0 < sps -> (0 < s1)%Z -> (s1 <= s2)%Z -> 0 <= l ->
  total_ticks sps s2 l <= total_ticks sps s1 l.
Proof.
  intros Hs H1 H12 Hl. unfold total_ticks, Rdiv.
  assert (0 < IZR s1) by (apply IZR_lt; lia).
  assert (IZR s1 <= IZR s2) by (apply IZR_le; lia).
  apply Rmult_le_compat_l; [nra|].
  apply Rinv_le_contravar; lra.
Qed.

Lemma total_ticks_neg (sps : R) (speed : Z) (l : R) :
  0 < sps -> (0 < speed)%Z -> l < 0 -> total_ticks sps speed l < 0.
Proof.
  intros Hs Hv Hl. unfold total_ticks, Rdiv.
  assert (0 < IZR speed) by (apply IZR_lt; lia).
  assert (0 < / IZR speed) by (apply Rinv_0_lt_compat; lra).
  assert (l * sps < 0) by nra.
  nra.
Qed.

End Evaporation.

(** [C7] The evaporation factor is [0.05 ^ (1 / totalTicks)] clamped into
    [0.01, 0.999] with [totalTicks = lifespan * ticksPerSecond / speed],
    it is exactly 0 when [totalTicks <= 0], and for a positive speed
    multiplier it is non-decreasing in the lifespan and non-increasing in
    the speed multiplier. *)
Theorem evaporation_factor_formula_and_monotone (sps : R) :
  (0 < sps)%R ->
  (forall speed lifespan, speed <> 0 ->
     _lifespan_to_evaporation sps speed lifespan
     = Some (factor_of_ticks (total_ticks sps speed lifespan)))
  /\ (forall t, (t <= 0)%R -> factor_of_ticks t = 0%R)
  /\ (forall t, (0 < t)%R ->
        factor_of_ticks t = Rmax 0.01 (Rmin 0.999 (Rpower 0.05 (1 / t)))
        /\ (0.01 <= factor_of_ticks t <= 0.999)%R)
  /\ (forall speed l1 l2 f1 f2, 0 < speed -> (l1 <= l2)%R ->
        _lifespan_to_evaporation sps speed l1 = Some f1 ->
        _lifespan_to_evaporation sps speed l2 = Some f2 ->
        (f1 <= f2)%R)
  /\ (forall s1 s2 l f1 f2, 0 < s1 -> s1 <= s2 ->
        _lifespan_to_evaporation sps s1 l = Some f1 ->
        _lifespan_to_evaporation sps s2 l = Some f2 ->
        (f2 <= f1)%R).
Proof.
  intros Hsps. repeat split.
  - intros; apply lifespan_to_evaporation_eq; assumption.
  - intros t Ht. unfold factor_of_ticks.
    destruct (Rle_dec t 0); [reflexivity | contradiction].
  - unfold factor_of_ticks. destruct (Rle_dec t 0); [lra | reflexivity].
  - apply factor_of_ticks_range; assumption.
  - apply factor_of_ticks_range; assumption.
  - intros speed l1 l2 f1 f2 Hs Hl E1 E2.
    rewrite lifespan_to_evaporation_eq in E1, E2 by lia.
    injection E1 as <-. injection E2 as <-.
    apply factor_of_ticks_mono, total_ticks_mono_lifespan; assumption.
  - intros s1 s2 l f1 f2 H1 H12 E1 E2.
    rewrite lifespan_to_evaporation_eq in E1, E2 by lia.
    injection E1 as <-. injection E2 as <-.
    destruct (Rle_dec 0 l) as [Hl | Hl].
    + apply factor_of_ticks_mono, total_ticks_anti_speed; assumption.
    + assert (Hneg : forall s, 0 < s -> factor_of_ticks (total_ticks sps s l) = 0%R).
      { intros s Hs. unfold factor_of_ticks.
        pose proof (total_ticks_neg sps s l Hsps Hs ltac:(lra)).
        destruct (Rle_dec _ 0); [reflexivity | lra]. }
      rewrite !Hneg by lia. lra.
Qed.

(** An instance: at ten ticks per second and speed 1, a lifespan of 6
    seconds evaporates at least as fast as a lifespan of 10 seconds, and at
    lifespan 6 speed 2 evaporates at least as fast as speed 1. *)
Lemma evaporation_factor_witness :
  (0 < 10)%R
  /\ (exists f1 f2,
        _lifespan_to_evaporation 10 1 6 = Some f1
        /\ _lifespan_to_evaporation 10 1 10 = Some f2 /\ (f1 <= f2)%R)
  /\ (exists f1 f2,
        _lifespan_to_evaporation 10 1 6 = Some f1
        /\ _lifespan_to_evaporation 10 2 6 = Some f2 /\ (f2 <= f1)%R).
Proof.
  assert (H10 : (0 < 10)%R) by lra.
  destruct (evaporation_factor_formula_and_monotone 10 H10)
    as (Hf & _ & _ & Hl & Hs).
  split; [exact H10|]. split.
  - exists (factor_of_ticks (total_ticks 10 1 6)),
      (factor_of_ticks (total_ticks 10 1 10)).
    assert (E1 := Hf 1 6%R ltac:(lia)). assert (E2 := Hf 1 10%R ltac:(lia)).
    split; [exact E1|]. split; [exact E2|].
    apply (Hl 1 6%R 10%R _ _ ltac:(lia) ltac:(lra) E1 E2).
  - exists (factor_of_ticks (total_ticks 10 1 6)),
      (factor_of_ticks (total_ticks 10 2 6)).
    assert (E1 := Hf 1 6%R ltac:(lia)). assert (E2 := Hf 2 6%R ltac:(lia)).
    split; [exact E1|]. split; [exact E2|].
    apply (Hs 1 2 6%R _ _ ltac:(lia) ltac:(lia) E1 E2).
Defined.

(** ** The agent table *)

Lemma find_hd_filter {A : Type} (f : A -> bool) (l : list A) :
  find f l = hd_error (filter f l).
Proof.
  induction l as [|x l IH]; simpl; [reflexivity|].
  destruct (f x); [reflexivity | exact IH].
Qed.

Lemma find_agent_some (l : list Agent) (id : Z) (a : Agent) :
  find_agent l id = Some a -> In a l /\ unique_id a = id.
Proof.
  unfold find_agent. intros H. apply find_some in H.
  destruct H as [H1 H2]. apply Z.eqb_eq in H2. auto.
Qed.

Lemma find_agent_none (l : list Agent) (id : Z) :
  find_agent l id = None <-> ~ In id (map unique_id l).
Proof.
  unfold find_agent. induction l as [|x l IH]; simpl.
  - tauto.
  - destruct (Z.eqb_spec (unique_id x) id).
    + split; [discriminate | intros H; exfalso; apply H; auto].
    + rewrite IH. tauto.
Qed.

Lemma find_agent_in (l : list Agent) (a : Agent) :
  NoDup (map unique_id l) -> In a l -> find_agent l (unique_id a) = Some a.
Proof.
  unfold find_agent. induction l as [|x l IH]; simpl; [tauto|].
  intros Hnd [-> | Hin].
  - rewrite Z.eqb_refl. reflexivity.
  - inversion Hnd as [|? ? Hx Hl]; subst.
    destruct (Z.eqb_spec (unique_id x) (unique_id a)) as [E|E].
    + exfalso. apply Hx. rewrite E. apply in_map. assumption.
    + apply IH; assumption.
Qed.

Lemma find_agent_app (l1 l2 : list Agent) (id : Z) :
  find_agent (l1 ++ l2) id
  = match find_agent l1 id with
    | Some a => Some a
    | None => find_agent l2 id
    end.
Proof.
  unfold find_agent. induction l1 as [|x l1 IH]; simpl; [reflexivity|].
  destruct (unique_id x =? id); [reflexivity | exact IH].
Qed.

Section Update.

Variable f : Agent -> Agent.
Hypothesis f_id : forall a, unique_id (f a) = unique_id a.

Lemma update_agent_ids (id : Z) (l : list Agent) :
  map unique_id (update_agent id f l) = map unique_id l.
Proof.
  unfold update_agent. rewrite map_map. apply map_ext.
  intros a. destruct (unique_id a =? id); [apply f_id | reflexivity].
Qed.

Lemma find_agent_update_same (id : Z) (l : list Agent) :
  find_agent (update_agent id f l) id = option_map f (find_agent l id).
Proof.
  unfold find_agent, update_agent. induction l as [|x l IH]; simpl; [reflexivity|].
  destruct (Z.eqb_spec (unique_id x) id) as [E|E].
  - rewrite f_id. rewrite <- E at 1. rewrite Z.eqb_refl. reflexivity.
  - destruct (Z.eqb_spec (unique_id x) id); [contradiction | exact IH].
Qed.

Lemma find_agent_update_other (id id' : Z) (l : list Agent) :
  id' <> id ->
  find_agent (update_agent id f l) id' = find_agent l id'.
Proof.
  intros Hne. unfold find_agent, update_agent.
  induction l as [|x l IH]; simpl; [reflexivity|].
  destruct (Z.eqb_spec (unique_id x) id) as [E|E].
  - rewrite f_id. destruct (Z.eqb_spec (unique_id x) id'); [congruence | exact IH].
  - destruct (unique_id x =? id'); [reflexivity | exact IH].
Qed.

End Update.

Lemma update_agent_absent (id : Z) (f : Agent -> Agent) (l : list Agent) :
  ~ In id (map unique_id l) -> update_agent id f l = l.
Proof.
  unfold update_agent. induction l as [|x l IH]; simpl; [reflexivity|].
  intros H. destruct (Z.eqb_spec (unique_id x) id) as [E|E].
  - exfalso; apply H; auto.
  - f_equal. apply IH. tauto.
Qed.


Lemma find_agent_remove_other (id id' : Z) (l : list Agent) :
  id' <> id -> find_agent (remove_agent id l) id' = find_agent l id'.
Proof.
  intros Hne. unfold find_agent, remove_agent.
  induction l as [|x l IH]; simpl; [reflexivity|].
  destruct (Z.eqb_spec (unique_id x) id) as [E|E]; simpl.
  - destruct (Z.eqb_spec (unique_id x) id'); [congruence | exact IH].
  - destruct (unique_id x =? id'); [reflexivity | exact IH].
Qed.

Lemma remove_agent_ids (id : Z) (l : list Agent) :
  map unique_id (remove_agent id l)
  = filter (fun k => negb (k =? id)) (map unique_id l).
Proof.
  unfold remove_agent. induction l as [|x l IH]; simpl; [reflexivity|].
  destruct (unique_id x =? id); simpl; [exact IH | f_equal; exact IH].
Qed.

Lemma NoDup_filter {A : Type} (f : A -> bool) (l : list A) :
  NoDup l -> NoDup (filter f l).
Proof.
  induction 1 as [|x l Hx Hl IH]; simpl; [constructor|].
  destruct (f x); [constructor|]; auto.
  intros H. apply filter_In in H. tauto.
Qed.

(** ** Reinforcing or creating a pheromone *)

Lemma filter_map_stable {A : Type} (P : A -> bool) (h : A -> A) (l : list A) :
  (forall x, In x l -> P (h x) = P x) ->
  filter P (map h l) = map h (filter P l).
Proof.
  induction l as [|x l IH]; simpl; intros H; [reflexivity|].
  rewrite (H x) by auto. destruct (P x); simpl; rewrite IH; auto.
Qed.

Lemma live_pheromones_reinforced (m : Model) (agent : Agent) (s : R)
  (ty : PheromoneType) (q : Pos) (ty' : PheromoneType) :
  unique_ids m -> In agent (agents m) -> is_pheromone_of ty agent = true ->
  live_pheromones
    (set_agents (update_agent (unique_id agent) (reinforce s ty) (agents m)) m)
    q ty'
  = map (fun x => if unique_id x =? unique_id agent then reinforce s ty x else x)
      (live_pheromones m q ty').
Proof.
  intros Hnd Hin Hty. unfold live_pheromones, get_cell_list_contents; simpl.
  unfold update_agent.
  assert (Hsame : forall x, In x (agents m) ->
            unique_id x = unique_id agent -> x = agent).
  { intros x Hx E. pose proof (find_agent_in _ _ Hnd Hx) as F1.
    pose proof (find_agent_in _ _ Hnd Hin) as F2. congruence. }
  rewrite filter_map_stable.
  - rewrite filter_map_stable; [reflexivity|].
    intros x Hx. apply filter_In in Hx. destruct Hx as [Hx _].
    destruct (Z.eqb_spec (unique_id x) (unique_id agent)) as [E|E]; [|reflexivity].
    rewrite (Hsame x Hx E). unfold is_pheromone_of, reinforce; simpl.
    unfold is_pheromone_of in Hty. destruct (body agent); try discriminate.
    destruct pheromone_type, ty, ty'; simpl in *; congruence.
  - intros x Hx.
    destruct (unique_id x =? unique_id agent); reflexivity.
Qed.

Lemma live_pheromones_created (m m' : Model) (a : Agent) (q : Pos)
  (ty' : PheromoneType) :
  agents m' = agents m ++ [a] ->
  live_pheromones m' q ty'
  = live_pheromones m q ty'
    ++ (if pos_eqb (pos a) q && is_pheromone_of ty' a then [a] else []).
Proof.
  intros E. unfold live_pheromones, get_cell_list_contents. rewrite E.
  rewrite !filter_app. f_equal. simpl.
  destruct (pos_eqb (pos a) q); simpl; [|reflexivity].
  destruct (is_pheromone_of ty' a); reflexivity.
Qed.

Lemma add_or_reinforce_found (m : Model) (p : Pos) (value : R)
  (ty : PheromoneType) (agent : Agent) :
  find (is_pheromone_of ty) (get_cell_list_contents m p) = Some agent ->
  _add_or_reinforce_pheromone m p value ty
  = set_agents
      (update_agent (unique_id agent)
         (reinforce (Rmin 3.0 (strength_of agent + value * 0.5)) ty)
         (agents m)) m.
Proof.
  intros H. unfold _add_or_reinforce_pheromone. rewrite H. reflexivity.
Qed.

Lemma add_or_reinforce_created (m : Model) (p : Pos) (value : R)
  (ty : PheromoneType) :
  find (is_pheromone_of ty) (get_cell_list_contents m p) = None ->
  (0.2 <= value)%R ->
  _add_or_reinforce_pheromone m p value ty
  = set_active_pheromones (active_pheromones m + 1)
      (add_agent (mkAgent (next_id_value m + 1) p (Pheromone value ty))
         (set_next_id_value (next_id_value m + 1) m)).
Proof.
  intros H Hv. unfold _add_or_reinforce_pheromone. rewrite H.
  apply Rleb_true in Hv. rewrite Hv. reflexivity.
Qed.

Lemma add_or_reinforce_discarded (m : Model) (p : Pos) (value : R)
  (ty : PheromoneType) :
  find (is_pheromone_of ty) (get_cell_list_contents m p) = None ->
  (value < 0.2)%R ->
  _add_or_reinforce_pheromone m p value ty = m.
Proof.
  intros H Hv. unfold _add_or_reinforce_pheromone. rewrite H.
  apply Rleb_false in Hv. rewrite Hv. reflexivity.
Qed.

Lemma find_in_cell (m : Model) (p : Pos) (ty : PheromoneType) (agent : Agent) :
  find (is_pheromone_of ty) (get_cell_list_contents m p) = Some agent ->
  In agent (agents m) /\ pos agent = p /\ is_pheromone_of ty agent = true
  /\ hd_error (live_pheromones m p ty) = Some agent.
Proof.
  intros H. pose proof H as H'. apply find_some in H. destruct H as [Hin Hty].
  unfold get_cell_list_contents in Hin. apply filter_In in Hin.
  destruct Hin as [Hin Hp]. apply pos_eqb_eq in Hp.
  repeat split; auto. unfold live_pheromones. rewrite <- find_hd_filter.
  exact H'.
Qed.

Lemma at_most_one_add_or_reinforce (m : Model) (p : Pos) (value : R)
  (ty : PheromoneType) :
  unique_ids m -> at_most_one_pheromone m ->
  at_most_one_pheromone (_add_or_reinforce_pheromone m p value ty).
Proof.
  intros Hnd Hone q ty'.
  destruct (find (is_pheromone_of ty) (get_cell_list_contents m p))
    as [agent|] eqn:F.
  - rewrite (add_or_reinforce_found _ _ _ _ _ F).
    destruct (find_in_cell _ _ _ _ F) as (Hin & _ & Hty & _).
    rewrite live_pheromones_reinforced by assumption.
    rewrite length_map. apply Hone.
  - destruct (Rle_dec 0.2 value) as [Hv|Hv].
    + rewrite (add_or_reinforce_created _ _ _ _ F Hv).
      rewrite (live_pheromones_created m _
                 (mkAgent (next_id_value m + 1) p (Pheromone value ty)))
        by reflexivity. rewrite length_app. simpl pos.
      destruct (pos_eqb p q) eqn:Ep; simpl.
      2:{ rewrite Nat.add_0_r. apply Hone. }
      replace (is_pheromone_of ty'
                 (mkAgent (next_id_value m + 1) p (Pheromone value ty)))
        with (ptype_eqb ty ty') by reflexivity.
      destruct (ptype_eqb ty ty') eqn:Et; simpl.
      2:{ rewrite Nat.add_0_r. apply Hone. }
      apply pos_eqb_eq in Ep. subst q.
      assert (ty = ty') by (destruct ty, ty'; simpl in *; congruence). subst ty'.
      rewrite find_hd_filter in F. fold (live_pheromones m p ty) in F.
      destruct (live_pheromones m p ty); [simpl; lia | discriminate].
    + rewrite (add_or_reinforce_discarded _ _ _ _ F) by lra. apply Hone.
Qed.

(** ** The neighbourhood *)

Lemma in_add_coord (acc : list Pos) (c q : Pos) :
  In q (add_coord acc c) <-> In q acc \/ q = c.
Proof.
  unfold add_coord. destruct (existsb (pos_eqb c) acc) eqn:E.
  - split; [auto|]. intros [H | ->]; [assumption|].
    apply existsb_exists in E. destruct E as [x [Hx Ex]].
    apply pos_eqb_eq in Ex. subst; assumption.
  - rewrite in_app_iff. simpl. intuition.
Qed.


(** The eight steps, before duplicates are dropped. *)
Lemma get_neighborhood_1 (w h : Z) (p : Pos) :
  get_neighborhood w h p 1
  = fold_left add_coord
      (map (fun d => torus_adj w h (fst p + fst d, snd p + snd d))
         [(-1, -1); (0, -1); (1, -1); (-1, 0); (1, 0); (-1, 1); (0, 1); (1, 1)])
      [].
Proof. reflexivity. Qed.

Lemma fold_add_coord_in (l acc : list Pos) (q : Pos) :
  In q (fold_left add_coord l acc) <-> In q acc \/ In q l.
Proof.
  revert acc. induction l as [|c l IH]; intros acc; simpl.
  - tauto.
  - rewrite IH, in_add_coord. intuition.
Qed.


Lemma get_neighborhood_1_in (w h : Z) (p q : Pos) :
  In q (get_neighborhood w h p 1) <-> moore_neighbor w h p q.
Proof.
  rewrite get_neighborhood_1, fold_add_coord_in. simpl. unfold moore_neighbor.
  split.
  - intros [[] | H].
    repeat (destruct H as [<- | H];
            [eexists _, _; repeat split;
             try (simpl; reflexivity); try lia; try discriminate |]).
    destruct H.
  - intros (dx & dy & Hx & Hy & Hne & ->). right.
    assert (Hc : dx = -1 \/ dx = 0 \/ dx = 1) by lia.
    assert (Hd : dy = -1 \/ dy = 0 \/ dy = 1) by lia.
    destruct Hc as [-> | [-> | ->]], Hd as [-> | [-> | ->]];
      try congruence; simpl; tauto.
Qed.


(** The neighbourhood of a cell is never empty: [random.choice] and the
    search loops always have a candidate. *)
Lemma get_neighborhood_nonempty (w h : Z) (p : Pos) :
  get_neighborhood w h p 1 <> [].
Proof.
  intros E.
  assert (H : In (torus_adj w h (fst p + -1, snd p + -1))
                (get_neighborhood w h p 1)).
  { rewrite get_neighborhood_1, fold_add_coord_in. right. simpl. auto. }
  rewrite E in H. destruct H.
Qed.

(** ** Deposits *)

Lemma create_pheromone_near (m : Model) (p : Pos) (strength : R)
  (ty : PheromoneType) :
  (dist p (nest_pos m) < 3)%R -> create_pheromone m p strength ty = m.
Proof.
  intros Hd. unfold create_pheromone.
  assert (H10 : (dist p (nest_pos m) < 10)%R) by lra.
  apply Rltb_true in Hd, H10. rewrite Hd, H10. reflexivity.
Qed.

Lemma create_pheromone_far (m : Model) (p : Pos) (strength : R)
  (ty : PheromoneType) :
  (3 <= dist p (nest_pos m))%R ->
  create_pheromone m p strength ty
  = fold_left
      (fun acc q =>
         _add_or_reinforce_pheromone acc q
           (effective_strength (dist p (nest_pos m)) strength * 0.3)%R ty)
      (get_neighborhood (width m) (height m) p 1)
      (_add_or_reinforce_pheromone m p
         (effective_strength (dist p (nest_pos m)) strength) ty).
Proof.
  intros Hd. unfold create_pheromone, effective_strength.
  apply Rltb_false in Hd. rewrite Hd, andb_false_r.
  unfold Rltb. destruct (Rlt_dec (dist p (nest_pos m)) 10); reflexivity.
Qed.


(** ** Decay *)

Lemma pheromone_step_others (m : Model) (self id : Z) :
  id <> self ->
  find_agent (agents (PheromoneAgent_step m self)) id
  = find_agent (agents m) id.
Proof.
  intros Hne. unfold PheromoneAgent_step.
  destruct (find_agent (agents m) self) as [a|]; [|reflexivity].
  destruct (body a) as [| | |s ty]; try reflexivity.
  destruct (Rltb _ _); simpl.
  - rewrite find_agent_remove_other by assumption.
    apply find_agent_update_other; auto.
  - apply find_agent_update_other; auto.
Qed.


(** ** Dropping food *)

Lemma torus_gap_center (n x : Z) :
  0 <= x < n -> torus_gap n x (n / 2) = Z.abs (x - n / 2).
Proof.
  intros Hx. unfold torus_gap.
  assert (Hdiv : 2 * (n / 2) <= n < 2 * (n / 2) + 2).
  { pose proof (Z.div_mod n 2 ltac:(lia)).
    pose proof (Z.mod_pos_bound n 2 ltac:(lia)). lia. }
  lia.
Qed.

(** With the nest in the centre, the distance to it on the torus is the
    plain one. *)
Lemma torus_chebyshev_center (w h : Z) (p : Pos) :
  in_grid w h p ->
  torus_chebyshev w h p (w / 2, h / 2) = chebyshev p (w / 2, h / 2).
Proof.
  intros [Hx Hy]. unfold torus_chebyshev, chebyshev; simpl.
  rewrite !torus_gap_center by assumption. reflexivity.
Qed.

Lemma at_or_adjacent_chebyshev (p nest : Pos) :
  at_or_adjacent p nest = true <-> chebyshev p nest <= 1.
Proof.
  unfold at_or_adjacent, chebyshev.
  rewrite andb_true_iff, !Z.leb_le. lia.
Qed.

(** ** Leaving the nest *)

Lemma away_loop_never_updates (nest : Pos) (possible_steps : list Pos) :
  away_loop nest possible_steps = (None, Inf).
Proof.
  unfold away_loop. induction possible_steps as [|p l IH]; simpl; auto.
Qed.

Lemma move_away_from_nest_choice (g : Rng) (a : AntAgent)
  (current_pos : Pos) (possible_steps : list Pos) :
  move_away_from_nest g a current_pos possible_steps
  = choice g possible_steps current_pos.
Proof.
  unfold move_away_from_nest. rewrite away_loop_never_updates. reflexivity.
Qed.

(** [C2] [move_away_from_nest] never takes a step chosen by distance: the
    comparison against [float('inf')] fails for every candidate, so the
    result is always the uniform choice that the source calls the
    fallback.  At a concrete input: the ant of [escape_model], two cells
    east of the nest and in the post-delivery state, moves to (11, 10), one
    cell from the nest, although (13, 9) is a reachable step farther from
    the nest. *)
Theorem move_away_from_nest_is_random_choice :
  (forall g a current_pos possible_steps,
     move_away_from_nest g a current_pos possible_steps
     = choice g possible_steps current_pos)
  /\ get_ant escape_model 2
     = Some ((12, 10), set_exploration_cooldown 3 fresh_ant)
  /\ option_map fst (get_ant (move escape_model 2) 2) = Some (11, 10)
  /\ In (13, 9) (get_neighborhood 20 20 (12, 10) 1)
  /\ dist2 (11, 10) (10, 10) < dist2 (12, 10) (10, 10)
  /\ dist2 (12, 10) (10, 10) < dist2 (13, 9) (10, 10).
Proof.
  split; [apply move_away_from_nest_choice|].
  split; [reflexivity|]. split.
  - unfold move.
    assert (G : get_ant escape_model 2
                = Some ((12, 10), set_exploration_cooldown 3 fresh_ant))
      by reflexivity.
    rewrite G. unfold move_branch. cbn [just_dropped_food exploration_cooldown
      set_exploration_cooldown fresh_ant orb Z.ltb Z.compare].
    unfold escape_branch. rewrite move_away_from_nest_choice.
    reflexivity.
  - split; [simpl; tauto|]. unfold dist2; simpl. lia.
Qed.

(** ** Counting and distances *)

Lemma count_if_cons (P : Agent -> bool) (x : Agent) (l : list Agent) :
  count_if P (x :: l) = b2z (P x) + count_if P l.
Proof.
  unfold count_if; simpl. destruct (P x); simpl b2z; simpl length; lia.
Qed.

Lemma count_if_app (P : Agent -> bool) (l1 l2 : list Agent) :
  count_if P (l1 ++ l2) = count_if P l1 + count_if P l2.
Proof.
  unfold count_if. rewrite filter_app, length_app. lia.
Qed.

Lemma count_if_nil (P : Agent -> bool) : count_if P [] = 0.
Proof. reflexivity. Qed.

Lemma count_if_update (P : Agent -> bool) (id : Z) (f : Agent -> Agent)
  (l : list Agent) (x : Agent) :
  NoDup (map unique_id l) -> In x l -> unique_id x = id ->
  count_if P (update_agent id f l) = count_if P l - b2z (P x) + b2z (P (f x)).
Proof.
  intros Hnd Hin Hid. induction l as [|y l IH]; [destruct Hin|].
  inversion Hnd as [|? ? Hy Hl]; subst.
  unfold update_agent in *. simpl map. rewrite !count_if_cons.
  destruct Hin as [-> | Hin].
  - rewrite Z.eqb_refl.
    replace (map (fun a => if unique_id a =? unique_id x then f a else a) l)
      with l; [lia|].
    symmetry. apply (update_agent_absent (unique_id x) f l Hy).
  - destruct (Z.eqb_spec (unique_id y) (unique_id x)) as [E|E].
    + exfalso. apply Hy. rewrite E. apply in_map; assumption.
    + rewrite IH by assumption. lia.
Qed.

Lemma count_if_remove (P : Agent -> bool) (l : list Agent) (x : Agent) :
  NoDup (map unique_id l) -> In x l ->
  count_if P (remove_agent (unique_id x) l) = count_if P l - b2z (P x).
Proof.
  intros Hnd Hin. induction l as [|y l IH]; [destruct Hin|].
  inversion Hnd as [|? ? Hy Hl]; subst.
  unfold remove_agent in *. simpl filter. rewrite count_if_cons.
  destruct Hin as [-> | Hin].
  - rewrite Z.eqb_refl. simpl negb. cbv iota.
    replace (filter (fun a => negb (unique_id a =? unique_id x)) l) with l; [lia|].
    symmetry. apply forallb_filter_id. apply forallb_forall.
    intros z Hz. destruct (Z.eqb_spec (unique_id z) (unique_id x)) as [E|E]; [|reflexivity].
    exfalso. apply Hy. rewrite <- E. apply in_map; assumption.
  - destruct (Z.eqb_spec (unique_id y) (unique_id x)) as [E|E].
    + exfalso. apply Hy. rewrite E. apply in_map; assumption.
    + simpl negb. cbv iota. rewrite count_if_cons, IH by assumption. lia.
Qed.

Lemma dist2_nonneg (p q : Pos) : 0 <= dist2 p q.
Proof. unfold dist2. nia. Qed.

Lemma dist_nonneg (p q : Pos) : (0 <= dist p q)%R.
Proof. apply sqrt_pos. Qed.

Lemma dist_square (p q : Pos) : (dist p q * dist p q = IZR (dist2 p q))%R.
Proof. apply sqrt_sqrt. apply IZR_le, dist2_nonneg. Qed.

(** [dist >= c] for a non-negative integer [c] is [dist2 >= c * c]. *)
Lemma dist_ge_sq (p q : Pos) (c : Z) :
  0 <= c -> (IZR c <= dist p q)%R -> c * c <= dist2 p q.
Proof.
  intros Hc H. apply le_IZR. rewrite mult_IZR, <- dist_square.
  assert (0 <= IZR c)%R by (apply IZR_le; assumption).
  nra.
Qed.

(** A step on the torus changes the gap to the centre by at most one. *)
Lemma wrap_gap (n x d : Z) :
  0 < n -> 0 <= x < n -> -1 <= d <= 1 ->
  Z.abs (x - n / 2) - 1 <= Z.abs ((x + d) mod n - n / 2).
Proof.
  intros Hn Hx Hd.
  assert (Hdiv : 2 * (n / 2) <= n < 2 * (n / 2) + 2).
  { pose proof (Z.div_mod n 2 ltac:(lia)).
    pose proof (Z.mod_pos_bound n 2 ltac:(lia)). lia. }
  pose proof (Z.div_mod (x + d) n ltac:(lia)) as Hq.
  pose proof (Z.mod_pos_bound (x + d) n Hn) as Hr.
  assert (Hc : (x + d) / n = -1 \/ (x + d) / n = 0 \/ (x + d) / n = 1) by nia.
  destruct Hc as [E | [E | E]]; rewrite E in Hq; lia.
Qed.

Lemma wrap_in_grid (w h : Z) (p : Pos) :
  0 < w -> 0 < h -> in_grid w h (torus_adj w h p).
Proof.
  intros Hw Hh. unfold in_grid, torus_adj; simpl.
  split; apply Z.mod_pos_bound; assumption.
Qed.

Lemma moore_neighbor_in_grid (w h : Z) (p q : Pos) :
  0 < w -> 0 < h -> moore_neighbor w h p q -> in_grid w h q.
Proof.
  intros Hw Hh (dx & dy & _ & _ & _ & ->). apply wrap_in_grid; assumption.
Qed.

(** A cell at squared distance 20 or more has no Moore neighbour closer
    than 3 to the nest. *)
Lemma neighbor_far (w h : Z) (p q : Pos) :
  0 < w -> 0 < h -> in_grid w h p -> moore_neighbor w h p q ->
  20 <= dist2 p (w / 2, h / 2) -> 9 <= dist2 q (w / 2, h / 2).
Proof.
  intros Hw Hh [Hx Hy] (dx & dy & Hdx & Hdy & _ & ->) H20.
  unfold dist2, torus_adj in *; simpl in *.
  pose proof (wrap_gap w (fst p) dx Hw Hx Hdx) as Gx.
  pose proof (wrap_gap h (snd p) dy Hh Hy Hdy) as Gy.
  set (a := fst p - w / 2) in *. set (b := snd p - h / 2) in *.
  set (a' := (fst p + dx) mod w - w / 2) in *.
  set (b' := (snd p + dy) mod h - h / 2) in *.
  assert (Hab : 4 <= Z.abs a \/ 4 <= Z.abs b) by nia.
  destruct Hab as [Ha | Hb]; nia.
Qed.

(** The 30% share of a deposit of strength at most 1.5 reaches the
    creation threshold only at squared distance 20 or more. *)
Lemma neighbor_value_far (d strength : R) (n : Z) :
  (strength <= 1.5)%R -> (0 <= d)%R -> (d * d = IZR n)%R ->
  (0.2 <= effective_strength d strength * 0.3)%R -> 20 <= n.
Proof.
  intros Hs Hd Hn Hv. unfold effective_strength in Hv.
  assert (H : (19 < IZR n)%R).
  { destruct (Rlt_dec d 10) as [Hlt | Hge].
    - assert (Hsd : (strength * d <= 1.5 * d)%R) by nra.
      assert (Hd4 : (4.4 <= d)%R) by lra.
      nra.
    - nra. }
  apply lt_IZR in H. lia.
Qed.

(** ** The trail field under an ant's deposits *)

Lemma Forall_update (P : Agent -> Prop) (id : Z) (f : Agent -> Agent)
  (l : list Agent) :
  Forall P l ->
  (forall x, In x l -> unique_id x = id -> P x -> P (f x)) ->
  Forall P (update_agent id f l).
Proof.
  intros H Hf. unfold update_agent. apply Forall_forall.
  intros y Hy. apply in_map_iff in Hy. destruct Hy as [x [<- Hx]].
  rewrite Forall_forall in H.
  destruct (Z.eqb_spec (unique_id x) id); auto.
Qed.

Lemma Forall_remove (P : Agent -> Prop) (id : Z) (l : list Agent) :
  Forall P l -> Forall P (remove_agent id l).
Proof.
  intros H. unfold remove_agent. apply Forall_forall. intros x Hx.
  apply filter_In in Hx. rewrite Forall_forall in H. apply H. tauto.
Qed.

Lemma in_same_id (m : Model) (x y : Agent) :
  unique_ids m -> In x (agents m) -> In y (agents m) ->
  unique_id x = unique_id y -> x = y.
Proof.
  intros Hnd Hx Hy E.
  pose proof (find_agent_in _ _ Hnd Hx) as F1.
  pose proof (find_agent_in _ _ Hnd Hy) as F2.
  rewrite E in F1. congruence.
Qed.

Lemma is_pheromone_of_is_pheromone (ty : PheromoneType) (a : Agent) :
  is_pheromone_of ty a = true -> is_pheromone a = true.
Proof.
  unfold is_pheromone_of, is_pheromone. destruct (body a); auto; discriminate.
Qed.

Lemma trail_step_frame (m m' : Model) :
  trail_step m m' ->
  width m' = width m /\ height m' = height m /\ nest_pos m' = nest_pos m
  /\ food_delivered m' = food_delivered m /\ total_food m' = total_food m
  /\ next_id_value m <= next_id_value m'
  /\ to_nest_evaporation m' = to_nest_evaporation m
  /\ to_food_evaporation m' = to_food_evaporation m.
Proof.
  intros H; destruct H; simpl; repeat split; lia.
Qed.

Lemma trail_step_shape (m m' : Model) : Shape m -> trail_step m m' -> Shape m'.
Proof.
  intros I H. destruct I. destruct H as [g | agent s ty Hin Hty | p s ty Hnone Hfar].
  - constructor; assumption.
  - assert (Hph : is_pheromone agent = true)
      by (eapply is_pheromone_of_is_pheromone; eassumption).
    assert (Hsame : forall x, In x (agents m) ->
              unique_id x = unique_id agent -> x = agent).
    { intros x Hx E. apply (in_same_id m); assumption. }
    constructor; simpl; try assumption.
    + unfold unique_ids; simpl. rewrite update_agent_ids by reflexivity. assumption.
    + unfold ids_issued; simpl. apply Forall_update; [assumption|].
      intros x _ _ Hx. exact Hx.
    + apply Forall_update; [assumption|]. intros x _ _ _ Hc. discriminate.
    + apply Forall_update; [assumption|]. intros x _ _ _ r Hc. discriminate.
    + apply Forall_update; [assumption|].
      intros x Hx E Hfar _. rewrite (Hsame x Hx E) in *. simpl.
      apply Hfar. assumption.
    + intros q ty'. rewrite live_pheromones_reinforced by assumption.
      rewrite length_map. apply inv_one0.
  - constructor; simpl; try assumption.
    + unfold unique_ids; simpl. rewrite map_app. simpl.
      apply NoDup_app; [assumption | repeat constructor; simpl; tauto |].
      intros x Hx [<- | []].
      apply in_map_iff in Hx. destruct Hx as [y [Ey Hy]].
      unfold ids_issued in inv_issued0. rewrite Forall_forall in inv_issued0.
      specialize (inv_issued0 y Hy). lia.
    + unfold ids_issued; simpl. apply Forall_app. split.
      * eapply Forall_impl; [|exact inv_issued0]. simpl. intros; lia.
      * repeat constructor. simpl. lia.
    + apply Forall_app. split; [assumption|].
      apply Forall_cons; [discriminate | apply Forall_nil].
    + apply Forall_app. split; [assumption|].
      apply Forall_cons; [discriminate | apply Forall_nil].
    + apply Forall_app. split; [assumption|].
      apply Forall_cons; [intros _; exact Hfar | apply Forall_nil].
    + intros q ty'.
      rewrite (live_pheromones_created m _
                 (mkAgent (next_id_value m + 1) p (Pheromone s ty)))
        by reflexivity.
      rewrite length_app. simpl pos.
      destruct (pos_eqb p q) eqn:Ep; simpl.
      2:{ rewrite Nat.add_0_r. apply inv_one0. }
      replace (is_pheromone_of ty'
                 (mkAgent (next_id_value m + 1) p (Pheromone s ty)))
        with (ptype_eqb ty ty') by reflexivity.
      destruct (ptype_eqb ty ty') eqn:Et; simpl.
      2:{ rewrite Nat.add_0_r. apply inv_one0. }
      apply pos_eqb_eq in Ep. subst q.
      assert (ty = ty') by (destruct ty, ty'; simpl in *; congruence). subst ty'.
      rewrite find_hd_filter in Hnone. fold (live_pheromones m p ty) in Hnone.
      destruct (live_pheromones m p ty); [simpl; lia | discriminate].
Qed.

Lemma trail_step_food (m m' : Model) :
  unique_ids m -> trail_step m m' ->
  live_food m' = live_food m /\ carrying_ants m' = carrying_ants m.
Proof.
  intros Hnd H. destruct H as [g | agent s ty Hin Hty | p s ty Hnone Hfar].
  - split; reflexivity.
  - assert (Hph : is_pheromone agent = true)
      by (eapply is_pheromone_of_is_pheromone; eassumption).
    unfold live_food, carrying_ants in *; simpl.
    rewrite !(count_if_update _ _ _ _ agent Hnd Hin eq_refl).
    assert (Hf : is_food agent = false /\ ant_with carrying_food agent = false).
    { unfold is_food, ant_with. unfold is_pheromone in Hph.
      destruct (body agent); try discriminate; auto. }
    destruct Hf as [-> ->].
    change (is_food (reinforce s ty agent)) with false.
    change (ant_with carrying_food (reinforce s ty agent)) with false.
    simpl b2z. lia.
  - unfold live_food, carrying_ants in *; simpl.
    rewrite !count_if_app. rewrite !count_if_cons, !count_if_nil.
    change (is_food (mkAgent (next_id_value m + 1) p (Pheromone s ty)))
      with false.
    change (ant_with carrying_food
              (mkAgent (next_id_value m + 1) p (Pheromone s ty)))
      with false.
    simpl b2z. lia.
Qed.

Lemma trail_step_inv (m m' : Model) : Inv m -> trail_step m m' -> Inv m'.
Proof.
  intros [S F] H. split; [eapply trail_step_shape; eassumption|].
  destruct (trail_step_food m m' (inv_ids m S) H) as [E1 E2].
  destruct (trail_step_frame m m' H) as (_ & _ & _ & E3 & E4 & _).
  unfold food_balance in *. lia.
Qed.

Lemma trail_step_keeps_others (m m' : Model) :
  unique_ids m -> trail_step m m' -> keeps_others m m'.
Proof.
  intros Hnd H id a F Hph.
  destruct H as [g | agent s ty Hin Hty | p s ty Hnone Hfar]; simpl.
  - assumption.
  - rewrite find_agent_update_other; [assumption | reflexivity |].
    intros E. destruct (find_agent_some _ _ _ F) as [Ha Hid].
    assert (a = agent) by (apply (in_same_id m); congruence). subst a.
    apply is_pheromone_of_is_pheromone in Hty. congruence.
  - rewrite find_agent_app, F. reflexivity.
Qed.

Lemma trail_step_keeps_pheromones (m m' : Model) :
  unique_ids m -> trail_step m m' -> keeps_pheromones m m'.
Proof.
  intros Hnd H id a F Hph.
  destruct H as [g | agent s ty Hin Hty | p s ty Hnone Hfar]; simpl.
  - exists a. auto.
  - destruct (Z.eq_dec id (unique_id agent)) as [E|E].
    + subst id. rewrite find_agent_update_same by reflexivity. rewrite F. simpl.
      eexists; split; [reflexivity|]. split; [reflexivity|].
      destruct (find_agent_some _ _ _ F) as [Ha Hid].
      assert (a = agent) by (apply (in_same_id m); congruence). subst a.
      intros ty'. unfold is_pheromone_of in *; simpl.
      destruct (body agent); try discriminate.
      destruct pheromone_type, ty, ty'; simpl in *; congruence.
    + rewrite find_agent_update_other by auto. exists a; auto.
  - rewrite find_agent_app, F. exists a; auto.
Qed.

Lemma keeps_pheromones_refl (m : Model) : keeps_pheromones m m.
Proof. intros id a F H. exists a; auto. Qed.

Lemma keeps_pheromones_trans (m1 m2 m3 : Model) :
  keeps_pheromones m1 m2 -> keeps_pheromones m2 m3 -> keeps_pheromones m1 m3.
Proof.
  intros H12 H23 id a F H.
  destruct (H12 id a F H) as (a2 & F2 & P2 & T2).
  assert (H2 : is_pheromone a2 = true).
  { unfold is_pheromone. unfold is_pheromone in H.
    pose proof (T2 to_nest) as Tn. pose proof (T2 to_food) as Tf.
    unfold is_pheromone_of in Tn, Tf.
    destruct (body a) as [| | |s0 t0], (body a2); try discriminate; auto;
      destruct t0; discriminate. }
  destruct (H23 id a2 F2 H2) as (a3 & F3 & P3 & T3).
  exists a3. split; [assumption|]. split; [congruence|].
  intros ty. rewrite T3, T2. reflexivity.
Qed.

Lemma keeps_others_trans (m1 m2 m3 : Model) :
  keeps_others m1 m2 -> keeps_others m2 m3 -> keeps_others m1 m3.
Proof. intros H12 H23 id a F H. apply H23; auto. Qed.

Lemma trail_steps_trans (m1 m2 m3 : Model) :
  trail_steps m1 m2 -> trail_steps m2 m3 -> trail_steps m1 m3.
Proof.
  intros H12 H23. induction H23; [assumption|].
  eapply trail_next; eassumption.
Qed.

Lemma trail_steps_one (m m' : Model) : trail_step m m' -> trail_steps m m'.
Proof. intros H. eapply trail_next; [apply trail_refl | exact H]. Qed.

Lemma trail_steps_frame (m m' : Model) :
  trail_steps m m' ->
  width m' = width m /\ height m' = height m /\ nest_pos m' = nest_pos m
  /\ food_delivered m' = food_delivered m /\ total_food m' = total_food m
  /\ next_id_value m <= next_id_value m'
  /\ to_nest_evaporation m' = to_nest_evaporation m
  /\ to_food_evaporation m' = to_food_evaporation m.
Proof.
  induction 1 as [|m1 m2 H12 IH H].
  - repeat split; lia.
  - apply trail_step_frame in H. intuition (try congruence; try lia).
Qed.

Lemma trail_steps_inv (m m' : Model) : Inv m -> trail_steps m m' -> Inv m'.
Proof.
  intros I H. induction H; [assumption|].
  eapply trail_step_inv; eauto.
Qed.

Lemma trail_steps_keeps_others (m m' : Model) :
  Inv m -> trail_steps m m' -> keeps_others m m'.
Proof.
  intros I H. induction H as [|m1 m2 H12 IH H]; [intros id a F _; exact F|].
  eapply keeps_others_trans; [exact IH|].
  apply trail_step_keeps_others; [|assumption].
  apply inv_ids. apply (trail_steps_inv _ _ I H12).
Qed.

Lemma trail_steps_keeps_pheromones (m m' : Model) :
  Inv m -> trail_steps m m' -> keeps_pheromones m m'.
Proof.
  intros I H. induction H as [|m1 m2 H12 IH H]; [apply keeps_pheromones_refl|].
  eapply keeps_pheromones_trans; [exact IH|].
  apply trail_step_keeps_pheromones; [|assumption].
  apply inv_ids. apply (trail_steps_inv _ _ I H12).
Qed.

Lemma add_or_reinforce_trail (m : Model) (q : Pos) (v : R) (ty : PheromoneType) :
  ((0.2 <= v)%R -> 9 <= dist2 q (nest_pos m)) ->
  trail_steps m (_add_or_reinforce_pheromone m q v ty).
Proof.
  intros Hfar.
  destruct (find (is_pheromone_of ty) (get_cell_list_contents m q))
    as [agent|] eqn:F.
  - rewrite (add_or_reinforce_found _ _ _ _ _ F).
    destruct (find_in_cell _ _ _ _ F) as (Hin & _ & Hty & _).
    apply trail_steps_one. apply ts_reinforce; assumption.
  - destruct (Rle_dec 0.2 v) as [Hv|Hv].
    + rewrite (add_or_reinforce_created _ _ _ _ F Hv).
      apply trail_steps_one. apply ts_create; auto.
    + rewrite (add_or_reinforce_discarded _ _ _ _ F) by lra. apply trail_refl.
Qed.

Lemma spread_trail (m : Model) (v : R) (ty : PheromoneType) (l : list Pos)
  (acc : Model) :
  trail_steps m acc ->
  (forall q, In q l -> (0.2 <= v)%R -> 9 <= dist2 q (nest_pos m)) ->
  trail_steps m
    (fold_left (fun acc q => _add_or_reinforce_pheromone acc q v ty) l acc).
Proof.
  revert acc. induction l as [|q l IH]; intros acc Hacc Hfar; simpl.
  - assumption.
  - apply IH; [|intros; apply Hfar; simpl; auto].
    eapply trail_steps_trans; [exact Hacc|].
    apply add_or_reinforce_trail.
    destruct (trail_steps_frame _ _ Hacc) as (_ & _ & -> & _).
    intros Hv. apply Hfar; simpl; auto.
Qed.

(** A deposit of strength at most 1.5 by an ant in the grid only reinforces
    pheromones or creates them at distance 3 or more from the nest. *)
Lemma create_pheromone_trail (m : Model) (p : Pos) (strength : R)
  (ty : PheromoneType) :
  Inv m -> in_grid (width m) (height m) p -> (strength <= 1.5)%R ->
  trail_steps m (create_pheromone m p strength ty).
Proof.
  intros I Hp Hs.
  assert (Hnb : forall q,
            In q (get_neighborhood (width m) (height m) p 1) ->
            moore_neighbor (width m) (height m) p q)
    by (intros q; apply get_neighborhood_1_in).
  destruct (Rlt_dec (dist p (nest_pos m)) 3) as [Hd|Hd].
  - rewrite create_pheromone_near by assumption. apply trail_refl.
  - rewrite create_pheromone_far by lra. apply spread_trail.
    + apply add_or_reinforce_trail. intros _.
      apply (dist_ge_sq p (nest_pos m) 3); [lia | lra].
    + intros q Hq Hv. apply Hnb in Hq.
      destruct I as [S _]. rewrite (inv_nest m S).
      apply (neighbor_far (width m) (height m) p q);
        try assumption; try apply S.
      rewrite <- (inv_nest m S).
      apply (neighbor_value_far (dist p (nest_pos m)) strength);
        [assumption | apply dist_nonneg | apply dist_square | assumption].
Qed.

(** ** The search loops and the choice of a step *)

Lemma search_loop_in (f : option Pos * xfloat -> Pos -> option Pos * xfloat)
  (l : list Pos) (st : option Pos * xfloat) (q : Pos) :
  (forall st p, f st p = st \/ fst (f st p) = Some p) ->
  fst (fold_left f l st) = Some q -> fst st = Some q \/ In q l.
Proof.
  intros Hf. revert st. induction l as [|p l IH]; intros st H; simpl in *.
  - auto.
  - destruct (IH _ H) as [H1 | H1]; [|auto].
    destruct (Hf st p) as [E | E].
    + rewrite E in H1. auto.
    + right. left. congruence.
Qed.

Lemma towards_loop_in (target : Pos) (l : list Pos) (q : Pos) :
  fst (towards_loop target l) = Some q -> In q l.
Proof.
  intros H. unfold towards_loop in H. apply search_loop_in in H.
  - destruct H as [H|H]; [discriminate | assumption].
  - intros st p. simpl. destruct (lt_x _ _); auto.
Qed.

Lemma angle_loop_in (cur : Pos) (dx dy : Z) (l : list Pos) (q : Pos) :
  fst (angle_loop cur dx dy l) = Some q -> In q l.
Proof.
  intros H. unfold angle_loop in H. apply search_loop_in in H.
  - destruct H as [H|H]; [discriminate | assumption].
  - intros st p. simpl. destruct (lt_x _ _); auto.
Qed.

Section Steps.

Variable P : Pos -> Prop.
Variable possible_steps : list Pos.
Variable current_pos : Pos.
Hypothesis steps_ok : forall q, In q possible_steps -> P q.
Hypothesis current_ok : P current_pos.

Lemma choice_ok (g : Rng) (l : list Pos) :
  (forall q, In q l -> P q) -> P (fst (choice g l current_pos)).
Proof.
  intros Hl. unfold choice. destruct (_randbelow g _) as [j g']. simpl.
  destruct (nth_in_or_default (Z.to_nat j) l current_pos) as [H | ->]; auto.
Qed.

Lemma move_away_from_nest_ok (g : Rng) (a : AntAgent) :
  P (fst (move_away_from_nest g a current_pos possible_steps)).
Proof.
  rewrite move_away_from_nest_choice. apply choice_ok, steps_ok.
Qed.

Lemma random_walk_ok (g : Rng) (a : AntAgent) :
  P (fst (random_walk g a current_pos possible_steps)).
Proof.
  unfold random_walk. destruct (last_direction a) as [[dx dy]|].
  - destruct (Random.random g) as [u g1].
    destruct (Rltb u 0.3 && existsb _ possible_steps) eqn:E.
    + apply andb_true_iff in E. destruct E as [_ E].
      apply existsb_exists in E. destruct E as [x [Hx Ex]].
      apply pos_eqb_eq in Ex. simpl. rewrite Ex. auto.
    + apply choice_ok, steps_ok.
  - apply choice_ok, steps_ok.
Qed.

Lemma scan_food_ok (m : Model) (nearby_cells : list Pos) :
  forall q, In q (scan_food m current_pos possible_steps nearby_cells) -> P q.
Proof.
  unfold scan_food.
  assert (Hgen : forall cells acc,
            (forall q, In q acc -> P q) ->
            forall q,
              In q (fold_left
                      (fun food_cells cell =>
                         fold_left
                           (fun food_cells agent =>
                              if is_food agent then
                                if existsb (pos_eqb cell) possible_steps
                                then food_cells ++ [cell]
                                else if (length food_cells =? 0)%nat
                                     then food_cells
                                          ++ filter (toward_food current_pos cell)
                                               possible_steps
                                     else food_cells
                              else food_cells)
                           (get_cell_list_contents m cell) food_cells)
                      cells acc) -> P q).
  { induction cells as [|cell cells IH]; intros acc Hacc; simpl; [assumption|].
    apply IH. generalize (get_cell_list_contents m cell). intros ags.
    revert acc Hacc. induction ags as [|ag ags IHa]; intros acc Hacc; simpl;
      [assumption|].
    apply IHa. destruct (is_food ag); [|assumption].
    destruct (existsb (pos_eqb cell) possible_steps) eqn:E.
    - intros q Hq. apply in_app_iff in Hq. destruct Hq as [Hq | [<- | []]]; auto.
      apply existsb_exists in E. destruct E as [x [Hx Ex]].
      apply pos_eqb_eq in Ex. subst x. auto.
    - destruct (length acc =? 0)%nat; [|assumption].
      intros q Hq. apply in_app_iff in Hq. destruct Hq as [Hq | Hq]; auto.
      apply filter_In in Hq. apply steps_ok. tauto. }
  apply Hgen. intros q [].
Qed.

End Steps.

Lemma possible_steps_in_grid (m : Model) (p q : Pos) :
  Inv m -> In q (get_neighborhood (width m) (height m) p 1) ->
  in_grid (width m) (height m) q.
Proof.
  intros I H. apply get_neighborhood_1_in in H.
  eapply moore_neighbor_in_grid; [apply I | apply I | exact H].
Qed.

Lemma move_towards_in_grid (m : Model) (current target : Pos) :
  Inv m -> in_grid (width m) (height m) current ->
  in_grid (width m) (height m) (move_towards m current target).
Proof.
  intros I Hc. unfold move_towards.
  destruct (fst (towards_loop target _)) as [q|] eqn:E; [|assumption].
  apply towards_loop_in in E. eapply possible_steps_in_grid; eassumption.
Qed.

Lemma follow_in_grid (m : Model) (g : Rng) (a : AntAgent) (current_pos : Pos) :
  Inv m -> in_grid (width m) (height m) current_pos ->
  in_grid (width m) (height m)
    (fst (fst (follow_pheromones_or_explore m g a current_pos
                 (get_neighborhood (width m) (height m) current_pos 1)))).
Proof.
  intros I Hc.
  assert (Hsteps : forall q,
            In q (get_neighborhood (width m) (height m) current_pos 1) ->
            in_grid (width m) (height m) q)
    by (intros q; apply possible_steps_in_grid; assumption).
  assert (Hwalk : forall g',
            in_grid (width m) (height m)
              (fst (random_walk g' a current_pos
                      (get_neighborhood (width m) (height m) current_pos 1))))
    by (intros g'; apply random_walk_ok; assumption).
  unfold follow_pheromones_or_explore.
  destruct (best_direction _) as [[dx0 dy0]|].
  - destruct (Random.random g) as [u g1].
    destruct (Rltb u _).
    + destruct (existsb _ _) eqn:E.
      * simpl. apply existsb_exists in E. destruct E as [x [Hx Ex]].
        apply pos_eqb_eq in Ex. rewrite Ex. auto.
      * destruct (fst (angle_loop _ _ _ _)) as [q|] eqn:A.
        -- simpl. apply angle_loop_in in A. auto.
        -- specialize (Hwalk g1). destruct (random_walk g1 _ _ _). exact Hwalk.
    + specialize (Hwalk g1). destruct (random_walk g1 _ _ _). exact Hwalk.
  - specialize (Hwalk g). destruct (random_walk g _ _ _). exact Hwalk.
Qed.

Ltac split4 := split; [|split; [|split]].

(** What every branch of [move] does: deposits on the trail field, no
    change to whether the ant carries or to its home, and a next cell in
    the grid. *)
Lemma move_branch_spec (m : Model) (a : AntAgent) (current_pos : Pos)
  (m1 : Model) (a1 : AntAgent) (next_pos : Pos) :
  Inv m -> in_grid (width m) (height m) current_pos ->
  move_branch m a current_pos
    (get_neighborhood (width m) (height m) current_pos 1) = (m1, a1, next_pos) ->
  trail_steps m m1
  /\ carrying_food a1 = carrying_food a
  /\ home_pos a1 = home_pos a
  /\ in_grid (width m) (height m) next_pos.
Proof.
  intros I Hc.
  assert (Hsteps : forall q,
            In q (get_neighborhood (width m) (height m) current_pos 1) ->
            in_grid (width m) (height m) q)
    by (intros q; apply possible_steps_in_grid; assumption).
  assert (Hrand : forall g, trail_steps m (set_random g m))
    by (intros g; apply trail_steps_one, ts_random).
  assert (Hdep : forall g s ty, (s <= 1.5)%R ->
            trail_steps m (create_pheromone (set_random g m) current_pos s ty)).
  { intros g s ty Hs. eapply trail_steps_trans; [apply (Hrand g)|].
    apply create_pheromone_trail; [|exact Hc|exact Hs].
    eapply trail_steps_inv; [exact I | apply Hrand]. }
  assert (Hdep0 : forall s ty, (s <= 1.5)%R ->
            trail_steps m (create_pheromone m current_pos s ty))
    by (intros s ty Hs; apply create_pheromone_trail; assumption).
  unfold move_branch.
  destruct (just_dropped_food a || (0 <? exploration_cooldown a)).
  { (* escape *)
    unfold escape_branch.
    pose proof (move_away_from_nest_ok _ _ current_pos Hsteps Hc (random m) a) as Hn.
    destruct (move_away_from_nest _ _ _ _) as [np g]. simpl in Hn.
    intros E. injection E as <- <- <-. split4; auto.
    match goal with |- context [if ?c then _ else _] => destruct c end.
    - apply Hdep. lra.
    - apply Hrand. }
  destruct (carrying_food a) eqn:C.
  { (* carrying *)
    unfold carry_branch. intros E. injection E as <- <- <-.
    split4; auto.
    - destruct (Rltb 3 _); [apply Hdep0; lra | apply trail_refl].
    - apply move_towards_in_grid; assumption. }
  assert (Hforage : forage_branch m a current_pos
                      (get_neighborhood (width m) (height m) current_pos 1)
                    = (m1, a1, next_pos) ->
                    trail_steps m m1 /\ carrying_food a1 = carrying_food a
                    /\ home_pos a1 = home_pos a
                    /\ in_grid (width m) (height m) next_pos).
  { unfold forage_branch.
    assert (Hexp : forall g,
              (let '(np, is_following, g') :=
                 follow_pheromones_or_explore m g a current_pos
                   (get_neighborhood (width m) (height m) current_pos 1) in
               (set_random g' m, set_following_pheromones is_following a, np))
              = (m1, a1, next_pos) ->
              trail_steps m m1 /\ carrying_food a1 = carrying_food a
              /\ home_pos a1 = home_pos a
              /\ in_grid (width m) (height m) next_pos).
    { intros g. pose proof (follow_in_grid m g a current_pos I Hc) as Hf.
      destruct (follow_pheromones_or_explore _ _ _ _ _) as [[np fl] g'].
      simpl in Hf. intros E. injection E as <- <- <-. split4; auto. }
    destruct (scan_food _ _ _ _) as [|c cs] eqn:S.
    - destruct (Rltb _ 5).
      + destruct (Random.random (random m)) as [u g1].
        destruct (Rltb u 0.8).
        * pose proof (move_away_from_nest_ok _ _ current_pos Hsteps Hc g1 a) as Hn.
          destruct (move_away_from_nest _ _ _ _) as [np g2]. simpl in Hn.
          intros E. injection E as <- <- <-. split4; auto.
        * apply Hexp.
      + apply Hexp.
    - pose proof (choice_ok _ current_pos Hc (random m) (c :: cs)) as Hn.
      rewrite <- S in Hn.
      specialize (Hn (scan_food_ok _ _ current_pos Hsteps m _)).
      rewrite S in Hn.
      destruct (choice _ _ _) as [np g]. simpl in Hn.
      intros E. injection E as <- <- <-. split4; auto. }
  rewrite C in Hforage.
  destruct (returning_to_food a); [|exact Hforage].
  destruct (last_food_pos a) as [food_pos|]; [|exact Hforage].
  unfold return_branch. destruct (pos_eqb current_pos food_pos).
  - pose proof (choice_ok _ current_pos Hc (random m) _ Hsteps) as Hn.
    destruct (choice _ _ _) as [np g]. simpl in Hn.
    intros E. injection E as <- <- <-. split4; auto.
  - intros E. injection E as <- <- <-. split4; auto.
    + apply Hdep0; lra.
    + apply move_towards_in_grid; assumption.
Qed.

(** ** The ant in the table *)

Lemma get_ant_find (m : Model) (self : Z) (p : Pos) (r : AntAgent) :
  get_ant m self = Some (p, r) ->
  exists a, find_agent (agents m) self = Some a /\ In a (agents m)
            /\ unique_id a = self /\ pos a = p /\ body a = Ant r.
Proof.
  unfold get_ant. destruct (find_agent (agents m) self) as [a|] eqn:F; [|discriminate].
  destruct (body a) eqn:B; try discriminate.
  intros E. injection E as <- <-.
  destruct (find_agent_some _ _ _ F). exists a. auto.
Qed.

Lemma get_ant_kept (m m' : Model) (self : Z) (p : Pos) (r : AntAgent) :
  keeps_others m m' -> get_ant m self = Some (p, r) ->
  get_ant m' self = Some (p, r).
Proof.
  intros K G. destruct (get_ant_find _ _ _ _ G) as (a & F & _ & _ & Hp & Hb).
  unfold get_ant. rewrite (K self a F).
  - rewrite Hb, Hp. reflexivity.
  - unfold is_pheromone. rewrite Hb. reflexivity.
Qed.

Lemma live_pheromones_conj (m : Model) (q : Pos) (ty : PheromoneType) :
  live_pheromones m q ty
  = filter (fun a => pos_eqb (pos a) q && is_pheromone_of ty a) (agents m).
Proof.
  unfold live_pheromones, get_cell_list_contents.
  induction (agents m) as [|x l IH]; simpl; [reflexivity|].
  destruct (pos_eqb (pos x) q); simpl; [|exact IH].
  destruct (is_pheromone_of ty x); [f_equal|]; exact IH.
Qed.

Lemma put_ant_shape (m : Model) (self : Z) (p0 p : Pos) (r0 r : AntAgent) :
  Shape m -> get_ant m self = Some (p0, r0) ->
  home_pos r = nest_pos m -> in_grid (width m) (height m) p ->
  Shape (put_ant m self p r).
Proof.
  intros S G Hh Hp. destruct (get_ant_find _ _ _ _ G) as (a & F & Hin & Hid & _ & Hb).
  assert (Hsame : forall x, In x (agents m) -> unique_id x = self -> x = a).
  { intros x Hx E. apply (in_same_id m); try assumption; [apply S | congruence]. }
  destruct S. unfold put_ant. constructor; simpl; try assumption.
  - unfold unique_ids; simpl. rewrite update_agent_ids by reflexivity. assumption.
  - unfold ids_issued; simpl. apply Forall_update; [assumption|].
    intros x _ _ Hx. exact Hx.
  - apply Forall_update; [assumption|]. intros x _ _ _ _. exact Hp.
  - apply Forall_update; [assumption|]. intros x _ _ _ r' Hr'. simpl in Hr'.
    injection Hr' as <-. exact Hh.
  - apply Forall_update; [assumption|]. intros x _ _ _ Hc. discriminate.
  - intros q ty. rewrite live_pheromones_conj. simpl. unfold update_agent.
    rewrite filter_map_stable.
    + rewrite length_map. rewrite <- live_pheromones_conj. apply inv_one0.
    + intros x Hx. destruct (Z.eqb_spec (unique_id x) self) as [E|E]; [|reflexivity].
      rewrite (Hsame x Hx E). unfold is_pheromone_of; simpl. rewrite Hb.
      rewrite !andb_false_r. reflexivity.
Qed.

Lemma put_ant_food (m : Model) (self : Z) (p0 p : Pos) (r0 r : AntAgent) :
  unique_ids m -> get_ant m self = Some (p0, r0) ->
  live_food (put_ant m self p r) = live_food m
  /\ carrying_ants (put_ant m self p r)
     = carrying_ants m - b2z (carrying_food r0) + b2z (carrying_food r).
Proof.
  intros Hnd G. destruct (get_ant_find _ _ _ _ G) as (a & F & Hin & Hid & _ & Hb).
  unfold live_food, carrying_ants, put_ant; simpl.
  rewrite !(count_if_update _ _ _ _ a Hnd Hin Hid).
  unfold is_food at 2 3. unfold ant_with at 2 3. simpl. rewrite Hb. simpl b2z.
  split; lia.
Qed.

Lemma put_ant_keeps_pheromones (m : Model) (self : Z) (p0 p : Pos)
  (r0 r : AntAgent) :
  get_ant m self = Some (p0, r0) -> keeps_pheromones m (put_ant m self p r).
Proof.
  intros G id a F Hph.
  destruct (get_ant_find _ _ _ _ G) as (x & Fx & _ & _ & _ & Hb).
  assert (id <> self).
  { intros ->. rewrite Fx in F. injection F as <-.
    unfold is_pheromone in Hph. rewrite Hb in Hph. discriminate. }
  exists a. unfold put_ant; simpl.
  rewrite find_agent_update_other by auto. auto.
Qed.

Lemma filter_filter_length {A : Type} (P Q : A -> bool) (l : list A) :
  (length (filter P (filter Q l)) <= length (filter P l))%nat.
Proof.
  induction l as [|x l IH]; simpl; [lia|].
  destruct (Q x), (P x) eqn:E; simpl; rewrite ?E; simpl; lia.
Qed.

(** Taking an agent out of the table. *)
Lemma remove_shape (m : Model) (id : Z) :
  Shape m -> Shape (set_agents (remove_agent id (agents m)) m).
Proof.
  intros S. destruct S. constructor; simpl; try assumption.
  - unfold unique_ids; simpl. rewrite remove_agent_ids. apply NoDup_filter.
    assumption.
  - apply Forall_remove; assumption.
  - apply Forall_remove; assumption.
  - apply Forall_remove; assumption.
  - apply Forall_remove; assumption.
  - intros q ty. rewrite live_pheromones_conj. simpl. unfold remove_agent.
    specialize (inv_one0 q ty). rewrite live_pheromones_conj in inv_one0.
    eapply Nat.le_trans; [apply filter_filter_length | exact inv_one0].
Qed.

Lemma remove_keeps_pheromones (m : Model) (id : Z) :
  keeps_pheromones_except id m (set_agents (remove_agent id (agents m)) m).
Proof.
  intros k a Hne F Hph. exists a. simpl.
  rewrite find_agent_remove_other by assumption. auto.
Qed.

Lemma keeps_pheromones_weaken (self : Z) (m m' : Model) :
  keeps_pheromones m m' -> keeps_pheromones_except self m m'.
Proof. intros H id a _. apply H. Qed.

Lemma keeps_pheromones_except_trans (self : Z) (m1 m2 m3 : Model) :
  keeps_pheromones_except self m1 m2 -> keeps_pheromones_except self m2 m3 ->
  keeps_pheromones_except self m1 m3.
Proof.
  intros H12 H23 id a Hne F H.
  destruct (H12 id a Hne F H) as (a2 & F2 & P2 & T2).
  assert (H2 : is_pheromone a2 = true).
  { unfold is_pheromone. unfold is_pheromone in H.
    pose proof (T2 to_nest) as Tn. pose proof (T2 to_food) as Tf.
    unfold is_pheromone_of in Tn, Tf.
    destruct (body a) as [| | |s0 t0], (body a2); try discriminate; auto;
      destruct t0; discriminate. }
  destruct (H23 id a2 Hne F2 H2) as (a3 & F3 & P3 & T3).
  exists a3. split; [assumption|]. split; [congruence|].
  intros ty. rewrite T3, T2. reflexivity.
Qed.

Lemma step_ok_refl (self : Z) (m : Model) : Inv m -> step_ok self m m.
Proof.
  intros I. split; [assumption|]. split; [|split; [lia | reflexivity]].
  apply keeps_pheromones_weaken, keeps_pheromones_refl.
Qed.

Lemma step_ok_trans (self : Z) (m1 m2 m3 : Model) :
  step_ok self m1 m2 -> step_ok self m2 m3 -> step_ok self m1 m3.
Proof.
  intros (I2 & K2 & D2 & T2) (I3 & K3 & D3 & T3).
  split; [assumption|]. split; [|split; [lia | congruence]].
  eapply keeps_pheromones_except_trans; eassumption.
Qed.

Lemma ant_facts (m : Model) (self : Z) (p : Pos) (r : AntAgent) :
  Shape m -> get_ant m self = Some (p, r) ->
  in_grid (width m) (height m) p /\ home_pos r = nest_pos m.
Proof.
  intros S G. destruct (get_ant_find _ _ _ _ G) as (a & _ & Hin & _ & Hp & Hb).
  pose proof (inv_grid m S) as Hg. pose proof (inv_home m S) as Hh.
  rewrite Forall_forall in Hg, Hh. split.
  - rewrite <- Hp. apply Hg; [assumption|]. unfold is_ant. rewrite Hb. reflexivity.
  - apply (Hh a Hin r Hb).
Qed.

(** *** [move] *)
Lemma move_ok (m : Model) (self : Z) : Inv m -> step_ok self m (move m self).
Proof.
  intros I. unfold move.
  destruct (get_ant m self) as [[current_pos a]|] eqn:G; [|apply step_ok_refl, I].
  destruct (ant_facts m self current_pos a (proj1 I) G) as [Hc Hh].
  destruct (move_branch m a current_pos _) as [[m1 a1] next_pos] eqn:B.
  destruct (move_branch_spec m a current_pos m1 a1 next_pos I Hc B)
    as (T & Hcar & Hhome & Hn).
  pose proof (trail_steps_inv _ _ I T) as [S1 F1].
  pose proof (get_ant_kept _ _ self _ _ (trail_steps_keeps_others _ _ I T) G) as G1.
  destruct (trail_steps_frame _ _ T) as (Ew & Eh & En & Ed & Et & _).
  set (a2 := match last_direction a1 with
             | Some _ => set_last_direction
                           (Some (fst next_pos - fst current_pos,
                                  snd next_pos - snd current_pos)) a1
             | None => set_last_direction (Some (0, 0)) a1
             end).
  assert (Ha2 : carrying_food a2 = carrying_food a /\ home_pos a2 = home_pos a).
  { subst a2. destruct (last_direction a1); simpl; auto. }
  destruct Ha2 as [Hc2 Hh2].
  split; [split|split].
  - apply (put_ant_shape m1 self current_pos next_pos a a2 S1 G1).
    + congruence.
    + rewrite Ew, Eh. exact Hn.
  - destruct (put_ant_food m1 self current_pos next_pos a a2 (inv_ids _ S1) G1)
      as [E1 E2].
    unfold food_balance in *. rewrite E1, E2, Hc2.
    change (food_delivered (put_ant m1 self next_pos a2)) with (food_delivered m1).
    change (total_food (put_ant m1 self next_pos a2)) with (total_food m1).
    lia.
  - apply keeps_pheromones_weaken.
    eapply keeps_pheromones_trans.
    + apply (trail_steps_keeps_pheromones _ _ I T).
    + apply (put_ant_keeps_pheromones m1 self current_pos next_pos a a2 G1).
  - change (food_delivered (put_ant m1 self next_pos a2)) with (food_delivered m1).
    change (total_food (put_ant m1 self next_pos a2)) with (total_food m1).
    split; [lia | assumption].
Qed.

(** *** [pick_up_food] *)
Lemma in_update_other (id : Z) (f : Agent -> Agent) (l : list Agent) (x : Agent) :
  In x l -> unique_id x <> id -> In x (update_agent id f l).
Proof.
  intros Hin Hne. unfold update_agent. apply in_map_iff. exists x.
  destruct (Z.eqb_spec (unique_id x) id); [contradiction | auto].
Qed.

Lemma remove_other_keeps_pheromones (m : Model) (x : Agent) :
  unique_ids m -> In x (agents m) -> is_pheromone x = false ->
  keeps_pheromones m (set_agents (remove_agent (unique_id x) (agents m)) m).
Proof.
  intros Hnd Hin Hx id a F Hph. exists a. simpl.
  rewrite find_agent_remove_other; auto.
  intros ->. rewrite (find_agent_in _ _ Hnd Hin) in F. injection F as <-.
  congruence.
Qed.

Lemma pick_up_food_spec (m : Model) (self : Z) (p : Pos) (a : AntAgent) :
  Inv m -> get_ant m self = Some (p, a) ->
  let m' := snd (pick_up_food m self) in
  step_ok self m m'
  /\ (fst (pick_up_food m self) = true ->
      carrying_food a = false
      /\ live_food m' = live_food m - 1
      /\ get_ant m' self
         = Some (p, set_last_food_pos (Some p) (set_carrying_food true a)))
  /\ (fst (pick_up_food m self) = false -> m' = m).
Proof.
  intros I G m'. subst m'. unfold pick_up_food. rewrite G.
  destruct (carrying_food a) eqn:C; cbn [negb fst snd].
  { split; [apply step_ok_refl, I|]. split; [discriminate | reflexivity]. }
  destruct (find is_food (get_cell_list_contents m p)) as [agent|] eqn:F;
    cbv zeta; cbn [fst snd].
  2:{ split; [apply step_ok_refl, I|]. split; [discriminate | reflexivity]. }
  destruct I as [S Fd].
  destruct (ant_facts m self p a S G) as [Hp Hh].
  apply find_some in F. destruct F as [Hin Hfood].
  unfold get_cell_list_contents in Hin. apply filter_In in Hin.
  destruct Hin as [Hin _].
  destruct (get_ant_find _ _ _ _ G) as (x & Fx & Hx & Hid & _ & Hb).
  assert (Hne : unique_id agent <> self).
  { intros E. assert (agent = x) by (apply (in_same_id m); try apply S; congruence).
    subst x. unfold is_food in Hfood. rewrite Hb in Hfood. discriminate. }
  set (a' := set_last_food_pos (Some p) (set_carrying_food true a)).
  pose proof (put_ant_shape m self p p a a' S G Hh Hp) as S1.
  destruct (put_ant_food m self p p a a' (inv_ids _ S) G) as [E1 E2].
  assert (Hin1 : In agent (agents (put_ant m self p a'))).
  { unfold put_ant; simpl. apply in_update_other; assumption. }
  assert (El : live_food (set_agents
                 (remove_agent (unique_id agent) (agents (put_ant m self p a')))
                 (put_ant m self p a')) = live_food m - 1).
  { unfold live_food. simpl agents at 1.
    rewrite (count_if_remove _ _ agent (inv_ids _ S1) Hin1).
    fold (live_food (put_ant m self p a')). rewrite E1, Hfood. reflexivity. }
  split; [split; [split|split]|split].
  - apply remove_shape. exact S1.
  - unfold food_balance in *. rewrite El.
    unfold carrying_ants. simpl agents at 1.
    rewrite (count_if_remove _ _ agent (inv_ids _ S1) Hin1).
    fold (carrying_ants (put_ant m self p a')). rewrite E2.
    assert (Hnc : ant_with carrying_food agent = false).
    { unfold ant_with. unfold is_food in Hfood.
      destruct (body agent); try discriminate; reflexivity. }
    rewrite Hnc, C. simpl. lia.
  - apply keeps_pheromones_weaken. eapply keeps_pheromones_trans.
    + apply (put_ant_keeps_pheromones m self p p a a' G).
    + apply remove_other_keeps_pheromones; [apply S1 | exact Hin1 |].
      unfold is_pheromone. unfold is_food in Hfood.
      destruct (body agent); try discriminate; reflexivity.
  - simpl. split; [lia | reflexivity].
  - intros _. split; [reflexivity|]. split; [exact El|].
    unfold get_ant. simpl agents.
    rewrite find_agent_remove_other by auto.
    rewrite find_agent_update_same by reflexivity.
    rewrite Fx. reflexivity.
  - discriminate.
Qed.

(** *** [drop_food_at_nest] *)
Lemma drop_food_at_nest_ok (m : Model) (self : Z) :
  Inv m -> step_ok self m (snd (drop_food_at_nest m self)).
Proof.
  intros I. unfold drop_food_at_nest.
  destruct (get_ant m self) as [[p a]|] eqn:G; [|apply step_ok_refl, I].
  destruct (carrying_food a) eqn:C; [|apply step_ok_refl, I].
  destruct (at_or_adjacent p (home_pos a)); [|apply step_ok_refl, I].
  simpl. destruct I as [S Fd].
  destruct (ant_facts m self p a S G) as [Hp Hh].
  set (a1 := set_exploration_cooldown 5 _).
  pose proof (put_ant_shape m self p p a a1 S G Hh Hp) as S1.
  destruct (put_ant_food m self p p a a1 (inv_ids _ S) G) as [E1 E2].
  split; [split|split].
  - destruct S1. constructor; assumption.
  - unfold food_balance in *.
    change (live_food (set_food_delivered (food_delivered m + 1)
                         (put_ant m self p a1)))
      with (live_food (put_ant m self p a1)).
    change (carrying_ants (set_food_delivered (food_delivered m + 1)
                             (put_ant m self p a1)))
      with (carrying_ants (put_ant m self p a1)).
    rewrite E1, E2, C. simpl. lia.
  - apply keeps_pheromones_weaken.
    intros id x F Hph.
    apply (put_ant_keeps_pheromones m self p p a a1 G id x F Hph).
  - simpl. split; [lia | reflexivity].
Qed.

(** *** [AntAgent.step] *)
Lemma AntAgent_step_ok (m : Model) (self : Z) :
  Inv m -> step_ok self m (AntAgent_step m self).
Proof.
  intros I. unfold AntAgent_step.
  set (m1 := if negb (carrying m self) then snd (pick_up_food m self) else m).
  assert (H1 : step_ok self m m1).
  { subst m1. destruct (negb (carrying m self)); [|apply step_ok_refl, I].
    destruct (get_ant m self) as [[p a]|] eqn:G.
    - apply (pick_up_food_spec m self p a I G).
    - unfold pick_up_food. rewrite G. apply step_ok_refl, I. }
  assert (H2 : step_ok self m1 (move m1 self)) by (apply move_ok, H1).
  eapply step_ok_trans; [exact H1|]. eapply step_ok_trans; [exact H2|].
  destruct (carrying (move m1 self) self).
  - apply drop_food_at_nest_ok, H2.
  - apply step_ok_refl, H2.
Qed.

(** *** [PheromoneAgent.step] *)
Lemma PheromoneAgent_step_ok (m : Model) (self : Z) :
  Inv m -> step_ok self m (PheromoneAgent_step m self).
Proof.
  intros I. unfold PheromoneAgent_step.
  destruct (find_agent (agents m) self) as [a|] eqn:F; [|apply step_ok_refl, I].
  destruct (body a) as [| | |s ty] eqn:B; try (apply step_ok_refl, I).
  destruct (find_agent_some _ _ _ F) as [Hin Hid].
  set (s' := (s * evaporation m ty)%R).
  assert (T : trail_step m
                (set_agents (update_agent self (reinforce s' ty) (agents m)) m)).
  { rewrite <- Hid. apply ts_reinforce; [assumption|].
    unfold is_pheromone_of. rewrite B. destruct ty; reflexivity. }
  pose proof (trail_step_inv _ _ I T) as I1.
  pose proof (trail_step_keeps_pheromones _ _ (inv_ids _ (proj1 I)) T) as K1.
  change (fun a0 : Agent => mkAgent (unique_id a0) (pos a0) (Pheromone s' ty))
    with (reinforce s' ty).
  assert (H1 : step_ok self m
                 (set_agents (update_agent self (reinforce s' ty) (agents m)) m)).
  { split; [assumption|]. split; [apply keeps_pheromones_weaken, K1 |].
    simpl. split; [lia | reflexivity]. }
  destruct (Rltb s' 0.05); [|exact H1].
  eapply step_ok_trans; [exact H1|].
  set (m1 := set_agents (update_agent self (reinforce s' ty) (agents m)) m) in *.
  destruct I1 as [S1 F1].
  assert (F' : find_agent (agents m1) self = Some (reinforce s' ty a)).
  { subst m1; simpl. rewrite find_agent_update_same by reflexivity.
    rewrite F. reflexivity. }
  destruct (find_agent_some _ _ _ F') as [Hin' Hid'].
  split; [split|split].
  - apply remove_shape, S1.
  - pose proof (count_if_remove is_food _ _ (inv_ids _ S1) Hin') as C1.
    pose proof (count_if_remove (ant_with carrying_food) _ _
                  (inv_ids _ S1) Hin') as C2.
    rewrite Hid' in C1, C2.
    change (is_food (reinforce s' ty a)) with false in C1.
    change (ant_with carrying_food (reinforce s' ty a)) with false in C2.
    simpl b2z in C1, C2.
    unfold food_balance, live_food, carrying_ants in *.
    change (agents (set_agents (remove_agent self (agents m1)) m1))
      with (remove_agent self (agents m1)).
    rewrite C1, C2.
    change (food_delivered (set_agents (remove_agent self (agents m1)) m1))
      with (food_delivered m1).
    change (total_food (set_agents (remove_agent self (agents m1)) m1))
      with (total_food m1).
    lia.
  - apply remove_keeps_pheromones.
  - simpl. split; [lia | reflexivity].
Qed.

(** ** Sub-steps and ticks *)

(** The invariant only reads the grid size, the nest, the counters of
    identifiers and food, and the agent table. *)
Lemma Inv_same_core (m m' : Model) :
  width m' = width m -> height m' = height m -> nest_pos m' = nest_pos m ->
  next_id_value m' = next_id_value m ->
  food_delivered m' = food_delivered m -> total_food m' = total_food m ->
  agents m' = agents m ->
  Inv m -> Inv m'.
Proof.
  intros Ew Eh En Ei Ed Et Ea [S F]. destruct S. split.
  - constructor;
      unfold unique_ids, ids_issued, at_most_one_pheromone, live_pheromones,
        get_cell_list_contents in *;
      rewrite ?Ew, ?Eh, ?En, ?Ei, ?Ea; assumption.
  - unfold food_balance, live_food, carrying_ants in *.
    rewrite Ea, Ed, Et. assumption.
Qed.

Lemma agent_step_ok (m : Model) (key : Z) :
  Inv m -> step_ok key m (fst (agent_step m key)).
Proof.
  intros I. unfold agent_step.
  destruct (find_agent (agents m) key) as [a|]; [|apply step_ok_refl, I].
  destruct (body a); simpl.
  - apply AntAgent_step_ok, I.
  - apply step_ok_refl, I.
  - apply step_ok_refl, I.
  - apply PheromoneAgent_step_ok, I.
Qed.

Lemma run_keys_cons (key : Z) (keys : list Z) (st : Model * list Event) :
  run_keys (key :: keys) st
  = run_keys keys
      (fst (agent_step (fst st) key), snd st ++ snd (agent_step (fst st) key)).
Proof.
  unfold run_keys. simpl. destruct (agent_step (fst st) key). reflexivity.
Qed.

Lemma run_keys_inv (keys : list Z) (st : Model * list Event) :
  Inv (fst st) ->
  Inv (fst (run_keys keys st))
  /\ food_delivered (fst st) <= food_delivered (fst (run_keys keys st))
  /\ total_food (fst (run_keys keys st)) = total_food (fst st).
Proof.
  revert st. induction keys as [|key keys IH]; intros st I.
  - simpl. split; [assumption | split; [lia | reflexivity]].
  - rewrite run_keys_cons.
    destruct (agent_step_ok (fst st) key I) as (I1 & _ & D1 & T1).
    destruct (IH (fst (agent_step (fst st) key),
                  snd st ++ snd (agent_step (fst st) key)) I1) as (I2 & D2 & T2).
    simpl in D2, T2. split; [exact I2 | split; [lia | congruence]].
Qed.

Lemma schedule_step_inv (m : Model) :
  Inv m ->
  Inv (schedule_step m)
  /\ food_delivered m <= food_delivered (schedule_step m)
  /\ total_food (schedule_step m) = total_food m.
Proof.
  intros I. unfold schedule_step, schedule_step_trace.
  destruct (shuffle (random m) (map unique_id (agents m))) as [keys g].
  apply (run_keys_inv keys (set_random g m, [])). simpl.
  eapply Inv_same_core; [..|exact I]; reflexivity.
Qed.

Lemma sub_step_inv (m : Model) :
  Inv m ->
  Inv (sub_step m)
  /\ food_delivered m <= food_delivered (sub_step m)
  /\ total_food (sub_step m) = total_food m.
Proof.
  intros I. destruct (schedule_step_inv m I) as (I1 & D1 & T1).
  unfold sub_step. split; [|split; simpl; assumption].
  eapply Inv_same_core; [..|exact I1]; reflexivity.
Qed.

Lemma iter_sub_step_inv (n : nat) (m : Model) :
  Inv m ->
  Inv (Nat.iter n sub_step m)
  /\ food_delivered m <= food_delivered (Nat.iter n sub_step m)
  /\ total_food (Nat.iter n sub_step m) = total_food m.
Proof.
  intros I. induction n as [|n IH].
  - simpl. split; [assumption | split; [lia | reflexivity]].
  - change (Nat.iter (S n) sub_step m) with (sub_step (Nat.iter n sub_step m)).
    destruct IH as (I1 & D1 & T1).
    destruct (sub_step_inv _ I1) as (I2 & D2 & T2).
    split; [assumption|]. split; [lia | congruence].
Qed.

Lemma step_inv (m m' : Model) :
  Inv m -> step m = Some m' ->
  Inv m' /\ food_delivered m <= food_delivered m'
  /\ total_food m' = total_food m.
Proof.
  intros I. unfold step.
  destruct (_lifespan_to_evaporation _ _ _) as [n|]; [|discriminate].
  destruct (_lifespan_to_evaporation _ _ _) as [f|]; [|discriminate].
  intros E. injection E as <-.
  match goal with
  | |- context [Nat.iter ?k sub_step ?x] =>
      assert (I1 : Inv x) by (eapply Inv_same_core; [..|exact I]; reflexivity);
      destruct (iter_sub_step_inv k x I1) as (I2 & D2 & T2)
  end.
  split; [|split].
  - eapply Inv_same_core; [..|exact I2]; reflexivity.
  - exact D2.
  - exact T2.
Qed.

(** ** The constructor establishes the invariant *)

Lemma fold_left_preserves {A B : Type} (P : A -> Prop) (f : A -> B -> A)
  (l : list B) (a : A) :
  (forall acc x, P acc -> P (f acc x)) -> P a -> P (fold_left f l a).
Proof.
  intros Hf. revert a. induction l as [|x l IH]; simpl; auto.
Qed.

Lemma iter_preserves {A : Type} (P : A -> Prop) (f : A -> A) (n : nat) (a : A) :
  (forall x, P x -> P (f x)) -> P a -> P (Nat.iter n f a).
Proof.
  intros Hf Ha. induction n as [|n IH]; [exact Ha|].
  change (Nat.iter (S n) f a) with (f (Nat.iter n f a)). auto.
Qed.

(** A new agent that is not a pheromone, under the next identifier. *)
Lemma add_agent_shape (m m' : Model) (p : Pos) (b : Body) :
  Shape m ->
  (forall r, b = Ant r ->
     in_grid (width m) (height m) p /\ home_pos r = nest_pos m) ->
  (forall s ty, b <> Pheromone s ty) ->
  width m' = width m -> height m' = height m -> nest_pos m' = nest_pos m ->
  next_id_value m' = next_id_value m + 1 ->
  agents m' = agents m ++ [mkAgent (next_id_value m + 1) p b] ->
  Shape m'.
Proof.
  intros S Hant Hnp Ew Eh En Ei Ea. destruct S.
  constructor; unfold unique_ids, ids_issued in *;
    rewrite ?Ew, ?Eh, ?En, ?Ei, ?Ea; try assumption.
  - rewrite map_app. simpl.
    apply NoDup_app; [assumption | repeat constructor; simpl; tauto |].
    intros x Hx [<- | []].
    apply in_map_iff in Hx. destruct Hx as [y [Ey Hy]].
    rewrite Forall_forall in inv_issued0.
    specialize (inv_issued0 y Hy). lia.
  - apply Forall_app. split.
    + eapply Forall_impl; [|exact inv_issued0]. simpl. intros; lia.
    + apply Forall_cons; [simpl; lia | apply Forall_nil].
  - apply Forall_app. split; [assumption|].
    apply Forall_cons; [|apply Forall_nil]. unfold is_ant; simpl.
    destruct b; try discriminate. intros _. apply (Hant a eq_refl).
  - apply Forall_app. split; [assumption|].
    apply Forall_cons; [|apply Forall_nil]. simpl.
    intros r ->. apply (Hant r eq_refl).
  - apply Forall_app. split; [assumption|].
    apply Forall_cons; [|apply Forall_nil]. unfold is_pheromone; simpl.
    destruct b; try discriminate. exfalso. eapply Hnp; reflexivity.
  - intros q ty.
    rewrite (live_pheromones_created m m' _ q ty Ea).
    replace (is_pheromone_of ty (mkAgent (next_id_value m + 1) p b)) with false.
    + rewrite andb_false_r, app_nil_r. apply inv_one0.
    + unfold is_pheromone_of; simpl. destruct b; try reflexivity.
      exfalso. eapply Hnp; reflexivity.
Qed.

Lemma add_agent_counts (m m' : Model) (x : Agent) :
  agents m' = agents m ++ [x] ->
  live_food m' = live_food m + b2z (is_food x)
  /\ carrying_ants m' = carrying_ants m + b2z (ant_with carrying_food x).
Proof.
  intros Ea. unfold live_food, carrying_ants. rewrite Ea, !count_if_app.
  rewrite !count_if_cons, !count_if_nil. split; lia.
Qed.

Lemma new_ant_inv (st : Model * Rng) :
  Inv (fst st) -> Inv (fst (new_ant st)).
Proof.
  destruct st as [m np]. intros I. change (fst (m, np)) with m in I.
  destruct I as [S F]. unfold new_ant, next_id. cbv beta iota zeta.
  match goal with
  | |- context [AntAgent_init np ?x] =>
      destruct (AntAgent_init np x) as [ant np'] eqn:Ea
  end.
  destruct (randint _ _ _) as [rx g1]. destruct (randint g1 _ _) as [ry g2].
  cbn [fst].
  assert (Hant : carrying_food ant = false /\ home_pos ant = nest_pos m).
  { unfold AntAgent_init in Ea. destruct (randrange np 8).
    injection Ea as <- _. split; reflexivity. }
  destruct Hant as [Hc Hh].
  match goal with |- Inv ?x => set (m' := x) end.
  set (p := ((fst (nest_pos m) + rx) mod width m,
             (snd (nest_pos m) + ry) mod height m)).
  assert (Eag : agents m' = agents m ++ [mkAgent (next_id_value m + 1) p (Ant ant)])
    by reflexivity.
  split.
  - apply (add_agent_shape m m' p (Ant ant) S); try reflexivity.
    + intros r Hr. injection Hr as <-. split; [|exact Hh].
      apply (wrap_in_grid (width m) (height m) (_, _)); apply S.
    + intros s ty. discriminate.
  - destruct (add_agent_counts m m' _ Eag) as [E1 E2].
    unfold food_balance in *. rewrite E1, E2.
    change (is_food (mkAgent (next_id_value m + 1) p (Ant ant))) with false.
    change (ant_with carrying_food (mkAgent (next_id_value m + 1) p (Ant ant)))
      with (carrying_food ant).
    rewrite Hc. simpl b2z.
    change (food_delivered m') with (food_delivered m).
    change (total_food m') with (total_food m). lia.
Qed.

Lemma new_food_inv (p : Pos) (m : Model) : Inv m -> Inv (new_food p m).
Proof.
  intros [S F]. unfold new_food, next_id.
  match goal with |- Inv ?x => set (m' := x) end.
  assert (Eag : agents m' = agents m ++ [mkAgent (next_id_value m + 1) p Food])
    by reflexivity.
  split.
  - apply (add_agent_shape m m' p Food S); try reflexivity; discriminate.
  - destruct (add_agent_counts m m' _ Eag) as [E1 E2].
    unfold food_balance in *. rewrite E1, E2.
    change (is_food (mkAgent (next_id_value m + 1) p Food)) with true.
    change (ant_with carrying_food (mkAgent (next_id_value m + 1) p Food))
      with false.
    simpl b2z.
    change (food_delivered m') with (food_delivered m).
    change (total_food m') with (total_food m + 1). lia.
Qed.

Lemma fill_pile_inv (center : Pos) (food_per_cell : Z) (m : Model) :
  Inv m -> Inv (fill_pile center food_per_cell m).
Proof.
  intros I. unfold fill_pile.
  apply fold_left_preserves; [|exact I]. intros acc dx Iacc.
  apply fold_left_preserves; [|exact Iacc]. intros acc' dy Iacc'.
  destruct (dx * dx + dy * dy <=? 4); [|exact Iacc'].
  apply iter_preserves; [|exact Iacc']. intros x. apply new_food_inv.
Qed.

Lemma pick_pile_inv (fuel : nat) (m : Model) (min_dist : Z) (c : Pos)
  (m' : Model) :
  Inv m -> pick_pile fuel m min_dist = Some (c, m') -> Inv m'.
Proof.
  revert m m'. induction fuel as [|fuel IH]; intros m m' I; cbn [pick_pile];
    [discriminate|].
  destruct (randrange (random m) (width m)) as [x g1].
  destruct (randrange g1 (height m)) as [y g2].
  assert (I1 : Inv (set_random g2 m))
    by (eapply Inv_same_core; [..|exact I]; reflexivity).
  destruct (Rltb _ _).
  - intros E. injection E as _ <-. exact I1.
  - apply IH. exact I1.
Qed.

Lemma place_piles_inv (fuel n : nat) (pile_size : Z) (m m' : Model) :
  Inv m -> place_piles fuel n pile_size m = Some m' -> Inv m'.
Proof.
  revert m. induction n as [|n IH]; intros m I; simpl.
  - intros E. injection E as <-. exact I.
  - destruct (pick_pile fuel m _) as [[c m1]|] eqn:P; [|discriminate].
    apply IH. apply fill_pile_inv. eapply pick_pile_inv; eassumption.
Qed.

Lemma pick_pile_frame (fuel : nat) (m : Model) (min_dist : Z) (c : Pos)
  (m' : Model) :
  pick_pile fuel m min_dist = Some (c, m') ->
  food_delivered m' = food_delivered m /\ carrying_ants m' = carrying_ants m.
Proof.
  revert m m'. induction fuel as [|fuel IH]; intros m m'; cbn [pick_pile];
    [discriminate|].
  destruct (randrange (random m) (width m)) as [x g1].
  destruct (randrange g1 (height m)) as [y g2].
  destruct (Rltb _ _).
  - intros E. injection E as _ <-. split; reflexivity.
  - intros E. apply IH in E. exact E.
Qed.

Lemma fill_pile_frame (center : Pos) (food_per_cell : Z) (m : Model) :
  food_delivered (fill_pile center food_per_cell m) = food_delivered m
  /\ carrying_ants (fill_pile center food_per_cell m) = carrying_ants m.
Proof.
  unfold fill_pile.
  set (Q := fun x => food_delivered x = food_delivered m
                     /\ carrying_ants x = carrying_ants m).
  apply (fold_left_preserves Q); [|split; reflexivity].
  intros acc dx Hacc. apply (fold_left_preserves Q); [|exact Hacc].
  intros acc' dy Hacc'. destruct (dx * dx + dy * dy <=? 4); [|exact Hacc'].
  apply (iter_preserves Q); [|exact Hacc'].
  intros x [Hx1 Hx2]. unfold new_food, next_id.
  match goal with |- Q ?y => set (m' := y) end.
  destruct (add_agent_counts x m' _ eq_refl) as [_ E2'].
  split; [exact Hx1|]. rewrite E2'. rewrite Hx2.
  unfold ant_with. simpl. lia.
Qed.

Lemma place_piles_frame (fuel n : nat) (pile_size : Z) (m m' : Model) :
  place_piles fuel n pile_size m = Some m' ->
  food_delivered m' = food_delivered m /\ carrying_ants m' = carrying_ants m.
Proof.
  revert m. induction n as [|n IH]; intros m; simpl.
  - intros E. injection E as <-. auto.
  - destruct (pick_pile fuel m _) as [[c m1]|] eqn:Pk; [|discriminate].
    intros E. apply IH in E. destruct E as [E1 E2]. rewrite E1, E2.
    destruct (pick_pile_frame _ _ _ _ _ Pk) as [<- <-].
    apply fill_pile_frame.
Qed.

Lemma initial_inv (m0 : Model) :
  initial m0 -> Inv m0 /\ food_delivered m0 = 0 /\ carrying_ants m0 = 0.
Proof.
  intros (w & h & n & piles & size & speed & tn & tf & g & np & fuel & np'
          & Hw & Hh & E).
  unfold init in E.
  destruct (_lifespan_to_evaporation _ _ tn) as [en|]; [|discriminate].
  destruct (_lifespan_to_evaporation _ _ tf) as [ef|]; [|discriminate].
  unfold next_id in E. cbv zeta in E.
  match type of E with
  | context [Nat.iter _ new_ant (?x, np)] => set (m2 := x) in *
  end.
  assert (I2 : Inv m2).
  { split.
    - constructor; simpl; auto.
      + repeat constructor. simpl. tauto.
      + apply Forall_cons; [simpl; lia | apply Forall_nil].
      + apply Forall_cons; [discriminate | apply Forall_nil].
      + apply Forall_cons; [discriminate | apply Forall_nil].
      + apply Forall_cons; [discriminate | apply Forall_nil].
      + intros q ty. unfold live_pheromones, get_cell_list_contents. simpl.
        destruct (pos_eqb _ q); simpl; lia.
    - reflexivity. }
  assert (I3 : Inv (fst (Nat.iter (Z.to_nat n) new_ant (m2, np)))
               /\ food_delivered (fst (Nat.iter (Z.to_nat n) new_ant (m2, np))) = 0
               /\ carrying_ants (fst (Nat.iter (Z.to_nat n) new_ant (m2, np))) = 0
               /\ live_food (fst (Nat.iter (Z.to_nat n) new_ant (m2, np))) = 0).
  { apply (iter_preserves
             (fun st => Inv (fst st) /\ food_delivered (fst st) = 0
                        /\ carrying_ants (fst st) = 0 /\ live_food (fst st) = 0)).
    - intros st (I & D & C & L). split; [apply new_ant_inv, I|].
      destruct st as [m np0]. unfold new_ant, next_id. cbv beta iota zeta.
      match goal with
      | |- context [AntAgent_init np0 ?x] =>
          destruct (AntAgent_init np0 x) as [ant np1] eqn:Ea
      end.
      destruct (randint _ _ _) as [rx g1]. destruct (randint g1 _ _) as [ry g2].
      cbn [fst] in *.
      assert (Hc : carrying_food ant = false).
      { unfold AntAgent_init in Ea. destruct (randrange np0 8).
        injection Ea as <- _. reflexivity. }
      split; [exact D|].
      match goal with |- carrying_ants ?x = 0 /\ _ => set (m' := x) end.
      destruct (add_agent_counts m m' _ eq_refl) as [E1 E2].
      rewrite E1, E2, C, L. unfold ant_with, is_food. simpl. rewrite Hc. auto.
    - simpl. split; [exact I2|]. repeat split. }
  destruct (Nat.iter (Z.to_nat n) new_ant (m2, np)) as [m3 np3].
  simpl fst in I3. destruct I3 as (I3 & D3 & C3 & L3).
  unfold place_food in E.
  destruct (place_piles fuel (Z.to_nat piles) size m3) as [m4|] eqn:P; [|discriminate].
  injection E as <- _.
  pose proof (place_piles_inv _ _ _ _ _ I3 P) as I4.
  split; [exact I4|].
  destruct (place_piles_frame _ _ _ _ _ P) as [E1 E2]. split; congruence.
Qed.

(** ** Runs *)

Lemma reachable_inv (m0 m : Model) :
  initial m0 -> reachable_from m0 m ->
  Inv m /\ total_food m = total_food m0
  /\ food_delivered m0 <= food_delivered m.
Proof.
  intros H0 R. induction R as [|m R IH|m key R IH|m R IH|m m' R IH E].
  - destruct (initial_inv m0 H0) as (I & _). split; [exact I|]. split; [reflexivity | lia].
  - destruct IH as (I & T & D). split; [|split; assumption].
    eapply Inv_same_core; [..|exact I]; reflexivity.
  - destruct IH as (I & T & D).
    destruct (agent_step_ok m key I) as (I1 & _ & D1 & T1).
    split; [exact I1|]. split; [congruence | lia].
  - destruct IH as (I & T & D).
    destruct (sub_step_inv m I) as (I1 & D1 & T1).
    split; [exact I1|]. split; [congruence | lia].
  - destruct IH as (I & T & D).
    destruct (step_inv m m' I E) as (I1 & D1 & T1).
    split; [exact I1|]. split; [congruence | lia].
Qed.

(** [C5] Applying a deposit value at a cell.  If a pheromone of the type is
    already there its strength becomes [min(3.0, existing + value * 0.5)],
    which is at most 3.0, and no agent is created; if none is there, a
    pheromone of strength [value] is created exactly when [value >= 0.2];
    in both cases at most one live pheromone per (position, type) remains,
    and at every state of a run there is at most one. *)
Theorem add_or_reinforce_pheromone_spec (m : Model) (p : Pos) (value : R)
  (ty : PheromoneType) :
  unique_ids m ->
  let m' := _add_or_reinforce_pheromone m p value ty in
  (forall s, strength_at m p ty = Some s ->
     strength_at m' p ty = Some (Rmin 3.0 (s + value * 0.5))
     /\ (Rmin 3.0 (s + value * 0.5) <= 3.0)%R
     /\ map unique_id (agents m') = map unique_id (agents m))
  /\ (strength_at m p ty = None ->
      ((0.2 <= value)%R ->
         agents m'
         = agents m ++ [mkAgent (next_id_value m + 1) p (Pheromone value ty)]
         /\ strength_at m' p ty = Some value)
      /\ ((value < 0.2)%R -> m' = m))
  /\ (at_most_one_pheromone m -> at_most_one_pheromone m')
  /\ (forall m0, initial m0 -> reachable_from m0 m -> at_most_one_pheromone m).
Proof.
  intros Hnd m'. subst m'. split; [|split; [|split]].
  - intros s Hs. unfold strength_at in Hs.
    destruct (find (is_pheromone_of ty) (get_cell_list_contents m p))
      as [agent|] eqn:F.
    + destruct (find_in_cell _ _ _ _ F) as (Hin & Hp & Hty & Hhd).
      rewrite Hhd in Hs. simpl in Hs. injection Hs as <-.
      rewrite (add_or_reinforce_found _ _ _ _ _ F). split; [|split].
      * unfold strength_at. rewrite live_pheromones_reinforced by assumption.
        destruct (live_pheromones m p ty) as [|x l]; [discriminate|].
        simpl in Hhd. injection Hhd as ->. simpl.
        rewrite Z.eqb_refl. reflexivity.
      * apply Rmin_l.
      * simpl. apply update_agent_ids. reflexivity.
    + rewrite find_hd_filter in F. fold (live_pheromones m p ty) in F.
      rewrite F in Hs. discriminate.
  - intros Hs.
    assert (F : find (is_pheromone_of ty) (get_cell_list_contents m p) = None).
    { rewrite find_hd_filter. fold (live_pheromones m p ty).
      unfold strength_at in Hs.
      destruct (hd_error (live_pheromones m p ty)); [discriminate | reflexivity]. }
    split.
    + intros Hv. rewrite (add_or_reinforce_created _ _ _ _ F Hv).
      split; [reflexivity|].
      unfold strength_at.
      rewrite (live_pheromones_created m _
                 (mkAgent (next_id_value m + 1) p (Pheromone value ty)))
        by reflexivity. simpl pos. rewrite pos_eqb_refl.
      rewrite find_hd_filter in F. fold (live_pheromones m p ty) in F.
      destruct (live_pheromones m p ty); [|discriminate]. simpl.
      unfold is_pheromone_of; simpl.
      destruct ty; reflexivity.
    + intros Hv. apply add_or_reinforce_discarded; assumption.
  - apply at_most_one_add_or_reinforce; assumption.
  - intros m0 H0 R. apply (reachable_inv m0 m H0 R).
Qed.

(** [C8] [drop_food_at_nest] for an ant of the table.  A carrying ant drops
    exactly when it is within Chebyshev distance 1 of the nest (plain
    coordinates, which for a nest in the centre of the grid is the distance
    on the torus); then it no longer carries, the delivered counter is one
    higher, the cooldown is 5 and [returning_to_food] is set.  Otherwise,
    and for an ant that does not carry, the model is unchanged.  The
    counter never decreases, neither in the call nor in any activation or
    tick of a run. *)
Theorem drop_food_at_nest_spec (m : Model) (self : Z) (p : Pos) (a : AntAgent) :
  get_ant m self = Some (p, a) ->
  let dropped := fst (drop_food_at_nest m self) in
  let m' := snd (drop_food_at_nest m self) in
  (carrying_food a = false -> dropped = false /\ m' = m)
  /\ (carrying_food a = true ->
      (dropped = true <-> chebyshev p (home_pos a) <= 1)
      /\ (dropped = true ->
          get_ant m' self
          = Some (p, mkAnt false (direction a) (home_pos a) (last_direction a)
                       (detection_radius a) (last_food_pos a) true
                       (following_pheromones a) true 5)
          /\ food_delivered m' = food_delivered m + 1)
      /\ (dropped = false -> m' = m))
  /\ food_delivered m <= food_delivered m'
  /\ (in_grid (width m) (height m) p ->
      home_pos a = (width m / 2, height m / 2) ->
      torus_chebyshev (width m) (height m) p (home_pos a)
      = chebyshev p (home_pos a))
  /\ (Inv m ->
      (forall key, food_delivered m <= food_delivered (fst (agent_step m key)))
      /\ food_delivered m <= food_delivered (sub_step m)
      /\ (forall m1, step m = Some m1 -> food_delivered m <= food_delivered m1)).
Proof.
  intros G dropped m'. subst dropped m'.
  assert (Hrun : Inv m ->
            (forall key,
               food_delivered m <= food_delivered (fst (agent_step m key)))
            /\ food_delivered m <= food_delivered (sub_step m)
            /\ (forall m1, step m = Some m1 ->
                  food_delivered m <= food_delivered m1)).
  { intros I. split; [|split].
    - intros key. apply (agent_step_ok m key I).
    - apply (sub_step_inv m I).
    - intros m1 E. apply (step_inv m m1 I E). }
  assert (Htorus : in_grid (width m) (height m) p ->
            home_pos a = (width m / 2, height m / 2) ->
            torus_chebyshev (width m) (height m) p (home_pos a)
            = chebyshev p (home_pos a))
    by (intros Hg ->; apply torus_chebyshev_center; assumption).
  unfold drop_food_at_nest. rewrite G.
  destruct (carrying_food a) eqn:C.
  - destruct (at_or_adjacent p (home_pos a)) eqn:A; cbn [fst snd].
    + apply at_or_adjacent_chebyshev in A.
      split; [discriminate|]. split; [|split; [simpl; lia | auto]].
      intros _. split; [tauto|]. split; [|discriminate].
      intros _. split; [|reflexivity].
      unfold get_ant, put_ant; simpl.
      rewrite find_agent_update_same by auto.
      unfold get_ant in G.
      destruct (find_agent (agents m) self); [|discriminate]. reflexivity.
    + assert (~ chebyshev p (home_pos a) <= 1).
      { rewrite <- at_or_adjacent_chebyshev. congruence. }
      split; [discriminate|]. split; [|split; [lia | auto]].
      intros _. split; [split; [discriminate | tauto]|].
      split; [discriminate | reflexivity].
  - cbn [fst snd]. split; [auto|]. split; [discriminate|].
    split; [lia | auto].
Qed.

(** [C9] At every state of a run, the food units on the grid, the delivered
    counter and the ants that carry add up to the food units placed at the
    start; and a pick-up takes exactly one food unit off the grid, makes
    the ant carry and records the cell in [last_food_pos]. *)
Theorem food_conservation (m0 m : Model) :
  initial m0 -> reachable_from m0 m ->
  live_food m0 = total_food m0
  /\ live_food m + food_delivered m + carrying_ants m = live_food m0
  /\ (forall self p a,
        get_ant m self = Some (p, a) ->
        fst (pick_up_food m self) = true ->
        carrying_food a = false
        /\ live_food (snd (pick_up_food m self)) = live_food m - 1
        /\ get_ant (snd (pick_up_food m self)) self
           = Some (p, set_last_food_pos (Some p) (set_carrying_food true a))).
Proof.
  intros H0 R.
  destruct (initial_inv m0 H0) as ([_ F0] & D0 & C0).
  destruct (reachable_inv m0 m H0 R) as (I & T & _).
  assert (E0 : live_food m0 = total_food m0).
  { unfold food_balance in F0. lia. }
  split; [exact E0|]. split.
  - destruct I as [_ F]. unfold food_balance in F. lia.
  - intros self p a G Hpick.
    destruct (pick_up_food_spec m self p a I G) as (_ & Hyes & _).
    apply Hyes. exact Hpick.
Qed.

Lemma dist_ge_3 (p q : Pos) : 9 <= dist2 p q -> (3 <= dist p q)%R.
Proof.
  intros H. unfold dist.
  replace 3%R with (sqrt (3 * 3)) by (apply sqrt_square; lra).
  apply sqrt_le_1_alt. apply IZR_le in H. lra.
Qed.

(** [C10] At every state of a run, every live pheromone lies in a cell at
    Euclidean distance at least 3 from the nest. *)
Theorem pheromones_far_from_nest (m0 m : Model) :
  initial m0 -> reachable_from m0 m ->
  forall a, In a (agents m) -> is_pheromone a = true ->
    (3 <= dist (pos a) (nest_pos m))%R.
Proof.
  intros H0 R a Hin Hph.
  destruct (reachable_inv m0 m H0 R) as ([S _] & _).
  pose proof (inv_far m S) as Hfar. rewrite Forall_forall in Hfar.
  apply dist_ge_3. apply Hfar; assumption.
Qed.

(** ** The shuffle is a permutation *)

Lemma set_nth_perm {A : Type} (x : list A) (i : nat) (u v : A) :
  nth_error x i = Some u ->
  Permutation (u :: firstn i x ++ v :: skipn (S i) x) (v :: x).
Proof.
  revert i. induction x as [|y x IH]; intros i H.
  - destruct i; discriminate.
  - destruct i as [|i]; simpl in *.
    + injection H as ->. apply perm_swap.
    + specialize (IH i H).
      eapply perm_trans; [apply perm_swap|].
      eapply perm_trans; [apply perm_skip, IH|].
      apply perm_swap.
Qed.

Lemma set_nth_same {A : Type} (x : list A) (i j : nat) (u v : A) :
  nth_error x i = Some u -> nth_error x j = Some v ->
  nth_error (firstn i x ++ v :: skipn (S i) x) j = Some v.
Proof.
  revert i j. induction x as [|y x IH]; intros i j Hi Hj.
  - destruct i; discriminate.
  - destruct i as [|i], j as [|j]; simpl in *; auto.
Qed.

Lemma swap_perm {A : Type} (x : list A) (i j : nat) :
  Permutation (swap x i j) x.
Proof.
  unfold swap.
  destruct (nth_error x i) as [xi|] eqn:Ei; [|apply Permutation_refl].
  destruct (nth_error x j) as [xj|] eqn:Ej; [|apply Permutation_refl].
  cbv zeta.
  apply (Permutation_cons_inv (a := xj)).
  eapply perm_trans.
  - apply set_nth_perm. apply (set_nth_same x i j xi xj Ei Ej).
  - apply set_nth_perm; exact Ei.
Qed.

Lemma shuffle_loop_perm {A : Type} (i : nat) (g : Rng) (x : list A) :
  Permutation (fst (shuffle_loop i g x)) x.
Proof.
  revert g x. induction i as [|i IH]; intros g x; cbn [shuffle_loop].
  - apply Permutation_refl.
  - destruct (_randbelow g (Z.of_nat (S i) + 1)) as [j g'].
    eapply perm_trans; [apply IH | apply swap_perm].
Qed.

Lemma shuffle_perm {A : Type} (g : Rng) (x : list A) :
  Permutation (fst (shuffle g x)) x.
Proof. apply shuffle_loop_perm. Qed.

(** ** The trace of a sub-step *)

Lemma decays_app (l1 l2 : list Event) (id : Z) :
  decays (l1 ++ l2) id = (decays l1 id + decays l2 id)%nat.
Proof. unfold decays. apply count_occ_app. Qed.

Lemma agent_step_other (m : Model) (key id : Z) :
  key <> id -> decays (snd (agent_step m key)) id = 0%nat.
Proof.
  intros Hne. unfold agent_step, decays.
  destruct (find_agent (agents m) key) as [a|]; [|reflexivity].
  apply count_occ_not_In.
  destruct (body a); cbn [snd]; intros [H | []]; try discriminate.
  injection H as H. contradiction.
Qed.

Lemma agent_step_pheromone (m : Model) (key : Z) (a : Agent) :
  find_agent (agents m) key = Some a -> is_pheromone a = true ->
  snd (agent_step m key) = [PheromoneDecayed key].
Proof.
  intros F H. unfold agent_step. rewrite F. unfold is_pheromone in H.
  destruct (body a); try discriminate. reflexivity.
Qed.

Lemma run_keys_skips (keys : list Z) (st : Model * list Event) (id : Z) :
  ~ In id keys -> decays (snd (run_keys keys st)) id = decays (snd st) id.
Proof.
  revert st. induction keys as [|key keys IH]; intros st Hn.
  - reflexivity.
  - rewrite run_keys_cons. rewrite IH by (simpl in Hn; tauto).
    simpl snd. rewrite decays_app, agent_step_other; [lia|].
    simpl in Hn. tauto.
Qed.

Lemma run_keys_decays_once (keys : list Z) (st : Model * list Event) (id : Z)
  (a : Agent) :
  Inv (fst st) -> NoDup keys -> In id keys ->
  find_agent (agents (fst st)) id = Some a -> is_pheromone a = true ->
  decays (snd (run_keys keys st)) id = S (decays (snd st) id).
Proof.
  revert st a. induction keys as [|key keys IH]; intros st a I Hnd Hin F Hph.
  - destruct Hin.
  - inversion Hnd as [|? ? Hk Hnd']; subst.
    rewrite run_keys_cons.
    destruct (Z.eq_dec key id) as [E|E].
    + subst key. rewrite run_keys_skips by assumption. simpl snd.
      rewrite decays_app, (agent_step_pheromone _ _ _ F Hph).
      unfold decays at 2. rewrite count_occ_cons_eq by reflexivity.
      rewrite count_occ_nil. lia.
    + destruct Hin as [Hin | Hin]; [contradiction|].
      destruct (agent_step_ok (fst st) key I) as (I1 & K1 & _).
      destruct (K1 id a ltac:(auto) F Hph) as (a' & F' & _ & T').
      assert (Hph' : is_pheromone a' = true).
      { unfold is_pheromone in *. pose proof (T' to_nest) as Tn.
        pose proof (T' to_food) as Tf. unfold is_pheromone_of in Tn, Tf.
        destruct (body a) as [| | |s0 t0], (body a'); try discriminate; auto;
          destruct t0; discriminate. }
      rewrite (IH (fst (agent_step (fst st) key),
                   snd st ++ snd (agent_step (fst st) key))
                 a' I1 Hnd' Hin F' Hph').
      simpl snd.
      rewrite decays_app, agent_step_other by assumption. lia.
Qed.

Lemma trail_model_keys :
  fst (shuffle (random trail_model) (map unique_id (agents trail_model)))
  = [1; 3; 2].
Proof. reflexivity. Qed.

Lemma trail_model_trace :
  snd (schedule_step_trace trail_model)
  = [Idle 1; PheromoneDecayed 3; AntStepped 2].
Proof.
  unfold schedule_step_trace.
  destruct (shuffle (random trail_model) (map unique_id (agents trail_model)))
    as [keys g] eqn:E.
  assert (Ek : keys = [1; 3; 2]).
  { replace keys
      with (fst (shuffle (random trail_model)
                   (map unique_id (agents trail_model))))
      by (rewrite E; reflexivity).
    apply trail_model_keys. }
  subst keys. rewrite !run_keys_cons. cbn [run_keys fold_left fst snd].
  set (m1 := set_random g trail_model).
  assert (E1 : agent_step m1 1 = (m1, [Idle 1])) by reflexivity.
  rewrite E1. cbn [fst snd].
  assert (F3 : find_agent (agents m1) 3
               = Some (mkAgent 3 (16, 10) (Pheromone 1 to_nest))) by reflexivity.
  rewrite (agent_step_pheromone m1 3 _ F3 eq_refl).
  assert (F2 : find_agent (agents (fst (agent_step m1 3))) 2
               = Some (mkAgent 2 (16, 10) (Ant fresh_ant))).
  { unfold agent_step. rewrite F3. cbn [body fst].
    rewrite pheromone_step_others by lia. reflexivity. }
  unfold agent_step at 1. rewrite F2. reflexivity.
Qed.

(** [C1], as stated, fails: with the nest, one ant and one pheromone in the
    table and a generator whose draws are all 1, the sub-step decays the
    pheromone before the ant is stepped. *)
Lemma decay_before_move_counterexample :
  ~ decay_after_all_moves (snd (schedule_step_trace trail_model)).
Proof.
  rewrite trail_model_trace. intros H.
  specialize (H 1%nat 2%nat 3 2 eq_refl eq_refl). lia.
Qed.

(** [C1], amended: in a sub-step every pheromone that is live when the
    sub-step starts is decayed exactly once, at its own place in the
    shuffled order of activations, and an agent that is not in the table at
    the start (a pheromone created during the sub-step) is not decayed in
    it.  The hypothesis holds at every state of a run ([reachable_inv]). *)
Theorem decay_once_per_sub_step (m : Model) :
  Inv m ->
  (forall id a, find_agent (agents m) id = Some a -> is_pheromone a = true ->
     decays (snd (schedule_step_trace m)) id = 1%nat)
  /\ (forall id, find_agent (agents m) id = None ->
        decays (snd (schedule_step_trace m)) id = 0%nat).
Proof.
  intros I. unfold schedule_step_trace.
  pose proof (shuffle_perm (random m) (map unique_id (agents m))) as P.
  destruct (shuffle (random m) (map unique_id (agents m))) as [keys g].
  simpl in P.
  assert (I1 : Inv (set_random g m))
    by (eapply Inv_same_core; [..|exact I]; reflexivity).
  split.
  - intros id a F Hph.
    rewrite (run_keys_decays_once keys (set_random g m, []) id a); auto.
    + eapply Permutation_NoDup; [apply Permutation_sym, P|]. apply I.
    + eapply Permutation_in; [apply Permutation_sym, P|].
      destruct (find_agent_some _ _ _ F) as [Hin <-]. apply in_map, Hin.
  - intros id F. rewrite run_keys_skips; [reflexivity|].
    intros Hin. apply (Permutation_in _ P) in Hin.
    apply find_agent_none in F. contradiction.
Qed.

Lemma trail_model_inv : Inv trail_model.
Proof.
  split.
  - constructor; simpl; try lia; try reflexivity.
    + repeat constructor; simpl; intuition discriminate.
    + repeat (apply Forall_cons; [simpl; lia|]). apply Forall_nil.
    + apply Forall_cons; [discriminate|].
      apply Forall_cons; [intros _; unfold in_grid; simpl; lia|].
      apply Forall_cons; [discriminate | apply Forall_nil].
    + apply Forall_cons; [discriminate|].
      apply Forall_cons; [intros r E; injection E as <-; reflexivity|].
      apply Forall_cons; [discriminate | apply Forall_nil].
    + apply Forall_cons; [discriminate|].
      apply Forall_cons; [discriminate|].
      apply Forall_cons; [intros _; unfold dist2; simpl; lia | apply Forall_nil].
    + intros q ty. rewrite live_pheromones_conj. simpl.
      rewrite !andb_false_r.
      destruct (pos_eqb (16, 10) q && is_pheromone_of ty _); simpl; lia.
  - reflexivity.
Qed.

(** In the sub-step of the model with one pheromone, that pheromone is
    decayed once and the unused identifier 4 not at all. *)
Lemma decay_once_witness :
  Inv trail_model
  /\ decays (snd (schedule_step_trace trail_model)) 3 = 1%nat
  /\ decays (snd (schedule_step_trace trail_model)) 4 = 0%nat.
Proof.
  split; [exact trail_model_inv|].
  destruct (decay_once_per_sub_step trail_model trail_model_inv) as [H1 H0].
  split.
  - apply (H1 3 (mkAgent 3 (16, 10) (Pheromone 1 to_nest))); reflexivity.
  - apply (H0 4). reflexivity.
Defined.

(** ** Instances *)

(** Reinforcing the pheromone of strength 1 of [trail_model] with a value
    of 1 gives [min(3, 1 + 1 * 0.5)] and creates nothing. *)
Lemma add_or_reinforce_witness :
  unique_ids trail_model
  /\ strength_at (_add_or_reinforce_pheromone trail_model (16, 10) 1 to_nest)
       (16, 10) to_nest
     = Some (Rmin 3.0 (1 + 1 * 0.5))
  /\ map unique_id
       (agents (_add_or_reinforce_pheromone trail_model (16, 10) 1 to_nest))
     = [1; 2; 3].
Proof.
  assert (U : unique_ids trail_model) by apply trail_model_inv.
  split; [exact U|].
  destruct (add_or_reinforce_pheromone_spec trail_model (16, 10) 1 to_nest U)
    as (H & _).
  destruct (H 1%R eq_refl) as (H1 & _ & H3).
  split; [exact H1 | exact H3].
Defined.


(** The carrying ant of [delivery_model] drops its food. *)
Lemma drop_food_at_nest_witness :
  get_ant delivery_model 2 = Some ((11, 10), set_carrying_food true fresh_ant)
  /\ fst (drop_food_at_nest delivery_model 2) = true
  /\ food_delivered (snd (drop_food_at_nest delivery_model 2)) = 1
  /\ carrying (snd (drop_food_at_nest delivery_model 2)) 2 = false.
Proof.
  split; [reflexivity|].
  destruct (drop_food_at_nest_spec delivery_model 2 (11, 10)
              (set_carrying_food true fresh_ant) eq_refl)
    as (_ & H & _).
  destruct (H eq_refl) as (Hiff & Hyes & _).
  assert (Hd : fst (drop_food_at_nest delivery_model 2) = true)
    by (apply Hiff; unfold chebyshev; simpl; lia).
  destruct (Hyes Hd) as [Hg Hf].
  split; [exact Hd|]. split; [exact Hf|].
  unfold carrying. rewrite Hg. reflexivity.
Defined.

Lemma small_colony_initial : initial small_colony.
Proof.
  exists 20, 20, 1, 0, 0, 1, 10%R, 6%R, (constant_rng 0), (constant_rng 0),
    0%nat, (mkRng (fun _ => 0%N) 1).
  split; [lia|]. split; [lia|].
  unfold init. rewrite !lifespan_to_evaporation_eq by lia. reflexivity.
Qed.

(** ** A colony that forages *)

(** Distances to a cell are compared by their squares. *)
Lemma Rltb_dist_r (k : Z) (p q : Pos) :
  0 <= k -> Rltb (IZR k) (dist p q) = (k * k <? dist2 p q).
Proof.
  intros Hk. pose proof (dist_square p q) as Hs.
  pose proof (dist_nonneg p q) as Hd.
  assert (Hk' : (0 <= IZR k)%R) by (apply IZR_le; exact Hk).
  destruct (k * k <? dist2 p q) eqn:E.
  - apply Z.ltb_lt in E. apply Rltb_true. apply IZR_lt in E.
    rewrite mult_IZR in E. nra.
  - apply Z.ltb_ge in E. apply Rltb_false. apply IZR_le in E.
    rewrite mult_IZR in E. nra.
Qed.

Lemma Rltb_dist_l (k : Z) (p q : Pos) :
  0 <= k -> Rltb (dist p q) (IZR k) = (dist2 p q <? k * k).
Proof.
  intros Hk. pose proof (dist_square p q) as Hs.
  pose proof (dist_nonneg p q) as Hd.
  assert (Hk' : (0 <= IZR k)%R) by (apply IZR_le; exact Hk).
  destruct (dist2 p q <? k * k) eqn:E.
  - apply Z.ltb_lt in E. apply Rltb_true. apply IZR_lt in E.
    rewrite mult_IZR in E. nra.
  - apply Z.ltb_ge in E. apply Rltb_false. apply IZR_le in E.
    rewrite mult_IZR in E. nra.
Qed.

Lemma pick_pile_accepts (fuel : nat) (m : Model) (k : Z) :
  0 <= k ->
  (k * k
   <? dist2
        (fst (randrange (random m) (width m)),
         fst (randrange (snd (randrange (random m) (width m))) (height m)))
        (nest_pos m)) = true ->
  pick_pile (S fuel) m k
  = Some
      ((fst (randrange (random m) (width m)),
        fst (randrange (snd (randrange (random m) (width m))) (height m))),
       set_random
         (snd (randrange (snd (randrange (random m) (width m))) (height m)))
         m).
Proof.
  intros Hk H. cbn [pick_pile].
  destruct (randrange (random m) (width m)) as [x g1].
  cbn [fst snd] in *.
  destruct (randrange g1 (height m)) as [y g2].
  cbn [fst snd] in *.
  rewrite Rltb_dist_r, H by exact Hk. reflexivity.
Qed.

Lemma forager_initial : initial forager.
Proof.
  exists 20, 20, 3, 1, 20, 1, 10%R, 6%R, (replay forager_draws 0),
    (constant_rng 0), 1%nat, (mkRng (fun _ => 0%N) 3).
  split; [lia|]. split; [lia|].
  unfold init. rewrite !lifespan_to_evaporation_eq by lia.
  cbv beta iota zeta delta [next_id].
  match goal with |- context [Nat.iter ?n new_ant ?s] =>
    set (st := Nat.iter n new_ant s) end.
  assert (Est : st
                = (set_random (replay forager_draws 6)
                     (set_total_food 0
                        (set_next_id_value 4
                           (set_agents (firstn 4 (agents forager)) forager))),
                   mkRng (fun _ => 0%N) 3)) by reflexivity.
  rewrite Est. clear st Est.
  unfold place_food. change (Z.to_nat 1) with 1%nat.
  cbn [place_piles].
  rewrite pick_pile_accepts;
    [reflexivity | apply Z.leb_le; reflexivity | reflexivity].
Qed.

Lemma Rltb_dist_dist (p q t : Pos) :
  Rltb (dist p t) (dist q t) = (dist2 p t <? dist2 q t).
Proof.
  pose proof (dist_square p t) as Hp. pose proof (dist_square q t) as Hq.
  pose proof (dist_nonneg p t) as Np. pose proof (dist_nonneg q t) as Nq.
  destruct (dist2 p t <? dist2 q t) eqn:E.
  - apply Z.ltb_lt in E. apply Rltb_true. apply IZR_lt in E. nra.
  - apply Z.ltb_ge in E. apply Rltb_false. apply IZR_le in E. nra.
Qed.

(** The running optimum of [move_towards], decided on squared distances:
    a candidate that is strictly nearer than every other one is the
    result. *)
Lemma towards_loop_unique (target q : Pos) (l : list Pos)
  (st : option Pos * xfloat) :
  (st = (None, Inf) \/ exists p, st = (Some p, Fin (dist p target))
                                 /\ (p = q \/ dist2 q target < dist2 p target)) ->
  Forall (fun p => p = q \/ dist2 q target < dist2 p target) l ->
  In q l \/ fst st = Some q ->
  fst (fold_left
         (fun (st : option Pos * xfloat) p =>
            let d := dist p target in
            if lt_x d (snd st) then (Some p, Fin d) else st)
         l st) = Some q.
Proof.
  revert st. induction l as [|x l IH]; intros st Hst Hall Hq.
  - destruct Hq as [[] | Hq]. exact Hq.
  - inversion Hall as [|? ? Hx Hl]; subst. cbn [fold_left]. cbv zeta.
    apply IH; [| exact Hl |].
    + destruct Hst as [-> | (p & -> & Hp)].
      * cbn [snd lt_x]. right. exists x. split; [reflexivity | exact Hx].
      * cbn [snd lt_x]. rewrite Rltb_dist_dist.
        destruct (dist2 x target <? dist2 p target) eqn:E.
        -- right. exists x. split; [reflexivity | exact Hx].
        -- right. exists p. split; [reflexivity | exact Hp].
    + destruct Hst as [-> | (p & -> & Hp)].
      * cbn [snd lt_x fst]. destruct Hq as [[-> | Hq] | Hq].
        -- right. reflexivity.
        -- left. exact Hq.
        -- discriminate.
      * cbn [snd lt_x]. rewrite Rltb_dist_dist.
        destruct (dist2 x target <? dist2 p target) eqn:E; cbn [fst].
        -- destruct Hx as [-> | Hx]; [right; reflexivity|].
           apply Z.ltb_lt in E.
           destruct Hq as [[-> | Hq] | Hq].
           ++ right. reflexivity.
           ++ left. exact Hq.
           ++ cbn [fst] in Hq. injection Hq as ->.
              destruct Hp as [Hp | Hp]; lia.
        -- apply Z.ltb_ge in E. destruct Hq as [[-> | Hq] | Hq].
           ++ destruct Hp as [-> | Hp]; [right; reflexivity | lia].
           ++ left. exact Hq.
           ++ right. exact Hq.
Qed.

Lemma move_towards_unique (m : Model) (current target q : Pos) :
  existsb (pos_eqb q) (get_neighborhood (width m) (height m) current 1)
  = true ->
  forallb
    (fun p => pos_eqb p q || (dist2 q target <? dist2 p target))
    (get_neighborhood (width m) (height m) current 1) = true ->
  move_towards m current target = q.
Proof.
  intros Hin Hall. unfold move_towards, towards_loop.
  rewrite (towards_loop_unique target q); [reflexivity | | |].
  - left. reflexivity.
  - apply Forall_forall. intros p Hp.
    rewrite forallb_forall in Hall. specialize (Hall p Hp).
    apply orb_true_iff in Hall. destruct Hall as [H | H].
    + left. apply pos_eqb_eq. exact H.
    + right. apply Z.ltb_lt. exact H.
  - left. apply existsb_exists in Hin. destruct Hin as (x & Hx & E).
    apply pos_eqb_eq in E. subst x. exact Hx.
Qed.

(** [move] of an ant that carries food and is not in the escape state. *)
Lemma move_carrying (m : Model) (self : Z) (p : Pos) (a : AntAgent) :
  get_ant m self = Some (p, a) ->
  just_dropped_food a = false -> (0 <? exploration_cooldown a) = false ->
  carrying_food a = true ->
  move m self
  = put_ant
      (if 9 <? dist2 p (home_pos a)
       then create_pheromone m p 1.5 to_nest else m)
      self (move_towards m p (home_pos a))
      (match last_direction a with
       | Some _ =>
           set_last_direction
             (Some (fst (move_towards m p (home_pos a)) - fst p,
                    snd (move_towards m p (home_pos a)) - snd p))
             (set_following_pheromones false a)
       | None =>
           set_last_direction (Some (0, 0)) (set_following_pheromones false a)
       end).
Proof.
  intros G J K C. unfold move. rewrite G. cbv zeta.
  unfold move_branch. rewrite J, K, C. cbn [orb].
  unfold carry_branch. cbv zeta.
  rewrite (Rltb_dist_r 3) by lia. change (3 * 3) with 9.
  cbn [last_direction set_following_pheromones]. reflexivity.
Qed.

(** A deposit in a free cell at distance 3 to 10 whose strength passes the
    threshold of 0.2 while 30% of it does not, with no pheromone of the
    type in the cells around: one pheromone is created, in the cell
    itself. *)
Lemma create_pheromone_single (m : Model) (p : Pos) (s : R)
  (ty : PheromoneType) :
  (9 <=? dist2 p (nest_pos m)) && (dist2 p (nest_pos m) <? 100) = true ->
  find (is_pheromone_of ty) (get_cell_list_contents m p) = None ->
  forallb
    (fun q =>
       negb (pos_eqb p q)
       && negb (is_some
                  (find (is_pheromone_of ty) (get_cell_list_contents m q))))
    (get_neighborhood (width m) (height m) p 1) = true ->
  (0.2 <= s * (dist p (nest_pos m) / 10))%R ->
  (s * (dist p (nest_pos m) / 10) * 0.3 < 0.2)%R ->
  create_pheromone m p s ty
  = set_active_pheromones (active_pheromones m + 1)
      (add_agent
         (mkAgent (next_id_value m + 1) p
            (Pheromone (s * (dist p (nest_pos m) / 10)) ty))
         (set_next_id_value (next_id_value m + 1) m)).
Proof.
  intros Hd Hfree Haround Hs Hs3.
  apply andb_true_iff in Hd. destruct Hd as [H9 H100].
  apply Z.leb_le in H9. apply Z.ltb_lt in H100.
  assert (H3 : (3 <= dist p (nest_pos m))%R) by (apply dist_ge_3; exact H9).
  assert (H10 : (dist p (nest_pos m) < 10)%R).
  { apply Rltb_true. rewrite (Rltb_dist_l 10) by lia.
    apply Z.ltb_lt. exact H100. }
  rewrite create_pheromone_far by exact H3.
  unfold effective_strength.
  destruct (Rlt_dec (dist p (nest_pos m)) 10) as [_|N]; [|contradiction].
  rewrite add_or_reinforce_created by assumption.
  set (m1 := set_active_pheromones _ _).
  assert (Hcell : forall q, pos_eqb p q = false ->
            get_cell_list_contents m1 q = get_cell_list_contents m q).
  { intros q Hq. unfold get_cell_list_contents, m1.
    cbn [agents set_active_pheromones add_agent set_agents set_next_id_value].
    rewrite filter_app. cbn [filter pos]. rewrite Hq. apply app_nil_r. }
  rewrite forallb_forall in Haround.
  induction (get_neighborhood (width m) (height m) p 1) as [|q l IH];
    [reflexivity|].
  cbn [fold_left].
  assert (Hq := Haround q (or_introl eq_refl)).
  apply andb_true_iff in Hq. destruct Hq as [Hne Hnone].
  apply negb_true_iff in Hne. apply negb_true_iff in Hnone.
  rewrite add_or_reinforce_discarded.
  - apply IH. intros x Hx. apply Haround. right. exact Hx.
  - rewrite (Hcell q Hne).
    destruct (find (is_pheromone_of ty) (get_cell_list_contents m q));
      [discriminate | reflexivity].
  - exact Hs3.
Qed.

Lemma fst_run_keys (keys : list Z) (st : Model * list Event) :
  fst (run_keys keys st)
  = fold_left (fun m key => fst (agent_step m key)) keys (fst st).
Proof.
  revert st. induction keys as [|key keys IH]; intros st; [reflexivity|].
  rewrite run_keys_cons, IH. reflexivity.
Qed.

Lemma dist_14_10 : dist (14, 10) (10, 10) = 4%R.
Proof.
  unfold dist. change (dist2 (14, 10) (10, 10)) with 16.
  replace (IZR 16) with (4 * 4)%R by lra. apply sqrt_square. lra.
Qed.

(** The first ant: it picks up the item of (11, 10), steps onto the nest
    and delivers. *)
Lemma forager_first_ant (m : Model) :
  m = set_random (replay forager_draws 24) forager ->
  AntAgent_step m 2
  = set_food_delivered 1
      (set_agents
         (update_agent 2
            (fun _ =>
               mkAgent 2 (10, 10)
                 (Ant (mkAnt false 0 (10, 10) (Some (0, 0)) 2
                         (Some (11, 10)) true false true 5)))
            (remove_agent 5 (agents m))) m).
Proof.
  intros ->. unfold AntAgent_step.
  set (s0 := set_random (replay forager_draws 24) forager).
  change (carrying s0 2) with false. cbn [negb].
  set (mP := snd (pick_up_food s0 2)).
  rewrite (move_carrying mP 2 (11, 10)
             (set_last_food_pos (Some (11, 10))
                (set_carrying_food true fresh_ant)))
    by reflexivity.
  change (home_pos (set_last_food_pos (Some (11, 10))
                      (set_carrying_food true fresh_ant))) with (10, 10).
  rewrite (move_towards_unique mP (11, 10) (10, 10) (10, 10))
    by reflexivity.
  reflexivity.
Qed.

(** The second ant: it picks up the item of (14, 10), leaves a to-nest
    pheromone there and steps towards the nest. *)
Lemma forager_second_ant (m : Model) :
  m = set_food_delivered 1
        (set_agents
           (update_agent 2
              (fun _ =>
                 mkAgent 2 (10, 10)
                   (Ant (mkAnt false 0 (10, 10) (Some (0, 0)) 2
                           (Some (11, 10)) true false true 5)))
              (remove_agent 5 (agents forager)))
           (set_random (replay forager_draws 24) forager)) ->
  AntAgent_step m 3
  = set_active_pheromones 1
      (set_next_id_value 18
         (set_agents
            (update_agent 3
               (fun _ =>
                  mkAgent 3 (13, 10)
                    (Ant (mkAnt true 0 (10, 10) (Some (0, 0)) 2
                            (Some (14, 10)) false false false 0)))
               (remove_agent 15 (agents m))
             ++ [mkAgent 18 (14, 10) (Pheromone (1.5 * (4 / 10)) to_nest)])
            m)).
Proof.
  intros E. unfold AntAgent_step.
  replace (carrying m 3) with false by (rewrite E; reflexivity).
  cbn [negb].
  set (mP := snd (pick_up_food m 3)).
  assert (EP : mP
               = set_agents
                   (update_agent 3
                      (fun _ =>
                         mkAgent 3 (14, 10)
                           (Ant (set_last_food_pos (Some (14, 10))
                                   (set_carrying_food true fresh_ant))))
                      (remove_agent 15 (agents m))) m)
    by (unfold mP; rewrite E; reflexivity).
  clearbody mP.
  rewrite (move_carrying mP 3 (14, 10)
             (set_last_food_pos (Some (14, 10))
                (set_carrying_food true fresh_ant)))
    by (try (rewrite EP, E); reflexivity).
  change (home_pos (set_last_food_pos (Some (14, 10))
                      (set_carrying_food true fresh_ant))) with (10, 10).
  rewrite (move_towards_unique mP (14, 10) (10, 10) (13, 10))
    by (try (rewrite EP, E); reflexivity).
  change (9 <? dist2 (14, 10) (10, 10)) with true. cbv iota.
  assert (Ed : dist (14, 10) (nest_pos mP) = 4%R)
    by (rewrite EP, E; exact dist_14_10).
  rewrite create_pheromone_single.
  - rewrite Ed, EP, E. reflexivity.
  - rewrite EP, E. reflexivity.
  - rewrite EP, E. reflexivity.
  - rewrite EP, E. reflexivity.
  - rewrite Ed. lra.
  - rewrite Ed. lra.
Qed.

Lemma forager_keys :
  shuffle (random forager) (map unique_id (agents forager))
  = ([1; 2; 3; 4; 5; 6; 7; 8; 9; 10; 11; 12; 13; 14; 15; 16; 17],
     replay forager_draws 24).
Proof. reflexivity. Qed.

(** One sub-step of [forager]: the shuffle leaves the keys in the order of
    the table, so the nest idles, the three ants are stepped in turn, and
    the food idles (the two items eaten are no longer in the table). *)
Lemma forager_sub_step : sub_step forager = foraged.
Proof.
  unfold sub_step, schedule_step, schedule_step_trace.
  rewrite forager_keys, fst_run_keys. cbn [fst].
  set (s0 := set_random (replay forager_draws 24) forager).
  cbn [fold_left].
  change (fst (agent_step s0 1)) with s0.
  change (fst (agent_step s0 2)) with (AntAgent_step s0 2).
  rewrite (forager_first_ant s0 eq_refl).
  set (sA := set_food_delivered 1 _).
  change (fst (agent_step sA 3)) with (AntAgent_step sA 3).
  rewrite (forager_second_ant sA eq_refl).
  reflexivity.
Qed.

Lemma foraged_reachable : reachable_from forager foraged.
Proof. rewrite <- forager_sub_step. apply reach_sub_step, reach_start. Qed.

(** The colony [forager]: at the start the first ant stands on one of
    the 13 items placed, and its pick-up takes that item off the grid.
    After one sub-step 11 items are on the grid, one is delivered and one
    is carried; and the third ant, which stands on food and does not
    carry, picks one item up. *)
Lemma food_conservation_witness :
  initial forager /\ reachable_from forager foraged
  /\ live_food forager = 13 /\ total_food forager = 13
  /\ fst (pick_up_food forager 2) = true
  /\ live_food (snd (pick_up_food forager 2)) = live_food forager - 1
  /\ get_ant (snd (pick_up_food forager 2)) 2
     = Some ((11, 10),
             set_last_food_pos (Some (11, 10))
               (set_carrying_food true fresh_ant))
  /\ live_food foraged = 11 /\ food_delivered foraged = 1
  /\ carrying_ants foraged = 1
  /\ live_food foraged + food_delivered foraged + carrying_ants foraged
     = live_food forager
  /\ get_ant foraged 4
     = Some ((15, 10),
             mkAnt false 0 (10, 10) (Some (0, 0)) 2 None false false false 0)
  /\ fst (pick_up_food foraged 4) = true
  /\ live_food (snd (pick_up_food foraged 4)) = live_food foraged - 1
  /\ get_ant (snd (pick_up_food foraged 4)) 4
     = Some ((15, 10),
             mkAnt true 0 (10, 10) (Some (0, 0)) 2 (Some (15, 10)) false
               false false 0).
Proof.
  destruct (food_conservation forager forager forager_initial
              (reach_start forager)) as (_ & _ & Hstart).
  destruct (Hstart 2 (11, 10) fresh_ant eq_refl eq_refl)
    as (_ & Hlive0 & Hget0).
  destruct (food_conservation forager foraged forager_initial
              foraged_reachable) as (_ & H & Hpick).
  destruct (Hpick 4 (15, 10)
              (mkAnt false 0 (10, 10) (Some (0, 0)) 2 None false false false 0)
              eq_refl eq_refl) as (_ & Hlive & Hget).
  split; [exact forager_initial|]. split; [exact foraged_reachable|].
  do 3 (split; [reflexivity|]).
  split; [exact Hlive0|]. split; [exact Hget0|].
  do 3 (split; [reflexivity|]).
  split; [exact H|]. split; [reflexivity|]. split; [reflexivity|].
  split; [exact Hlive | exact Hget].
Defined.

(** The colony [forager] after one sub-step holds the to-nest pheromone
    that the second ant left in (14, 10), at distance 4 from the nest. *)
Lemma pheromones_far_witness :
  initial forager /\ reachable_from forager foraged
  /\ In (mkAgent 18 (14, 10) (Pheromone (1.5 * (4 / 10)) to_nest))
       (agents foraged)
  /\ Rle 3 (dist (14, 10) (nest_pos foraged))
  /\ (forall a, In a (agents foraged) -> is_pheromone a = true ->
        (3 <= dist (pos a) (nest_pos foraged))%R).
Proof.
  assert (Hin : In (mkAgent 18 (14, 10) (Pheromone (1.5 * (4 / 10)) to_nest))
                  (agents foraged)).
  { unfold foraged. cbn [agents]. repeat (right; try (left; reflexivity)). }
  split; [exact forager_initial|]. split; [exact foraged_reachable|].
  split; [exact Hin|]. split.
  - exact (pheromones_far_from_nest forager foraged forager_initial
             foraged_reachable _ Hin eq_refl).
  - exact (pheromones_far_from_nest forager foraged forager_initial
             foraged_reachable).
Defined.

(** ** The [direction] attribute is never read *)

Lemma find_agent_forget (l : list Agent) (id : Z) :
  find_agent (map forget_agent l) id = option_map forget_agent (find_agent l id).
Proof.
  unfold find_agent. induction l as [|x l IH]; simpl; [reflexivity|].
  destruct (unique_id x =? id); [reflexivity | exact IH].
Qed.

Lemma filter_forget (P : Agent -> bool) (l : list Agent) :
  (forall x, P (forget_agent x) = P x) ->
  filter P (map forget_agent l) = map forget_agent (filter P l).
Proof. intros H. apply filter_map_stable. intros x _. apply H. Qed.

Lemma find_forget (P : Agent -> bool) (l : list Agent) :
  (forall x, P (forget_agent x) = P x) ->
  find P (map forget_agent l) = option_map forget_agent (find P l).
Proof.
  intros H. induction l as [|x l IH]; simpl; [reflexivity|].
  rewrite H. destruct (P x); [reflexivity | exact IH].
Qed.

Lemma update_agent_forget (id : Z) (f f' : Agent -> Agent) (l : list Agent) :
  (forall x, f (forget_agent x) = forget_agent (f' x)) ->
  update_agent id f (map forget_agent l)
  = map forget_agent (update_agent id f' l).
Proof.
  intros H. unfold update_agent. rewrite !map_map. apply map_ext.
  intros x. simpl. destruct (unique_id x =? id); [apply H | reflexivity].
Qed.

Lemma remove_agent_forget (id : Z) (l : list Agent) :
  remove_agent id (map forget_agent l) = map forget_agent (remove_agent id l).
Proof. unfold remove_agent. apply filter_forget. reflexivity. Qed.

Lemma count_if_forget (P : Agent -> bool) (l : list Agent) :
  (forall x, P (forget_agent x) = P x) ->
  count_if P (map forget_agent l) = count_if P l.
Proof.
  intros H. unfold count_if. rewrite filter_forget by assumption.
  rewrite length_map. reflexivity.
Qed.

Lemma fold_left_map {A B C : Type} (f : A -> C -> A) (h : B -> C)
  (l : list B) (a : A) :
  fold_left f (map h l) a = fold_left (fun acc x => f acc (h x)) l a.
Proof.
  revert a. induction l as [|x l IH]; intros a; simpl; [reflexivity | apply IH].
Qed.

Lemma fold_left_ext {A B : Type} (f f' : A -> B -> A) (l : list B) (a : A) :
  (forall acc x, f acc x = f' acc x) -> fold_left f l a = fold_left f' l a.
Proof.
  intros H. revert a. induction l as [|x l IH]; intros a; simpl; [reflexivity|].
  rewrite H. apply IH.
Qed.

Lemma is_food_forget (x : Agent) : is_food (forget_agent x) = is_food x.
Proof. unfold is_food; simpl. destruct (body x); reflexivity. Qed.

Lemma is_pheromone_forget (x : Agent) :
  is_pheromone (forget_agent x) = is_pheromone x.
Proof. unfold is_pheromone; simpl. destruct (body x); reflexivity. Qed.

Lemma is_pheromone_of_forget (ty : PheromoneType) (x : Agent) :
  is_pheromone_of ty (forget_agent x) = is_pheromone_of ty x.
Proof. unfold is_pheromone_of; simpl. destruct (body x); reflexivity. Qed.

Lemma is_ant_forget (x : Agent) : is_ant (forget_agent x) = is_ant x.
Proof. unfold is_ant; simpl. destruct (body x); reflexivity. Qed.

Lemma strength_of_forget (x : Agent) :
  strength_of (forget_agent x) = strength_of x.
Proof. unfold strength_of; simpl. destruct (body x); reflexivity. Qed.

Lemma ant_with_forget (f : AntAgent -> bool) (x : Agent) :
  (forall a, f (forget_ant a) = f a) ->
  ant_with f (forget_agent x) = ant_with f x.
Proof.
  intros H. unfold ant_with; simpl. destruct (body x); simpl; auto.
Qed.

Lemma cell_forget (m : Model) (p : Pos) :
  get_cell_list_contents (forget m) p
  = map forget_agent (get_cell_list_contents m p).
Proof. unfold get_cell_list_contents. simpl. apply filter_forget. reflexivity. Qed.

Lemma cell_pheromone_strength_forget (m : Model) (ty : PheromoneType) (p : Pos) :
  cell_pheromone_strength (forget m) ty p = cell_pheromone_strength m ty p.
Proof.
  unfold cell_pheromone_strength. rewrite cell_forget, fold_left_map.
  apply fold_left_ext. intros acc x.
  rewrite is_pheromone_of_forget, strength_of_forget. reflexivity.
Qed.

Lemma scan_pheromones_forget (m : Model) (current_pos : Pos) (l : list Pos) :
  scan_pheromones (forget m) current_pos l = scan_pheromones m current_pos l.
Proof.
  unfold scan_pheromones. apply fold_left_ext. intros st p.
  rewrite cell_pheromone_strength_forget. reflexivity.
Qed.

Lemma scan_food_forget (m : Model) (current_pos : Pos)
  (possible_steps nearby_cells : list Pos) :
  scan_food (forget m) current_pos possible_steps nearby_cells
  = scan_food m current_pos possible_steps nearby_cells.
Proof.
  unfold scan_food. apply fold_left_ext. intros food_cells cell.
  rewrite cell_forget, fold_left_map. apply fold_left_ext. intros acc x.
  rewrite is_food_forget. reflexivity.
Qed.

Lemma add_or_reinforce_forget (m : Model) (p : Pos) (v : R)
  (ty : PheromoneType) :
  _add_or_reinforce_pheromone (forget m) p v ty
  = forget (_add_or_reinforce_pheromone m p v ty).
Proof.
  unfold _add_or_reinforce_pheromone. rewrite cell_forget.
  rewrite find_forget by (apply is_pheromone_of_forget).
  destruct (find (is_pheromone_of ty) (get_cell_list_contents m p)) as [agent|];
    simpl option_map; cbv iota.
  - unfold forget at 2. simpl agents.
    rewrite strength_of_forget.
    change (unique_id (forget_agent agent)) with (unique_id agent).
    rewrite (update_agent_forget _ _
               (fun a => mkAgent (unique_id a) (pos a)
                           (Pheromone (Rmin 3.0 (strength_of agent + v * 0.5)) ty)))
      by reflexivity.
    reflexivity.
  - destruct (Rleb 0.2 v); [|reflexivity].
    unfold forget, next_id, add_agent. simpl. rewrite map_app. reflexivity.
Qed.

Lemma create_pheromone_forget (m : Model) (p : Pos) (s : R)
  (ty : PheromoneType) :
  create_pheromone (forget m) p s ty = forget (create_pheromone m p s ty).
Proof.
  unfold create_pheromone.
  change (nest_pos (forget m)) with (nest_pos m).
  change (width (forget m)) with (width m).
  change (height (forget m)) with (height m).
  destruct (Rltb (dist p (nest_pos m)) 10 && Rltb (dist p (nest_pos m)) 3);
    [reflexivity|].
  rewrite add_or_reinforce_forget.
  generalize (_add_or_reinforce_pheromone m p
                (if Rltb (dist p (nest_pos m)) 10
                 then (s * (dist p (nest_pos m) / 10))%R else s) ty).
  generalize (get_neighborhood (width m) (height m) p 1).
  intros l. induction l as [|q l IH]; intros acc; simpl; [reflexivity|].
  rewrite add_or_reinforce_forget. apply IH.
Qed.

Lemma follow_forget (m : Model) (g : Rng) (a : AntAgent) (current_pos : Pos)
  (possible_steps : list Pos) :
  follow_pheromones_or_explore (forget m) g (forget_ant a) current_pos
    possible_steps
  = follow_pheromones_or_explore m g a current_pos possible_steps.
Proof.
  unfold follow_pheromones_or_explore.
  change (width (forget m)) with (width m).
  change (height (forget m)) with (height m).
  change (detection_radius (forget_ant a)) with (detection_radius a).
  rewrite scan_pheromones_forget. reflexivity.
Qed.

Lemma escape_branch_forget (m : Model) (a : AntAgent) (current_pos : Pos)
  (possible_steps : list Pos) :
  escape_branch (forget m) (forget_ant a) current_pos possible_steps
  = forget_branch (escape_branch m a current_pos possible_steps).
Proof.
  unfold escape_branch.
  change (random (forget m)) with (random m).
  change (move_away_from_nest (random m) (forget_ant a))
    with (move_away_from_nest (random m) a).
  destruct (move_away_from_nest (random m) a current_pos possible_steps)
    as [next_pos g].
  cbn [set_following_pheromones set_exploration_cooldown set_just_dropped_food
       returning_to_food last_food_pos forget_ant].
  destruct (returning_to_food a && is_some (last_food_pos a)).
  - change (set_random g (forget m)) with (forget (set_random g m)).
    rewrite create_pheromone_forget. reflexivity.
  - reflexivity.
Qed.

Lemma carry_branch_forget (m : Model) (a : AntAgent) (current_pos : Pos) :
  carry_branch (forget m) (forget_ant a) current_pos
  = forget_branch (carry_branch m a current_pos).
Proof.
  unfold carry_branch.
  change (home_pos (forget_ant a)) with (home_pos a).
  change (move_towards (forget m)) with (move_towards m).
  destruct (Rltb 3 (dist current_pos (home_pos a))).
  - rewrite create_pheromone_forget. reflexivity.
  - reflexivity.
Qed.

Lemma return_branch_forget (m : Model) (a : AntAgent) (current_pos : Pos)
  (possible_steps : list Pos) (food_pos : Pos) :
  return_branch (forget m) (forget_ant a) current_pos possible_steps food_pos
  = forget_branch (return_branch m a current_pos possible_steps food_pos).
Proof.
  unfold return_branch. destruct (pos_eqb current_pos food_pos).
  - change (random (forget m)) with (random m).
    destruct (choice (random m) possible_steps current_pos) as [next_pos g].
    reflexivity.
  - rewrite create_pheromone_forget. reflexivity.
Qed.

Lemma forage_branch_forget (m : Model) (a : AntAgent) (current_pos : Pos)
  (possible_steps : list Pos) :
  forage_branch (forget m) (forget_ant a) current_pos possible_steps
  = forget_branch (forage_branch m a current_pos possible_steps).
Proof.
  unfold forage_branch.
  change (width (forget m)) with (width m).
  change (height (forget m)) with (height m).
  change (random (forget m)) with (random m).
  change (home_pos (forget_ant a)) with (home_pos a).
  rewrite scan_food_forget.
  assert (Hexp : forall g,
            (let '(next_pos, is_following, g') :=
               follow_pheromones_or_explore (forget m) g (forget_ant a)
                 current_pos possible_steps in
             (set_random g' (forget m),
              set_following_pheromones is_following (forget_ant a), next_pos))
            = forget_branch
                (let '(next_pos, is_following, g') :=
                   follow_pheromones_or_explore m g a current_pos
                     possible_steps in
                 (set_random g' m, set_following_pheromones is_following a,
                  next_pos))).
  { intros g. rewrite follow_forget.
    destruct (follow_pheromones_or_explore m g a current_pos possible_steps)
      as [[next_pos fl] g'].
    reflexivity. }
  destruct (scan_food m current_pos possible_steps _) as [|c cs].
  - destruct (Rltb (dist current_pos (home_pos a)) 5).
    + destruct (Random.random (random m)) as [u g1].
      destruct (Rltb u 0.8).
      * change (move_away_from_nest g1 (forget_ant a))
          with (move_away_from_nest g1 a).
        destruct (move_away_from_nest g1 a current_pos possible_steps)
          as [next_pos g2].
        reflexivity.
      * apply Hexp.
    + apply Hexp.
  - destruct (choice (random m) (c :: cs) current_pos) as [next_pos g].
    reflexivity.
Qed.

Lemma move_branch_forget (m : Model) (a : AntAgent) (current_pos : Pos)
  (possible_steps : list Pos) :
  move_branch (forget m) (forget_ant a) current_pos possible_steps
  = forget_branch (move_branch m a current_pos possible_steps).
Proof.
  unfold move_branch.
  cbn [just_dropped_food exploration_cooldown carrying_food returning_to_food
       last_food_pos forget_ant].
  destruct (just_dropped_food a || (0 <? exploration_cooldown a));
    [apply escape_branch_forget|].
  destruct (carrying_food a); [apply carry_branch_forget|].
  destruct (returning_to_food a); [|apply forage_branch_forget].
  destruct (last_food_pos a); [apply return_branch_forget |
                               apply forage_branch_forget].
Qed.

Lemma get_ant_forget (m : Model) (self : Z) :
  get_ant (forget m) self
  = option_map (fun pa => (fst pa, forget_ant (snd pa))) (get_ant m self).
Proof.
  unfold get_ant. simpl agents. rewrite find_agent_forget.
  destruct (find_agent (agents m) self) as [x|]; [|reflexivity].
  simpl. destruct (body x); reflexivity.
Qed.

Lemma put_ant_forget (m : Model) (self : Z) (p : Pos) (r : AntAgent) :
  put_ant (forget m) self p (forget_ant r) = forget (put_ant m self p r).
Proof.
  unfold put_ant, forget. simpl agents.
  rewrite (update_agent_forget _ _ (fun a => mkAgent (unique_id a) p (Ant r)))
    by reflexivity.
  reflexivity.
Qed.

Lemma move_forget (m : Model) (self : Z) :
  move (forget m) self = forget (move m self).
Proof.
  unfold move. rewrite get_ant_forget.
  destruct (get_ant m self) as [[current_pos a]|]; [|reflexivity].
  cbn [option_map fst snd].
  change (width (forget m)) with (width m).
  change (height (forget m)) with (height m).
  rewrite move_branch_forget.
  destruct (move_branch m a current_pos _) as [[m1 a1] next_pos].
  cbn [forget_branch].
  change (last_direction (forget_ant a1)) with (last_direction a1).
  destruct (last_direction a1);
    match goal with
    | |- _ = forget (put_ant _ _ _ ?r) =>
        exact (put_ant_forget m1 self next_pos r)
    end.
Qed.

Lemma pick_up_food_forget (m : Model) (self : Z) :
  pick_up_food (forget m) self
  = (fst (pick_up_food m self), forget (snd (pick_up_food m self))).
Proof.
  unfold pick_up_food. rewrite get_ant_forget.
  destruct (get_ant m self) as [[p a]|]; [|reflexivity].
  cbn [option_map fst snd carrying_food forget_ant].
  destruct (carrying_food a); [reflexivity|]. cbn [negb].
  rewrite cell_forget, find_forget by (apply is_food_forget).
  destruct (find is_food (get_cell_list_contents m p)) as [agent|];
    [|reflexivity].
  cbn [option_map fst snd]. f_equal.
  change (set_last_food_pos (Some p) (set_carrying_food true (forget_ant a)))
    with (forget_ant (set_last_food_pos (Some p) (set_carrying_food true a))).
  rewrite put_ant_forget.
  change (unique_id (forget_agent agent)) with (unique_id agent).
  unfold forget at 1 2. simpl agents. rewrite remove_agent_forget.
  reflexivity.
Qed.

Lemma drop_food_at_nest_forget (m : Model) (self : Z) :
  drop_food_at_nest (forget m) self
  = (fst (drop_food_at_nest m self), forget (snd (drop_food_at_nest m self))).
Proof.
  unfold drop_food_at_nest. rewrite get_ant_forget.
  destruct (get_ant m self) as [[p a]|]; [|reflexivity].
  cbn [option_map fst snd carrying_food home_pos forget_ant].
  destruct (carrying_food a); [|reflexivity].
  destruct (at_or_adjacent p (home_pos a)); [|reflexivity].
  cbn [fst snd]. f_equal.
  change (set_exploration_cooldown 5
            (set_returning_to_food true
               (set_just_dropped_food true
                  (set_carrying_food false (forget_ant a)))))
    with (forget_ant
            (set_exploration_cooldown 5
               (set_returning_to_food true
                  (set_just_dropped_food true (set_carrying_food false a))))).
  rewrite put_ant_forget. reflexivity.
Qed.

Lemma carrying_forget (m : Model) (self : Z) :
  carrying (forget m) self = carrying m self.
Proof.
  unfold carrying. rewrite get_ant_forget.
  destruct (get_ant m self) as [[p a]|]; reflexivity.
Qed.

Lemma AntAgent_step_forget (m : Model) (self : Z) :
  AntAgent_step (forget m) self = forget (AntAgent_step m self).
Proof.
  unfold AntAgent_step. rewrite carrying_forget, pick_up_food_forget.
  cbn [snd].
  assert (E : (if negb (carrying m self)
               then forget (snd (pick_up_food m self)) else forget m)
              = forget (if negb (carrying m self)
                        then snd (pick_up_food m self) else m))
    by (destruct (negb (carrying m self)); reflexivity).
  rewrite E, move_forget, carrying_forget, drop_food_at_nest_forget.
  cbn [snd].
  generalize (move (if negb (carrying m self)
                    then snd (pick_up_food m self) else m) self).
  intros m2. destruct (carrying m2 self); reflexivity.
Qed.

Lemma PheromoneAgent_step_forget (m : Model) (self : Z) :
  PheromoneAgent_step (forget m) self = forget (PheromoneAgent_step m self).
Proof.
  unfold PheromoneAgent_step. simpl agents. rewrite find_agent_forget.
  destruct (find_agent (agents m) self) as [x|]; [|reflexivity].
  cbn [option_map]. simpl body.
  destruct (body x) as [a| | |s ty]; try reflexivity.
  cbn [forget_body].
  change (evaporation (forget m) ty) with (evaporation m ty).
  rewrite (update_agent_forget _ _
             (fun a => mkAgent (unique_id a) (pos a)
                         (Pheromone (s * evaporation m ty) ty)))
    by reflexivity.
  destruct (Rltb (s * evaporation m ty) 0.05).
  - unfold forget. simpl agents. rewrite remove_agent_forget. reflexivity.
  - reflexivity.
Qed.

Lemma agent_step_forget (m : Model) (key : Z) :
  agent_step (forget m) key
  = (forget (fst (agent_step m key)), snd (agent_step m key)).
Proof.
  unfold agent_step. simpl agents. rewrite find_agent_forget.
  destruct (find_agent (agents m) key) as [x|]; [|reflexivity].
  cbn [option_map]. simpl body.
  destruct (body x); cbn [forget_body fst snd].
  - rewrite AntAgent_step_forget. reflexivity.
  - reflexivity.
  - reflexivity.
  - rewrite PheromoneAgent_step_forget. reflexivity.
Qed.

Lemma run_keys_forget (keys : list Z) (m : Model) (tr : list Event) :
  run_keys keys (forget m, tr)
  = (forget (fst (run_keys keys (m, tr))), snd (run_keys keys (m, tr))).
Proof.
  revert m tr. induction keys as [|key keys IH]; intros m tr.
  - reflexivity.
  - rewrite !run_keys_cons. cbn [fst snd]. rewrite agent_step_forget.
    cbn [fst snd]. apply IH.
Qed.

Lemma schedule_step_forget (m : Model) :
  schedule_step (forget m) = forget (schedule_step m).
Proof.
  unfold schedule_step, schedule_step_trace.
  change (random (forget m)) with (random m).
  simpl agents. rewrite map_map.
  change (map (fun x => unique_id (forget_agent x)) (agents m))
    with (map unique_id (agents m)).
  destruct (shuffle (random m) (map unique_id (agents m))) as [keys g].
  change (set_random g (forget m)) with (forget (set_random g m)).
  rewrite run_keys_forget. reflexivity.
Qed.

Lemma sub_step_forget (m : Model) : sub_step (forget m) = forget (sub_step m).
Proof. unfold sub_step. rewrite schedule_step_forget. reflexivity. Qed.

Lemma iter_sub_step_forget (n : nat) (m : Model) :
  Nat.iter n sub_step (forget m) = forget (Nat.iter n sub_step m).
Proof.
  induction n as [|n IH]; [reflexivity|].
  change (Nat.iter (S n) sub_step (forget m))
    with (sub_step (Nat.iter n sub_step (forget m))).
  rewrite IH. apply sub_step_forget.
Qed.

Lemma collect_statistics_forget (m : Model) :
  collect_statistics (forget m) = forget (collect_statistics m).
Proof.
  unfold collect_statistics. simpl agents.
  change (nest_pos (forget m)) with (nest_pos m).
  rewrite !count_if_forget; try reflexivity.
  - intros x. apply ant_with_forget. reflexivity.
  - intros x. apply ant_with_forget. reflexivity.
  - intros x. rewrite is_ant_forget. reflexivity.
  - intros x. apply ant_with_forget. reflexivity.
Qed.

Lemma step_forget (m : Model) : step (forget m) = option_map forget (step m).
Proof.
  unfold step. simpl agents.
  rewrite !count_if_forget
    by (intros x; first [apply is_pheromone_of_forget | apply is_pheromone_forget]).
  cbn [steps_per_second simulation_speed to_nest_lifespan to_food_lifespan
       set_active_by_type set_active_pheromones forget set_agents].
  destruct (_lifespan_to_evaporation (steps_per_second m) (simulation_speed m)
              (to_nest_lifespan m)) as [n|]; [|reflexivity].
  destruct (_lifespan_to_evaporation (steps_per_second m) (simulation_speed m)
              (to_food_lifespan m)) as [f|]; [|reflexivity].
  cbn [option_map]. f_equal.
  rewrite <- collect_statistics_forget. f_equal.
  rewrite <- iter_sub_step_forget. reflexivity.
Qed.

Lemma run_forget (ticks : nat) (m : Model) :
  run ticks (forget m) = option_map forget (run ticks m).
Proof.
  revert m. induction ticks as [|k IH]; intros m; [reflexivity|].
  cbn [run]. rewrite step_forget.
  destruct (step m) as [m'|]; [apply IH | reflexivity].
Qed.

(** *** Construction *)

Lemma forget_agent_idem (x : Agent) :
  forget_agent (forget_agent x) = forget_agent x.
Proof. unfold forget_agent; simpl. destruct (body x); reflexivity. Qed.

Lemma new_food_forget (p : Pos) (m : Model) :
  new_food p (forget m) = forget (new_food p m).
Proof.
  unfold new_food, next_id, add_agent, forget. simpl. rewrite map_app.
  reflexivity.
Qed.

Lemma fold_left_commute {A B : Type} (h : A -> A) (f : A -> B -> A)
  (l : list B) (a : A) :
  (forall acc x, f (h acc) x = h (f acc x)) ->
  fold_left f l (h a) = h (fold_left f l a).
Proof.
  intros H. revert a. induction l as [|x l IH]; intros a; simpl; [reflexivity|].
  rewrite H. apply IH.
Qed.

Lemma iter_commute {A : Type} (h f f' : A -> A) (n : nat) (a : A) :
  (forall x, f (h x) = h (f' x)) ->
  Nat.iter n f (h a) = h (Nat.iter n f' a).
Proof.
  intros H. induction n as [|n IH]; [reflexivity|].
  change (Nat.iter (S n) f (h a)) with (f (Nat.iter n f (h a))).
  rewrite IH. apply H.
Qed.

Lemma fill_pile_forget (center : Pos) (food_per_cell : Z) (m : Model) :
  fill_pile center food_per_cell (forget m)
  = forget (fill_pile center food_per_cell m).
Proof.
  unfold fill_pile. apply fold_left_commute. intros acc dx.
  apply fold_left_commute. intros acc' dy.
  destruct (dx * dx + dy * dy <=? 4); [|reflexivity].
  change (width (forget acc')) with (width acc').
  change (height (forget acc')) with (height acc').
  apply iter_commute. intros x. apply new_food_forget.
Qed.

Lemma pick_pile_forget (fuel : nat) (m : Model) (min_dist : Z) :
  pick_pile fuel (forget m) min_dist
  = option_map (fun r => (fst r, forget (snd r))) (pick_pile fuel m min_dist).
Proof.
  revert m. induction fuel as [|fuel IH]; intros m; [reflexivity|].
  cbn [pick_pile].
  change (random (forget m)) with (random m).
  change (width (forget m)) with (width m).
  change (height (forget m)) with (height m).
  change (nest_pos (forget m)) with (nest_pos m).
  destruct (randrange (random m) (width m)) as [x g1].
  destruct (randrange g1 (height m)) as [y g2].
  destruct (Rltb _ _); [reflexivity|].
  change (set_random g2 (forget m)) with (forget (set_random g2 m)).
  apply IH.
Qed.

Lemma place_piles_forget (fuel n : nat) (pile_size : Z) (m : Model) :
  place_piles fuel n pile_size (forget m)
  = option_map forget (place_piles fuel n pile_size m).
Proof.
  revert m. induction n as [|n IH]; intros m; [reflexivity|].
  cbn [place_piles].
  change (width (forget m)) with (width m).
  change (height (forget m)) with (height m).
  rewrite pick_pile_forget.
  destruct (pick_pile fuel m _) as [[c m1]|]; [|reflexivity].
  cbn [option_map fst snd]. rewrite fill_pile_forget. apply IH.
Qed.

Lemma forget_idem (m : Model) : forget (forget m) = forget m.
Proof.
  unfold forget, set_agents.
  cbn [agents width height n_ants simulation_speed to_nest_lifespan
       to_food_lifespan steps_per_second to_nest_evaporation
       to_food_evaporation food_delivered total_food step_count
       active_pheromones active_to_nest_pheromones active_to_food_pheromones
       next_id_value ants_with_food ants_at_nest ants_following_pheromones
       ants_random_walking nest_pos random].
  rewrite map_map.
  rewrite (map_ext (fun x => forget_agent (forget_agent x)) forget_agent
             forget_agent_idem).
  reflexivity.
Qed.

Lemma forget_add_agent (x : Agent) (m : Model) :
  forget (add_agent x m) = add_agent (forget_agent x) (forget m).
Proof.
  unfold forget, add_agent, set_agents.
  cbn [agents width height n_ants simulation_speed to_nest_lifespan
       to_food_lifespan steps_per_second to_nest_evaporation
       to_food_evaporation food_delivered total_food step_count
       active_pheromones active_to_nest_pheromones active_to_food_pheromones
       next_id_value ants_with_food ants_at_nest ants_following_pheromones
       ants_random_walking nest_pos random].
  rewrite map_app. reflexivity.
Qed.

Lemma new_ant_forget (m : Model) (np np' : Rng) :
  forget (fst (new_ant (m, np))) = forget (fst (new_ant (forget m, np'))).
Proof.
  unfold new_ant, next_id, AntAgent_init. cbv beta iota zeta.
  destruct (randrange np 8) as [d1 n1]. destruct (randrange np' 8) as [d2 n2].
  change (next_id_value (forget m)) with (next_id_value m).
  change (random (set_next_id_value (next_id_value m + 1) (forget m)))
    with (random m).
  change (random (set_next_id_value (next_id_value m + 1) m)) with (random m).
  change (nest_pos (set_next_id_value (next_id_value m + 1) (forget m)))
    with (nest_pos m).
  change (nest_pos (set_next_id_value (next_id_value m + 1) m))
    with (nest_pos m).
  change (width (set_next_id_value (next_id_value m + 1) (forget m)))
    with (width m).
  change (width (set_next_id_value (next_id_value m + 1) m)) with (width m).
  change (height (set_next_id_value (next_id_value m + 1) (forget m)))
    with (height m).
  change (height (set_next_id_value (next_id_value m + 1) m)) with (height m).
  destruct (randint (random m) (-5) 5) as [rx g1].
  destruct (randint g1 (-5) 5) as [ry g2].
  cbn [fst]. rewrite !forget_add_agent.
  change (set_random g2 (set_next_id_value (next_id_value m + 1) (forget m)))
    with (forget (set_random g2 (set_next_id_value (next_id_value m + 1) m))).
  rewrite forget_idem. reflexivity.
Qed.

Lemma iter_new_ant_forget (n : nat) (m1 m2 : Model) (np1 np2 : Rng) :
  forget m1 = forget m2 ->
  forget (fst (Nat.iter n new_ant (m1, np1)))
  = forget (fst (Nat.iter n new_ant (m2, np2))).
Proof.
  intros E. induction n as [|n IH]; [exact E|].
  change (Nat.iter (S n) new_ant ?x) with (new_ant (Nat.iter n new_ant x)).
  destruct (Nat.iter n new_ant (m1, np1)) as [ma npa].
  destruct (Nat.iter n new_ant (m2, np2)) as [mb npb].
  cbn [fst] in IH.
  rewrite (new_ant_forget ma npa npa), (new_ant_forget mb npb npa), IH.
  reflexivity.
Qed.

Lemma init_forget (w h n piles size speed : Z) (tn tf : R)
  (g np1 np2 : Rng) (fuel : nat) :
  option_map (fun r => forget (fst r))
    (init w h n piles size speed tn tf g np1 fuel)
  = option_map (fun r => forget (fst r))
      (init w h n piles size speed tn tf g np2 fuel).
Proof.
  unfold init.
  destruct (_lifespan_to_evaporation 10 speed tn) as [en|]; [|reflexivity].
  destruct (_lifespan_to_evaporation 10 speed tf) as [ef|]; [|reflexivity].
  unfold next_id. cbv zeta. cbv beta iota.
  match goal with
  | |- context [Nat.iter _ new_ant (?x, np1)] => set (m2 := x)
  end.
  pose proof (iter_new_ant_forget (Z.to_nat n) m2 m2 np1 np2 eq_refl) as E.
  destruct (Nat.iter (Z.to_nat n) new_ant (m2, np1)) as [ma npa].
  destruct (Nat.iter (Z.to_nat n) new_ant (m2, np2)) as [mb npb].
  cbn [fst] in E. unfold place_food.
  pose proof (place_piles_forget fuel (Z.to_nat piles) size ma) as Pa.
  pose proof (place_piles_forget fuel (Z.to_nat piles) size mb) as Pb.
  rewrite E in Pa. rewrite Pb in Pa.
  destruct (place_piles fuel (Z.to_nat piles) size ma) as [m4a|],
    (place_piles fuel (Z.to_nat piles) size mb) as [m4b|];
    cbn [option_map] in Pa; try discriminate; [|reflexivity].
  cbn [option_map fst]. congruence.
Qed.

Lemma small_colony_init :
  init 20 20 1 0 0 1 10 6 (constant_rng 0) (constant_rng 0) 0
  = Some (small_colony, mkRng (fun _ => 0%N) 1).
Proof.
  unfold init. rewrite !lifespan_to_evaporation_eq by lia. reflexivity.
Qed.

(** [C3], as stated, fails: the construction of a model with one ant takes
    a draw from numpy's global generator, which is not the model's. *)
Lemma second_generator_counterexample : ~ single_generator.
Proof.
  intros H. specialize (H _ _ _ _ _ _ _ _ _ _ _ _ _ small_colony_init).
  discriminate H.
Qed.

(** [C3], amended: for a fixed configuration, a fixed tick count and a
    fixed state of the model's generator, the model after the run is the
    same up to the ants' [direction] attribute -- in particular all agent
    positions and pheromone strengths are the same -- whatever the state of
    numpy's global generator, and the run fails for both or for none. *)
Theorem trajectories_independent_of_numpy (w h n piles size speed : Z)
  (tn tf : R) (g np1 np2 : Rng) (fuel ticks : nat) :
  option_map forget (simulate w h n piles size speed tn tf g np1 fuel ticks)
  = option_map forget (simulate w h n piles size speed tn tf g np2 fuel ticks).
Proof.
  unfold simulate.
  pose proof (init_forget w h n piles size speed tn tf g np1 np2 fuel) as E.
  destruct (init w h n piles size speed tn tf g np1 fuel) as [[m1 r1]|],
    (init w h n piles size speed tn tf g np2 fuel) as [[m2 r2]|];
    cbn [option_map fst] in E; try discriminate; [|reflexivity].
  assert (E' : forget m1 = forget m2) by congruence.
  rewrite <- !run_forget, E'. reflexivity.
Qed.

(** * Further properties of the engine *)

(** ** The greedy step *)

Lemma towards_loop_state (target : Pos) (l seen : list Pos)
  (st : option Pos * xfloat) :
  towards_state target seen st ->
  towards_state target (seen ++ l)
    (fold_left
       (fun (st : option Pos * xfloat) p =>
          let d := dist p target in
          if lt_x d (snd st) then (Some p, Fin d) else st)
       l st).
Proof.
  revert seen st. induction l as [|x l IH]; intros seen st H.
  - rewrite app_nil_r. exact H.
  - cbn [fold_left].
    replace (seen ++ x :: l) with ((seen ++ [x]) ++ l)
      by (rewrite <- app_assoc; reflexivity).
    apply IH. destruct st as [[p|] [|d]]; cbn [snd lt_x]; try contradiction.
    + destruct H as (Hd & Hp & Hmin).
      destruct (Rltb (dist x target) d) eqn:E.
      * apply Rltb_true in E. split; [reflexivity|]. split.
        -- apply in_or_app. right. left. reflexivity.
        -- intros q Hq. apply in_app_or in Hq. destruct Hq as [Hq | [<- | []]].
           ++ specialize (Hmin q Hq). lra.
           ++ lra.
      * apply Rltb_false in E. split; [exact Hd|]. split.
        -- apply in_or_app. left. exact Hp.
        -- intros q Hq. apply in_app_or in Hq. destruct Hq as [Hq | [<- | []]].
           ++ apply Hmin, Hq.
           ++ exact E.
    + simpl in H. subst seen. split; [reflexivity|]. split.
      * left. reflexivity.
      * intros q [<- | []]. lra.
Qed.

Lemma towards_loop_minimal (target : Pos) (l : list Pos) :
  l <> [] ->
  exists p, fst (towards_loop target l) = Some p /\ In p l
            /\ forall q, In q l -> (dist p target <= dist q target)%R.
Proof.
  intros Hne.
  pose proof (towards_loop_state target l [] (None, Inf) eq_refl) as H.
  change (towards_state target l (towards_loop target l)) in H.
  destruct (towards_loop target l) as [[p|] [|d]]; cbn [towards_state] in H;
    try contradiction.
  destruct H as (-> & Hp & Hmin). exists p. auto.
Qed.

Lemma move_towards_minimal_aux (m : Model) (current target : Pos) :
  moore_neighbor (width m) (height m) current (move_towards m current target)
  /\ forall q, moore_neighbor (width m) (height m) current q ->
       (dist (move_towards m current target) target <= dist q target)%R.
Proof.
  unfold move_towards.
  destruct (towards_loop_minimal target
              (get_neighborhood (width m) (height m) current 1)
              (get_neighborhood_nonempty _ _ _)) as (p & E & Hp & Hmin).
  rewrite E. split.
  - apply get_neighborhood_1_in, Hp.
  - intros q Hq. apply Hmin. apply get_neighborhood_1_in, Hq.
Qed.

(** ** What an activation leaves alone *)

(** The model after the branch of [move]: the model before it, up to a
    draw from the generator and one deposit of strength 1.0 or 1.5 in the
    current cell. *)
Lemma move_branch_cases (m : Model) (a : AntAgent) (current_pos : Pos)
  (possible_steps : list Pos) :
  let m1 := fst (fst (move_branch m a current_pos possible_steps)) in
  m1 = m
  \/ (exists g, m1 = set_random g m)
  \/ (exists s ty, (0 <= s <= 1.5)%R /\ m1 = create_pheromone m current_pos s ty)
  \/ (exists g s ty, (0 <= s <= 1.5)%R
        /\ m1 = create_pheromone (set_random g m) current_pos s ty).
Proof.
  cbv zeta. unfold move_branch.
  assert (Hforage :
            let m1 := fst (fst (forage_branch m a current_pos possible_steps)) in
            m1 = m \/ (exists g, m1 = set_random g m)).
  { cbv zeta. unfold forage_branch.
    assert (Hexp : forall g,
              exists g',
                fst (fst (let '(next_pos, is_following, g') :=
                            follow_pheromones_or_explore m g a current_pos
                              possible_steps in
                          (set_random g' m,
                           set_following_pheromones is_following a, next_pos)))
                = set_random g' m).
    { intros g.
      destruct (follow_pheromones_or_explore m g a current_pos possible_steps)
        as [[np fl] g']. exists g'. reflexivity. }
    destruct (scan_food m current_pos possible_steps _) as [|c cs].
    - destruct (Rltb _ 5).
      + destruct (Random.random (random m)) as [u g1].
        destruct (Rltb u 0.8).
        * destruct (move_away_from_nest g1 a current_pos possible_steps)
            as [np g2].
          right. exists g2. reflexivity.
        * right. apply Hexp.
      + right. apply Hexp.
    - destruct (choice (random m) (c :: cs) current_pos) as [np g].
      right. exists g. reflexivity. }
  destruct (just_dropped_food a || (0 <? exploration_cooldown a)).
  { unfold escape_branch.
    destruct (move_away_from_nest (random m) a current_pos possible_steps)
      as [np g].
    match goal with |- context [if ?c then _ else _] => destruct c end;
      cbn [fst].
    - right. right. right. exists g, 1.0%R, to_food. split; [lra | reflexivity].
    - right. left. exists g. reflexivity. }
  destruct (carrying_food a).
  { unfold carry_branch. cbn [fst]. destruct (Rltb 3 _).
    - right. right. left. exists 1.5%R, to_nest. split; [lra | reflexivity].
    - left. reflexivity. }
  destruct (returning_to_food a); [|destruct Hforage; auto].
  destruct (last_food_pos a) as [food_pos|]; [|destruct Hforage; auto].
  unfold return_branch. destruct (pos_eqb current_pos food_pos).
  - destruct (choice (random m) possible_steps current_pos) as [np g].
    right. left. exists g. reflexivity.
  - right. right. left. exists 1.0%R, to_food. split; [lra | reflexivity].
Qed.

Lemma add_or_reinforce_frame (m : Model) (q : Pos) (v : R) (ty : PheromoneType) :
  frame (_add_or_reinforce_pheromone m q v ty) = frame m
  /\ food_delivered (_add_or_reinforce_pheromone m q v ty) = food_delivered m.
Proof.
  unfold _add_or_reinforce_pheromone.
  destruct (find _ _); [split; reflexivity|].
  destruct (Rleb 0.2 v); split; reflexivity.
Qed.

Lemma create_pheromone_frame (m : Model) (p : Pos) (s : R) (ty : PheromoneType) :
  frame (create_pheromone m p s ty) = frame m
  /\ food_delivered (create_pheromone m p s ty) = food_delivered m.
Proof.
  unfold create_pheromone. destruct (_ && _); [split; reflexivity|].
  apply (fold_left_preserves
           (fun x => frame x = frame m /\ food_delivered x = food_delivered m)).
  - intros acc q [H1 H2].
    destruct (add_or_reinforce_frame acc q
                ((if Rltb (dist p (nest_pos m)) 10
                  then s * (dist p (nest_pos m) / 10) else s) * 0.3)%R ty)
      as [E1 E2].
    split; congruence.
  - apply add_or_reinforce_frame.
Qed.

Lemma move_frame (m : Model) (self : Z) :
  frame (move m self) = frame m
  /\ food_delivered (move m self) = food_delivered m.
Proof.
  unfold move.
  destruct (get_ant m self) as [[current_pos a]|]; [|split; reflexivity].
  pose proof (move_branch_cases m a current_pos
                (get_neighborhood (width m) (height m) current_pos 1)) as H.
  destruct (move_branch m a current_pos _) as [[m1 a1] next_pos].
  cbn [fst] in H.
  assert (E : frame m1 = frame m /\ food_delivered m1 = food_delivered m).
  { destruct H as [-> | [[g ->] | [(s & ty & _ & ->) | (g & s & ty & _ & ->)]]].
    - split; reflexivity.
    - split; reflexivity.
    - apply create_pheromone_frame.
    - apply (create_pheromone_frame (set_random g m)). }
  exact E.
Qed.

Lemma pick_up_food_frame (m : Model) (self : Z) :
  frame (snd (pick_up_food m self)) = frame m
  /\ food_delivered (snd (pick_up_food m self)) = food_delivered m.
Proof.
  unfold pick_up_food.
  destruct (get_ant m self) as [[p a]|]; [|split; reflexivity].
  destruct (negb (carrying_food a)); [|split; reflexivity].
  destruct (find _ _); split; reflexivity.
Qed.

Lemma drop_food_at_nest_frame (m : Model) (self : Z) :
  frame (snd (drop_food_at_nest m self)) = frame m.
Proof.
  unfold drop_food_at_nest.
  destruct (get_ant m self) as [[p a]|]; [|reflexivity].
  destruct (carrying_food a); [|reflexivity].
  destruct (at_or_adjacent _ _); reflexivity.
Qed.

Lemma AntAgent_step_frame (m : Model) (self : Z) :
  frame (AntAgent_step m self) = frame m.
Proof.
  unfold AntAgent_step.
  set (m1 := if negb (carrying m self) then snd (pick_up_food m self) else m).
  assert (E1 : frame m1 = frame m).
  { subst m1. destruct (negb (carrying m self)); [|reflexivity].
    apply pick_up_food_frame. }
  assert (E2 : frame (move m1 self) = frame m)
    by (rewrite <- E1; apply move_frame).
  destruct (carrying (move m1 self) self); [|exact E2].
  rewrite drop_food_at_nest_frame. exact E2.
Qed.

Lemma PheromoneAgent_step_frame (m : Model) (self : Z) :
  frame (PheromoneAgent_step m self) = frame m
  /\ food_delivered (PheromoneAgent_step m self) = food_delivered m
  /\ next_id_value (PheromoneAgent_step m self) = next_id_value m
  /\ active_pheromones (PheromoneAgent_step m self) = active_pheromones m
  /\ random (PheromoneAgent_step m self) = random m.
Proof.
  unfold PheromoneAgent_step.
  destruct (find_agent (agents m) self) as [a|]; [|repeat split].
  destruct (body a); try (repeat split; reflexivity).
  destruct (Rltb _ _); repeat split; reflexivity.
Qed.

Lemma agent_step_frame (m : Model) (key : Z) :
  frame (fst (agent_step m key)) = frame m.
Proof.
  unfold agent_step.
  destruct (find_agent (agents m) key) as [a|]; [|reflexivity].
  destruct (body a); cbn [fst]; try reflexivity.
  - apply AntAgent_step_frame.
  - apply PheromoneAgent_step_frame.
Qed.

Lemma run_keys_frame (keys : list Z) (st : Model * list Event) :
  frame (fst (run_keys keys st)) = frame (fst st).
Proof.
  revert st. induction keys as [|key keys IH]; intros st; [reflexivity|].
  rewrite run_keys_cons, IH. cbn [fst]. apply agent_step_frame.
Qed.

Lemma schedule_step_frame (m : Model) : frame (schedule_step m) = frame m.
Proof.
  unfold schedule_step, schedule_step_trace.
  destruct (shuffle (random m) (map unique_id (agents m))) as [keys g].
  rewrite run_keys_frame. reflexivity.
Qed.

(** ** Activations as sequences of elementary changes *)

Lemma table_ops_one (self : Z) (m m' : Model) :
  table_op self m m' -> table_ops self m m'.
Proof. intros H. eapply ops_next; [apply ops_refl | exact H]. Qed.

Lemma table_ops_trans (self : Z) (m1 m2 m3 : Model) :
  table_ops self m1 m2 -> table_ops self m2 m3 -> table_ops self m1 m3.
Proof.
  intros H12 H23. induction H23 as [|m m' _ IH Hop]; [exact H12|].
  eapply ops_next; [exact IH | exact Hop].
Qed.

Lemma shape_same_core (m m' : Model) :
  width m' = width m -> height m' = height m -> nest_pos m' = nest_pos m ->
  next_id_value m' = next_id_value m -> agents m' = agents m ->
  Shape m -> Shape m'.
Proof.
  intros Ew Eh En Ei Ea S. destruct S.
  constructor;
    unfold unique_ids, ids_issued, at_most_one_pheromone, live_pheromones,
      get_cell_list_contents in *;
    rewrite ?Ew, ?Eh, ?En, ?Ei, ?Ea; assumption.
Qed.

Lemma table_op_shape (self : Z) (m m' : Model) :
  Shape m -> table_op self m m' -> Shape m'.
Proof.
  intros S H.
  destruct H as [g | agent v ty Hin Hty Hv | p v ty Hnone Hfar Hv
                 | p0 p r0 r G Hh Hp | x Hin Hfood | | x s ty Hin Hid Hb Hs
                 | x Hin Hid Hph].
  - apply (trail_step_shape m); [exact S | apply ts_random].
  - apply (trail_step_shape m); [exact S | apply ts_reinforce; assumption].
  - apply (trail_step_shape m); [exact S | apply ts_create; assumption].
  - apply (put_ant_shape m self p0 p r0 r); assumption.
  - apply remove_shape, S.
  - apply (shape_same_core m); try reflexivity. exact S.
  - apply (trail_step_shape m); [exact S|]. rewrite <- Hid.
    apply ts_reinforce; [exact Hin|].
    unfold is_pheromone_of. rewrite Hb. destruct ty; reflexivity.
  - apply remove_shape, S.
Qed.

Lemma table_ops_shape (self : Z) (m m' : Model) :
  Shape m -> table_ops self m m' -> Shape m'.
Proof.
  intros S H. induction H as [|m1 m2 _ IH Hop]; [exact S|].
  eapply table_op_shape; [exact IH | exact Hop].
Qed.

(** A property of the model that every elementary change keeps is kept by
    every sequence of them. *)
Lemma table_ops_preserve (Q : Model -> Prop) (self : Z) (m m' : Model) :
  (forall m1 m2, Shape m1 -> table_op self m1 m2 -> Q m1 -> Q m2) ->
  Shape m -> table_ops self m m' -> Q m -> Q m'.
Proof.
  intros HQ S H Hm. induction H as [|m1 m2 H12 IH Hop]; [exact Hm|].
  apply (HQ m1 m2); [eapply table_ops_shape; eassumption | exact Hop | exact IH].
Qed.

Lemma table_op_frame (self : Z) (m m' : Model) :
  table_op self m m' -> frame m' = frame m.
Proof. intros H. destruct H; reflexivity. Qed.

Lemma table_ops_frame (self : Z) (m m' : Model) :
  table_ops self m m' -> frame m' = frame m.
Proof.
  intros H. induction H as [|m1 m2 _ IH Hop]; [reflexivity|].
  rewrite (table_op_frame _ _ _ Hop). exact IH.
Qed.

Lemma effective_strength_range (d s : R) :
  (0 <= d)%R -> (0 <= s <= 1.5)%R ->
  (0 <= effective_strength d s <= 1.5)%R.
Proof.
  intros Hd Hs. unfold effective_strength.
  destruct (Rlt_dec d 10); [|exact Hs].
  assert (0 <= d / 10 < 1)%R by lra. nra.
Qed.

(** A deposit is a sequence of reinforcements and creations. *)
Section Deposits.

Variable ty : PheromoneType.
Variable Rel : Model -> Model -> Prop.
Hypothesis Rel_refl : forall m, Rel m m.
Hypothesis Rel_trans : forall m1 m2 m3, Rel m1 m2 -> Rel m2 m3 -> Rel m1 m3.
Hypothesis Rel_nest : forall m m', Rel m m' -> nest_pos m' = nest_pos m.
Hypothesis Rel_reinforce :
  forall m agent v,
    In agent (agents m) -> is_pheromone_of ty agent = true ->
    (0 <= v <= 1.5)%R ->
    Rel m
      (set_agents
         (update_agent (unique_id agent)
            (reinforce (Rmin 3.0 (strength_of agent + v * 0.5)) ty)
            (agents m)) m).
Hypothesis Rel_create :
  forall m p v,
    find (is_pheromone_of ty) (get_cell_list_contents m p) = None ->
    9 <= dist2 p (nest_pos m) ->
    (0.2 <= v <= 1.5)%R ->
    Rel m
      (set_active_pheromones (active_pheromones m + 1)
         (add_agent (mkAgent (next_id_value m + 1) p (Pheromone v ty))
            (set_next_id_value (next_id_value m + 1) m))).

Lemma add_or_reinforce_rel (m : Model) (q : Pos) (v : R) :
  (0 <= v <= 1.5)%R ->
  ((0.2 <= v)%R -> 9 <= dist2 q (nest_pos m)) ->
  Rel m (_add_or_reinforce_pheromone m q v ty).
Proof.
  intros Hv Hfar.
  destruct (find (is_pheromone_of ty) (get_cell_list_contents m q))
    as [agent|] eqn:F.
  - rewrite (add_or_reinforce_found _ _ _ _ _ F).
    destruct (find_in_cell _ _ _ _ F) as (Hin & _ & Hty & _).
    apply Rel_reinforce; assumption.
  - destruct (Rle_dec 0.2 v) as [Hv2|Hv2].
    + rewrite (add_or_reinforce_created _ _ _ _ F Hv2).
      apply Rel_create; auto. lra.
    + rewrite (add_or_reinforce_discarded _ _ _ _ F) by lra. apply Rel_refl.
Qed.

Lemma spread_rel (m : Model) (v : R) (l : list Pos) (acc : Model) :
  (0 <= v <= 1.5)%R ->
  Rel m acc ->
  (forall q, In q l -> (0.2 <= v)%R -> 9 <= dist2 q (nest_pos m)) ->
  Rel m
    (fold_left (fun acc q => _add_or_reinforce_pheromone acc q v ty) l acc).
Proof.
  intros Hv. revert acc. induction l as [|q l IH]; intros acc Hacc Hfar;
    cbn [fold_left].
  - assumption.
  - apply IH; [|intros; apply Hfar; [right|]; assumption].
    eapply Rel_trans; [exact Hacc|].
    apply add_or_reinforce_rel; [exact Hv|].
    rewrite (Rel_nest _ _ Hacc). intros Hv2. apply Hfar; [left; reflexivity|].
    exact Hv2.
Qed.

Lemma create_pheromone_rel (m : Model) (p : Pos) (strength : R) :
  Shape m -> in_grid (width m) (height m) p -> (0 <= strength <= 1.5)%R ->
  Rel m (create_pheromone m p strength ty).
Proof.
  intros S Hp Hs.
  assert (Hnb : forall q,
            In q (get_neighborhood (width m) (height m) p 1) ->
            moore_neighbor (width m) (height m) p q)
    by (intros q; apply get_neighborhood_1_in).
  pose proof (effective_strength_range (dist p (nest_pos m)) strength
                (dist_nonneg _ _) Hs) as He.
  destruct (Rlt_dec (dist p (nest_pos m)) 3) as [Hd|Hd].
  - rewrite create_pheromone_near by assumption. apply Rel_refl.
  - rewrite create_pheromone_far by lra. apply spread_rel.
    + lra.
    + apply add_or_reinforce_rel; [exact He|]. intros _.
      apply (dist_ge_sq p (nest_pos m) 3); [lia | lra].
    + intros q Hq Hv. apply Hnb in Hq.
      rewrite (inv_nest m S).
      apply (neighbor_far (width m) (height m) p q);
        try assumption; try apply S.
      rewrite <- (inv_nest m S).
      apply (neighbor_value_far (dist p (nest_pos m)) strength);
        [lra | apply dist_nonneg | apply dist_square | assumption].
Qed.

End Deposits.

Lemma create_pheromone_ops (self : Z) (m : Model) (p : Pos) (strength : R)
  (ty : PheromoneType) :
  Shape m -> in_grid (width m) (height m) p -> (0 <= strength <= 1.5)%R ->
  table_ops self m (create_pheromone m p strength ty).
Proof.
  apply (create_pheromone_rel ty (table_ops self)).
  - apply ops_refl.
  - apply table_ops_trans.
  - intros x x' H. apply table_ops_frame in H. unfold frame in H. congruence.
  - intros x agent v Hin Hty Hv. apply table_ops_one.
    apply op_reinforce; assumption.
  - intros x q v Hnone Hfar Hv. apply table_ops_one.
    apply op_create; assumption.
Qed.

Lemma move_ops (m : Model) (self : Z) :
  Inv m -> table_ops self m (move m self).
Proof.
  intros I. unfold move.
  destruct (get_ant m self) as [[current_pos a]|] eqn:G; [|apply ops_refl].
  destruct (ant_facts m self current_pos a (proj1 I) G) as [Hc Hh].
  pose proof (move_branch_cases m a current_pos
                (get_neighborhood (width m) (height m) current_pos 1)) as Hcases.
  destruct (move_branch m a current_pos _) as [[m1 a1] next_pos] eqn:B.
  cbv zeta in Hcases. cbn [fst] in Hcases.
  destruct (move_branch_spec m a current_pos m1 a1 next_pos I Hc B)
    as (T & Hcar & Hhome & Hn).
  pose proof (get_ant_kept _ _ self _ _ (trail_steps_keeps_others _ _ I T) G)
    as G1.
  destruct (trail_steps_frame _ _ T) as (Ew & Eh & En & _).
  assert (O1 : table_ops self m m1).
  { destruct Hcases
      as [-> | [[g ->] | [(s & ty & Hs & ->) | (g & s & ty & Hs & ->)]]].
    - apply ops_refl.
    - apply table_ops_one, op_random.
    - apply create_pheromone_ops; [apply I | exact Hc | exact Hs].
    - eapply table_ops_trans; [apply table_ops_one, (op_random self m g)|].
      apply create_pheromone_ops; [|exact Hc | exact Hs].
      apply (shape_same_core m); try reflexivity. apply I. }
  eapply ops_next; [exact O1|].
  apply (op_put self m1 current_pos next_pos a); [exact G1 | |].
  - rewrite En, <- Hh, <- Hhome. destruct (last_direction a1); reflexivity.
  - rewrite Ew, Eh. exact Hn.
Qed.

Lemma pick_up_food_ops (m : Model) (self : Z) :
  Inv m -> table_ops self m (snd (pick_up_food m self)).
Proof.
  intros I. unfold pick_up_food.
  destruct (get_ant m self) as [[p a]|] eqn:G; [|apply ops_refl].
  destruct (negb (carrying_food a)); [|apply ops_refl].
  destruct (find is_food (get_cell_list_contents m p)) as [agent|] eqn:F;
    [|apply ops_refl].
  cbv zeta. cbn [snd].
  destruct (ant_facts m self p a (proj1 I) G) as [Hp Hh].
  apply find_some in F. destruct F as [Hin Hfood].
  unfold get_cell_list_contents in Hin. apply filter_In in Hin.
  destruct Hin as [Hin _].
  destruct (get_ant_find _ _ _ _ G) as (x & Fx & Hx & Hid & _ & Hb).
  assert (Hne : unique_id agent <> self).
  { intros E.
    assert (agent = x) by (apply (in_same_id m); try apply I; congruence).
    subst x. unfold is_food in Hfood. rewrite Hb in Hfood. discriminate. }
  eapply ops_next.
  - apply table_ops_one.
    apply (op_put self m p p a
             (set_last_food_pos (Some p) (set_carrying_food true a)));
      [exact G | exact Hh | exact Hp].
  - apply op_eat; [|exact Hfood].
    unfold put_ant. apply in_update_other; assumption.
Qed.

Lemma drop_food_at_nest_ops (m : Model) (self : Z) :
  Inv m -> table_ops self m (snd (drop_food_at_nest m self)).
Proof.
  intros I. unfold drop_food_at_nest.
  destruct (get_ant m self) as [[p a]|] eqn:G; [|apply ops_refl].
  destruct (carrying_food a); [|apply ops_refl].
  destruct (at_or_adjacent p (home_pos a)); [|apply ops_refl].
  cbv zeta. cbn [snd].
  destruct (ant_facts m self p a (proj1 I) G) as [Hp Hh].
  eapply ops_next; [|apply op_deliver].
  apply table_ops_one.
  apply (op_put self m p p a
           (set_exploration_cooldown 5
              (set_returning_to_food true
                 (set_just_dropped_food true (set_carrying_food false a)))));
    [exact G | exact Hh | exact Hp].
Qed.

Lemma AntAgent_step_ops (m : Model) (self : Z) :
  Inv m -> table_ops self m (AntAgent_step m self).
Proof.
  intros I. unfold AntAgent_step.
  set (m1 := if negb (carrying m self) then snd (pick_up_food m self) else m).
  assert (H1 : step_ok self m m1 /\ table_ops self m m1).
  { subst m1. destruct (negb (carrying m self));
      [|split; [apply step_ok_refl, I | apply ops_refl]].
    split; [|apply pick_up_food_ops, I].
    destruct (get_ant m self) as [[p a]|] eqn:G.
    - apply (pick_up_food_spec m self p a I G).
    - unfold pick_up_food. rewrite G. apply step_ok_refl, I. }
  destruct H1 as [H1 O1].
  assert (H2 : step_ok self m1 (move m1 self)) by (apply move_ok, H1).
  eapply table_ops_trans; [exact O1|].
  eapply table_ops_trans; [apply move_ops, H1|].
  destruct (carrying (move m1 self) self).
  - apply drop_food_at_nest_ops, H2.
  - apply ops_refl.
Qed.

Lemma remove_update (id : Z) (f : Agent -> Agent) (l : list Agent) :
  (forall a, unique_id (f a) = unique_id a) ->
  remove_agent id (update_agent id f l) = remove_agent id l.
Proof.
  intros Hf. unfold remove_agent, update_agent.
  induction l as [|a l IH]; [reflexivity|]. cbn [map filter].
  destruct (Z.eqb_spec (unique_id a) id) as [E|E].
  - rewrite Hf. destruct (Z.eqb_spec (unique_id a) id); [|contradiction].
    cbn [negb]. exact IH.
  - destruct (Z.eqb_spec (unique_id a) id); [contradiction|].
    cbn [negb]. rewrite IH. reflexivity.
Qed.

Lemma PheromoneAgent_step_ops (m : Model) (self : Z) :
  table_ops self m (PheromoneAgent_step m self).
Proof.
  unfold PheromoneAgent_step.
  destruct (find_agent (agents m) self) as [a|] eqn:F; [|apply ops_refl].
  destruct (body a) as [| | |s ty] eqn:B; try apply ops_refl.
  destruct (find_agent_some _ _ _ F) as [Hin Hid].
  cbv zeta.
  change (fun a0 : Agent =>
            mkAgent (unique_id a0) (pos a0) (Pheromone (s * evaporation m ty) ty))
    with (reinforce (s * evaporation m ty) ty).
  destruct (Rltb (s * evaporation m ty) 0.05) eqn:E.
  - cbn [agents set_agents]. rewrite remove_update by reflexivity.
    apply table_ops_one.
    apply (op_vanish self m a); [exact Hin | exact Hid |].
    unfold is_pheromone. rewrite B. reflexivity.
  - apply Rltb_false in E. apply table_ops_one.
    apply (op_fade self m a s ty); assumption.
Qed.

Lemma agent_step_ops (m : Model) (key : Z) :
  Inv m -> table_ops key m (fst (agent_step m key)).
Proof.
  intros I. unfold agent_step.
  destruct (find_agent (agents m) key) as [a|]; [|apply ops_refl].
  destruct (body a); cbn [fst]; try apply ops_refl.
  - apply AntAgent_step_ops, I.
  - apply PheromoneAgent_step_ops.
Qed.

(** ** What the elementary changes keep *)

Lemma filter_update_ids (P : Agent -> bool) (id : Z) (f : Agent -> Agent)
  (l : list Agent) :
  (forall x, In x l -> unique_id x = id ->
     P (f x) = P x /\ unique_id (f x) = unique_id x) ->
  map unique_id (filter P (update_agent id f l)) = map unique_id (filter P l).
Proof.
  unfold update_agent. induction l as [|a l IH]; intros H; [reflexivity|].
  cbn [map filter].
  assert (IH' : map unique_id
                  (filter P
                     (map (fun a0 => if unique_id a0 =? id then f a0 else a0) l))
                = map unique_id (filter P l))
    by (apply IH; intros x Hx; apply H; right; exact Hx).
  destruct (Z.eqb_spec (unique_id a) id) as [E|E].
  - destruct (H a (or_introl eq_refl) E) as [HP Hid]. rewrite HP.
    destruct (P a); cbn [map]; rewrite IH', ?Hid; reflexivity.
  - destruct (P a); cbn [map]; rewrite IH'; reflexivity.
Qed.

Lemma filter_remove_ids (P : Agent -> bool) (id : Z) (l : list Agent) :
  (forall x, In x l -> unique_id x = id -> P x = false) ->
  filter P (remove_agent id l) = filter P l.
Proof.
  unfold remove_agent. induction l as [|a l IH]; intros H; [reflexivity|].
  cbn [filter].
  assert (IH' : filter P (filter (fun a0 => negb (unique_id a0 =? id)) l)
                = filter P l)
    by (apply IH; intros x Hx; apply H; right; exact Hx).
  destruct (Z.eqb_spec (unique_id a) id) as [E|E]; cbn [negb filter].
  - rewrite (H a (or_introl eq_refl) E). exact IH'.
  - rewrite IH'. reflexivity.
Qed.

Lemma kinds_exclusive (a : Agent) :
  (is_pheromone a = true -> is_ant a = false /\ is_food a = false)
  /\ (is_food a = true -> is_ant a = false /\ is_pheromone a = false)
  /\ (is_ant a = true -> is_food a = false /\ is_pheromone a = false).
Proof.
  unfold is_pheromone, is_ant, is_food.
  destruct (body a); repeat split; try reflexivity; discriminate.
Qed.

(** No elementary change adds an ant to the table, removes one or changes
    the order of the ants. *)
Lemma table_op_ant_ids (self : Z) (m m' : Model) :
  Shape m -> table_op self m m' -> ant_ids m' = ant_ids m.
Proof.
  intros S H. pose proof (inv_ids m S) as Hnd.
  destruct H as [g | agent v ty Hin Hty Hv | p v ty Hnone Hfar Hv
                 | p0 p r0 r G Hh Hp | x Hin Hfood | | x s ty Hin Hid Hb Hs
                 | x Hin Hid Hph]; unfold ant_ids; cbn [agents set_agents
                   set_random set_food_delivered set_active_pheromones
                   add_agent set_next_id_value put_ant]; try reflexivity.
  - apply filter_update_ids. intros x Hx Ex.
    assert (x = agent) by (apply (in_same_id m); assumption). subst x.
    split; [|reflexivity].
    apply is_pheromone_of_is_pheromone in Hty.
    destruct (kinds_exclusive agent) as (K & _). rewrite (proj1 (K Hty)).
    reflexivity.
  - rewrite filter_app. cbn [filter is_ant body]. rewrite app_nil_r.
    reflexivity.
  - destruct (get_ant_find _ _ _ _ G) as (a & F & Hin & Hid & _ & Hb).
    apply filter_update_ids. intros x Hx Ex.
    assert (x = a) by (apply (in_same_id m); try assumption; congruence).
    subst x. split; [|reflexivity].
    unfold is_ant. rewrite Hb. reflexivity.
  - rewrite filter_remove_ids; [reflexivity|]. intros y Hy Ey.
    assert (y = x) by (apply (in_same_id m); assumption). subst y.
    destruct (kinds_exclusive x) as (_ & K & _). apply (K Hfood).
  - apply filter_update_ids. intros y Hy Ey.
    assert (y = x) by (apply (in_same_id m); try assumption; congruence).
    subst y. split; [|reflexivity].
    unfold is_ant. rewrite Hb. reflexivity.
  - rewrite filter_remove_ids; [reflexivity|]. intros y Hy Ey.
    assert (y = x) by (apply (in_same_id m); try assumption; congruence).
    subst y. destruct (kinds_exclusive x) as (K & _). apply (K Hph).
Qed.

(** The activation of [self] leaves every ant other than [self] as it
    is. *)
Lemma table_op_other_ant (self id : Z) (x : Agent) (m m' : Model) :
  id <> self -> is_ant x = true ->
  Shape m -> table_op self m m' ->
  find_agent (agents m) id = Some x -> find_agent (agents m') id = Some x.
Proof.
  intros Hne Hant S H F. pose proof (inv_ids m S) as Hnd.
  destruct (find_agent_some _ _ _ F) as [Hxin Hxid].
  destruct (kinds_exclusive x) as (_ & _ & K). destruct (K Hant) as [Kf Kp].
  destruct H as [g | agent v ty Hin Hty Hv | p v ty Hnone Hfar Hv
                 | p0 p r0 r G Hh Hp | y Hin Hfood | | y s ty Hin Hid Hb Hs
                 | y Hin Hid Hph]; cbn [agents set_agents
                   set_random set_food_delivered set_active_pheromones
                   add_agent set_next_id_value put_ant]; try exact F.
  - rewrite find_agent_update_other; [exact F | reflexivity |].
    intros E. assert (x = agent)
      by (apply (in_same_id m); try assumption; congruence).
    subst x. apply is_pheromone_of_is_pheromone in Hty. congruence.
  - rewrite find_agent_app, F. reflexivity.
  - rewrite find_agent_update_other; [exact F | reflexivity | exact Hne].
  - rewrite find_agent_remove_other; [exact F|].
    intros E. assert (x = y)
      by (apply (in_same_id m); try assumption; congruence).
    subst x. congruence.
  - rewrite find_agent_update_other; [exact F | reflexivity | exact Hne].
  - rewrite find_agent_remove_other; [exact F | exact Hne].
Qed.

(** [active_pheromones] follows the identifiers issued; the number of
    pheromones in the table never grows faster than it. *)
Lemma table_op_tally (self : Z) (m m' : Model) :
  Shape m -> table_op self m m' ->
  active_pheromones m' - next_id_value m'
  = active_pheromones m - next_id_value m
  /\ pheromone_count m' - active_pheromones m'
     <= pheromone_count m - active_pheromones m.
Proof.
  intros S H. pose proof (inv_ids m S) as Hnd.
  destruct H as [g | agent v ty Hin Hty Hv | p v ty Hnone Hfar Hv
                 | p0 p r0 r G Hh Hp | x Hin Hfood | | x s ty Hin Hid Hb Hs
                 | x Hin Hid Hph]; unfold pheromone_count; cbn [agents set_agents
                   set_random set_food_delivered set_active_pheromones
                   add_agent set_next_id_value put_ant active_pheromones
                   next_id_value].
  - split; lia.
  - rewrite (count_if_update _ _ _ _ agent Hnd Hin eq_refl).
    apply is_pheromone_of_is_pheromone in Hty. rewrite Hty.
    change (is_pheromone (reinforce (Rmin 3.0 (strength_of agent + v * 0.5)) ty
                            agent)) with true.
    cbn [b2z]. split; lia.
  - rewrite count_if_app, count_if_cons, count_if_nil.
    change (is_pheromone (mkAgent (next_id_value m + 1) p (Pheromone v ty)))
      with true.
    cbn [b2z]. split; lia.
  - destruct (get_ant_find _ _ _ _ G) as (a & F & Hin & Hid & _ & Hb).
    rewrite (count_if_update _ _ _ _ a Hnd Hin Hid).
    assert (Ha : is_pheromone a = false)
      by (unfold is_pheromone; rewrite Hb; reflexivity).
    rewrite Ha.
    change (is_pheromone (mkAgent (unique_id a) p (Ant r))) with false.
    cbn [b2z]. split; lia.
  - rewrite (count_if_remove _ _ x Hnd Hin).
    destruct (kinds_exclusive x) as (_ & K & _). rewrite (proj2 (K Hfood)).
    cbn [b2z]. split; lia.
  - split; lia.
  - rewrite (count_if_update _ _ _ _ x Hnd Hin Hid).
    assert (Hx : is_pheromone x = true)
      by (unfold is_pheromone; rewrite Hb; reflexivity).
    rewrite Hx.
    change (is_pheromone (reinforce (s * evaporation m ty) ty x)) with true.
    cbn [b2z]. split; lia.
  - rewrite <- Hid. rewrite (count_if_remove _ _ x Hnd Hin). rewrite Hph.
    cbn [b2z]. split; lia.
Qed.

(** Strengths stay in [0.05, 3.0] as long as the evaporation factors are
    in [0, 1]. *)
Lemma table_op_strengths (self : Z) (m m' : Model) :
  Shape m -> table_op self m m' ->
  evaporation_bounded m /\ strengths_bounded m ->
  evaporation_bounded m' /\ strengths_bounded m'.
Proof.
  intros S H [He Hs]. pose proof (inv_ids m S) as Hnd.
  split; [destruct H; exact He|].
  unfold strengths_bounded in *.
  destruct H as [g | agent v ty Hin Hty Hv | p v ty Hnone Hfar Hv
                 | p0 p r0 r G Hh Hp | x Hin Hfood | | x s ty Hin Hid Hb Hb'
                 | x Hin Hid Hph]; cbn [agents set_agents
                   set_random set_food_delivered set_active_pheromones
                   add_agent set_next_id_value put_ant]; try exact Hs.
  - apply Forall_update; [exact Hs|]. intros x Hx Ex _ s0 ty0 E0.
    injection E0 as <- _.
    assert (Ha : (0.05 <= strength_of agent <= 3)%R).
    { rewrite Forall_forall in Hs. specialize (Hs agent Hin).
      unfold strength_of. unfold is_pheromone_of in Hty.
      destruct (body agent) as [| | |s1 t1]; try discriminate.
      apply (Hs s1 t1 eq_refl). }
    split.
    + apply Rmin_glb; lra.
    + eapply Rle_trans; [apply Rmin_l | lra].
  - apply Forall_app. split; [exact Hs|].
    apply Forall_cons; [|apply Forall_nil]. intros s0 ty0 E0.
    injection E0 as <- _. lra.
  - apply Forall_update; [exact Hs|]. intros x Hx Ex _ s0 ty0 E0.
    discriminate.
  - apply Forall_remove, Hs.
  - apply Forall_update; [exact Hs|]. intros y Hy Ey _ s0 ty0 E0.
    injection E0 as <- _.
    assert (Hx : (0.05 <= s <= 3)%R).
    { rewrite Forall_forall in Hs. apply (Hs x Hin s ty Hb). }
    assert (Hev : (0 <= evaporation m ty <= 1)%R)
      by (destruct ty; apply He).
    split; [exact Hb'|]. nra.
  - apply Forall_remove, Hs.
Qed.

(** ** From elementary changes to sub-steps and ticks *)


Lemma step_eq (m : Model) :
  simulation_speed m <> 0 ->
  step m
  = Some (collect_statistics
            (Nat.iter (Z.to_nat (simulation_speed m)) sub_step (tick_start m))).
Proof.
  intros Hs. unfold step. cbv zeta.
  cbn [steps_per_second simulation_speed to_nest_lifespan to_food_lifespan
       set_active_by_type set_active_pheromones].
  rewrite !lifespan_to_evaporation_eq by exact Hs. reflexivity.
Qed.

Lemma step_none (m : Model) : step m = None <-> simulation_speed m = 0.
Proof.
  split.
  - intros E. destruct (Z.eq_dec (simulation_speed m) 0) as [H|H]; [exact H|].
    rewrite (step_eq m H) in E. discriminate.
  - intros H. unfold step. cbv zeta.
    cbn [steps_per_second simulation_speed to_nest_lifespan to_food_lifespan
         set_active_by_type set_active_pheromones].
    unfold _lifespan_to_evaporation. rewrite H. reflexivity.
Qed.

Lemma tick_start_inv (m : Model) : Inv m -> Inv (tick_start m).
Proof. intros I. eapply Inv_same_core; [..|exact I]; reflexivity. Qed.

Lemma sub_step_frame (m : Model) :
  frame (sub_step m) = frame (set_step_count (step_count m + 1) m).
Proof.
  unfold sub_step. pose proof (schedule_step_frame m) as E.
  unfold frame in *. cbn [width height n_ants simulation_speed to_nest_lifespan
    to_food_lifespan steps_per_second to_nest_evaporation to_food_evaporation
    total_food step_count active_to_nest_pheromones active_to_food_pheromones
    ants_with_food ants_at_nest ants_following_pheromones ants_random_walking
    nest_pos set_step_count].
  congruence.
Qed.

Lemma iter_sub_step_frame (n : nat) (m : Model) :
  frame (Nat.iter n sub_step m)
  = frame (set_step_count (step_count m + Z.of_nat n) m).
Proof.
  induction n as [|n IH].
  - cbn [Nat.iter nat_rect]. unfold frame. cbn. rewrite Z.add_0_r. reflexivity.
  - change (Nat.iter (S n) sub_step m) with (sub_step (Nat.iter n sub_step m)).
    rewrite sub_step_frame. unfold frame in *.
    cbn [width height n_ants simulation_speed to_nest_lifespan
      to_food_lifespan steps_per_second to_nest_evaporation to_food_evaporation
      total_food step_count active_to_nest_pheromones active_to_food_pheromones
      ants_with_food ants_at_nest ants_following_pheromones ants_random_walking
      nest_pos set_step_count] in *.
    replace (step_count m + Z.of_nat (S n))
      with (step_count m + Z.of_nat n + 1) by lia.
    congruence.
Qed.

(** ** Ticks *)

Lemma frame_fields (m m' : Model) :
  frame m' = frame m ->
  width m' = width m /\ height m' = height m /\ nest_pos m' = nest_pos m
  /\ n_ants m' = n_ants m /\ simulation_speed m' = simulation_speed m
  /\ total_food m' = total_food m /\ step_count m' = step_count m
  /\ to_nest_evaporation m' = to_nest_evaporation m
  /\ to_food_evaporation m' = to_food_evaporation m
  /\ active_to_nest_pheromones m' = active_to_nest_pheromones m
  /\ active_to_food_pheromones m' = active_to_food_pheromones m.
Proof.
  unfold frame. intros E.
  injection E as E1 E2 E3 E4 E5 E6 E7 E8 E9 E10 E11 E12 E13 E14 E15 E16 E17 E18.
  repeat split; assumption.
Qed.

(** [X1] A tick (one call of [AntColonyModel.step]) with a speed other than 0
    returns; it advances the step count by the speed (by nothing for a
    negative speed, when no agent is activated at all), recomputes both
    evaporation factors from the lifespans and the speed of the moment,
    and leaves the grid size, the nest, the food total and the parameters
    as they are. *)
Theorem step_bookkeeping (m : Model) :
  simulation_speed m <> 0 ->
  exists m',
    step m = Some m'
    /\ step_count m' = step_count m + Z.max 0 (simulation_speed m)
    /\ to_nest_evaporation m'
       = factor_of_ticks
           (total_ticks (steps_per_second m) (simulation_speed m)
              (to_nest_lifespan m))
    /\ to_food_evaporation m'
       = factor_of_ticks
           (total_ticks (steps_per_second m) (simulation_speed m)
              (to_food_lifespan m))
    /\ (width m', height m', nest_pos m', n_ants m', simulation_speed m',
        total_food m')
       = (width m, height m, nest_pos m, n_ants m, simulation_speed m,
          total_food m)
    /\ (simulation_speed m < 0 ->
        agents m' = agents m /\ food_delivered m' = food_delivered m).
Proof.
  intros Hs. eexists. split; [apply (step_eq m Hs)|].
  pose proof (iter_sub_step_frame (Z.to_nat (simulation_speed m))
                (tick_start m)) as E.
  apply frame_fields in E.
  destruct E as (Ew & Eh & En & Ea & Esp & Et & Ec & Etn & Etf & _).
  cbn [step_count to_nest_evaporation to_food_evaporation width height
       nest_pos n_ants simulation_speed total_food collect_statistics
       set_statistics].
  cbn [step_count to_nest_evaporation to_food_evaporation width height
       nest_pos n_ants simulation_speed total_food set_step_count tick_start
       set_evaporation set_active_by_type set_active_pheromones]
    in Ew, Eh, En, Ea, Esp, Et, Ec, Etn, Etf.
  split; [rewrite Ec; lia|].
  split; [exact Etn|]. split; [exact Etf|].
  split; [congruence|].
  intros Hneg.
  replace (Z.to_nat (simulation_speed m)) with 0%nat by lia.
  split; reflexivity.
Qed.

Lemma step_bookkeeping_witness :
  exists m',
    step small_colony = Some m'
    /\ step_count m' = step_count small_colony
                       + Z.max 0 (simulation_speed small_colony)
    /\ to_nest_evaporation m'
       = factor_of_ticks
           (total_ticks (steps_per_second small_colony)
              (simulation_speed small_colony) (to_nest_lifespan small_colony))
    /\ to_food_evaporation m'
       = factor_of_ticks
           (total_ticks (steps_per_second small_colony)
              (simulation_speed small_colony) (to_food_lifespan small_colony))
    /\ (width m', height m', nest_pos m', n_ants m', simulation_speed m',
        total_food m')
       = (width small_colony, height small_colony, nest_pos small_colony,
          n_ants small_colony, simulation_speed small_colony,
          total_food small_colony)
    /\ (simulation_speed small_colony < 0 ->
        agents m' = agents small_colony
        /\ food_delivered m' = food_delivered small_colony).
Proof. apply (step_bookkeeping small_colony). discriminate. Defined.

(** The invariant holds at every state of a run from a state where it
    holds. *)
Lemma reachable_shape (m0 m : Model) :
  Inv m0 -> reachable_from m0 m -> Inv m.
Proof.
  intros I0 R. induction R as [|m R IH|m key R IH|m R IH|m m' R IH E].
  - exact I0.
  - eapply Inv_same_core; [..|exact IH]; reflexivity.
  - apply (agent_step_ok m key IH).
  - apply (sub_step_inv m IH).
  - apply (step_inv m m' IH E).
Qed.

Section Activations.

Variable Q : Model -> Prop.
Hypothesis Q_act : forall m key, Inv m -> Q m -> Q (fst (agent_step m key)).
Hypothesis Q_draw : forall m g, Q m -> Q (set_random g m).
Hypothesis Q_count : forall m c, Q m -> Q (set_step_count c m).

Lemma run_keys_kept (keys : list Z) (st : Model * list Event) :
  Inv (fst st) -> Q (fst st) -> Q (fst (run_keys keys st)).
Proof.
  revert st. induction keys as [|key keys IH]; intros st I H; [exact H|].
  rewrite run_keys_cons. apply IH; cbn [fst].
  - apply (agent_step_ok (fst st) key I).
  - apply Q_act; assumption.
Qed.

Lemma schedule_step_kept (m : Model) : Inv m -> Q m -> Q (schedule_step m).
Proof.
  intros I H. unfold schedule_step, schedule_step_trace.
  destruct (shuffle (random m) (map unique_id (agents m))) as [keys g].
  apply run_keys_kept; cbn [fst].
  - eapply Inv_same_core; [..|exact I]; reflexivity.
  - apply Q_draw, H.
Qed.

Lemma sub_step_kept (m : Model) : Inv m -> Q m -> Q (sub_step m).
Proof.
  intros I H. unfold sub_step. apply Q_count.
  apply schedule_step_kept; assumption.
Qed.

Lemma iter_sub_step_kept (n : nat) (m : Model) :
  Inv m -> Q m -> Q (Nat.iter n sub_step m).
Proof.
  intros I H. induction n as [|n IH]; [exact H|].
  change (Nat.iter (S n) sub_step m) with (sub_step (Nat.iter n sub_step m)).
  apply sub_step_kept; [|exact IH]. apply iter_sub_step_inv, I.
Qed.

Hypothesis Q_tick : forall m, Q m -> Q (tick_start m).
Hypothesis Q_stats : forall m, Q m -> Q (collect_statistics m).

Lemma step_kept (m m' : Model) : Inv m -> step m = Some m' -> Q m -> Q m'.
Proof.
  intros I E H.
  assert (Hs : simulation_speed m <> 0).
  { intros H0. apply step_none in H0. congruence. }
  rewrite (step_eq m Hs) in E. injection E as <-.
  apply Q_stats. apply iter_sub_step_kept.
  - apply tick_start_inv, I.
  - apply Q_tick, H.
Qed.

Lemma reachable_kept (m0 m : Model) :
  Inv m0 -> reachable_from m0 m -> Q m0 -> Q m.
Proof.
  intros H0 R Hm0.
  induction R as [|m R IH|m key R IH|m R IH|m m' R IH E].
  - exact Hm0.
  - apply Q_draw, IH.
  - apply Q_act; [apply (reachable_shape m0 m H0 R) | exact IH].
  - apply sub_step_kept; [apply (reachable_shape m0 m H0 R) | exact IH].
  - apply (step_kept m m'); [apply (reachable_shape m0 m H0 R) | | ];
      assumption.
Qed.

End Activations.

(** The same for a property that every elementary change keeps. *)
Section Kept.

Variable Q : Model -> Prop.
Hypothesis Q_op :
  forall self m1 m2, Shape m1 -> table_op self m1 m2 -> Q m1 -> Q m2.
Hypothesis Q_count : forall m c, Q m -> Q (set_step_count c m).

Lemma agent_step_keeps (m : Model) (key : Z) :
  Inv m -> Q m -> Q (fst (agent_step m key)).
Proof.
  intros I H.
  apply (table_ops_preserve Q key m); [apply Q_op | apply I | | exact H].
  apply agent_step_ops, I.
Qed.

Lemma draw_keeps (m : Model) (g : Rng) : Inv m -> Q m -> Q (set_random g m).
Proof.
  intros I H. apply (Q_op 0 m); [apply I | apply op_random | exact H].
Qed.

Lemma iter_sub_step_keeps (n : nat) (m : Model) :
  Inv m -> Q m -> Q (Nat.iter n sub_step m).
Proof.
  intros I H.
  apply (iter_sub_step_kept (fun x => Inv x /\ Q x)); [| | | exact I | auto].
  - intros x key Ix [_ Hx]. split; [apply (agent_step_ok x key Ix)|].
    apply agent_step_keeps; assumption.
  - intros x g [Ix Hx]. split; [|apply draw_keeps; assumption].
    eapply Inv_same_core; [..|exact Ix]; reflexivity.
  - intros x c [Ix Hx]. split; [|apply Q_count, Hx].
    eapply Inv_same_core; [..|exact Ix]; reflexivity.
Qed.

Hypothesis Q_tick : forall m, Q m -> Q (tick_start m).
Hypothesis Q_stats : forall m, Q m -> Q (collect_statistics m).

Lemma reachable_keeps (m0 m : Model) :
  Inv m0 -> reachable_from m0 m -> Q m0 -> Q m.
Proof.
  intros H0 R Hm0.
  apply (reachable_kept (fun x => Inv x /\ Q x) ) with (m0 := m0);
    [| | | | | exact H0 | exact R |].
  - intros x key Ix [_ Hx]. split; [apply (agent_step_ok x key Ix)|].
    apply agent_step_keeps; assumption.
  - intros x g [Ix Hx]. split; [|apply draw_keeps; assumption].
    eapply Inv_same_core; [..|exact Ix]; reflexivity.
  - intros x c [Ix Hx]. split; [|apply Q_count, Hx].
    eapply Inv_same_core; [..|exact Ix]; reflexivity.
  - intros x [Ix Hx]. split; [apply tick_start_inv, Ix | apply Q_tick, Hx].
  - intros x [Ix Hx]. split; [|apply Q_stats, Hx].
    eapply Inv_same_core; [..|exact Ix]; reflexivity.
  - split; [exact H0 | exact Hm0].
Qed.

End Kept.

(** [X3] The pheromone counters that a tick reports.  The two counters by type
    are the numbers of pheromones at the start of the tick: deposits and
    evaporation within the tick do not reach them.  [active_pheromones] is
    the number at the start plus the number created in the tick:
    evaporation does not reach it, so it is an upper bound of the
    pheromones on the grid at the end of the tick. *)
Theorem pheromone_counters_after_tick (m : Model) :
  Inv m -> simulation_speed m <> 0 ->
  exists m',
    step m = Some m'
    /\ active_to_nest_pheromones m'
       = count_if (is_pheromone_of to_nest) (agents m)
    /\ active_to_food_pheromones m'
       = count_if (is_pheromone_of to_food) (agents m)
    /\ active_pheromones m'
       = pheromone_count m + (next_id_value m' - next_id_value m)
    /\ pheromone_count m' <= active_pheromones m'.
Proof.
  intros I Hs. eexists. split; [apply (step_eq m Hs)|].
  set (n := Z.to_nat (simulation_speed m)).
  pose proof (iter_sub_step_frame n (tick_start m)) as E.
  apply frame_fields in E.
  destruct E as (_ & _ & _ & _ & _ & _ & _ & _ & _ & En & Ef).
  set (Q := fun x : Model =>
              active_pheromones x - next_id_value x
              = pheromone_count m - next_id_value m
              /\ pheromone_count x - active_pheromones x <= 0).
  assert (HQ : Q (Nat.iter n sub_step (tick_start m))).
  { apply (iter_sub_step_keeps Q).
    - intros self m1 m2 S Hop [H1 H2].
      destruct (table_op_tally self m1 m2 S Hop) as [T1 T2].
      split; lia.
    - intros x c H. exact H.
    - apply tick_start_inv, I.
    - split; unfold pheromone_count; cbn; lia. }
  destruct HQ as [H1 H2].
  split; [exact En|]. split; [exact Ef|].
  unfold pheromone_count in *.
  cbn [active_pheromones next_id_value agents collect_statistics
       set_statistics].
  split; lia.
Qed.

Lemma fading_trail_inv : Inv fading_trail.
Proof.
  split.
  - constructor; cbn; try lia; try reflexivity.
    + repeat constructor; cbn; intuition discriminate.
    + repeat (apply Forall_cons; [cbn; lia|]). apply Forall_nil.
    + apply Forall_cons; [discriminate|].
      apply Forall_cons; [intros _; unfold in_grid; cbn; lia|].
      apply Forall_cons; [discriminate | apply Forall_nil].
    + apply Forall_cons; [discriminate|].
      apply Forall_cons; [intros r E; injection E as <-; reflexivity|].
      apply Forall_cons; [discriminate | apply Forall_nil].
    + apply Forall_cons; [discriminate|].
      apply Forall_cons; [discriminate|].
      apply Forall_cons; [intros _; unfold dist2; cbn; lia | apply Forall_nil].
    + intros q ty. rewrite live_pheromones_conj. cbn.
      rewrite !andb_false_r. cbn.
      destruct (_ && _); cbn; lia.
  - reflexivity.
Qed.

Lemma count_if_ext (f g : Agent -> bool) (l : list Agent) :
  (forall a, f a = g a) -> count_if f l = count_if g l.
Proof.
  intros H. unfold count_if. rewrite (filter_ext f g H). reflexivity.
Qed.

(** A tick of [fading_trail]: the shuffle gives the keys 2, 3, 1; the ant
    deposits and steps, the pheromone decays below the threshold and is
    removed, the nest idles. *)
Lemma fading_trail_step : step fading_trail = Some faded.
Proof.
  unfold step.
  rewrite !lifespan_to_evaporation_eq by discriminate.
  set (m2 := set_evaporation _ _ _).
  change (Nat.iter (Z.to_nat (simulation_speed m2)) sub_step m2)
    with (sub_step m2).
  unfold sub_step, schedule_step, schedule_step_trace.
  change (shuffle (random m2) (map unique_id (agents m2)))
    with ([2; 3; 1], mkRng (fun _ => 0%N) 2).
  cbv beta iota. rewrite fst_run_keys. cbn [fst fold_left].
  set (s0 := set_random (mkRng (fun _ => 0%N) 2) m2).
  change (fst (agent_step s0 2)) with (AntAgent_step s0 2).
  assert (EA : AntAgent_step s0 2
               = set_active_pheromones 2
                   (set_next_id_value 4
                      (set_agents
                         (update_agent 2
                            (fun _ =>
                               mkAgent 2 (13, 10)
                                 (Ant (mkAnt true 0 (10, 10) (Some (0, 0)) 2
                                         (Some (14, 10)) false false false 0)))
                            (agents s0)
                          ++ [mkAgent 4 (14, 10)
                                (Pheromone (1.5 * (4 / 10)) to_nest)])
                         s0))).
  { unfold AntAgent_step. change (carrying s0 2) with true. cbn [negb].
    rewrite (move_carrying s0 2 (14, 10)
               (set_last_food_pos (Some (14, 10))
                  (set_carrying_food true fresh_ant)))
      by reflexivity.
    change (home_pos (set_last_food_pos (Some (14, 10))
                        (set_carrying_food true fresh_ant))) with (10, 10).
    rewrite (move_towards_unique s0 (14, 10) (10, 10) (13, 10))
      by reflexivity.
    change (9 <? dist2 (14, 10) (10, 10)) with true. cbv iota.
    assert (Ed : dist (14, 10) (nest_pos s0) = 4%R) by exact dist_14_10.
    rewrite create_pheromone_single.
    - rewrite Ed. reflexivity.
    - reflexivity.
    - reflexivity.
    - reflexivity.
    - rewrite Ed. lra.
    - rewrite Ed. lra. }
  rewrite EA. clear EA.
  set (sA := set_active_pheromones 2 _).
  assert (EP : fst (agent_step sA 3)
               = set_agents (remove_agent 3 (agents sA)) sA).
  { change (fst (agent_step sA 3)) with (PheromoneAgent_step sA 3).
    unfold PheromoneAgent_step.
    change (find_agent (agents sA) 3)
      with (Some (mkAgent 3 (5, 5) (Pheromone 0.05 to_food))).
    cbn [body]. cbv zeta.
    change (evaporation sA to_food)
      with (factor_of_ticks (total_ticks 10 1 6)).
    assert (Hf : (0.05 * factor_of_ticks (total_ticks 10 1 6) < 0.05)%R).
    { assert (Ht : (0 < total_ticks 10 1 6)%R) by (unfold total_ticks; lra).
      pose proof (factor_of_ticks_range _ Ht). lra. }
    apply Rltb_true in Hf. rewrite Hf. reflexivity. }
  rewrite EP. clear EP.
  set (sP := set_agents (remove_agent 3 (agents sA)) sA).
  change (fst (agent_step sP 1)) with sP.
  unfold collect_statistics.
  rewrite (count_if_ext
             (fun a => is_ant a && Rltb (dist (pos a) (nest_pos _)) 5)
             (fun a => is_ant a && (dist2 (pos a) (10, 10) <? 25))).
  - reflexivity.
  - intros a. rewrite (Rltb_dist_l 5) by lia. reflexivity.
Qed.

(** In the tick of [fading_trail] one pheromone is created and one
    evaporates: the counter of to-food pheromones still shows the one of
    the start although none is left, the counter of to-nest pheromones
    shows none although there is one, and [active_pheromones] counts two
    where one is on the grid. *)
Lemma pheromone_counters_witness :
  step fading_trail = Some faded
  /\ active_to_nest_pheromones faded = 0
  /\ count_if (is_pheromone_of to_nest) (agents faded) = 1
  /\ active_to_food_pheromones faded = 1
  /\ count_if (is_pheromone_of to_food) (agents faded) = 0
  /\ active_pheromones faded = 1 + (4 - 3)
  /\ pheromone_count faded = 1
  /\ pheromone_count faded <= active_pheromones faded.
Proof.
  destruct (pheromone_counters_after_tick fading_trail fading_trail_inv)
    as (m' & E & Hn & Hf & Ha & Hle); [discriminate|].
  rewrite fading_trail_step in E. injection E as <-.
  split; [exact fading_trail_step|].
  split; [exact Hn|]. split; [reflexivity|].
  split; [exact Hf|]. split; [reflexivity|].
  split; [exact Ha|]. split; [reflexivity | exact Hle].
Defined.


(** ** The constructor *)

Lemma lifespan_to_evaporation_range (sps : R) (speed : Z) (lifespan e : R) :
  _lifespan_to_evaporation sps speed lifespan = Some e -> (0 <= e <= 1)%R.
Proof.
  intros E.
  assert (Hs : speed <> 0).
  { intros ->. discriminate. }
  rewrite (lifespan_to_evaporation_eq sps speed lifespan Hs) in E.
  injection E as <-.
  split; [apply factor_of_ticks_nonneg|].
  destruct (Rle_dec (total_ticks sps speed lifespan) 0) as [H|H].
  - unfold factor_of_ticks.
    destruct (Rle_dec (total_ticks sps speed lifespan) 0); [lra | contradiction].
  - pose proof (factor_of_ticks_range (total_ticks sps speed lifespan)). lra.
Qed.

Lemma new_ant_built (k : nat) (st : Model * Rng) :
  next_id_value (fst st) = Z.of_nat (S k) -> built k (fst st) ->
  next_id_value (fst (new_ant st)) = Z.of_nat (S (S k))
  /\ built (S k) (fst (new_ant st))
  /\ frame (fst (new_ant st)) = frame (fst st).
Proof.
  destruct st as [m np]. cbn [fst]. intros Hn [Ha Hp].
  unfold new_ant, next_id. cbv beta iota zeta.
  match goal with
  | |- context [AntAgent_init np ?x] =>
      destruct (AntAgent_init np x) as [ant np']
  end.
  destruct (randint _ _ _) as [rx g1]. destruct (randint g1 _ _) as [ry g2].
  cbn [fst]. split; [|split; [split|reflexivity]].
  - cbn [next_id_value add_agent set_agents set_random set_next_id_value].
    rewrite Hn. lia.
  - unfold ant_ids in *.
    cbn [agents add_agent set_agents set_random set_next_id_value].
    rewrite filter_app, map_app, Ha. cbn [filter is_ant body map unique_id].
    rewrite Hn. rewrite seq_S, map_app. cbn [map].
    repeat f_equal. lia.
  - cbn [agents add_agent set_agents set_random set_next_id_value].
    apply Forall_app. split; [exact Hp|].
    apply Forall_cons; [reflexivity | apply Forall_nil].
Qed.

Lemma new_food_built (k : nat) (p : Pos) (m : Model) :
  built k m -> built k (new_food p m).
Proof.
  intros [Ha Hp]. unfold new_food, next_id, built, ant_ids in *.
  cbn [agents add_agent set_agents set_total_food set_next_id_value].
  split.
  - rewrite filter_app. cbn [filter is_ant body]. rewrite app_nil_r. exact Ha.
  - apply Forall_app. split; [exact Hp|].
    apply Forall_cons; [reflexivity | apply Forall_nil].
Qed.

Lemma fill_pile_built (k : nat) (center : Pos) (food_per_cell : Z) (m : Model) :
  built k m -> built k (fill_pile center food_per_cell m).
Proof.
  intros H. unfold fill_pile.
  apply fold_left_preserves; [|exact H]. intros acc dx Hacc.
  apply fold_left_preserves; [|exact Hacc]. intros acc' dy Hacc'.
  destruct (dx * dx + dy * dy <=? 4); [|exact Hacc'].
  apply iter_preserves; [|exact Hacc']. intros x. apply new_food_built.
Qed.

Lemma pick_pile_agents (fuel : nat) (m : Model) (min_dist : Z) (c : Pos)
  (m' : Model) :
  pick_pile fuel m min_dist = Some (c, m') ->
  agents m' = agents m /\ frame m' = frame m
  /\ next_id_value m' = next_id_value m.
Proof.
  revert m m'. induction fuel as [|fuel IH]; intros m m'; cbn [pick_pile];
    [discriminate|].
  destruct (randrange (random m) (width m)) as [x g1].
  destruct (randrange g1 (height m)) as [y g2].
  destruct (Rltb _ _).
  - intros E. injection E as _ <-. repeat split; reflexivity.
  - intros E. apply IH in E. exact E.
Qed.

Lemma place_piles_built (k fuel n : nat) (pile_size : Z) (m m' : Model) :
  place_piles fuel n pile_size m = Some m' -> built k m -> built k m'.
Proof.
  revert m. induction n as [|n IH]; intros m; cbn [place_piles].
  - intros E. injection E as <-. auto.
  - destruct (pick_pile fuel m _) as [[c m1]|] eqn:Pk; [|discriminate].
    intros E H. apply (IH _ E). apply fill_pile_built.
    destruct (pick_pile_agents _ _ _ _ _ Pk) as (Ea & _).
    unfold built, ant_ids in *. rewrite Ea. exact H.
Qed.

Lemma new_food_fields (p : Pos) (m : Model) :
  n_ants (new_food p m) = n_ants m
  /\ to_nest_evaporation (new_food p m) = to_nest_evaporation m
  /\ to_food_evaporation (new_food p m) = to_food_evaporation m
  /\ simulation_speed (new_food p m) = simulation_speed m.
Proof. repeat split; reflexivity. Qed.

Lemma fill_pile_fields (center : Pos) (food_per_cell : Z) (m : Model) :
  n_ants (fill_pile center food_per_cell m) = n_ants m
  /\ to_nest_evaporation (fill_pile center food_per_cell m)
     = to_nest_evaporation m
  /\ to_food_evaporation (fill_pile center food_per_cell m)
     = to_food_evaporation m
  /\ simulation_speed (fill_pile center food_per_cell m) = simulation_speed m.
Proof.
  unfold fill_pile.
  set (Q := fun x => n_ants x = n_ants m
                     /\ to_nest_evaporation x = to_nest_evaporation m
                     /\ to_food_evaporation x = to_food_evaporation m
                     /\ simulation_speed x = simulation_speed m).
  apply (fold_left_preserves Q); [|repeat split; reflexivity].
  intros acc dx Hacc. apply (fold_left_preserves Q); [|exact Hacc].
  intros acc' dy Hacc'. destruct (dx * dx + dy * dy <=? 4); [|exact Hacc'].
  apply (iter_preserves Q); [|exact Hacc'].
  intros x Hx. exact Hx.
Qed.

Lemma place_piles_fields (fuel n : nat) (pile_size : Z) (m m' : Model) :
  place_piles fuel n pile_size m = Some m' ->
  n_ants m' = n_ants m
  /\ to_nest_evaporation m' = to_nest_evaporation m
  /\ to_food_evaporation m' = to_food_evaporation m
  /\ simulation_speed m' = simulation_speed m.
Proof.
  revert m. induction n as [|n IH]; intros m; cbn [place_piles].
  - intros E. injection E as <-. repeat split; reflexivity.
  - destruct (pick_pile fuel m _) as [[c m1]|] eqn:Pk; [|discriminate].
    intros E. apply IH in E.
    destruct (pick_pile_agents _ _ _ _ _ Pk) as (_ & Ef & _).
    apply frame_fields in Ef.
    destruct Ef as (_ & _ & _ & E1 & E2 & _ & _ & E3 & E4 & _).
    destruct (fill_pile_fields c (pile_size / 20) m1) as (F1 & F2 & F3 & F4).
    destruct E as (G1 & G2 & G3 & G4).
    repeat split; congruence.
Qed.

Lemma iter_new_ant_built (k : nat) (st : Model * Rng) :
  next_id_value (fst st) = 1 -> built 0 (fst st) ->
  next_id_value (fst (Nat.iter k new_ant st)) = Z.of_nat (S k)
  /\ built k (fst (Nat.iter k new_ant st))
  /\ frame (fst (Nat.iter k new_ant st)) = frame (fst st).
Proof.
  intros Hn Hb. induction k as [|k IH].
  - cbn [Nat.iter nat_rect]. split; [exact Hn|]. split; [exact Hb | reflexivity].
  - change (Nat.iter (S k) new_ant st) with (new_ant (Nat.iter k new_ant st)).
    destruct IH as (In & Ib & If).
    destruct (new_ant_built k _ In Ib) as (Jn & Jb & Jf).
    split; [exact Jn|]. split; [exact Jb | congruence].
Qed.

(** What the constructor returns: the ants are the agents 2 to
    [n_ants + 1], there is no pheromone, and both evaporation factors are
    in [0, 1]. *)
Lemma init_built (w h n piles size speed : Z) (tn tf : R) (g np : Rng)
  (fuel : nat) (m0 : Model) (np' : Rng) :
  init w h n piles size speed tn tf g np fuel = Some (m0, np') ->
  built (Z.to_nat n) m0 /\ n_ants m0 = n /\ evaporation_bounded m0
  /\ simulation_speed m0 = speed /\ speed <> 0.
Proof.
  unfold init. intros E.
  destruct (_lifespan_to_evaporation _ _ tn) as [en|] eqn:En; [|discriminate].
  destruct (_lifespan_to_evaporation _ _ tf) as [ef|] eqn:Ef; [|discriminate].
  apply lifespan_to_evaporation_range in En as Hn.
  apply lifespan_to_evaporation_range in Ef as Hf.
  assert (Hs : speed <> 0) by (intros ->; discriminate).
  unfold next_id in E. cbv zeta in E.
  match type of E with
  | context [Nat.iter _ new_ant (?x, np)] => set (m2 := x) in *
  end.
  destruct (iter_new_ant_built (Z.to_nat n) (m2, np)) as (_ & Hb & Hfr).
  { reflexivity. }
  { split; [reflexivity|].
    apply Forall_cons; [reflexivity | apply Forall_nil]. }
  destruct (Nat.iter (Z.to_nat n) new_ant (m2, np)) as [m3 np3].
  cbn [fst] in Hb, Hfr. unfold place_food in E.
  destruct (place_piles fuel (Z.to_nat piles) size m3) as [m4|] eqn:P;
    [|discriminate].
  injection E as <- _.
  apply frame_fields in Hfr.
  destruct Hfr as (_ & _ & _ & E1 & E2 & _ & _ & E3 & E4 & _).
  destruct (place_piles_fields _ _ _ _ _ P) as (G1 & G2 & G3 & G4).
  split; [apply (place_piles_built _ _ _ _ _ _ P Hb)|].
  split; [rewrite G1, E1; reflexivity|].
  split; [|split; [rewrite G4, E2; reflexivity | exact Hs]].
  unfold evaporation_bounded. rewrite G2, G3, E3, E4. split; assumption.
Qed.

(** ** Invariants of a run, continued *)

Lemma reachable_ants (m0 m : Model) :
  initial m0 -> reachable_from m0 m ->
  ant_ids m = map Z.of_nat (seq 2 (Z.to_nat (n_ants m0)))
  /\ count_if is_ant (agents m) = Z.max 0 (n_ants m0).
Proof.
  intros H0 R.
  assert (E0 : ant_ids m0 = map Z.of_nat (seq 2 (Z.to_nat (n_ants m0)))).
  { destruct H0 as (w & h & n & piles & size & speed & tn & tf & g & np & fuel
                    & np' & _ & _ & E).
    destruct (init_built _ _ _ _ _ _ _ _ _ _ _ _ _ E) as ([Hb _] & Hn & _).
    rewrite Hn. exact Hb. }
  assert (E : ant_ids m = ant_ids m0).
  { apply (reachable_keeps (fun x => ant_ids x = ant_ids m0)) with (m0 := m0);
      try assumption; try reflexivity; try apply (initial_inv m0 H0).
    - intros self m1 m2 S Hop H.
      rewrite (table_op_ant_ids self m1 m2 S Hop). exact H.
    - intros x c H. exact H.
    - intros x H. exact H.
    - intros x H. exact H. }
  split; [congruence|].
  unfold count_if. rewrite <- (length_map unique_id).
  change (map unique_id (filter is_ant (agents m))) with (ant_ids m).
  rewrite E, E0, length_map, length_seq. lia.
Qed.

(** [X4] The ants of a run are the agents 2 to [n_ants + 1] that the
    constructor made: no activation adds an ant to the table, removes one
    or reorders them. *)
Theorem ants_are_permanent (m0 m : Model) :
  initial m0 -> reachable_from m0 m ->
  ant_ids m = map Z.of_nat (seq 2 (Z.to_nat (n_ants m0)))
  /\ count_if is_ant (agents m) = Z.max 0 (n_ants m0).
Proof. apply reachable_ants. Qed.

Lemma ants_are_permanent_witness :
  ant_ids (sub_step small_colony)
  = map Z.of_nat (seq 2 (Z.to_nat (n_ants small_colony)))
  /\ count_if is_ant (agents (sub_step small_colony))
     = Z.max 0 (n_ants small_colony).
Proof.
  apply (ants_are_permanent small_colony (sub_step small_colony)).
  - apply small_colony_initial.
  - apply reach_sub_step, reach_start.
Defined.

Lemma factor_of_ticks_unit (t : R) : (0 <= factor_of_ticks t <= 1)%R.
Proof.
  split; [apply factor_of_ticks_nonneg|].
  destruct (Rle_dec t 0) as [H|H].
  - unfold factor_of_ticks. destruct (Rle_dec t 0); [lra | contradiction].
  - pose proof (factor_of_ticks_range t). lra.
Qed.

(** [X5] At every state of a run the strength of every pheromone on the grid is
    in [0.05, 3.0], and both evaporation factors are in [0, 1]. *)
Theorem strengths_stay_bounded (m0 m : Model) :
  initial m0 -> reachable_from m0 m ->
  strengths_bounded m /\ evaporation_bounded m.
Proof.
  intros H0 R.
  assert (E0 : evaporation_bounded m0 /\ strengths_bounded m0).
  { destruct H0 as (w & h & n & piles & size & speed & tn & tf & g & np & fuel
                    & np' & _ & _ & E).
    destruct (init_built _ _ _ _ _ _ _ _ _ _ _ _ _ E) as ([_ Hb] & _ & He & _).
    split; [exact He|]. unfold strengths_bounded.
    eapply Forall_impl; [|exact Hb]. intros a Ha s ty Hbody.
    unfold is_pheromone in Ha. rewrite Hbody in Ha. discriminate. }
  apply and_comm.
  apply (reachable_keeps
           (fun x => evaporation_bounded x /\ strengths_bounded x))
    with (m0 := m0); try assumption; try apply (initial_inv m0 H0).
  - apply table_op_strengths.
  - intros x c H. exact H.
  - intros x [_ H]. split; [|exact H].
    split; apply factor_of_ticks_unit.
  - intros x H. exact H.
Qed.

(** The colony [forager] after one sub-step holds the to-nest pheromone
    that the second ant left in (14, 10); its strength, 1.5 * 4 / 10, is
    within the bounds. *)
Lemma strengths_stay_bounded_witness :
  initial forager /\ reachable_from forager foraged
  /\ In (mkAgent 18 (14, 10) (Pheromone (1.5 * (4 / 10)) to_nest))
       (agents foraged)
  /\ (0.05 <= 1.5 * (4 / 10) <= 3)%R
  /\ strengths_bounded foraged /\ evaporation_bounded foraged.
Proof.
  destruct (strengths_stay_bounded forager foraged forager_initial
              foraged_reachable) as [B Ev].
  assert (Hin : In (mkAgent 18 (14, 10) (Pheromone (1.5 * (4 / 10)) to_nest))
                  (agents foraged)).
  { unfold foraged. cbn [agents]. repeat (right; try (left; reflexivity)). }
  split; [exact forager_initial|]. split; [exact foraged_reachable|].
  split; [exact Hin|]. split.
  - exact (proj1 (Forall_forall _ _) B _ Hin _ _ eq_refl).
  - split; [exact B | exact Ev].
Defined.

Lemma count_if_partition (f : AntAgent -> bool) (l : list Agent) :
  count_if (ant_with f) l + count_if (ant_with (fun r => negb (f r))) l
  = count_if is_ant l.
Proof.
  induction l as [|a l IH]; [reflexivity|].
  rewrite !count_if_cons. unfold ant_with at 1 3. unfold is_ant at 1.
  destruct (body a) as [r| | |]; cbn [b2z]; try lia.
  destruct (f r); cbn [negb b2z]; lia.
Qed.

Lemma count_if_le (P Q : Agent -> bool) (l : list Agent) :
  (forall a, P a = true -> Q a = true) ->
  0 <= count_if P l <= count_if Q l.
Proof.
  intros H. induction l as [|a l IH]; [rewrite !count_if_nil; lia|].
  rewrite !count_if_cons. specialize (H a).
  destruct (P a), (Q a); cbn [b2z]; try lia.
Qed.

(** [X6] The statistics that a tick of a run reports: every ant is counted
    either as following pheromones or as walking at random, so the two
    numbers add up to the number of ants of the colony; the ants with food
    are the ants that carry at the end of the tick; the ants at the nest
    are at most all of them. *)
Theorem statistics_after_tick (m0 m : Model) :
  initial m0 -> reachable_from m0 m -> simulation_speed m <> 0 ->
  exists m',
    step m = Some m'
    /\ ants_following_pheromones m' + ants_random_walking m'
       = Z.max 0 (n_ants m0)
    /\ ants_with_food m' = carrying_ants m'
    /\ 0 <= ants_with_food m' <= Z.max 0 (n_ants m0)
    /\ 0 <= ants_at_nest m' <= Z.max 0 (n_ants m0).
Proof.
  intros H0 R Hs.
  destruct (step m) as [m'|] eqn:E;
    [|apply step_none in E; contradiction].
  exists m'. split; [reflexivity|].
  destruct (reachable_ants m0 m' H0 (reach_step m0 m m' R E))
    as [_ Hc].
  rewrite (step_eq m Hs) in E. injection E as E.
  set (x := Nat.iter (Z.to_nat (simulation_speed m)) sub_step (tick_start m))
    in *.
  assert (Ea : agents m' = agents x) by (rewrite <- E; reflexivity).
  rewrite Ea in Hc. rewrite <- Hc.
  unfold carrying_ants. rewrite Ea. rewrite <- E.
  cbn [ants_following_pheromones ants_random_walking ants_with_food
       ants_at_nest collect_statistics set_statistics].
  split; [apply (count_if_partition following_pheromones)|].
  split; [reflexivity|].
  split.
  - apply count_if_le. intros a. unfold ant_with, is_ant.
    destruct (body a); auto.
  - apply count_if_le. intros a Ha. apply andb_true_iff in Ha. apply Ha.
Qed.

Lemma statistics_after_tick_witness :
  exists m',
    step small_colony = Some m'
    /\ ants_following_pheromones m' + ants_random_walking m'
       = Z.max 0 (n_ants small_colony)
    /\ ants_with_food m' = carrying_ants m'
    /\ 0 <= ants_with_food m' <= Z.max 0 (n_ants small_colony)
    /\ 0 <= ants_at_nest m' <= Z.max 0 (n_ants small_colony).
Proof.
  apply (statistics_after_tick small_colony small_colony).
  - apply small_colony_initial.
  - apply reach_start.
  - discriminate.
Defined.

(** ** Where an ant goes *)

Lemma choice_in {A : Type} (g : Rng) (l : list A) (d : A) :
  l <> [] -> In (fst (choice g l d)) l.
Proof.
  intros Hne. unfold choice, _randbelow, next_raw. cbn [fst].
  apply nth_In.
  assert (Hl : 0 < Z.of_nat (length l)).
  { destruct l; [contradiction | cbn [length]; lia]. }
  pose proof (Z.mod_pos_bound (Z.of_N (tape g (cursor g)))
                (Z.of_nat (length l)) Hl).
  lia.
Qed.

Lemma random_walk_in (g : Rng) (a : AntAgent) (self_pos : Pos)
  (possible_steps : list Pos) :
  possible_steps <> [] ->
  In (fst (random_walk g a self_pos possible_steps)) possible_steps.
Proof.
  intros Hne. unfold random_walk. destruct (last_direction a) as [[dx dy]|].
  - destruct (Random.random g) as [u g1].
    destruct (Rltb u 0.3 && existsb _ possible_steps) eqn:E.
    + apply andb_true_iff in E. destruct E as [_ E].
      apply existsb_exists in E. destruct E as [x [Hx Ex]].
      apply pos_eqb_eq in Ex. cbn [fst]. rewrite Ex. exact Hx.
    + apply choice_in, Hne.
  - apply choice_in, Hne.
Qed.

Lemma follow_in (m : Model) (g : Rng) (a : AntAgent) (current_pos : Pos)
  (possible_steps : list Pos) :
  possible_steps <> [] ->
  In (fst (fst (follow_pheromones_or_explore m g a current_pos possible_steps)))
    possible_steps.
Proof.
  intros Hne.
  assert (Hwalk : forall g',
            In (fst (random_walk g' a current_pos possible_steps))
              possible_steps)
    by (intros g'; apply random_walk_in, Hne).
  unfold follow_pheromones_or_explore.
  destruct (best_direction _) as [[dx0 dy0]|].
  - destruct (Random.random g) as [u g1].
    destruct (Rltb u _).
    + destruct (existsb _ _) eqn:E.
      * cbn [fst]. apply existsb_exists in E. destruct E as [x [Hx Ex]].
        apply pos_eqb_eq in Ex. rewrite Ex. exact Hx.
      * destruct (fst (angle_loop _ _ _ _)) as [q|] eqn:A.
        -- cbn [fst]. apply angle_loop_in in A. exact A.
        -- specialize (Hwalk g1). destruct (random_walk g1 _ _ _). exact Hwalk.
    + specialize (Hwalk g1). destruct (random_walk g1 _ _ _). exact Hwalk.
  - specialize (Hwalk g). destruct (random_walk g _ _ _). exact Hwalk.
Qed.

(** Whatever branch [move] takes, the cell it picks is one of
    [possible_steps]. *)
Lemma move_branch_next_in (m : Model) (a : AntAgent) (current_pos : Pos) :
  In (snd (move_branch m a current_pos
             (get_neighborhood (width m) (height m) current_pos 1)))
    (get_neighborhood (width m) (height m) current_pos 1).
Proof.
  set (possible_steps := get_neighborhood (width m) (height m) current_pos 1).
  assert (Hne : possible_steps <> []) by apply get_neighborhood_nonempty.
  assert (Htow : forall target,
            In (move_towards m current_pos target) possible_steps).
  { intros target.
    destruct (move_towards_minimal_aux m current_pos target) as [H _].
    apply get_neighborhood_1_in, H. }
  assert (Haway : forall g,
            In (fst (move_away_from_nest g a current_pos possible_steps))
              possible_steps).
  { intros g. rewrite move_away_from_nest_choice. apply choice_in, Hne. }
  unfold move_branch.
  assert (Hforage :
            In (snd (forage_branch m a current_pos possible_steps))
              possible_steps).
  { unfold forage_branch.
    assert (Hexp : forall g,
              In (snd (let '(next_pos, is_following, g') :=
                         follow_pheromones_or_explore m g a current_pos
                           possible_steps in
                       (set_random g' m,
                        set_following_pheromones is_following a, next_pos)))
                possible_steps).
    { intros g.
      pose proof (follow_in m g a current_pos possible_steps Hne) as H.
      destruct (follow_pheromones_or_explore m g a current_pos possible_steps)
        as [[np fl] g']. exact H. }
    destruct (scan_food m current_pos possible_steps _) as [|c cs] eqn:Sc.
    - destruct (Rltb _ 5).
      + destruct (Random.random (random m)) as [u g1].
        destruct (Rltb u 0.8).
        * specialize (Haway g1).
          destruct (move_away_from_nest g1 a current_pos possible_steps)
            as [np g2]. exact Haway.
        * apply Hexp.
      + apply Hexp.
    - pose proof (choice_in (random m) (c :: cs) current_pos) as H.
      destruct (choice (random m) (c :: cs) current_pos) as [np g].
      cbn [fst snd] in *.
      apply (scan_food_ok (fun q => In q possible_steps) possible_steps
               current_pos (fun q Hq => Hq) m
               (get_neighborhood (width m) (height m) current_pos 2)).
      rewrite Sc. apply H. discriminate. }
  destruct (just_dropped_food a || (0 <? exploration_cooldown a)).
  { unfold escape_branch. specialize (Haway (random m)).
    destruct (move_away_from_nest (random m) a current_pos possible_steps)
      as [np g]. exact Haway. }
  destruct (carrying_food a); [apply Htow|].
  destruct (returning_to_food a); [|exact Hforage].
  destruct (last_food_pos a) as [food_pos|]; [|exact Hforage].
  unfold return_branch. destruct (pos_eqb current_pos food_pos).
  - pose proof (choice_in (random m) possible_steps current_pos Hne) as H.
    destruct (choice (random m) possible_steps current_pos) as [np g].
    exact H.
  - apply Htow.
Qed.

Lemma get_ant_put (m : Model) (self : Z) (p0 p : Pos) (r0 r : AntAgent) :
  get_ant m self = Some (p0, r0) ->
  get_ant (put_ant m self p r) self = Some (p, r).
Proof.
  intros G. destruct (get_ant_find _ _ _ _ G) as (x & Fx & _).
  unfold get_ant, put_ant. cbn [agents set_agents].
  rewrite find_agent_update_same by reflexivity. rewrite Fx. reflexivity.
Qed.

Lemma move_position (m : Model) (self : Z) (p : Pos) (a : AntAgent) :
  Inv m -> get_ant m self = Some (p, a) ->
  exists p' a',
    get_ant (move m self) self = Some (p', a')
    /\ moore_neighbor (width m) (height m) p p'.
Proof.
  intros I G. unfold move. rewrite G.
  destruct (ant_facts m self p a (proj1 I) G) as [Hc Hh].
  pose proof (move_branch_next_in m a p) as Hin.
  destruct (move_branch m a p _) as [[m1 a1] next_pos] eqn:B.
  cbn [snd] in Hin.
  destruct (move_branch_spec m a p m1 a1 next_pos I Hc B) as (T & _).
  pose proof (get_ant_kept _ _ self _ _ (trail_steps_keeps_others _ _ I T) G)
    as G1.
  eexists next_pos, _. split.
  - apply (get_ant_put m1 self p next_pos a). exact G1.
  - apply get_neighborhood_1_in, Hin.
Qed.

Lemma pick_up_food_position (m : Model) (self : Z) (p : Pos) (a : AntAgent) :
  Inv m -> get_ant m self = Some (p, a) ->
  exists a', get_ant (snd (pick_up_food m self)) self = Some (p, a').
Proof.
  intros I G.
  destruct (pick_up_food_spec m self p a I G) as (_ & Ht & Hf).
  destruct (fst (pick_up_food m self)).
  - destruct (Ht eq_refl) as (_ & _ & G'). eexists. exact G'.
  - rewrite (Hf eq_refl). exists a. exact G.
Qed.

Lemma drop_food_at_nest_position (m : Model) (self : Z) (p : Pos)
  (a : AntAgent) :
  get_ant m self = Some (p, a) ->
  exists a', get_ant (snd (drop_food_at_nest m self)) self = Some (p, a').
Proof.
  intros G. unfold drop_food_at_nest. rewrite G.
  destruct (carrying_food a); [|exists a; exact G].
  destruct (at_or_adjacent p (home_pos a)); [|exists a; exact G].
  cbv zeta. cbn [snd]. eexists.
  apply (get_ant_put m self p p a). exact G.
Qed.

(** One activation of an ant moves it to a Moore neighbour of its cell. *)
Lemma AntAgent_step_position (m : Model) (self : Z) (p : Pos) (a : AntAgent) :
  Inv m -> get_ant m self = Some (p, a) ->
  exists p' a',
    get_ant (AntAgent_step m self) self = Some (p', a')
    /\ moore_neighbor (width m) (height m) p p'.
Proof.
  intros I G. unfold AntAgent_step.
  set (m1 := if negb (carrying m self) then snd (pick_up_food m self) else m).
  assert (H1 : Inv m1 /\ frame m1 = frame m
                /\ exists a1, get_ant m1 self = Some (p, a1)).
  { subst m1. destruct (negb (carrying m self)).
    - split; [apply (pick_up_food_spec m self p a I G)|].
      split; [apply pick_up_food_frame|].
      apply (pick_up_food_position m self p a I G).
    - split; [exact I|]. split; [reflexivity|]. exists a. exact G. }
  destruct H1 as (I1 & F1 & a1 & G1).
  apply frame_fields in F1. destruct F1 as (Ew & Eh & _).
  destruct (move_position m1 self p a1 I1 G1) as (p' & a' & G2 & Hn).
  rewrite Ew, Eh in Hn.
  destruct (carrying (move m1 self) self).
  - destruct (drop_food_at_nest_position _ _ _ _ G2) as (a'' & G3).
    exists p', a''. split; assumption.
  - exists p', a'. split; assumption.
Qed.

Lemma agent_step_other_ant (m : Model) (key id : Z) (x : Agent) :
  Inv m -> id <> key -> is_ant x = true ->
  find_agent (agents m) id = Some x ->
  find_agent (agents (fst (agent_step m key))) id = Some x.
Proof.
  intros I Hne Hant F.
  apply (table_ops_preserve
           (fun y => find_agent (agents y) id = Some x) key m);
    [| apply I | apply agent_step_ops, I | exact F].
  intros m1 m2 S Hop. apply (table_op_other_ant key id x m1 m2); assumption.
Qed.

Lemma ant_steps_app (l1 l2 : list Event) (id : Z) :
  ant_steps (l1 ++ l2) id = (ant_steps l1 id + ant_steps l2 id)%nat.
Proof. unfold ant_steps. apply count_occ_app. Qed.

Lemma agent_step_not_stepped (m : Model) (key id : Z) :
  key <> id -> ant_steps (snd (agent_step m key)) id = 0%nat.
Proof.
  intros Hne. unfold agent_step, ant_steps.
  destruct (find_agent (agents m) key) as [a|]; [|reflexivity].
  apply count_occ_not_In.
  destruct (body a); cbn [snd]; intros [H | []]; try discriminate.
  injection H as H. contradiction.
Qed.

Lemma agent_step_ant (m : Model) (key : Z) (p : Pos) (a : AntAgent) :
  get_ant m key = Some (p, a) ->
  agent_step m key = (AntAgent_step m key, [AntStepped key]).
Proof.
  intros G. destruct (get_ant_find _ _ _ _ G) as (x & F & _ & _ & _ & Hb).
  unfold agent_step. rewrite F, Hb. reflexivity.
Qed.

Lemma get_ant_other (m m' : Model) (id : Z) (p : Pos) (a : AntAgent) :
  (forall x, is_ant x = true -> find_agent (agents m) id = Some x ->
             find_agent (agents m') id = Some x) ->
  get_ant m id = Some (p, a) -> get_ant m' id = Some (p, a).
Proof.
  intros H G. destruct (get_ant_find _ _ _ _ G) as (x & F & _ & _ & Hp & Hb).
  unfold get_ant. rewrite (H x); [|unfold is_ant; rewrite Hb; reflexivity | exact F].
  rewrite Hb, Hp. reflexivity.
Qed.

Lemma run_keys_ant_untouched (keys : list Z) (st : Model * list Event)
  (id : Z) (p : Pos) (a : AntAgent) :
  Inv (fst st) -> ~ In id keys -> get_ant (fst st) id = Some (p, a) ->
  get_ant (fst (run_keys keys st)) id = Some (p, a)
  /\ ant_steps (snd (run_keys keys st)) id = ant_steps (snd st) id.
Proof.
  revert st. induction keys as [|key keys IH]; intros st I Hn G.
  - split; [exact G | reflexivity].
  - rewrite run_keys_cons.
    assert (Hne : id <> key) by (intros ->; apply Hn; left; reflexivity).
    destruct (IH (fst (agent_step (fst st) key),
                  snd st ++ snd (agent_step (fst st) key))) as [G' S'].
    + apply (agent_step_ok (fst st) key I).
    + intros H. apply Hn. right. exact H.
    + cbn [fst]. apply (get_ant_other (fst st)); [|exact G].
      intros x Hx F. apply agent_step_other_ant; assumption.
    + split; [exact G'|]. rewrite S'. cbn [snd].
      rewrite ant_steps_app, agent_step_not_stepped by auto. lia.
Qed.

Lemma moore_neighbor_moves (w h : Z) (p q : Pos) :
  2 <= w -> 2 <= h -> in_grid w h p -> moore_neighbor w h p q -> q <> p.
Proof.
  intros Hw Hh [Hx Hy] (dx & dy & Hdx & Hdy & Hne & ->) E.
  unfold torus_adj in E. cbn [fst snd] in E.
  destruct p as [x y]. cbn [fst snd] in *.
  injection E as Ex Ey.
  assert (dx = 0).
  { pose proof (Z.div_mod (x + dx) w ltac:(lia)) as D. rewrite Ex in D.
    set (k := (x + dx) / w) in *.
    assert (dx = w * k) by lia. assert (k = 0) by nia. subst k. lia. }
  assert (dy = 0).
  { pose proof (Z.div_mod (y + dy) h ltac:(lia)) as D. rewrite Ey in D.
    set (k := (y + dy) / h) in *.
    assert (dy = h * k) by lia. assert (k = 0) by nia. subst k. lia. }
  subst. apply Hne. reflexivity.
Qed.

(** ** The greedy step, continued *)

Lemma step_closer (x t : Z) :
  (t - (x + sign (t - x))) ^ 2 <= (t - x) ^ 2
  /\ (t <> x -> (t - (x + sign (t - x))) ^ 2 < (t - x) ^ 2).
Proof.
  unfold sign.
  destruct (Z.ltb_spec 0 (t - x)); [split; [nia | intros _; nia]|].
  destruct (Z.ltb_spec (t - x) 0); [split; [nia | intros _; nia]|].
  split; [nia | intros; lia].
Qed.

Lemma sign_range (z : Z) : -1 <= sign z <= 1 /\ (sign z = 0 -> z = 0).
Proof.
  unfold sign. destruct (Z.ltb_spec 0 z); [lia|].
  destruct (Z.ltb_spec z 0); lia.
Qed.

Lemma step_between (n x t : Z) :
  0 <= x < n -> 0 <= t < n -> 0 <= x + sign (t - x) < n.
Proof.
  unfold sign. intros Hx Ht.
  destruct (Z.ltb_spec 0 (t - x)); [lia|].
  destruct (Z.ltb_spec (t - x) 0); lia.
Qed.

Lemma dist_lt_dist2 (p q t : Pos) :
  (dist p t < dist q t)%R <-> dist2 p t < dist2 q t.
Proof.
  unfold dist. split.
  - intros H. apply lt_IZR.
    apply sqrt_lt_0_alt. exact H.
  - intros H. apply sqrt_lt_1.
    + apply IZR_le, dist2_nonneg.
    + apply IZR_le, dist2_nonneg.
    + apply IZR_lt, H.
Qed.

Lemma move_towards_nearer (m : Model) (current target : Pos) :
  in_grid (width m) (height m) current ->
  in_grid (width m) (height m) target ->
  current <> target ->
  (dist (move_towards m current target) target < dist current target)%R.
Proof.
  intros Hc Ht Hne.
  destruct (move_towards_minimal_aux m current target) as [Hn Hmin].
  destruct current as [x y], target as [tx ty].
  destruct Hc as [Hx Hy], Ht as [Htx Hty]. cbn [fst snd] in *.
  set (q := (x + sign (tx - x), y + sign (ty - y))).
  assert (Hq : moore_neighbor (width m) (height m) (x, y) q).
  { exists (sign (tx - x)), (sign (ty - y)).
    destruct (sign_range (tx - x)) as [R1 Z1].
    destruct (sign_range (ty - y)) as [R2 Z2].
    split; [exact R1|]. split; [exact R2|]. split.
    - intros E. injection E as E1 E2. apply Hne.
      f_equal; [specialize (Z1 E1) | specialize (Z2 E2)]; lia.
    - unfold torus_adj, q. cbn [fst snd].
      rewrite !Z.mod_small; [reflexivity | |]; apply step_between; assumption. }
  apply Rle_lt_trans with (dist q (tx, ty)); [apply Hmin, Hq|].
  apply dist_lt_dist2. unfold dist2, q. cbn [fst snd].
  destruct (step_closer x tx) as [Lx Sx].
  destruct (step_closer y ty) as [Ly Sy].
  replace ((x + sign (tx - x) - tx) ^ 2)
    with ((tx - (x + sign (tx - x))) ^ 2) by ring.
  replace ((y + sign (ty - y) - ty) ^ 2)
    with ((ty - (y + sign (ty - y))) ^ 2) by ring.
  replace ((x - tx) ^ 2) with ((tx - x) ^ 2) by ring.
  replace ((y - ty) ^ 2) with ((ty - y) ^ 2) by ring.
  destruct (Z.eq_dec tx x) as [Ex|Ex].
  - assert (ty <> y) by (intros ->; apply Hne; subst; reflexivity).
    specialize (Sy H). lia.
  - specialize (Sx Ex). lia.
Qed.

Lemma move_towards_closer (m : Model) (current target : Pos) :
  in_grid (width m) (height m) current ->
  in_grid (width m) (height m) target ->
  current <> target ->
  dist2 (move_towards m current target) target < dist2 current target.
Proof.
  intros Hc Ht Hne. apply dist_lt_dist2.
  apply move_towards_nearer; assumption.
Qed.

(** [X7] [move_towards] returns a Moore neighbour of the current cell that is no
    farther from the target, in plain Euclidean distance, than any other
    Moore neighbour; when the current cell and the target are different
    cells of the grid, it is strictly nearer to the target than the current
    cell. *)
Theorem move_towards_approaches (m : Model) (current target : Pos) :
  in_grid (width m) (height m) current ->
  in_grid (width m) (height m) target ->
  current <> target ->
  moore_neighbor (width m) (height m) current (move_towards m current target)
  /\ (forall q, moore_neighbor (width m) (height m) current q ->
        (dist (move_towards m current target) target <= dist q target)%R)
  /\ (dist (move_towards m current target) target < dist current target)%R.
Proof.
  intros Hc Ht Hne.
  destruct (move_towards_minimal_aux m current target) as [Hn Hmin].
  split; [exact Hn|]. split; [exact Hmin|].
  apply move_towards_nearer; assumption.
Qed.

Lemma move_towards_approaches_witness :
  moore_neighbor (width small_colony) (height small_colony) (5, 5)
    (move_towards small_colony (5, 5) (10, 10))
  /\ (forall q,
        moore_neighbor (width small_colony) (height small_colony) (5, 5) q ->
        Rle (dist (move_towards small_colony (5, 5) (10, 10)) (10, 10))
          (dist q (10, 10)))
  /\ Rlt (dist (move_towards small_colony (5, 5) (10, 10)) (10, 10))
       (dist (5, 5) (10, 10)).
Proof.
  apply (move_towards_approaches small_colony (5, 5) (10, 10)).
  - split; cbn; lia.
  - split; cbn; lia.
  - discriminate.
Defined.

(** ** The food that the constructor places *)

Section Placed.

Variable v : Model -> Z.
Hypothesis v_food : forall p m, v (new_food p m) = v m + 1.
Hypothesis v_draw : forall g m, v (set_random g m) = v m.

Lemma iter_new_food_amount (k : nat) (p : Pos) (m : Model) :
  v (Nat.iter k (new_food p) m) = v m + Z.of_nat k.
Proof.
  induction k as [|k IH]; [cbn [Nat.iter nat_rect]; lia|].
  change (Nat.iter (S k) (new_food p) m)
    with (new_food p (Nat.iter k (new_food p) m)).
  rewrite v_food, IH. lia.
Qed.

Lemma fold_left_amount {B : Type} (f : Model -> B -> Model) (wt : B -> Z)
  (l : list B) (m : Model) :
  (forall acc x, v (f acc x) = v acc + wt x) ->
  v (fold_left f l m) = v m + fold_right Z.add 0 (map wt l).
Proof.
  intros H. revert m. induction l as [|x l IH]; intros m; cbn [fold_left map
    fold_right]; [lia|].
  rewrite IH, H. lia.
Qed.

Lemma fill_pile_amount (center : Pos) (food_per_cell : Z) (m : Model) :
  v (fill_pile center food_per_cell m)
  = v m + 13 * Z.max 0 food_per_cell.
Proof.
  unfold fill_pile.
  set (K := Z.of_nat (Z.to_nat food_per_cell)).
  rewrite (fold_left_amount _
             (fun dx =>
                fold_right Z.add 0
                  (map (fun dy => if dx * dx + dy * dy <=? 4 then K else 0)
                     (range (-2) 5)))).
  - change (range (-2) 5) with [-2; -1; 0; 1; 2].
    cbn [map fold_right].
    repeat match goal with
           | |- context [?a * ?b + ?c * ?d <=? 4] =>
               let r := eval vm_compute in (a * b + c * d <=? 4) in
               change (a * b + c * d <=? 4) with r
           end.
    cbv iota. subst K. lia.
  - intros acc dx.
    apply (fold_left_amount
             (fun m0 dy =>
                if dx * dx + dy * dy <=? 4
                then
                  Nat.iter (Z.to_nat food_per_cell)
                    (new_food
                       (Z.min (Z.max (fst center + dx) 0) (width m0 - 1),
                        Z.min (Z.max (snd center + dy) 0) (height m0 - 1)))
                    m0
                else m0)).
    intros acc' dy. destruct (dx * dx + dy * dy <=? 4); [|lia].
    apply iter_new_food_amount.
Qed.

Lemma pick_pile_amount (fuel : nat) (m : Model) (min_dist : Z) (c : Pos)
  (m' : Model) :
  pick_pile fuel m min_dist = Some (c, m') -> v m' = v m.
Proof.
  revert m m'. induction fuel as [|fuel IH]; intros m m'; cbn [pick_pile];
    [discriminate|].
  destruct (randrange (random m) (width m)) as [x g1].
  destruct (randrange g1 (height m)) as [y g2].
  destruct (Rltb _ _).
  - intros E. injection E as _ <-. apply v_draw.
  - intros E. apply IH in E. rewrite E. apply v_draw.
Qed.

Lemma place_piles_amount (fuel n : nat) (pile_size : Z) (m m' : Model) :
  place_piles fuel n pile_size m = Some m' ->
  v m' = v m + Z.of_nat n * (13 * Z.max 0 (pile_size / 20)).
Proof.
  revert m. induction n as [|n IH]; intros m; cbn [place_piles].
  - intros E. injection E as <-. lia.
  - destruct (pick_pile fuel m _) as [[c m1]|] eqn:Pk; [|discriminate].
    intros E. apply IH in E. rewrite E, fill_pile_amount.
    rewrite (pick_pile_amount _ _ _ _ _ Pk). lia.
Qed.

End Placed.

Lemma live_food_new_food (p : Pos) (m : Model) :
  live_food (new_food p m) = live_food m + 1.
Proof.
  unfold new_food, next_id, live_food.
  cbn [agents add_agent set_agents set_total_food set_next_id_value].
  rewrite count_if_app, count_if_cons, count_if_nil. reflexivity.
Qed.

(** [X8] [place_food(n_piles, pile_size)], when it returns, has put
    [13 * (pile_size // 20)] items of food into each pile, whatever the
    draws: 13 cells per pile (clamped to the grid at the border) with
    [pile_size // 20] items each.  The food total, the food on the grid and
    the identifiers issued grow by that number. *)
Theorem place_food_amount (fuel : nat) (n_piles pile_size : Z)
  (m m' : Model) :
  place_food fuel n_piles pile_size m = Some m' ->
  let placed := Z.max 0 n_piles * (13 * Z.max 0 (pile_size / 20)) in
  total_food m' = total_food m + placed
  /\ live_food m' = live_food m + placed
  /\ next_id_value m' = next_id_value m + placed.
Proof.
  intros E placed. unfold place_food in E.
  assert (Hp : Z.of_nat (Z.to_nat n_piles) * (13 * Z.max 0 (pile_size / 20))
               = placed) by (subst placed; f_equal; lia).
  rewrite <- Hp. split; [|split].
  - apply (place_piles_amount total_food) with (fuel := fuel);
      [reflexivity | reflexivity | exact E].
  - apply (place_piles_amount live_food) with (fuel := fuel);
      [apply live_food_new_food | reflexivity | exact E].
  - apply (place_piles_amount next_id_value) with (fuel := fuel);
      [reflexivity | reflexivity | exact E].
Qed.

Lemma one_pile_placed : place_food 1 1 20 small_colony = Some one_pile.
Proof.
  unfold place_food. change (Z.to_nat 1) with 1%nat.
  cbn [place_piles pick_pile].
  change (randrange (random small_colony) (width small_colony))
    with (0, mkRng (fun _ => 0%N) 3).
  cbv beta iota.
  change (randrange (mkRng (fun _ => 0%N) 3) (height small_colony))
    with (0, mkRng (fun _ => 0%N) 4).
  cbv beta iota.
  assert (H : Rltb (IZR (Z.max (width small_colony) (height small_colony) / 8))
                (dist (0, 0) (nest_pos small_colony)) = true).
  { apply Rltb_true. change (Z.max (width small_colony) (height small_colony) / 8)
      with 2.
    change (nest_pos small_colony) with (10, 10).
    apply Rlt_le_trans with 3%R; [lra|].
    apply (dist_ge_3 (0, 0) (10, 10)). cbn. lia. }
  rewrite H. reflexivity.
Qed.

Lemma place_food_amount_witness :
  total_food one_pile = total_food small_colony + 13
  /\ live_food one_pile = live_food small_colony + 13
  /\ next_id_value one_pile = next_id_value small_colony + 13.
Proof.
  apply (place_food_amount 1 1 20 small_colony one_pile one_pile_placed).
Defined.

(** ** The to-nest trail *)

Lemma fold_left_filter_skip {A B : Type} (f : A -> B -> A) (keep : B -> bool)
  (l : list B) (a : A) :
  (forall acc x, keep x = false -> f acc x = acc) ->
  fold_left f (filter keep l) a = fold_left f l a.
Proof.
  intros H. revert a. induction l as [|x l IH]; intros a; [reflexivity|].
  cbn [filter fold_left]. destruct (keep x) eqn:E.
  - cbn [fold_left]. apply IH.
  - rewrite (H a x E). apply IH.
Qed.

Lemma filter_comm {A : Type} (P Q : A -> bool) (l : list A) :
  filter P (filter Q l) = filter Q (filter P l).
Proof.
  induction l as [|x l IH]; [reflexivity|]. cbn [filter].
  destruct (P x) eqn:EP, (Q x) eqn:EQ; cbn [filter]; rewrite ?EP, ?EQ, IH;
    reflexivity.
Qed.

Lemma cell_without_to_nest (m : Model) (p : Pos) :
  get_cell_list_contents (without_to_nest m) p
  = filter (fun a => negb (is_pheromone_of to_nest a))
      (get_cell_list_contents m p).
Proof.
  unfold get_cell_list_contents, without_to_nest. cbn [agents set_agents].
  apply filter_comm.
Qed.

Lemma to_nest_not_to_food (x : Agent) :
  negb (is_pheromone_of to_nest x) = false ->
  is_pheromone_of to_food x = false /\ is_food x = false.
Proof.
  unfold is_pheromone_of, is_food.
  destruct (body x) as [| | |s [|]]; cbn; intros H; try discriminate;
    split; reflexivity.
Qed.

Lemma strength_without_to_nest (m : Model) (p : Pos) :
  cell_pheromone_strength (without_to_nest m) to_food p
  = cell_pheromone_strength m to_food p.
Proof.
  unfold cell_pheromone_strength. rewrite cell_without_to_nest.
  apply fold_left_filter_skip. intros acc x Hx.
  destruct (to_nest_not_to_food x Hx) as [-> _]. reflexivity.
Qed.

Lemma scan_pheromones_without_to_nest (m : Model) (current_pos : Pos)
  (l : list Pos) :
  scan_pheromones (without_to_nest m) current_pos l
  = scan_pheromones m current_pos l.
Proof.
  unfold scan_pheromones. apply fold_left_ext. intros st p.
  rewrite strength_without_to_nest. reflexivity.
Qed.

Lemma follow_without_to_nest (m : Model) (g : Rng) (a : AntAgent)
  (current_pos : Pos) (possible_steps : list Pos) :
  follow_pheromones_or_explore (without_to_nest m) g a current_pos
    possible_steps
  = follow_pheromones_or_explore m g a current_pos possible_steps.
Proof.
  unfold follow_pheromones_or_explore.
  change (width (without_to_nest m)) with (width m).
  change (height (without_to_nest m)) with (height m).
  rewrite scan_pheromones_without_to_nest. reflexivity.
Qed.

Lemma scan_food_without_to_nest (m : Model) (current_pos : Pos)
  (possible_steps nearby_cells : list Pos) :
  scan_food (without_to_nest m) current_pos possible_steps nearby_cells
  = scan_food m current_pos possible_steps nearby_cells.
Proof.
  unfold scan_food. apply fold_left_ext. intros acc cell.
  rewrite cell_without_to_nest.
  apply fold_left_filter_skip. intros acc' x Hx.
  destruct (to_nest_not_to_food x Hx) as [_ ->]. reflexivity.
Qed.

Lemma add_or_reinforce_random (m : Model) (q : Pos) (v : R)
  (ty : PheromoneType) :
  random (_add_or_reinforce_pheromone m q v ty) = random m.
Proof.
  unfold _add_or_reinforce_pheromone.
  destruct (find _ _); [reflexivity|].
  destruct (Rleb 0.2 v); reflexivity.
Qed.

Lemma create_pheromone_random (m : Model) (p : Pos) (s : R)
  (ty : PheromoneType) :
  random (create_pheromone m p s ty) = random m.
Proof.
  unfold create_pheromone. destruct (_ && _); [reflexivity|].
  apply (fold_left_preserves (fun x => random x = random m)).
  - intros acc q H. rewrite add_or_reinforce_random. exact H.
  - apply add_or_reinforce_random.
Qed.

(** [X9] No ant ever reads a to-nest pheromone: the cell that [AntAgent.move]
    picks, the attributes it leaves on the ant and the state in which it
    leaves the generator are the same in the model without its to-nest
    pheromones.  Carrying ants lay the to-nest trail, but ants steer by
    food in sight, by the nest, by the remembered food cell and by to-food
    pheromones only. *)
Theorem to_nest_trail_is_never_read (m : Model) (a : AntAgent)
  (current_pos : Pos) (possible_steps : list Pos) :
  let b := move_branch m a current_pos possible_steps in
  let b' := move_branch (without_to_nest m) a current_pos possible_steps in
  snd b' = snd b
  /\ snd (fst b') = snd (fst b)
  /\ random (fst (fst b')) = random (fst (fst b)).
Proof.
  cbv zeta. unfold move_branch.
  destruct (just_dropped_food a || (0 <? exploration_cooldown a)).
  { unfold escape_branch.
    change (random (without_to_nest m)) with (random m).
    destruct (move_away_from_nest (random m) a current_pos possible_steps)
      as [np g].
    match goal with |- context [if ?c then _ else _] => destruct c end;
      cbn [fst snd]; rewrite ?create_pheromone_random; repeat split. }
  destruct (carrying_food a).
  { unfold carry_branch. cbn [fst snd].
    change (nest_pos (without_to_nest m)) with (nest_pos m).
    destruct (Rltb 3 _); rewrite ?create_pheromone_random; repeat split. }
  assert (Hforage :
            snd (forage_branch (without_to_nest m) a current_pos possible_steps)
            = snd (forage_branch m a current_pos possible_steps)
            /\ snd (fst (forage_branch (without_to_nest m) a current_pos
                           possible_steps))
               = snd (fst (forage_branch m a current_pos possible_steps))
            /\ random (fst (fst (forage_branch (without_to_nest m) a
                                   current_pos possible_steps)))
               = random (fst (fst (forage_branch m a current_pos
                                     possible_steps)))).
  { unfold forage_branch.
    change (width (without_to_nest m)) with (width m).
    change (height (without_to_nest m)) with (height m).
    change (random (without_to_nest m)) with (random m).
    rewrite scan_food_without_to_nest.
    destruct (scan_food m current_pos possible_steps _) as [|c cs].
    - destruct (Rltb _ 5).
      + destruct (Random.random (random m)) as [u g1].
        destruct (Rltb u 0.8).
        * destruct (move_away_from_nest g1 a current_pos possible_steps)
            as [np g2]. repeat split.
        * rewrite follow_without_to_nest.
          destruct (follow_pheromones_or_explore m g1 a current_pos
                      possible_steps) as [[np fl] g']. repeat split.
      + rewrite follow_without_to_nest.
        destruct (follow_pheromones_or_explore m (random m) a current_pos
                    possible_steps) as [[np fl] g']. repeat split.
    - destruct (choice (random m) (c :: cs) current_pos) as [np g].
      repeat split. }
  destruct (returning_to_food a); [|exact Hforage].
  destruct (last_food_pos a) as [food_pos|]; [|exact Hforage].
  unfold return_branch. destruct (pos_eqb current_pos food_pos).
  - change (random (without_to_nest m)) with (random m).
    destruct (choice (random m) possible_steps current_pos) as [np g].
    repeat split.
  - cbn [fst snd]. rewrite !create_pheromone_random. repeat split.
Qed.

(** ** The attributes of an ant *)

Lemma pick_up_food_result (m : Model) (self : Z) (p : Pos) (a : AntAgent) :
  Inv m -> get_ant m self = Some (p, a) ->
  exists a',
    get_ant (snd (pick_up_food m self)) self = Some (p, a')
    /\ (a' = a \/ (carrying_food a = false /\ a' = picked p a)).
Proof.
  intros I G.
  destruct (pick_up_food_spec m self p a I G) as (_ & Ht & Hf).
  destruct (fst (pick_up_food m self)).
  - destruct (Ht eq_refl) as (Hc & _ & G'). exists (picked p a).
    split; [exact G' | right; split; [exact Hc | reflexivity]].
  - rewrite (Hf eq_refl). exists a. split; [exact G | left; reflexivity].
Qed.

Lemma move_result (m : Model) (self : Z) (p : Pos) (a : AntAgent) :
  Inv m -> get_ant m self = Some (p, a) ->
  let b := move_branch m a p (get_neighborhood (width m) (height m) p 1) in
  get_ant (move m self) self
  = Some (snd b, store_direction p (snd b) (snd (fst b))).
Proof.
  intros I G. cbv zeta. unfold move. rewrite G.
  destruct (ant_facts m self p a (proj1 I) G) as [Hc Hh].
  destruct (move_branch m a p _) as [[m1 a1] next_pos] eqn:B.
  cbn [fst snd].
  destruct (move_branch_spec m a p m1 a1 next_pos I Hc B) as (T & _).
  pose proof (get_ant_kept _ _ self _ _ (trail_steps_keeps_others _ _ I T) G)
    as G1.
  apply (get_ant_put m1 self p next_pos a). exact G1.
Qed.

Lemma drop_food_at_nest_result (m : Model) (self : Z) (p : Pos)
  (a : AntAgent) :
  get_ant m self = Some (p, a) ->
  get_ant (snd (drop_food_at_nest m self)) self
  = Some (p, if carrying_food a && at_or_adjacent p (home_pos a)
             then dropped a else a).
Proof.
  intros G. unfold drop_food_at_nest. rewrite G.
  destruct (carrying_food a); [|exact G].
  destruct (at_or_adjacent p (home_pos a)); [|exact G].
  cbv zeta. cbn [snd andb].
  apply (get_ant_put m self p p a). exact G.
Qed.

Lemma drop_food_at_nest_delivered (m : Model) (self : Z) (p : Pos)
  (a : AntAgent) :
  get_ant m self = Some (p, a) ->
  food_delivered (snd (drop_food_at_nest m self))
  = food_delivered m
    + b2z (carrying_food a && at_or_adjacent p (home_pos a)).
Proof.
  intros G. unfold drop_food_at_nest. rewrite G.
  destruct (carrying_food a); [|cbn; lia].
  destruct (at_or_adjacent p (home_pos a)); cbn; lia.
Qed.

(** The ant after its activation, stage by stage. *)
Lemma AntAgent_step_result (m : Model) (self : Z) (p : Pos) (a : AntAgent) :
  Inv m -> get_ant m self = Some (p, a) ->
  exists m1 a0,
    Inv m1 /\ frame m1 = frame m
    /\ (carrying_food a = true -> m1 = m)
    /\ (a0 = a \/ (carrying_food a = false /\ a0 = picked p a))
    /\ let b :=
         move_branch m1 a0 p (get_neighborhood (width m1) (height m1) p 1) in
       let a2 := store_direction p (snd b) (snd (fst b)) in
       let delivers :=
         carrying_food a2 && at_or_adjacent (snd b) (home_pos a2) in
       get_ant (AntAgent_step m self) self
       = Some (snd b, if delivers then dropped a2 else a2)
       /\ food_delivered (AntAgent_step m self)
          = food_delivered m + b2z delivers.
Proof.
  intros I G. unfold AntAgent_step.
  set (m1 := if negb (carrying m self) then snd (pick_up_food m self) else m).
  assert (H1 : Inv m1 /\ frame m1 = frame m
                /\ food_delivered m1 = food_delivered m
                /\ (carrying_food a = true -> m1 = m)
                /\ exists a0,
                     get_ant m1 self = Some (p, a0)
                     /\ (a0 = a
                         \/ (carrying_food a = false /\ a0 = picked p a))).
  { subst m1. unfold carrying. rewrite G.
    destruct (carrying_food a) eqn:C; cbn [negb].
    - split; [exact I|]. split; [reflexivity|]. split; [reflexivity|].
      split; [reflexivity|].
      exists a. split; [exact G | left; reflexivity].
    - split; [apply (pick_up_food_spec m self p a I G)|].
      split; [apply pick_up_food_frame|].
      split; [apply pick_up_food_frame|]. split; [discriminate|].
      pose proof (pick_up_food_result m self p a I G) as H.
      rewrite C in H. exact H. }
  destruct H1 as (I1 & F1 & D1 & Hm1 & a0 & G1 & Ha0).
  exists m1, a0. split; [exact I1|]. split; [exact F1|].
  split; [exact Hm1|]. split; [exact Ha0|]. cbv zeta.
  pose proof (move_result m1 self p a0 I1 G1) as G2. cbv zeta in G2.
  destruct (move_frame m1 self) as [_ D2].
  unfold carrying. rewrite G2.
  destruct (carrying_food (store_direction p _ _)) eqn:C.
  - rewrite (drop_food_at_nest_result _ _ _ _ G2).
    rewrite (drop_food_at_nest_delivered _ _ _ _ G2). rewrite C.
    split; [reflexivity|]. rewrite D2, D1. reflexivity.
  - rewrite G2. cbn [andb b2z]. split; [reflexivity|]. rewrite D2, D1. lia.
Qed.

Ltac close_record :=
  repeat split; cbn; intros;
  repeat match goal with
         | H : _ /\ _ |- _ => destruct H
         end;
  try reflexivity; try assumption; try congruence; try lia; try tauto.

(** What every branch of [move] does to the attributes of the ant. *)
Lemma move_branch_record (m : Model) (a : AntAgent) (current_pos : Pos)
  (possible_steps : list Pos) :
  let b := move_branch m a current_pos possible_steps in
  let a1 := snd (fst b) in
  carrying_food a1 = carrying_food a
  /\ last_food_pos a1 = last_food_pos a
  /\ detection_radius a1 = detection_radius a
  /\ home_pos a1 = home_pos a
  /\ just_dropped_food a1 = false
  /\ (returning_to_food a1 = true -> returning_to_food a = true)
  /\ (carrying_food a = true -> following_pheromones a1 = false)
  /\ (0 <= exploration_cooldown a <= 5 ->
      0 <= exploration_cooldown a1 <= exploration_cooldown a)
  /\ (homebound a ->
      snd b = move_towards m current_pos (home_pos a)
      /\ exploration_cooldown a1 = 0).
Proof.
  cbv zeta. unfold move_branch, homebound.
  destruct (just_dropped_food a) eqn:J; cbn [orb].
  { unfold escape_branch.
    destruct (move_away_from_nest (random m) a current_pos possible_steps)
      as [np g]. cbn [fst snd]. close_record. }
  destruct (Z.ltb_spec 0 (exploration_cooldown a)) as [Hcd|Hcd].
  { unfold escape_branch.
    destruct (move_away_from_nest (random m) a current_pos possible_steps)
      as [np g]. cbn [fst snd]. close_record. }
  destruct (carrying_food a) eqn:C.
  { unfold carry_branch. cbn [fst snd]. close_record. }
  assert (Hforage :
            exists fl,
              snd (fst (forage_branch m a current_pos possible_steps))
              = set_following_pheromones fl a).
  { unfold forage_branch.
    assert (Hexp : forall g,
              exists fl,
                snd (fst (let '(next_pos, is_following, g') :=
                            follow_pheromones_or_explore m g a current_pos
                              possible_steps in
                          (set_random g' m,
                           set_following_pheromones is_following a, next_pos)))
                = set_following_pheromones fl a).
    { intros g.
      destruct (follow_pheromones_or_explore m g a current_pos possible_steps)
        as [[np fl] g']. exists fl. reflexivity. }
    destruct (scan_food m current_pos possible_steps _) as [|c cs].
    - destruct (Rltb _ 5).
      + destruct (Random.random (random m)) as [u g1].
        destruct (Rltb u 0.8).
        * destruct (move_away_from_nest g1 a current_pos possible_steps)
            as [np g2]. exists false. reflexivity.
        * apply Hexp.
      + apply Hexp.
    - destruct (choice (random m) (c :: cs) current_pos) as [np g].
      exists false. reflexivity. }
  destruct Hforage as [fl Hfl].
  destruct (returning_to_food a) eqn:Rt.
  2:{ rewrite Hfl. close_record. }
  destruct (last_food_pos a) as [food_pos|] eqn:L.
  2:{ rewrite Hfl. close_record. }
  unfold return_branch. destruct (pos_eqb current_pos food_pos).
  - destruct (choice (random m) possible_steps current_pos) as [np g].
    cbn [fst snd]. close_record.
  - cbn [fst snd]. close_record.
Qed.

Lemma store_direction_fields (p q : Pos) (a : AntAgent) :
  carrying_food (store_direction p q a) = carrying_food a
  /\ home_pos (store_direction p q a) = home_pos a
  /\ detection_radius (store_direction p q a) = detection_radius a
  /\ last_food_pos (store_direction p q a) = last_food_pos a
  /\ returning_to_food (store_direction p q a) = returning_to_food a
  /\ following_pheromones (store_direction p q a) = following_pheromones a
  /\ just_dropped_food (store_direction p q a) = just_dropped_food a
  /\ exploration_cooldown (store_direction p q a) = exploration_cooldown a.
Proof.
  unfold store_direction. destruct (last_direction a); repeat split.
Qed.

(** The activation of an ant keeps [ant_ok]. *)
Lemma AntAgent_step_ant_ok (m : Model) (self : Z) (p : Pos) (a : AntAgent) :
  Inv m -> get_ant m self = Some (p, a) -> ant_ok a ->
  exists p' a',
    get_ant (AntAgent_step m self) self = Some (p', a') /\ ant_ok a'.
Proof.
  intros I G (K1 & K2 & K3 & K4 & K5).
  destruct (AntAgent_step_result m self p a I G)
    as (m1 & a0 & _ & _ & _ & Ha0 & Hres).
  cbv zeta in Hres. destruct Hres as [Hres _].
  set (b := move_branch m1 a0 p (get_neighborhood (width m1) (height m1) p 1))
    in *.
  assert (M : 0 <= exploration_cooldown a0 <= 5
              /\ detection_radius a0 = 2
              /\ (carrying_food a0 = true \/ returning_to_food a0 = true ->
                  last_food_pos a0 <> None)).
  { destruct Ha0 as [-> | [_ ->]]; [auto|].
    split; [exact K1|]. split; [exact K2|]. intros _. discriminate. }
  destruct M as (M1 & M2 & M3).
  destruct (move_branch_record m1 a0 p
              (get_neighborhood (width m1) (height m1) p 1))
    as (R1 & R2 & R3 & R4 & R5 & R6 & R7 & R8 & _).
  fold b in R1, R2, R3, R4, R5, R6, R7, R8.
  destruct (store_direction_fields p (snd b) (snd (fst b)))
    as (S1 & S2 & S3 & S4 & S5 & S6 & S7 & S8).
  set (a2 := store_direction p (snd b) (snd (fst b))) in *.
  eexists _, _. split; [exact Hres|].
  specialize (R8 M1).
  destruct (carrying_food a2 && at_or_adjacent (snd b) (home_pos a2)) eqn:D.
  - apply andb_true_iff in D. destruct D as [D _].
    unfold ant_ok, dropped. cbn.
    split; [lia|]. split; [congruence|].
    split; [intros _; rewrite S4, R2; apply M3; left; congruence|].
    split; [intros _; repeat split|]. discriminate.
  - unfold ant_ok. rewrite S1, S3, S4, S5, S6, S7, S8.
    rewrite R1, R2, R3, R5.
    split; [lia|]. split; [exact M2|].
    split; [intros [H | H]; apply M3; [left; exact H | right; apply R6, H]|].
    split; [discriminate|]. exact R7.
Qed.

Lemma agent_step_colony (m : Model) (key : Z) :
  Inv m -> colony_ok m -> colony_ok (fst (agent_step m key)).
Proof.
  intros I Hc. unfold colony_ok in *. rewrite Forall_forall in *.
  intros x' Hx' r' Hb'.
  pose proof (agent_step_ok m key I) as ((S' & _) & _).
  pose proof (find_agent_in _ _ (inv_ids _ S') Hx') as F'.
  assert (Hids : ant_ids (fst (agent_step m key)) = ant_ids m).
  { apply (table_ops_preserve (fun y => ant_ids y = ant_ids m) key m);
      [| apply I | apply agent_step_ops, I | reflexivity].
    intros m1 m2 S1 Hop H. rewrite (table_op_ant_ids key m1 m2 S1 Hop).
    exact H. }
  assert (Hin : In (unique_id x') (ant_ids m)).
  { rewrite <- Hids. unfold ant_ids. apply in_map. apply filter_In.
    split; [exact Hx'|]. unfold is_ant. rewrite Hb'. reflexivity. }
  unfold ant_ids in Hin. apply in_map_iff in Hin.
  destruct Hin as (x & Hid & Hx). apply filter_In in Hx.
  destruct Hx as [Hx Hant].
  pose proof (find_agent_in _ _ (inv_ids _ (proj1 I)) Hx) as F.
  rewrite Hid in F.
  destruct (Z.eq_dec (unique_id x') key) as [E|E].
  - assert (G : exists r, get_ant m key = Some (pos x, r) /\ ant_ok r).
    { unfold is_ant in Hant. destruct (body x) as [r| | |] eqn:Hb;
        try discriminate.
      exists r. split; [|apply (Hc x Hx r Hb)].
      unfold get_ant. rewrite <- E, F, Hb. reflexivity. }
    destruct G as (r & G & Hr).
    destruct (AntAgent_step_ant_ok m key (pos x) r I G Hr)
      as (p' & a' & G' & Ha').
    rewrite (agent_step_ant _ _ _ _ G) in F'. cbn [fst] in F'.
    rewrite E in F'. unfold get_ant in G'. rewrite F', Hb' in G'.
    injection G' as _ <-. exact Ha'.
  - pose proof (agent_step_other_ant m key (unique_id x') x I E Hant F) as F2.
    rewrite F' in F2. injection F2 as ->. apply (Hc x Hx r' Hb').
Qed.

Lemma AntAgent_init_ok (np : Rng) (nest : Pos) :
  ant_ok (fst (AntAgent_init np nest)).
Proof.
  unfold AntAgent_init. destruct (randrange np 8) as [d np']. cbn [fst].
  unfold ant_ok. cbn. repeat split; try lia; try discriminate.
Qed.

Lemma randint_range (g : Rng) (a b : Z) :
  a <= b -> a <= fst (randint g a b) <= b.
Proof.
  intros H. unfold randint, _randbelow, next_raw. cbn [fst].
  pose proof (Z.mod_pos_bound (Z.of_N (tape g (cursor g))) (b - a + 1)
                ltac:(lia)).
  lia.
Qed.

Section Built.

Variables w h : Z.
Variable P : Agent -> Prop.
Hypothesis P_ant :
  forall id rx ry np, -5 <= rx <= 5 -> -5 <= ry <= 5 ->
    P (mkAgent id ((w / 2 + rx) mod w, (h / 2 + ry) mod h)
         (Ant (fst (AntAgent_init np (w / 2, h / 2))))).
Hypothesis P_food : forall id p, P (mkAgent id p Food).

Lemma new_ant_forall (st : Model * Rng) :
  width (fst st) = w -> height (fst st) = h ->
  nest_pos (fst st) = (w / 2, h / 2) ->
  Forall P (agents (fst st)) -> Forall P (agents (fst (new_ant st))).
Proof.
  destruct st as [m np]. cbn [fst]. intros Ew Eh En H.
  unfold new_ant, next_id. cbv beta iota zeta.
  cbn [nest_pos width height set_next_id_value].
  rewrite Ew, Eh, En. cbn [fst snd].
  pose proof (P_ant (next_id_value m + 1)) as Ha.
  specialize (fun rx ry => Ha rx ry np).
  destruct (AntAgent_init np (w / 2, h / 2)) as [ant np'].
  pose proof (randint_range (random (set_next_id_value (next_id_value m + 1) m))
                (-5) 5 ltac:(lia)) as Hx.
  destruct (randint _ _ _) as [rx g1].
  pose proof (randint_range g1 (-5) 5 ltac:(lia)) as Hy.
  destruct (randint g1 _ _) as [ry g2].
  cbn [fst agents add_agent set_agents set_random set_next_id_value] in *.
  apply Forall_app. split; [exact H|].
  apply Forall_cons; [apply Ha; assumption | apply Forall_nil].
Qed.

Lemma place_piles_forall (fuel n : nat) (pile_size : Z) (m m' : Model) :
  place_piles fuel n pile_size m = Some m' ->
  Forall P (agents m) -> Forall P (agents m').
Proof.
  revert m. induction n as [|n IH]; intros m; cbn [place_piles].
  - intros E. injection E as <-. auto.
  - destruct (pick_pile fuel m _) as [[c m1]|] eqn:Pk; [|discriminate].
    intros E H. apply (IH _ E).
    destruct (pick_pile_agents _ _ _ _ _ Pk) as (Ea & _).
    rewrite <- Ea in H. revert H. generalize m1. intros x H.
    unfold fill_pile.
    apply (fold_left_preserves (fun y => Forall P (agents y))); [|exact H].
    intros acc dx Hacc.
    apply (fold_left_preserves (fun y => Forall P (agents y))); [|exact Hacc].
    intros acc' dy Hacc'. destruct (dx * dx + dy * dy <=? 4); [|exact Hacc'].
    apply (iter_preserves (fun y => Forall P (agents y))); [|exact Hacc'].
    intros y Hy. unfold new_food, next_id.
    cbn [agents add_agent set_agents set_total_food set_next_id_value].
    apply Forall_app. split; [exact Hy|].
    apply Forall_cons; [apply P_food | apply Forall_nil].
Qed.

Lemma init_forall (n piles size speed : Z) (tn tf : R) (g np : Rng)
  (fuel : nat) (m0 : Model) (np' : Rng) :
  P (mkAgent 1 (w / 2, h / 2) Nest) ->
  init w h n piles size speed tn tf g np fuel = Some (m0, np') ->
  Forall P (agents m0).
Proof.
  intros Hnest. unfold init. intros E.
  destruct (_lifespan_to_evaporation _ _ tn) as [en|]; [|discriminate].
  destruct (_lifespan_to_evaporation _ _ tf) as [ef|]; [|discriminate].
  unfold next_id in E. cbv zeta in E.
  match type of E with
  | context [Nat.iter _ new_ant (?x, np)] => set (m2 := x) in *
  end.
  assert (H3 : Forall P (agents (fst (Nat.iter (Z.to_nat n) new_ant (m2, np))))
               /\ width (fst (Nat.iter (Z.to_nat n) new_ant (m2, np))) = w
               /\ height (fst (Nat.iter (Z.to_nat n) new_ant (m2, np))) = h
               /\ nest_pos (fst (Nat.iter (Z.to_nat n) new_ant (m2, np)))
                  = (w / 2, h / 2)).
  { apply (iter_preserves
             (fun st => Forall P (agents (fst st))
                        /\ width (fst st) = w /\ height (fst st) = h
                        /\ nest_pos (fst st) = (w / 2, h / 2))).
    - intros st (H & Ew & Eh & En).
      split; [apply new_ant_forall; assumption|].
      destruct st as [m np0]. cbn [fst] in *.
      unfold new_ant, next_id. cbv beta iota zeta.
      destruct (AntAgent_init np0 _) as [ant np1].
      destruct (randint _ _ _) as [rx g1]. destruct (randint g1 _ _) as [ry g2].
      cbn [fst]. repeat split; assumption.
    - cbn. split; [|repeat split].
      apply Forall_cons; [exact Hnest | apply Forall_nil]. }
  destruct H3 as (H3 & _).
  destruct (Nat.iter (Z.to_nat n) new_ant (m2, np)) as [m3 np3].
  cbn [fst] in H3. unfold place_food in E.
  destruct (place_piles fuel (Z.to_nat piles) size m3) as [m4|] eqn:Pl;
    [|discriminate].
  injection E as <- _. apply (place_piles_forall _ _ _ _ _ Pl H3).
Qed.

End Built.

(** [X10] At every state of a run, between two activations, every ant has a
    cooldown in 0..5; one that carries food or returns to food remembers a
    food cell (so the test [returning_to_food and last_food_pos] of [move]
    is the test of [returning_to_food] alone); one that has just delivered
    does not carry; and one that carries is not counted as following
    pheromones. *)
Theorem ants_stay_consistent (m0 m : Model) :
  initial m0 -> reachable_from m0 m -> colony_ok m.
Proof.
  intros H0 R.
  apply (reachable_kept colony_ok) with (m0 := m0); try assumption;
    try apply (initial_inv m0 H0).
  - apply agent_step_colony.
  - intros x g H. exact H.
  - intros x c H. exact H.
  - intros x H. exact H.
  - intros x H. exact H.
  - destruct H0 as (w & h & n & piles & size & speed & tn & tf & g & np & fuel
                    & np' & _ & _ & E).
    refine (init_forall w h (fun x => forall r, body x = Ant r -> ant_ok r)
              _ _ _ _ _ _ _ _ _ _ _ _ _ _ E).
    + intros id rx ry np0 _ _ r Hr. cbn [body] in Hr. injection Hr as <-.
      apply AntAgent_init_ok.
    + intros id p r Hr. discriminate.
    + intros r Hr. discriminate.
Qed.

(** The colony [forager] after one sub-step: the first ant has just
    delivered (it remembers the food cell, is set to return with a cooldown
    of 5 and does not carry), the second carries food (it remembers the
    food cell and is not following), the third has found nothing yet. *)
Lemma ants_stay_consistent_witness :
  initial forager /\ reachable_from forager foraged
  /\ get_ant foraged 2
     = Some ((10, 10),
             mkAnt false 0 (10, 10) (Some (0, 0)) 2 (Some (11, 10)) true
               false true 5)
  /\ get_ant foraged 3
     = Some ((13, 10),
             mkAnt true 0 (10, 10) (Some (0, 0)) 2 (Some (14, 10)) false
               false false 0)
  /\ ant_ok
       (mkAnt false 0 (10, 10) (Some (0, 0)) 2 (Some (11, 10)) true false
          true 5)
  /\ ant_ok
       (mkAnt true 0 (10, 10) (Some (0, 0)) 2 (Some (14, 10)) false false
          false 0)
  /\ colony_ok foraged.
Proof.
  pose proof (ants_stay_consistent forager foraged forager_initial
                foraged_reachable) as H.
  split; [exact forager_initial|]. split; [exact foraged_reachable|].
  split; [reflexivity|]. split; [reflexivity|].
  split; [|split; [|exact H]].
  - refine (proj1 (Forall_forall _ _) H
              (mkAgent 2 (10, 10) (Ant _)) _ _ eq_refl).
    unfold foraged. cbn [agents]. right. left. reflexivity.
  - refine (proj1 (Forall_forall _ _) H
              (mkAgent 3 (13, 10) (Ant _)) _ _ eq_refl).
    unfold foraged. cbn [agents]. right. right. left. reflexivity.
Defined.

(** ** An ant through a sub-step *)

Lemma AntAgent_step_delivery (m : Model) (self : Z) (p : Pos) (a : AntAgent) :
  Inv m -> get_ant m self = Some (p, a) ->
  exists p' a',
    get_ant (AntAgent_step m self) self = Some (p', a')
    /\ food_delivered (AntAgent_step m self)
       = food_delivered m + b2z (just_dropped_food a').
Proof.
  intros I G.
  destruct (AntAgent_step_result m self p a I G)
    as (m1 & a0 & _ & _ & _ & _ & Hres).
  cbv zeta in Hres. destruct Hres as [Hres Hd].
  destruct (move_branch_record m1 a0 p
              (get_neighborhood (width m1) (height m1) p 1))
    as (_ & _ & _ & _ & R5 & _).
  cbv zeta in R5.
  destruct (store_direction_fields p
              (snd (move_branch m1 a0 p
                      (get_neighborhood (width m1) (height m1) p 1)))
              (snd (fst (move_branch m1 a0 p
                           (get_neighborhood (width m1) (height m1) p 1)))))
    as (_ & _ & _ & _ & _ & _ & S7 & _).
  eexists _, _. split; [exact Hres|]. rewrite Hd.
  destruct (_ && _); [reflexivity|]. rewrite S7, R5. reflexivity.
Qed.

Section AntRel.

Variable Rel : Model -> Pos * AntAgent -> Pos * AntAgent -> Prop.
Hypothesis Rel_frame :
  forall m m' x y, frame m' = frame m -> Rel m' x y -> Rel m x y.
Hypothesis Rel_step :
  forall m self p a, Inv m -> get_ant m self = Some (p, a) ->
    exists p' a',
      get_ant (AntAgent_step m self) self = Some (p', a')
      /\ Rel m (p, a) (p', a').

Lemma run_keys_ant_rel (keys : list Z) (st : Model * list Event)
  (id : Z) (p : Pos) (a : AntAgent) :
  Inv (fst st) -> NoDup keys -> In id keys ->
  get_ant (fst st) id = Some (p, a) ->
  exists p' a',
    get_ant (fst (run_keys keys st)) id = Some (p', a')
    /\ Rel (fst st) (p, a) (p', a')
    /\ ant_steps (snd (run_keys keys st)) id = S (ant_steps (snd st) id)
    /\ food_delivered (fst st) + b2z (just_dropped_food a')
       <= food_delivered (fst (run_keys keys st)).
Proof.
  revert st. induction keys as [|key keys IH]; intros st I Hnd Hin G.
  - destruct Hin.
  - inversion Hnd as [|? ? Hk Hnd']; subst.
    rewrite run_keys_cons.
    pose proof (agent_step_ok (fst st) key I) as (I1 & _ & D1 & _).
    destruct (Z.eq_dec key id) as [E|E].
    + subst key.
      destruct (Rel_step (fst st) id p a I G) as (p' & a' & G' & HR).
      destruct (AntAgent_step_delivery (fst st) id p a I G)
        as (p'' & a'' & G'' & HD).
      rewrite G' in G''. injection G'' as <- <-.
      rewrite (agent_step_ant _ _ _ _ G) in *. cbn [fst snd] in *.
      destruct (run_keys_ant_untouched keys
                  (AntAgent_step (fst st) id, snd st ++ [AntStepped id])
                  id p' a' I1 Hk G') as [G2 S2].
      destruct (run_keys_inv keys
                  (AntAgent_step (fst st) id, snd st ++ [AntStepped id]) I1)
        as (_ & D2 & _).
      cbn [fst snd] in *.
      exists p', a'. split; [exact G2|]. split; [exact HR|]. split.
      * rewrite S2. cbn [snd]. rewrite ant_steps_app.
        unfold ant_steps at 2. rewrite count_occ_cons_eq by reflexivity.
        rewrite count_occ_nil. lia.
      * lia.
    + destruct Hin as [Hin | Hin]; [contradiction|].
      destruct (IH (fst (agent_step (fst st) key),
                    snd st ++ snd (agent_step (fst st) key)) I1 Hnd' Hin)
        as (p' & a' & G' & HR & S' & D').
      * cbn [fst]. apply (get_ant_other (fst st)); [|exact G].
        intros x Hx F. apply agent_step_other_ant; auto.
      * exists p', a'. split; [exact G'|]. cbn [fst snd] in *.
        split; [apply (Rel_frame _ _ _ _ (agent_step_frame (fst st) key) HR)|].
        split; [|lia].
        rewrite S'. rewrite ant_steps_app, agent_step_not_stepped by auto.
        lia.
Qed.

Lemma sub_step_ant_rel (m : Model) (id : Z) (p : Pos) (a : AntAgent) :
  Inv m -> get_ant m id = Some (p, a) ->
  exists p' a',
    get_ant (sub_step m) id = Some (p', a')
    /\ Rel m (p, a) (p', a')
    /\ ant_steps (snd (schedule_step_trace m)) id = 1%nat
    /\ food_delivered m + b2z (just_dropped_food a')
       <= food_delivered (sub_step m).
Proof.
  intros I G.
  destruct (get_ant_find _ _ _ _ G) as (x & F & Hx & Hid & _).
  unfold sub_step, schedule_step, schedule_step_trace.
  pose proof (shuffle_perm (random m) (map unique_id (agents m))) as Hperm.
  destruct (shuffle (random m) (map unique_id (agents m))) as [keys g].
  cbn [fst] in Hperm.
  assert (Hnd : NoDup keys).
  { apply (Permutation_NoDup (Permutation_sym Hperm)). apply I. }
  assert (Hin : In id keys).
  { apply (Permutation_in _ (Permutation_sym Hperm)).
    rewrite <- Hid. apply in_map, Hx. }
  destruct (run_keys_ant_rel keys (set_random g m, []) id p a)
    as (p' & a' & G' & HR & S' & D'); try assumption.
  { cbn [fst]. eapply Inv_same_core; [..|exact I]; reflexivity. }
  exists p', a'. cbn [fst snd] in *.
  split; [exact G'|].
  split; [apply (Rel_frame m (set_random g m)); [reflexivity | exact HR]|].
  split; [exact S' | exact D'].
Qed.

End AntRel.

(** [X11] In every sub-step every ant is activated exactly once, whatever the
    order of the shuffle, and ends the sub-step in one of the eight cells
    around the cell where it began (with wrap-around): no ant is skipped,
    none moves twice, none is moved by another agent, and on a grid of at
    least 2 x 2 cells none stays where it is. *)
Theorem ant_moves_once_per_sub_step (m : Model) (id : Z) (p : Pos)
  (a : AntAgent) :
  Inv m -> get_ant m id = Some (p, a) ->
  exists p' a',
    get_ant (sub_step m) id = Some (p', a')
    /\ moore_neighbor (width m) (height m) p p'
    /\ ant_steps (snd (schedule_step_trace m)) id = 1%nat
    /\ (2 <= width m -> 2 <= height m -> p' <> p).
Proof.
  intros I G.
  destruct (ant_facts m id p a (proj1 I) G) as [Hp _].
  destruct (sub_step_ant_rel
              (fun x s s' => moore_neighbor (width x) (height x) (fst s) (fst s')))
    with (m := m) (id := id) (p := p) (a := a)
    as (p' & a' & G' & Hn & S' & _); try assumption.
  - intros x x' s s' E H. apply frame_fields in E.
    destruct E as (Ew & Eh & _). rewrite <- Ew, <- Eh. exact H.
  - intros x self q r Ix Gx.
    destruct (AntAgent_step_position x self q r Ix Gx) as (q' & r' & G1 & H1).
    exists q', r'. split; assumption.
  - exists p', a'. cbn [fst] in Hn.
    split; [exact G'|]. split; [exact Hn|]. split; [exact S'|].
    intros Hw Hh.
    apply (moore_neighbor_moves (width m) (height m)); assumption.
Qed.

Lemma ant_moves_once_witness :
  exists p' a',
    get_ant (sub_step small_colony) 2 = Some (p', a')
    /\ moore_neighbor (width small_colony) (height small_colony) (5, 5) p'
    /\ ant_steps (snd (schedule_step_trace small_colony)) 2 = 1%nat
    /\ (2 <= width small_colony -> 2 <= height small_colony -> p' <> (5, 5)).
Proof.
  apply (ant_moves_once_per_sub_step small_colony 2 (5, 5) fresh_ant).
  - apply (initial_inv small_colony small_colony_initial).
  - reflexivity.
Defined.

(** ** The way home *)

Lemma wrap_near_center (n d : Z) :
  0 < n -> -1 <= d <= 1 -> Z.abs ((n / 2 + d) mod n - n / 2) <= 1.
Proof.
  intros Hn Hd.
  destruct (Z.eq_dec n 1) as [->|H1].
  { rewrite Z.mod_1_r. cbn. lia. }
  destruct (Z.eq_dec n 2) as [->|H2].
  { assert (d = -1 \/ d = 0 \/ d = 1) as [-> | [-> | ->]] by lia; cbn; lia. }
  assert (Hh : 1 <= n / 2 /\ n / 2 + 1 < n).
  { pose proof (Z.div_mod n 2 ltac:(lia)) as D.
    pose proof (Z.mod_pos_bound n 2 ltac:(lia)) as B. lia. }
  rewrite Z.mod_small by lia. lia.
Qed.

Lemma nest_neighbor_adjacent (w h : Z) (q : Pos) :
  0 < w -> 0 < h -> moore_neighbor w h (w / 2, h / 2) q ->
  at_or_adjacent q (w / 2, h / 2) = true.
Proof.
  intros Hw Hh (dx & dy & Hdx & Hdy & _ & ->).
  unfold at_or_adjacent, torus_adj. cbn [fst snd].
  apply andb_true_iff. split; apply Z.leb_le; apply wrap_near_center;
    assumption.
Qed.

(** One activation of an ant on its way home: it has delivered, or it is
    still on its way home and nearer to the nest. *)
Lemma AntAgent_step_homebound (m : Model) (self : Z) (p : Pos)
  (a : AntAgent) :
  Inv m -> get_ant m self = Some (p, a) ->
  exists p' a',
    get_ant (AntAgent_step m self) self = Some (p', a')
    /\ (homebound a ->
        (just_dropped_food a' = true /\ carrying_food a' = false
         /\ at_or_adjacent p' (nest_pos m) = true)
        \/ (homebound a' /\ dist2 p' (nest_pos m) < dist2 p (nest_pos m))).
Proof.
  intros I G.
  destruct (ant_facts m self p a (proj1 I) G) as [Hp Hh].
  destruct (AntAgent_step_result m self p a I G)
    as (m1 & a0 & _ & F1 & Hm1 & Ha0 & Hres).
  cbv zeta in Hres. destruct Hres as [Hres _].
  eexists _, _. split; [exact Hres|]. intros Hb.
  pose proof Hb as (Hc & Hj & Hcd).
  rewrite (Hm1 Hc) in *. clear Hm1 F1.
  assert (a0 = a) as -> by (destruct Ha0 as [E | [E _]]; [exact E | congruence]).
  destruct (move_branch_record m a p
              (get_neighborhood (width m) (height m) p 1))
    as (R1 & _ & _ & R4 & R5 & _ & _ & _ & R9).
  cbv zeta in R1, R4, R5, R9. destruct (R9 Hb) as [Hnext Hcd1].
  set (b := move_branch m a p (get_neighborhood (width m) (height m) p 1))
    in *.
  destruct (store_direction_fields p (snd b) (snd (fst b)))
    as (S1 & S2 & _ & _ & _ & _ & S7 & S8).
  set (a2 := store_direction p (snd b) (snd (fst b))) in *.
  assert (Hhome : home_pos a2 = nest_pos m) by congruence.
  rewrite Hhome. rewrite S1, R1, Hc. cbn [andb].
  destruct (at_or_adjacent (snd b) (nest_pos m)) eqn:Adj.
  - left. repeat split.
  - right. split; [unfold homebound; repeat split; congruence|].
    rewrite Hnext, Hh.
    pose proof (inv_nest m (proj1 I)) as En.
    assert (Hnest : in_grid (width m) (height m) (nest_pos m)).
    { rewrite En. pose proof (inv_width m (proj1 I)).
      pose proof (inv_height m (proj1 I)).
      split; cbn [fst snd].
      - split; [apply Z.div_pos; lia | apply Z.div_lt; lia].
      - split; [apply Z.div_pos; lia | apply Z.div_lt; lia]. }
    destruct (pos_eqb p (nest_pos m)) eqn:Ep.
    + apply pos_eqb_eq in Ep. exfalso.
      rewrite Hnext, Hh in Adj.
      destruct (move_towards_minimal_aux m p (nest_pos m)) as [Hn _].
      rewrite Ep, En in Hn, Adj.
      rewrite (nest_neighbor_adjacent (width m) (height m) _
                 (inv_width m (proj1 I)) (inv_height m (proj1 I)) Hn) in Adj.
      discriminate.
    + assert (Hne : p <> nest_pos m).
      { intros E. rewrite E, pos_eqb_refl in Ep. discriminate. }
      pose proof (move_towards_closer m p (nest_pos m) Hp Hnest Hne) as Hlt.
      exact Hlt.
Qed.

Lemma frame_arena (m m' : Model) : frame m' = frame m -> arena m' = arena m.
Proof.
  intros E. apply frame_fields in E. destruct E as (Ew & Eh & En & _).
  unfold arena. congruence.
Qed.

Lemma sub_step_arena (m : Model) : arena (sub_step m) = arena m.
Proof.
  pose proof (sub_step_frame m) as E. apply frame_fields in E.
  destruct E as (Ew & Eh & En & _). unfold arena.
  cbn [width height nest_pos set_step_count] in Ew, Eh, En. congruence.
Qed.

(** An ant that makes progress at each of its activations, by a measure
    that only it changes, is done after at most measure + 1 sub-steps. *)
Section Progress.

Variables Active Done : Model -> Pos * AntAgent -> Prop.
Variable measure : Model -> Pos * AntAgent -> Z.
Hypothesis Active_arena :
  forall m m' s, arena m' = arena m -> Active m s -> Active m' s.
Hypothesis Done_arena :
  forall m m' s, arena m' = arena m -> Done m' s -> Done m s.
Hypothesis measure_arena :
  forall m m' s, arena m' = arena m -> measure m' s = measure m s.
Hypothesis measure_nonneg : forall m s, 0 <= measure m s.
Hypothesis progress :
  forall m self p a, Inv m -> get_ant m self = Some (p, a) ->
    exists p' a',
      get_ant (AntAgent_step m self) self = Some (p', a')
      /\ (Active m (p, a) ->
          Done m (p', a')
          \/ (Active m (p', a') /\ measure m (p', a') < measure m (p, a))).

Lemma sub_step_progress (m : Model) (id : Z) (p : Pos) (a : AntAgent) :
  Inv m -> get_ant m id = Some (p, a) -> Active m (p, a) ->
  exists p' a',
    get_ant (sub_step m) id = Some (p', a')
    /\ (Done m (p', a')
        \/ (Active m (p', a') /\ measure m (p', a') < measure m (p, a)))
    /\ food_delivered m + b2z (just_dropped_food a')
       <= food_delivered (sub_step m).
Proof.
  intros I G HA.
  destruct (sub_step_ant_rel
              (fun x s s' =>
                 Active x s ->
                 Done x s' \/ (Active x s' /\ measure x s' < measure x s)))
    with (m := m) (id := id) (p := p) (a := a)
    as (p' & a' & G' & HR & _ & D'); try assumption.
  - intros x x' s s' E H Hs. apply frame_arena in E.
    destruct (H (Active_arena x x' s E Hs)) as [HD | [HA' Hlt]].
    + left. apply (Done_arena x x' s' E HD).
    + right. split; [apply (Active_arena x' x s' (eq_sym E) HA')|].
      rewrite <- (measure_arena x x' s E), <- (measure_arena x x' s' E).
      exact Hlt.
  - exists p', a'. split; [exact G'|]. split; [apply HR, HA | exact D'].
Qed.

Lemma ant_progress (n : nat) :
  forall (m : Model) (id : Z) (p : Pos) (a : AntAgent),
    Inv m -> get_ant m id = Some (p, a) -> Active m (p, a) ->
    measure m (p, a) <= Z.of_nat n ->
    exists k p' a',
      (1 <= k <= n + 1)%nat
      /\ get_ant (Nat.iter k sub_step m) id = Some (p', a')
      /\ Done m (p', a')
      /\ food_delivered m + b2z (just_dropped_food a')
         <= food_delivered (Nat.iter k sub_step m).
Proof.
  induction n as [|n IH]; intros m id p a I G HA Hd;
    destruct (sub_step_progress m id p a I G HA)
      as (p' & a' & G' & [HD | [HA' Hlt]] & D').
  - exists 1%nat, p', a'. cbn [Nat.iter nat_rect].
    split; [lia|]. split; [exact G'|]. split; assumption.
  - pose proof (measure_nonneg m (p', a')). lia.
  - exists 1%nat, p', a'. cbn [Nat.iter nat_rect].
    split; [lia|]. split; [exact G'|]. split; assumption.
  - destruct (sub_step_inv m I) as (I1 & D1 & _).
    pose proof (sub_step_arena m) as Ea.
    destruct (IH (sub_step m) id p' a' I1 G'
                (Active_arena m (sub_step m) (p', a') Ea HA'))
      as (k & p'' & a'' & Hk & G'' & HD & D'').
    { rewrite (measure_arena m (sub_step m) (p', a') Ea). lia. }
    exists (S k), p'', a''. rewrite Nat.iter_succ_r.
    split; [lia|]. split; [exact G''|].
    split; [apply (Done_arena m (sub_step m) (p'', a'') Ea HD) | lia].
Qed.

End Progress.

(** [X12] An ant on its way home delivers: from any state of a run in which it
    carries food and is not in the escape state, after at most
    [dist2 + 1] sub-steps (the square of its distance to the nest, plus
    one) it has dropped its food next to the nest and the delivered
    counter has grown, whatever the other agents and the generator do in
    the meantime. *)
Theorem carrying_ant_delivers (m : Model) (id : Z) (p : Pos) (a : AntAgent) :
  Inv m -> get_ant m id = Some (p, a) -> homebound a ->
  exists k p' a',
    (1 <= k <= Z.to_nat (dist2 p (nest_pos m)) + 1)%nat
    /\ get_ant (Nat.iter k sub_step m) id = Some (p', a')
    /\ just_dropped_food a' = true /\ carrying_food a' = false
    /\ at_or_adjacent p' (nest_pos m) = true
    /\ food_delivered m + 1 <= food_delivered (Nat.iter k sub_step m).
Proof.
  intros I G Hb.
  destruct (ant_progress
              (fun x s => homebound (snd s))
              (fun x s =>
                 just_dropped_food (snd s) = true
                 /\ carrying_food (snd s) = false
                 /\ at_or_adjacent (fst s) (nest_pos x) = true)
              (fun x s => dist2 (fst s) (nest_pos x)))
    with (n := Z.to_nat (dist2 p (nest_pos m))) (m := m) (id := id) (p := p)
         (a := a)
    as (k & p' & a' & Hk & G' & (J & C & A) & D); try assumption.
  - intros x x' s E H. exact H.
  - intros x x' s E H. unfold arena in E.
    replace (nest_pos x) with (nest_pos x') by congruence. exact H.
  - intros x x' s E. unfold arena in E. cbn beta.
    replace (nest_pos x) with (nest_pos x') by congruence. reflexivity.
  - intros x s. apply dist2_nonneg.
  - intros x self q r Ix Gx. apply AntAgent_step_homebound; assumption.
  - cbn [fst]. pose proof (dist2_nonneg p (nest_pos m)). lia.
  - exists k, p', a'. cbn [fst snd] in *. rewrite J in D. cbn [b2z] in D.
    repeat split; try assumption; lia.
Qed.

Lemma laden_colony_inv : Inv laden_colony.
Proof.
  split.
  - constructor; cbn; try lia; try reflexivity.
    + repeat constructor; cbn; intuition discriminate.
    + repeat (apply Forall_cons; [cbn; lia|]). apply Forall_nil.
    + apply Forall_cons; [discriminate|].
      apply Forall_cons; [intros _; unfold in_grid; cbn; lia | apply Forall_nil].
    + apply Forall_cons; [discriminate|].
      apply Forall_cons; [intros r E; injection E as <-; reflexivity
                         | apply Forall_nil].
    + apply Forall_cons; [discriminate|].
      apply Forall_cons; [discriminate | apply Forall_nil].
    + intros q ty. rewrite live_pheromones_conj. cbn.
      rewrite !andb_false_r. cbn. lia.
  - reflexivity.
Qed.

Lemma carrying_ant_delivers_witness :
  exists k p' a',
    (1 <= k <= Z.to_nat (dist2 (13, 10)%Z (nest_pos laden_colony)) + 1)%nat
    /\ get_ant (Nat.iter k sub_step laden_colony) 2 = Some (p', a')
    /\ just_dropped_food a' = true /\ carrying_food a' = false
    /\ at_or_adjacent p' (nest_pos laden_colony) = true
    /\ food_delivered laden_colony + 1
       <= food_delivered (Nat.iter k sub_step laden_colony).
Proof.
  apply (carrying_ant_delivers laden_colony 2 (13, 10)
           (set_last_food_pos (Some (15, 10))
              (set_carrying_food true fresh_ant))).
  - exact laden_colony_inv.
  - reflexivity.
  - repeat split.
Defined.

(** ** Lifespans *)

Lemma ln_005_le : (ln 0.05 <= -2)%R.
Proof.
  assert (H : (0.05 <= exp (-2))%R).
  { replace (-2)%R with (- (1 + 1))%R by lra.
    rewrite exp_Ropp, exp_plus.
    pose proof exp_le_3 as H3. pose proof (exp_pos 1) as Hp.
    assert (Hsq : (exp 1 * exp 1 <= 9)%R) by nra.
    assert (Hpos : (0 < exp 1 * exp 1)%R) by nra.
    apply Rle_trans with (/ 9)%R; [lra|].
    apply Rinv_le_contravar; assumption. }
  rewrite <- (ln_exp (-2)).
  destruct H as [H | H].
  - left. apply ln_increasing; [lra | exact H].
  - right. rewrite H. reflexivity.
Qed.

Lemma ln_0999_ge : (- / 999 <= ln 0.999)%R.
Proof.
  assert (H : (/ 0.999 <= exp (/ 999))%R).
  { apply Rle_trans with (1 + / 999)%R; [lra|].
    left. apply exp_ineq1. lra. }
  assert (Hl : (ln (/ 0.999) <= / 999)%R).
  { rewrite <- (ln_exp (/ 999)).
    destruct H as [H | H].
    - left. apply ln_increasing; [|exact H].
      apply Rinv_0_lt_compat. lra.
    - right. rewrite H. reflexivity. }
  rewrite ln_Rinv in Hl by lra. lra.
Qed.

Lemma Rpower_005_unclamped (t : R) :
  (1 <= t <= 1998)%R -> (0.01 <= Rpower 0.05 (1 / t) <= 0.999)%R.
Proof.
  intros [H1 H2]. split.
  - apply Rle_trans with (Rpower 0.05 (1 / 1)).
    + replace (1 / 1)%R with 1%R by field. rewrite Rpower_1 by lra. lra.
    + apply Rpower_005_mono; lra.
  - unfold Rpower.
    apply Rle_trans with (exp (ln 0.999)); [|rewrite exp_ln; lra].
    assert (Hle : (1 / t * ln 0.05 <= ln 0.999)%R).
    { pose proof ln_005_le as La. pose proof ln_0999_ge as Lb.
      assert (Ht : (/ 1998 <= 1 / t)%R).
      { unfold Rdiv. rewrite Rmult_1_l. apply Rinv_le_contravar; lra. }
      assert (Hp : (0 < 1 / t)%R).
      { unfold Rdiv. rewrite Rmult_1_l. apply Rinv_0_lt_compat. lra. }
      apply Rle_trans with (1 / t * -2)%R; [nra|].
      apply Rle_trans with (- / 999)%R; [|exact Lb]. lra. }
    destruct Hle as [Hlt | Heq].
    + left. apply exp_increasing, Hlt.
    + right. rewrite Heq. reflexivity.
Qed.

Lemma Rpower_005_above (y : R) : (y < 1)%R -> (0.05 < Rpower 0.05 y)%R.
Proof.
  intros H. pose proof ln_005_neg as Hln.
  replace 0.05%R with (exp (ln 0.05)) at 1 by (apply exp_ln; lra).
  unfold Rpower. apply exp_increasing. nra.
Qed.

Lemma Rpower_005_below (y : R) : (1 < y)%R -> (Rpower 0.05 y < 0.05)%R.
Proof.
  intros H. pose proof ln_005_neg as Hln.
  replace 0.05%R with (exp (ln 0.05)) at 2 by (apply exp_ln; lra).
  unfold Rpower. apply exp_increasing. nra.
Qed.

(** [X13] For a number of ticks between 1 and 1998 (the defaults give 100
    and 60) the clamp of [_lifespan_to_evaporation] to [0.01, 0.999] is not
    reached: the factor is [0.05 ** (1 / totalTicks)].  A strength that is
    multiplied by it once per tick is still above 5 % of what it was after
    [totalTicks - 1] ticks or fewer, and below 5 % after [totalTicks + 1]
    ticks or more: the 5 % that the comment in the code aims at is crossed
    at [totalTicks]. *)
Theorem lifespan_reaches_five_percent (sps : R) (speed : Z) (lifespan : R) :
  speed <> 0 ->
  (1 <= total_ticks sps speed lifespan <= 1998)%R ->
  exists e,
    _lifespan_to_evaporation sps speed lifespan = Some e
    /\ e = Rpower 0.05 (1 / total_ticks sps speed lifespan)
    /\ (0.01 <= e <= 0.999)%R
    /\ forall (k : nat) (s : R),
         (0 < s)%R ->
         ((INR k + 1 <= total_ticks sps speed lifespan)%R ->
          (s * 0.05 < s * e ^ k)%R)
         /\ ((total_ticks sps speed lifespan + 1 <= INR k)%R ->
             (s * e ^ k < s * 0.05)%R).
Proof.
  intros Hs Ht. set (t := total_ticks sps speed lifespan) in *.
  pose proof (Rpower_005_unclamped t Ht) as [Hlo Hhi].
  assert (Hf : factor_of_ticks t = Rpower 0.05 (1 / t)).
  { unfold factor_of_ticks. destruct (Rle_dec t 0); [lra|].
    rewrite Rmin_right by exact Hhi. rewrite Rmax_right by exact Hlo.
    reflexivity. }
  exists (Rpower 0.05 (1 / t)).
  split; [rewrite (lifespan_to_evaporation_eq sps speed lifespan Hs);
          fold t; rewrite Hf; reflexivity|].
  split; [reflexivity|]. split; [split; assumption|].
  intros k s Hpos.
  assert (Hk : (Rpower 0.05 (1 / t) ^ k = Rpower 0.05 (1 / t * INR k))%R).
  { rewrite <- Rpower_pow by (unfold Rpower; apply exp_pos).
    apply Rpower_mult. }
  rewrite Hk.
  assert (Hinv : (0 < / t)%R) by (apply Rinv_0_lt_compat; lra).
  assert (Hone : (/ t * t = 1)%R) by (apply Rinv_l; lra).
  split; intros Hlt.
  - apply Rmult_lt_compat_l; [exact Hpos|]. apply Rpower_005_above.
    unfold Rdiv. rewrite Rmult_1_l. nra.
  - apply Rmult_lt_compat_l; [exact Hpos|]. apply Rpower_005_below.
    unfold Rdiv. rewrite Rmult_1_l. nra.
Qed.

(** The default to-nest lifespan, 10 seconds at 10 ticks per second and
    speed 1: 100 ticks. *)
Lemma lifespan_reaches_five_percent_witness :
  exists e,
    _lifespan_to_evaporation 10 1 10 = Some e
    /\ e = Rpower 0.05 (1 / total_ticks 10 1 10)
    /\ (0.01 <= e <= 0.999)%R
    /\ forall (k : nat) (s : R),
         (0 < s)%R ->
         ((INR k + 1 <= total_ticks 10 1 10)%R -> (s * 0.05 < s * e ^ k)%R)
         /\ ((total_ticks 10 1 10 + 1 <= INR k)%R ->
             (s * e ^ k < s * 0.05)%R).
Proof.
  apply (lifespan_reaches_five_percent 10 1 10).
  - discriminate.
  - unfold total_ticks. lra.
Defined.

(** ** The model that the constructor returns *)

Lemma new_ant_settings (st : Model * Rng) :
  settings (fst (new_ant st)) = settings (fst st)
  /\ total_food (fst (new_ant st)) = total_food (fst st)
  /\ Z.of_nat (length (agents (fst (new_ant st))))
     = Z.of_nat (length (agents (fst st))) + 1.
Proof.
  destruct st as [m np]. unfold new_ant, next_id. cbv beta iota zeta.
  destruct (AntAgent_init np _) as [ant np1].
  destruct (randint _ _ _) as [rx g1]. destruct (randint g1 _ _) as [ry g2].
  cbn [fst]. split; [reflexivity|]. split; [reflexivity|].
  cbn [agents add_agent set_agents set_random set_next_id_value].
  rewrite length_app. cbn [length]. lia.
Qed.

Lemma pick_pile_settings (fuel : nat) (m : Model) (min_dist : Z) (c : Pos)
  (m' : Model) :
  pick_pile fuel m min_dist = Some (c, m') -> settings m' = settings m.
Proof.
  revert m m'. induction fuel as [|fuel IH]; intros m m'; cbn [pick_pile];
    [discriminate|].
  destruct (randrange (random m) (width m)) as [x g1].
  destruct (randrange g1 (height m)) as [y g2].
  destruct (Rltb _ _).
  - intros E. injection E as _ <-. reflexivity.
  - intros E. apply IH in E. exact E.
Qed.

Lemma place_piles_settings (fuel n : nat) (pile_size : Z) (m m' : Model) :
  place_piles fuel n pile_size m = Some m' -> settings m' = settings m.
Proof.
  revert m. induction n as [|n IH]; intros m; cbn [place_piles].
  - intros E. injection E as <-. reflexivity.
  - destruct (pick_pile fuel m _) as [[c m1]|] eqn:Pk; [|discriminate].
    intros E. rewrite (IH _ E).
    pose proof (pick_pile_settings _ _ _ _ _ Pk) as E1.
    rewrite <- E1. unfold fill_pile.
    apply (fold_left_preserves (fun y => settings y = settings m1));
      [|reflexivity].
    intros acc dx Hacc.
    apply (fold_left_preserves (fun y => settings y = settings m1));
      [|exact Hacc].
    intros acc' dy Hacc'. destruct (dx * dx + dy * dy <=? 4); [|exact Hacc'].
    apply (iter_preserves (fun y => settings y = settings m1)); [|exact Hacc'].
    intros y Hy. exact Hy.
Qed.

Lemma wrap_from_center (n r : Z) :
  0 < n -> Z.abs ((n / 2 + r) mod n - n / 2) <= Z.abs r.
Proof.
  intros Hn.
  pose proof (Z.div_mod (n / 2 + r) n ltac:(lia)) as D.
  pose proof (Z.mod_pos_bound (n / 2 + r) n Hn) as B.
  pose proof (Z.div_mod n 2 ltac:(lia)) as D2.
  pose proof (Z.mod_pos_bound n 2 ltac:(lia)) as B2.
  set (k := (n / 2 + r) / n) in *. set (a := (n / 2 + r) mod n) in *.
  set (c := n / 2) in *.
  assert (k = 0 \/ 1 <= k \/ k <= -1) as [-> | [Hk | Hk]] by lia.
  - lia.
  - assert (n <= n * k) by nia. lia.
  - assert (n * k <= - n) by nia. lia.
Qed.

(** [X14] What the constructor returns, for a grid of positive size: the
    parameters as given, the nest in the centre, all counters at 0; one
    nest, then [n_ants] ants, then the food, with the identifiers 1, 2,
    ... in this order and none left out; every ant in the grid within 5
    cells of the nest, with empty attributes; and
    [13 * (food_pile_size // 20)] items of food per pile. *)
Theorem constructor_postcondition (w h n piles size speed : Z) (tn tf : R)
  (g np : Rng) (fuel : nat) (m0 : Model) (np' : Rng) :
  0 < w -> 0 < h ->
  init w h n piles size speed tn tf g np fuel = Some (m0, np') ->
  let placed := Z.max 0 piles * (13 * Z.max 0 (size / 20)) in
  settings m0 = (w, h, n, speed, 10%R, 0, 0, 0, 0, 0, (w / 2, h / 2))
  /\ speed <> 0
  /\ total_food m0 = placed /\ live_food m0 = placed
  /\ ant_ids m0 = map Z.of_nat (seq 2 (Z.to_nat n))
  /\ next_id_value m0 = 1 + Z.max 0 n + placed
  /\ Z.of_nat (length (agents m0)) = next_id_value m0
  /\ Forall
       (fun x => forall r, body x = Ant r ->
          in_grid w h (pos x) /\ chebyshev (pos x) (w / 2, h / 2) <= 5
          /\ r = mkAnt false (direction r) (w / 2, h / 2) None 2 None false
                   false false 0)
       (agents m0).
Proof.
  intros Hw Hh E placed.
  destruct (init_built _ _ _ _ _ _ _ _ _ _ _ _ _ E) as ([Hids _] & _ & _ & _ & Hs).
  assert (I0 : initial m0).
  { exists w, h, n, piles, size, speed, tn, tf, g, np, fuel, np'. auto. }
  destruct (initial_inv m0 I0) as ((_ & Hbal) & Hd0 & Hc0).
  assert (Hall :
            Forall
              (fun x => forall r, body x = Ant r ->
                 in_grid w h (pos x) /\ chebyshev (pos x) (w / 2, h / 2) <= 5
                 /\ r = mkAnt false (direction r) (w / 2, h / 2) None 2 None
                          false false false 0)
              (agents m0)).
  { refine (init_forall w h _ _ _ _ _ _ _ _ _ _ _ _ _ _ _ E).
    - intros id rx ry np0 Hrx Hry r Hr. cbn [body pos] in *.
      injection Hr as <-.
      split; [apply (wrap_in_grid w h (_, _)); assumption|].
      split.
      + unfold chebyshev. cbn [fst snd].
        pose proof (wrap_from_center w rx Hw).
        pose proof (wrap_from_center h ry Hh). lia.
      + unfold AntAgent_init. destruct (randrange np0 8). reflexivity.
    - intros id p r Hr. discriminate.
    - intros r Hr. discriminate. }
  unfold init in E.
  destruct (_lifespan_to_evaporation _ _ tn) as [en|]; [|discriminate].
  destruct (_lifespan_to_evaporation _ _ tf) as [ef|]; [|discriminate].
  unfold next_id in E. cbv zeta in E.
  match type of E with
  | context [Nat.iter _ new_ant (?x, np)] => set (m2 := x) in *
  end.
  assert (H3 : forall k,
            settings (fst (Nat.iter k new_ant (m2, np))) = settings m2
            /\ total_food (fst (Nat.iter k new_ant (m2, np))) = 0
            /\ Z.of_nat (length (agents (fst (Nat.iter k new_ant (m2, np)))))
               = 1 + Z.of_nat k).
  { intros k. induction k as [|k IH].
    - cbn [Nat.iter nat_rect fst]. repeat split.
    - change (Nat.iter (S k) new_ant (m2, np))
        with (new_ant (Nat.iter k new_ant (m2, np))).
      destruct IH as (I1 & I2 & I3).
      destruct (new_ant_settings (Nat.iter k new_ant (m2, np)))
        as (J1 & J2 & J3).
      split; [congruence|]. split; [congruence|]. lia. }
  destruct (iter_new_ant_built (Z.to_nat n) (m2, np)) as (Hn3 & _ & _).
  { reflexivity. }
  { split; [reflexivity|].
    apply Forall_cons; [reflexivity | apply Forall_nil]. }
  destruct (H3 (Z.to_nat n)) as (S3 & T3 & L3). clear H3.
  destruct (Nat.iter (Z.to_nat n) new_ant (m2, np)) as [m3 np3].
  cbn [fst] in S3, T3, L3, Hn3. unfold place_food in E.
  destruct (place_piles fuel (Z.to_nat piles) size m3) as [m4|] eqn:Pl;
    [|discriminate].
  injection E as <- _.
  pose proof (place_piles_settings _ _ _ _ _ Pl) as S4.
  pose proof (place_piles_amount total_food (fun _ _ => eq_refl)
                (fun _ _ => eq_refl) _ _ _ _ _ Pl) as T4.
  pose proof (place_piles_amount next_id_value (fun _ _ => eq_refl)
                (fun _ _ => eq_refl) _ _ _ _ _ Pl) as N4.
  assert (L4 : Z.of_nat (length (agents m4))
               = Z.of_nat (length (agents m3))
                 + Z.of_nat (Z.to_nat piles) * (13 * Z.max 0 (size / 20))).
  { apply (place_piles_amount (fun y => Z.of_nat (length (agents y))))
      with (fuel := fuel); [| reflexivity | exact Pl].
    intros p y. unfold new_food, next_id.
    cbn [agents add_agent set_agents set_total_food set_next_id_value].
    rewrite length_app. cbn [length]. lia. }
  assert (Hp : Z.of_nat (Z.to_nat piles) * (13 * Z.max 0 (size / 20)) = placed)
    by (subst placed; f_equal; lia).
  rewrite Hp in *.
  split; [rewrite S4, S3; reflexivity|]. split; [exact Hs|].
  split; [lia|].
  split; [unfold food_balance in Hbal; lia|].
  split; [exact Hids|]. split; [lia|]. split; [lia | exact Hall].
Qed.

Lemma constructor_postcondition_witness :
  let placed := Z.max 0 0 * (13 * Z.max 0 (0 / 20)) in
  settings small_colony
  = (20, 20, 1, 1, 10%R, 0, 0, 0, 0, 0, (20 / 2, 20 / 2))
  /\ 1 <> 0
  /\ total_food small_colony = placed /\ live_food small_colony = placed
  /\ ant_ids small_colony = map Z.of_nat (seq 2 (Z.to_nat 1))
  /\ next_id_value small_colony = 1 + Z.max 0 1 + placed
  /\ Z.of_nat (length (agents small_colony)) = next_id_value small_colony
  /\ Forall
       (fun x => forall r, body x = Ant r ->
          in_grid 20 20 (pos x) /\ chebyshev (pos x) (20 / 2, 20 / 2) <= 5
          /\ r = mkAnt false (direction r) (20 / 2, 20 / 2) None 2 None false
                   false false 0)
       (agents small_colony).
Proof.
  apply (constructor_postcondition 20 20 1 0 0 1 10 6 (constant_rng 0)
           (constant_rng 0) 0 small_colony (mkRng (fun _ => 0%N) 1));
    [lia | lia | exact small_colony_init].
Defined.

(** ** Food and nest *)

Lemma in_update (id : Z) (f : Agent -> Agent) (l : list Agent) (x : Agent) :
  In x (update_agent id f l) ->
  In x l \/ exists y, In y l /\ unique_id y = id /\ x = f y.
Proof.
  unfold update_agent. intros H. apply in_map_iff in H.
  destruct H as (y & E & Hy).
  destruct (Z.eqb_spec (unique_id y) id) as [Ey|Ey].
  - right. exists y. auto.
  - left. subst x. exact Hy.
Qed.

(** No elementary change adds food to the table or alters an item of
    food, and none touches the nest. *)
Lemma table_op_static (self : Z) (m m' : Model) :
  Shape m -> table_op self m m' ->
  (forall x, In x (agents m') -> is_food x = true -> In x (agents m))
  /\ live_food m' <= live_food m
  /\ (forall x, In x (agents m) -> body x = Nest -> In x (agents m')).
Proof.
  intros S H. pose proof (inv_ids m S) as Hnd.
  assert (Hnest : forall x, body x = Nest ->
            is_food x = false /\ is_pheromone x = false /\ is_ant x = false).
  { intros x Hx. unfold is_food, is_pheromone, is_ant. rewrite Hx. auto. }
  destruct H as [g | agent v ty Hin Hty Hv | p v ty Hnone Hfar Hv
                 | p0 p r0 r G Hh Hp | y Hin Hfood | | y s ty Hin Hid Hb Hs
                 | y Hin Hid Hph]; unfold live_food; cbn [agents set_agents
                   set_random set_food_delivered set_active_pheromones
                   add_agent set_next_id_value put_ant].
  - split; [auto|]. split; [lia | auto].
  - apply is_pheromone_of_is_pheromone in Hty.
    destruct (kinds_exclusive agent) as (K & _). destruct (K Hty) as [_ Kf].
    split; [|split].
    + intros x Hx Hf. apply in_update in Hx.
      destruct Hx as [Hx | (y & _ & _ & ->)]; [exact Hx | discriminate].
    + rewrite (count_if_update _ _ _ _ agent Hnd Hin eq_refl). rewrite Kf.
      change (is_food (reinforce (Rmin 3.0 (strength_of agent + v * 0.5)) ty
                         agent)) with false.
      cbn [b2z]. lia.
    + intros x Hx Hbx. apply in_update_other; [exact Hx|].
      intros E. assert (x = agent) by (apply (in_same_id m); assumption).
      subst x. destruct (Hnest agent Hbx) as (_ & Hp & _). congruence.
  - split; [|split].
    + intros x Hx Hf. apply in_app_or in Hx.
      destruct Hx as [Hx | [<- | []]]; [exact Hx | discriminate].
    + rewrite count_if_app, count_if_cons, count_if_nil.
      change (is_food (mkAgent (next_id_value m + 1) p (Pheromone v ty)))
        with false.
      cbn [b2z]. lia.
    + intros x Hx _. apply in_or_app. left. exact Hx.
  - destruct (get_ant_find _ _ _ _ G) as (a & F & Hin & Hid & _ & Hb).
    split; [|split].
    + intros x Hx Hf. apply in_update in Hx.
      destruct Hx as [Hx | (y & _ & _ & ->)]; [exact Hx | discriminate].
    + rewrite (count_if_update _ _ _ _ a Hnd Hin Hid).
      assert (Ha : is_food a = false)
        by (unfold is_food; rewrite Hb; reflexivity).
      rewrite Ha.
      change (is_food (mkAgent (unique_id a) p (Ant r))) with false.
      cbn [b2z]. lia.
    + intros x Hx Hbx. apply in_update_other; [exact Hx|].
      intros E. assert (x = a)
        by (apply (in_same_id m); try assumption; congruence).
      subst x. congruence.
  - split; [|split].
    + intros x Hx _. unfold remove_agent in Hx. apply filter_In in Hx.
      apply Hx.
    + rewrite (count_if_remove _ _ y Hnd Hin). rewrite Hfood. cbn [b2z]. lia.
    + intros x Hx Hbx. unfold remove_agent. apply filter_In.
      split; [exact Hx|]. apply negb_true_iff. apply Z.eqb_neq.
      intros E. assert (x = y) by (apply (in_same_id m); assumption).
      subst x. destruct (Hnest y Hbx) as (Hf & _). congruence.
  - split; [auto|]. split; [lia | auto].
  - split; [|split].
    + intros x Hx Hf. apply in_update in Hx.
      destruct Hx as [Hx | (z & _ & _ & ->)]; [exact Hx | discriminate].
    + rewrite (count_if_update _ _ _ _ y Hnd Hin Hid).
      assert (Hy : is_food y = false)
        by (unfold is_food; rewrite Hb; reflexivity).
      rewrite Hy.
      change (is_food (reinforce (s * evaporation m ty) ty y)) with false.
      cbn [b2z]. lia.
    + intros x Hx Hbx. apply in_update_other; [exact Hx|].
      intros E. assert (x = y)
        by (apply (in_same_id m); try assumption; congruence).
      subst x. congruence.
  - destruct (kinds_exclusive y) as (K & _). destruct (K Hph) as [_ Kf].
    split; [|split].
    + intros x Hx _. unfold remove_agent in Hx. apply filter_In in Hx.
      apply Hx.
    + rewrite <- Hid. rewrite (count_if_remove _ _ y Hnd Hin). rewrite Kf.
      cbn [b2z]. lia.
    + intros x Hx Hbx. unfold remove_agent. apply filter_In.
      split; [exact Hx|]. apply negb_true_iff. apply Z.eqb_neq.
      intros E. assert (x = y)
        by (apply (in_same_id m); try assumption; congruence).
      subst x. destruct (Hnest y Hbx) as (_ & Hp & _). congruence.
Qed.

(** [X15] Along a run food is never added, moved or altered, only eaten: every
    item of food of a later state is an item of the earlier state, with
    the same identifier and in the same cell, and the food on the grid does
    not grow.  The nest is never touched. *)
Theorem food_and_nest_are_static (m1 m2 : Model) :
  Inv m1 -> reachable_from m1 m2 ->
  (forall x, In x (agents m2) -> is_food x = true -> In x (agents m1))
  /\ live_food m2 <= live_food m1
  /\ (forall x, In x (agents m1) -> body x = Nest -> In x (agents m2)).
Proof.
  intros I R.
  apply (reachable_keeps
           (fun y =>
              (forall x, In x (agents y) -> is_food x = true ->
                 In x (agents m1))
              /\ live_food y <= live_food m1
              /\ (forall x, In x (agents m1) -> body x = Nest ->
                    In x (agents y))))
    with (m0 := m1); try assumption.
  - intros self y y' S Hop (H1 & H2 & H3).
    destruct (table_op_static self y y' S Hop) as (T1 & T2 & T3).
    split; [|split].
    + intros x Hx Hf. apply H1; [apply T1; assumption | exact Hf].
    + lia.
    + intros x Hx Hb. apply T3; [apply H3; assumption | exact Hb].
  - intros y c H. exact H.
  - intros y H. exact H.
  - intros y H. exact H.
  - split; [auto|]. split; [lia | auto].
Qed.

Lemma food_and_nest_witness :
  (forall x, In x (agents (sub_step one_pile)) -> is_food x = true ->
     In x (agents one_pile))
  /\ live_food (sub_step one_pile) <= live_food one_pile
  /\ (forall x, In x (agents one_pile) -> body x = Nest ->
        In x (agents (sub_step one_pile))).
Proof.
  apply (food_and_nest_are_static one_pile (sub_step one_pile)).
  - apply (place_piles_inv 1 1 20 small_colony one_pile).
    + apply (initial_inv small_colony small_colony_initial).
    + exact one_pile_placed.
  - apply reach_sub_step, reach_start.
Defined.

(** ** Without a trail *)

Lemma cell_strength_zero (m : Model) (ty : PheromoneType) (q : Pos) :
  (forall x, In x (get_cell_list_contents m q) ->
     is_pheromone_of ty x = false) ->
  cell_pheromone_strength m ty q = 0%R.
Proof.
  unfold cell_pheromone_strength.
  generalize (get_cell_list_contents m q). intros l H.
  induction l as [|x l IH]; [reflexivity|]. cbn [fold_left].
  rewrite (H x (or_introl eq_refl)). apply IH.
  intros y Hy. apply H. right. exact Hy.
Qed.

Lemma scan_pheromones_none (m : Model) (current_pos : Pos) (l : list Pos) :
  (forall q, In q l -> cell_pheromone_strength m to_food q = 0%R) ->
  scan_pheromones m current_pos l = mkScan [] 0%R None.
Proof.
  unfold scan_pheromones. generalize (mkScan [] 0%R None).
  induction l as [|q l IH]; intros st H; [reflexivity|]. cbn [fold_left].
  rewrite (H q (or_introl eq_refl)).
  assert (E : Rltb 0.1 0 = false) by (apply Rltb_false; lra).
  rewrite E. apply IH. intros y Hy. apply H. right. exact Hy.
Qed.

(** [X16] With no to-food pheromone within the detection radius,
    [follow_pheromones_or_explore] is [random_walk]: same cell, same
    draws, and the ant is reported as not following. *)
Theorem no_trail_no_following (m : Model) (g : Rng) (a : AntAgent)
  (current_pos : Pos) (possible_steps : list Pos) :
  (forall q x,
     In q (get_neighborhood (width m) (height m) current_pos
             (detection_radius a)) ->
     In x (get_cell_list_contents m q) -> is_pheromone_of to_food x = false) ->
  follow_pheromones_or_explore m g a current_pos possible_steps
  = (fst (random_walk g a current_pos possible_steps), false,
     snd (random_walk g a current_pos possible_steps)).
Proof.
  intros H. unfold follow_pheromones_or_explore.
  rewrite scan_pheromones_none.
  - cbn [best_direction]. destruct (random_walk g a current_pos possible_steps).
    reflexivity.
  - intros q Hq. apply cell_strength_zero. intros x Hx. apply (H q x Hq Hx).
Qed.

Lemma no_trail_no_following_witness :
  follow_pheromones_or_explore small_colony (random small_colony) fresh_ant
    (5, 5) (get_neighborhood 20 20 (5, 5) 1)
  = (fst (random_walk (random small_colony) fresh_ant (5, 5)
            (get_neighborhood 20 20 (5, 5) 1)),
     false,
     snd (random_walk (random small_colony) fresh_ant (5, 5)
            (get_neighborhood 20 20 (5, 5) 1))).
Proof.
  apply (no_trail_no_following small_colony).
  intros q x _ Hx. unfold get_cell_list_contents in Hx.
  apply filter_In in Hx. destruct Hx as [[<- | [<- | []]] _]; reflexivity.
Defined.

(** ** The agent table of a run *)

(** [X17] At every state of a run no two agents share an identifier and none has
    an identifier above [next_id_value]; every ant is in the grid and has
    the nest, the centre cell of the grid, as its home. *)
Theorem table_stays_well_formed (m0 m : Model) :
  initial m0 -> reachable_from m0 m ->
  NoDup (map unique_id (agents m))
  /\ Forall (fun x => unique_id x <= next_id_value m) (agents m)
  /\ nest_pos m = (width m / 2, height m / 2)
  /\ Forall
       (fun x => forall r, body x = Ant r ->
          in_grid (width m) (height m) (pos x) /\ home_pos r = nest_pos m)
       (agents m).
Proof.
  intros H0 R.
  destruct (reachable_inv m0 m H0 R) as ((S & _) & _).
  split; [apply S|]. split; [apply S|]. split; [apply S|].
  pose proof (inv_grid m S) as Hg. pose proof (inv_home m S) as Hh.
  rewrite Forall_forall in *. intros x Hx r Hb. split.
  - apply (Hg x Hx). unfold is_ant. rewrite Hb. reflexivity.
  - apply (Hh x Hx r Hb).
Qed.

Lemma table_stays_well_formed_witness :
  NoDup (map unique_id (agents (sub_step small_colony)))
  /\ Forall (fun x => unique_id x <= next_id_value (sub_step small_colony))
       (agents (sub_step small_colony))
  /\ nest_pos (sub_step small_colony)
     = (width (sub_step small_colony) / 2, height (sub_step small_colony) / 2)
  /\ Forall
       (fun x => forall r, body x = Ant r ->
          in_grid (width (sub_step small_colony))
            (height (sub_step small_colony)) (pos x)
          /\ home_pos r = nest_pos (sub_step small_colony))
       (agents (sub_step small_colony)).
Proof.
  apply (table_stays_well_formed small_colony (sub_step small_colony)).
  - apply small_colony_initial.
  - apply reach_sub_step, reach_start.
Defined.

(** ** Food in sight *)

Section FoodScan.

Variable m : Model.
Variable current_pos : Pos.
Variable possible_steps : list Pos.

Lemma scan_food_fold (nearby_cells : list Pos) :
  scan_food m current_pos possible_steps nearby_cells
  = fold_left
      (fun acc cell =>
         fold_left (scan_food_agent current_pos possible_steps cell)
           (get_cell_list_contents m cell) acc)
      nearby_cells [].
Proof. reflexivity. Qed.

Lemma scan_step_grows (cell : Pos) (acc : list Pos) (x : Agent) :
  acc <> [] -> scan_food_agent current_pos possible_steps cell acc x <> [].
Proof.
  intros H. unfold scan_food_agent. destruct (is_food x); [|exact H].
  destruct (existsb _ _).
  - intros E. apply app_eq_nil in E. destruct E as [_ E]. discriminate.
  - destruct (length acc =? 0)%nat eqn:L; [|exact H].
    apply Nat.eqb_eq in L. destruct acc; [contradiction | discriminate].
Qed.

Lemma scan_cell_grows (cell : Pos) (l : list Agent) (acc : list Pos) :
  acc <> [] ->
  fold_left (scan_food_agent current_pos possible_steps cell) l acc <> [].
Proof.
  revert acc. induction l as [|x l IH]; intros acc H; [exact H|].
  cbn [fold_left]. apply IH, scan_step_grows, H.
Qed.

Lemma scan_cell_finds (cell : Pos) (l : list Agent) (acc : list Pos)
  (x : Agent) :
  In x l -> is_food x = true -> In cell possible_steps ->
  fold_left (scan_food_agent current_pos possible_steps cell) l acc <> [].
Proof.
  intros Hx Hf Hc. revert acc. induction l as [|y l IH]; intros acc;
    [destruct Hx|].
  cbn [fold_left]. destruct Hx as [-> | Hx]; [|apply IH, Hx].
  apply scan_cell_grows. unfold scan_food_agent. rewrite Hf.
  assert (E : existsb (pos_eqb cell) possible_steps = true).
  { apply existsb_exists. exists cell. split; [exact Hc | apply pos_eqb_refl]. }
  rewrite E. intros E'. apply app_eq_nil in E'. destruct E' as [_ E'].
  discriminate.
Qed.

Lemma scan_food_finds (nearby_cells : list Pos) (cell : Pos) :
  In cell nearby_cells -> holds_food m cell -> In cell possible_steps ->
  scan_food m current_pos possible_steps nearby_cells <> [].
Proof.
  intros Hin (x & Hx & Hf) Hc. rewrite scan_food_fold.
  assert (Hgrow : forall l acc,
            acc <> [] ->
            fold_left
              (fun acc cell =>
                 fold_left (scan_food_agent current_pos possible_steps cell)
                   (get_cell_list_contents m cell) acc)
              l acc <> []).
  { induction l as [|c l IHl]; intros acc H; [exact H|].
    cbn [fold_left]. apply IHl. apply scan_cell_grows, H. }
  assert (Hgen : forall acc,
            fold_left
              (fun acc cell =>
                 fold_left (scan_food_agent current_pos possible_steps cell)
                   (get_cell_list_contents m cell) acc)
              nearby_cells acc <> []).
  { induction nearby_cells as [|c l IH]; intros acc; [destruct Hin|].
    cbn [fold_left]. destruct Hin as [-> | Hin].
    - apply Hgrow. apply (scan_cell_finds cell _ acc x); assumption.
    - apply (IH Hin). }
  apply Hgen.
Qed.

Lemma scan_food_adjacent (nearby_cells : list Pos) :
  (forall cell, In cell nearby_cells -> holds_food m cell ->
     In cell possible_steps) ->
  forall q, In q (scan_food m current_pos possible_steps nearby_cells) ->
    holds_food m q.
Proof.
  intros H. rewrite scan_food_fold.
  assert (Hgen : forall acc,
            (forall q, In q acc -> holds_food m q) ->
            forall q,
              In q (fold_left
                      (fun acc cell =>
                         fold_left (scan_food_agent current_pos possible_steps cell)
                           (get_cell_list_contents m cell) acc)
                      nearby_cells acc) ->
              holds_food m q).
  { induction nearby_cells as [|cell l IH]; intros acc Hacc; [exact Hacc|].
    cbn [fold_left]. apply IH.
    - intros c Hc. apply H. right. exact Hc.
    - assert (Hcell : forall x, In x (get_cell_list_contents m cell) ->
                is_food x = true -> In cell possible_steps).
      { intros x Hx Hf. apply H; [left; reflexivity|]. exists x. auto. }
      assert (Hfood : forall x, In x (get_cell_list_contents m cell) ->
                is_food x = true -> holds_food m cell).
      { intros x Hx Hf. exists x. auto. }
      revert acc Hacc Hcell Hfood.
      generalize (get_cell_list_contents m cell). intros ags.
      induction ags as [|x ags IHa]; intros acc Hacc Hcell Hfood;
        [exact Hacc|].
      cbn [fold_left]. apply IHa.
      + unfold scan_food_agent. destruct (is_food x) eqn:Hf; [|exact Hacc].
        assert (Hc : In cell possible_steps)
          by (apply (Hcell x); [left; reflexivity | exact Hf]).
        assert (E : existsb (pos_eqb cell) possible_steps = true).
        { apply existsb_exists. exists cell.
          split; [exact Hc | apply pos_eqb_refl]. }
        rewrite E. intros q Hq. apply in_app_or in Hq.
        destruct Hq as [Hq | [<- | []]]; [apply Hacc, Hq|].
        apply (Hfood x); [left; reflexivity | exact Hf].
      + intros y Hy. apply Hcell. right. exact Hy.
      + intros y Hy. apply Hfood. right. exact Hy. }
  apply Hgen. intros q [].
Qed.

End FoodScan.

(** [X18] An ant that forages (it does not carry, is not in the escape state and
    is not returning to remembered food) and has food within two cells, all
    of it in the eight cells around it, steps onto a cell that holds food:
    pheromones are not consulted. *)
Theorem adjacent_food_is_approached (m : Model) (a : AntAgent)
  (current_pos : Pos) (possible_steps : list Pos) (cell : Pos) :
  just_dropped_food a = false -> exploration_cooldown a <= 0 ->
  carrying_food a = false -> returning_to_food a = false ->
  In cell (get_neighborhood (width m) (height m) current_pos 2) ->
  holds_food m cell ->
  (forall c, In c (get_neighborhood (width m) (height m) current_pos 2) ->
     holds_food m c -> In c possible_steps) ->
  holds_food m (snd (move_branch m a current_pos possible_steps))
  /\ In (snd (move_branch m a current_pos possible_steps)) possible_steps.
Proof.
  intros Hj Hcd Hc Hr Hin Hfood Hadj. unfold move_branch.
  rewrite Hj, Hc, Hr. cbn [orb].
  destruct (Z.ltb_spec 0 (exploration_cooldown a)) as [H|_]; [lia|].
  unfold forage_branch.
  pose proof (scan_food_finds m current_pos possible_steps _ cell Hin Hfood
                (Hadj cell Hin Hfood)) as Hne.
  pose proof (scan_food_adjacent m current_pos possible_steps _ Hadj) as Hall.
  pose proof (scan_food_ok (fun q => In q possible_steps) possible_steps
                current_pos (fun q Hq => Hq) m
                (get_neighborhood (width m) (height m) current_pos 2)) as Hsub.
  destruct (scan_food m current_pos possible_steps _) as [|c cs];
    [contradiction|].
  pose proof (choice_in (random m) (c :: cs) current_pos Hne) as Hch.
  destruct (choice (random m) (c :: cs) current_pos) as [np g].
  cbn [fst snd] in *. split; [apply Hall, Hch | apply Hsub, Hch].
Qed.

Lemma adjacent_food_witness :
  holds_food baited_colony
    (snd (move_branch baited_colony fresh_ant (5, 5)
            (get_neighborhood 20 20 (5, 5) 1)))
  /\ In (snd (move_branch baited_colony fresh_ant (5, 5)
                (get_neighborhood 20 20 (5, 5) 1)))
       (get_neighborhood 20 20 (5, 5) 1).
Proof.
  assert (Hcell : forall c, holds_food baited_colony c -> c = (6, 5)).
  { intros c (x & Hx & Hf). unfold get_cell_list_contents in Hx.
    apply filter_In in Hx. destruct Hx as [[<- | [<- | [<- | []]]] Hp];
      try discriminate.
    cbn [pos] in Hp. apply pos_eqb_eq in Hp. symmetry. exact Hp. }
  assert (H2 : In (6, 5)
                 (get_neighborhood (width baited_colony) (height baited_colony)
                    (5, 5) 2)).
  { change (width baited_colony) with 20. change (height baited_colony) with 20.
    vm_compute. tauto. }
  assert (H1 : In (6, 5) (get_neighborhood 20 20 (5, 5) 1)).
  { vm_compute. tauto. }
  assert (Hf : holds_food baited_colony (6, 5)).
  { exists (mkAgent 3 (6, 5) Food). split; [|reflexivity].
    unfold get_cell_list_contents. apply filter_In.
    split; [right; right; left; reflexivity | reflexivity]. }
  assert (Hcd : exploration_cooldown fresh_ant <= 0).
  { change (exploration_cooldown fresh_ant) with 0. lia. }
  exact (adjacent_food_is_approached baited_colony fresh_ant (5, 5)
           (get_neighborhood 20 20 (5, 5) 1) (6, 5)
           eq_refl Hcd eq_refl eq_refl H2 Hf
           (fun c _ Hc => eq_ind_r (fun c => In c _) H1 (Hcell c Hc))).
Defined.

(** ** The way back to food *)

Lemma move_branch_returning (m : Model) (a : AntAgent) (current_pos f : Pos)
  (possible_steps : list Pos) :
  returning_to f a -> possible_steps <> [] ->
  let b := move_branch m a current_pos possible_steps in
  (current_pos = f
   /\ snd (fst b)
      = set_following_pheromones false (set_returning_to_food false a)
   /\ In (snd b) possible_steps)
  \/ (current_pos <> f
      /\ snd (fst b) = set_following_pheromones false a
      /\ snd b = move_towards m current_pos f).
Proof.
  intros (Hr & Hl & Hc & Hj & Hcd) Hne. cbv zeta. unfold move_branch.
  rewrite Hj, Hcd, Hc, Hr, Hl. cbn [orb Z.ltb Z.compare].
  unfold return_branch.
  destruct (pos_eqb current_pos f) eqn:E.
  - apply pos_eqb_eq in E. left.
    pose proof (choice_in (random m) possible_steps current_pos Hne) as H.
    destruct (choice (random m) possible_steps current_pos) as [np g].
    cbn [fst snd] in *. repeat split; assumption.
  - right. cbn [fst snd]. split; [|split; reflexivity].
    intros ->. rewrite pos_eqb_refl in E. discriminate.
Qed.

Lemma AntAgent_step_returning (f : Pos) (m : Model) (self : Z) (p : Pos)
  (a : AntAgent) :
  Inv m -> get_ant m self = Some (p, a) ->
  exists p' a',
    get_ant (AntAgent_step m self) self = Some (p', a')
    /\ (returning_to f a /\ in_grid (width m) (height m) f ->
        (carrying_food a' = true \/ just_dropped_food a' = true
         \/ (returning_to_food a' = false
             /\ moore_neighbor (width m) (height m) f p'))
        \/ ((returning_to f a' /\ in_grid (width m) (height m) f)
            /\ dist2 p' f < dist2 p f)).
Proof.
  intros I G.
  destruct (ant_facts m self p a (proj1 I) G) as [Hp Hh].
  destruct (AntAgent_step_result m self p a I G)
    as (m1 & a0 & I1 & F1 & _ & Ha0 & Hres).
  cbv zeta in Hres. destruct Hres as [Hres _].
  eexists _, _. split; [exact Hres|]. intros [Hret Hf].
  apply frame_fields in F1. destruct F1 as (Ew & Eh & _).
  rewrite Ew, Eh in *.
  set (steps := get_neighborhood (width m) (height m) p 1) in *.
  set (b := move_branch m1 a0 p steps) in *.
  destruct (store_direction_fields p (snd b) (snd (fst b)))
    as (S1 & S2 & S3 & S4 & S5 & S6 & S7 & S8).
  set (a2 := store_direction p (snd b) (snd (fst b))) in *.
  destruct Ha0 as [-> | [_ ->]].
  - destruct (move_branch_returning m1 a p f steps Hret
                (get_neighborhood_nonempty _ _ _))
      as [(-> & Ha1 & Hin) | (Hne & Ha1 & Hnext)]; fold b in Ha1.
    + left. right. right.
      assert (C2 : carrying_food a2 = false).
      { rewrite S1, Ha1. cbn. apply Hret. }
      rewrite C2. cbn [andb]. split.
      * rewrite S5, Ha1. reflexivity.
      * apply get_neighborhood_1_in. exact Hin.
    + right. fold b in Hnext.
      assert (C2 : carrying_food a2 = false).
      { rewrite S1, Ha1. cbn. apply Hret. }
      rewrite C2. cbn [andb].
      destruct Hret as (Hr & Hl & Hc & Hj & Hcd).
      split; [split; [|exact Hf]|].
      * unfold returning_to. rewrite S5, S4, S1, S7, S8, Ha1. cbn.
        repeat split; assumption.
      * rewrite Hnext.
        assert (Hp1 : in_grid (width m1) (height m1) p) by (rewrite Ew, Eh; exact Hp).
        assert (Hf1 : in_grid (width m1) (height m1) f) by (rewrite Ew, Eh; exact Hf).
        apply (move_towards_closer m1 p f Hp1 Hf1 Hne).
  - left.
    destruct (move_branch_record m1 (picked p a) p steps) as (R1 & _).
    fold b in R1. cbv zeta in R1.
    assert (C2 : carrying_food a2 = true) by (rewrite S1, R1; reflexivity).
    rewrite C2. cbn [andb].
    destruct (at_or_adjacent (snd b) (home_pos a2)).
    + right. left. reflexivity.
    + left. exact C2.
Qed.

(** [X19] An ant on its way back to the food cell it remembers gets there: after
    at most [dist2 + 1] sub-steps it has found food on a cell it crossed
    (it carries it, or has delivered it already), or it has been on the
    remembered cell, found nothing there, given up returning and stepped to
    one of the cells around it. *)
Theorem returning_ant_arrives (m : Model) (id : Z) (p f : Pos)
  (a : AntAgent) :
  Inv m -> get_ant m id = Some (p, a) -> returning_to f a ->
  in_grid (width m) (height m) f ->
  exists k p' a',
    (1 <= k <= Z.to_nat (dist2 p f) + 1)%nat
    /\ get_ant (Nat.iter k sub_step m) id = Some (p', a')
    /\ (carrying_food a' = true \/ just_dropped_food a' = true
        \/ (returning_to_food a' = false
            /\ moore_neighbor (width m) (height m) f p')).
Proof.
  intros I G Hret Hf.
  destruct (ant_progress
              (fun x s =>
                 returning_to f (snd s) /\ in_grid (width x) (height x) f)
              (fun x s =>
                 carrying_food (snd s) = true
                 \/ just_dropped_food (snd s) = true
                 \/ (returning_to_food (snd s) = false
                     /\ moore_neighbor (width x) (height x) f (fst s)))
              (fun x s => dist2 (fst s) f))
    with (n := Z.to_nat (dist2 p f)) (m := m) (id := id) (p := p) (a := a)
    as (k & p' & a' & Hk & G' & HD & _); try assumption.
  - intros x x' s E [H1 H2]. unfold arena in E. split; [exact H1|].
    replace (width x') with (width x) by congruence.
    replace (height x') with (height x) by congruence. exact H2.
  - intros x x' s E H. unfold arena in E.
    replace (width x) with (width x') by congruence.
    replace (height x) with (height x') by congruence. exact H.
  - intros x x' s E. reflexivity.
  - intros x s. apply dist2_nonneg.
  - intros x self q r Ix Gx.
    apply (AntAgent_step_returning f x self q r Ix Gx).
  - split; assumption.
  - cbn [fst]. pose proof (dist2_nonneg p f). lia.
  - exists k, p', a'. cbn [fst snd] in *. repeat split; try assumption; lia.
Qed.

Lemma returning_colony_inv : Inv returning_colony.
Proof.
  split.
  - constructor; cbn; try lia; try reflexivity.
    + repeat constructor; cbn; intuition discriminate.
    + repeat (apply Forall_cons; [cbn; lia|]). apply Forall_nil.
    + apply Forall_cons; [discriminate|].
      apply Forall_cons; [intros _; unfold in_grid; cbn; lia | apply Forall_nil].
    + apply Forall_cons; [discriminate|].
      apply Forall_cons; [intros r E; injection E as <-; reflexivity
                         | apply Forall_nil].
    + apply Forall_cons; [discriminate|].
      apply Forall_cons; [discriminate | apply Forall_nil].
    + intros q ty. rewrite live_pheromones_conj. cbn.
      rewrite !andb_false_r. cbn. lia.
  - reflexivity.
Qed.

Lemma returning_ant_arrives_witness :
  exists k p' a',
    (1 <= k <= Z.to_nat (dist2 (13, 10)%Z (15, 10)%Z) + 1)%nat
    /\ get_ant (Nat.iter k sub_step returning_colony) 2 = Some (p', a')
    /\ (carrying_food a' = true \/ just_dropped_food a' = true
        \/ (returning_to_food a' = false
            /\ moore_neighbor (width returning_colony)
                 (height returning_colony) (15, 10) p')).
Proof.
  apply (returning_ant_arrives returning_colony 2 (13, 10) (15, 10)
           (set_returning_to_food true
              (set_last_food_pos (Some (15, 10)) fresh_ant))).
  - exact returning_colony_inv.
  - reflexivity.
  - repeat split.
  - split; cbn; lia.
Defined.

(** ** Deposits *)

Lemma strengthens_refl (ty : PheromoneType) (m : Model) : strengthens ty m m.
Proof.
  split; [reflexivity|]. split; [lia|]. intros S B.
  split; [exact S|]. split; [exact B|].
  intros id x F. exists x. split; [exact F|].
  split; [reflexivity|]. split; [reflexivity|].
  split; [reflexivity|]. intros H. split; [exact H | lra].
Qed.

Lemma strengthens_trans (ty : PheromoneType) (m1 m2 m3 : Model) :
  strengthens ty m1 m2 -> strengthens ty m2 m3 -> strengthens ty m1 m3.
Proof.
  intros (N1 & I1 & H1) (N2 & I2 & H2).
  split; [congruence|]. split; [lia|]. intros S B.
  destruct (H1 S B) as (S2 & B2 & K1).
  destruct (H2 S2 B2) as (S3 & B3 & K2).
  split; [exact S3|]. split; [exact B3|].
  intros id x F.
  destruct (K1 id x F) as (x2 & F2 & U2 & P2 & O2 & T2).
  destruct (K2 id x2 F2) as (x3 & F3 & U3 & P3 & O3 & T3).
  exists x3. split; [exact F3|].
  split; [congruence|]. split; [congruence|]. split.
  - intros Hx. pose proof (O2 Hx) as E2. subst x2. exact (O3 Hx).
  - intros Hx. destruct (T2 Hx) as [Hx2 L2]. destruct (T3 Hx2) as [Hx3 L3].
    split; [exact Hx3 | lra].
Qed.

Lemma strength_of_bound (m : Model) (agent : Agent) (ty : PheromoneType) :
  strengths_bounded m -> In agent (agents m) ->
  is_pheromone_of ty agent = true ->
  (0.05 <= strength_of agent <= 3)%R.
Proof.
  intros B Hin Hty. unfold strengths_bounded in B.
  rewrite Forall_forall in B. specialize (B agent Hin).
  unfold strength_of. unfold is_pheromone_of in Hty.
  destruct (body agent) as [| | |s1 t1]; try discriminate.
  apply (B s1 t1 eq_refl).
Qed.

Lemma strengthens_reinforce (ty : PheromoneType) (m : Model) (agent : Agent)
  (v : R) :
  In agent (agents m) -> is_pheromone_of ty agent = true ->
  (0 <= v <= 1.5)%R ->
  strengthens ty m
    (set_agents
       (update_agent (unique_id agent)
          (reinforce (Rmin 3.0 (strength_of agent + v * 0.5)) ty)
          (agents m)) m).
Proof.
  intros Hin Hty Hv. split; [reflexivity|]. split; [cbn; lia|]. intros S B.
  pose proof (strength_of_bound m agent ty B Hin Hty) as Ha.
  assert (Hop : table_op 0 m
                  (set_agents
                     (update_agent (unique_id agent)
                        (reinforce (Rmin 3.0 (strength_of agent + v * 0.5)) ty)
                        (agents m)) m))
    by (apply op_reinforce; assumption).
  split; [apply (table_op_shape 0 m _ S Hop)|].
  split.
  { unfold strengths_bounded in *. cbn [agents set_agents].
    apply Forall_update; [exact B|]. intros x Hx Ex _ s0 ty0 E0.
    injection E0 as <- _. split.
    - apply Rmin_glb; lra.
    - eapply Rle_trans; [apply Rmin_l | lra]. }
  intros id x F. cbn [agents set_agents].
  destruct (Z.eq_dec id (unique_id agent)) as [E|E].
  - subst id. rewrite find_agent_update_same by reflexivity. rewrite F.
    cbn [option_map]. eexists. split; [reflexivity|].
    assert (x = agent).
    { rewrite (find_agent_in _ _ (inv_ids m S) Hin) in F.
      injection F as <-. reflexivity. }
    subst x. split; [reflexivity|]. split; [reflexivity|]. split.
    + intros H. congruence.
    + intros _. split.
      * unfold is_pheromone_of, reinforce. cbn. destruct ty; reflexivity.
      * unfold reinforce, strength_of at 2. cbn [body].
        apply Rmin_glb; lra.
  - rewrite find_agent_update_other; [|reflexivity | exact E].
    exists x. split; [exact F|]. split; [reflexivity|].
    split; [reflexivity|]. split; [reflexivity|].
    intros H. split; [exact H | lra].
Qed.

Lemma strengthens_create (ty : PheromoneType) (m : Model) (p : Pos) (v : R) :
  find (is_pheromone_of ty) (get_cell_list_contents m p) = None ->
  9 <= dist2 p (nest_pos m) ->
  (0.2 <= v <= 1.5)%R ->
  strengthens ty m
    (set_active_pheromones (active_pheromones m + 1)
       (add_agent (mkAgent (next_id_value m + 1) p (Pheromone v ty))
          (set_next_id_value (next_id_value m + 1) m))).
Proof.
  intros Hnone Hfar Hv. split; [reflexivity|]. split; [cbn; lia|]. intros S B.
  assert (Hop : table_op 0 m
                  (set_active_pheromones (active_pheromones m + 1)
                     (add_agent
                        (mkAgent (next_id_value m + 1) p (Pheromone v ty))
                        (set_next_id_value (next_id_value m + 1) m))))
    by (apply op_create; assumption).
  split; [apply (table_op_shape 0 m _ S Hop)|].
  split.
  { unfold strengths_bounded in *.
    cbn [agents set_agents set_active_pheromones add_agent set_next_id_value].
    apply Forall_app. split; [exact B|].
    apply Forall_cons; [|apply Forall_nil]. intros s0 ty0 E0.
    injection E0 as <- _. lra. }
  intros id x F.
  cbn [agents set_agents set_active_pheromones add_agent set_next_id_value].
  exists x. rewrite find_agent_app, F.
  split; [reflexivity|]. split; [reflexivity|]. split; [reflexivity|].
  split; [reflexivity|]. intros H. split; [exact H | lra].
Qed.

(** [X20] A deposit never weakens a trail: after [create_pheromone] every agent
    of the table is still there, in its cell; every agent that is not a
    pheromone of the deposited type is exactly as before; and no pheromone
    of that type is weaker than before.  Pheromones weaken and disappear
    by evaporation only. *)
Theorem deposit_only_strengthens (m : Model) (p : Pos) (strength : R)
  (ty : PheromoneType) (id : Z) (x : Agent) :
  Shape m -> strengths_bounded m ->
  in_grid (width m) (height m) p -> (0 <= strength <= 1.5)%R ->
  find_agent (agents m) id = Some x ->
  exists x',
    find_agent (agents (create_pheromone m p strength ty)) id = Some x'
    /\ unique_id x' = unique_id x /\ pos x' = pos x
    /\ (is_pheromone_of ty x = false -> x' = x)
    /\ (is_pheromone_of ty x = true ->
        is_pheromone_of ty x' = true
        /\ (strength_of x <= strength_of x')%R).
Proof.
  intros S B Hp Hs F.
  assert (H : strengthens ty m (create_pheromone m p strength ty)).
  { apply (create_pheromone_rel ty (strengthens ty)); try assumption.
    - apply strengthens_refl.
    - apply strengthens_trans.
    - intros y y' Hy. apply Hy.
    - apply strengthens_reinforce.
    - apply strengthens_create. }
  destruct H as (_ & _ & H). destruct (H S B) as (_ & _ & K).
  apply (K id x F).
Qed.

Lemma deposit_only_strengthens_witness :
  exists x',
    find_agent (agents (create_pheromone trail_model (16, 10) 1.5 to_nest)) 3
    = Some x'
    /\ unique_id x' = unique_id (mkAgent 3 (16, 10) (Pheromone 1 to_nest))
    /\ pos x' = pos (mkAgent 3 (16, 10) (Pheromone 1 to_nest))
    /\ (is_pheromone_of to_nest (mkAgent 3 (16, 10) (Pheromone 1 to_nest))
        = false ->
        x' = mkAgent 3 (16, 10) (Pheromone 1 to_nest))
    /\ (is_pheromone_of to_nest (mkAgent 3 (16, 10) (Pheromone 1 to_nest))
        = true ->
        is_pheromone_of to_nest x' = true
        /\ Rle (strength_of (mkAgent 3 (16, 10) (Pheromone 1 to_nest)))
             (strength_of x')).
Proof.
  apply (deposit_only_strengthens trail_model (16, 10) 1.5 to_nest 3
           (mkAgent 3 (16, 10) (Pheromone 1 to_nest))).
  - apply trail_model_inv.
  - unfold strengths_bounded. cbn [agents trail_model grid20].
    apply Forall_cons; [discriminate|].
    apply Forall_cons; [discriminate|].
    apply Forall_cons; [|apply Forall_nil].
    intros s ty E. injection E as <- _. lra.
  - split; cbn; lia.
  - lra.
  - reflexivity.
Defined.
